(** * BubbleLab flow-script analysis: a shallow embedding

    This development embeds the static-analysis core of the BubbleLab
    runtime (the [BubbleParser] extraction class, the [BubbleScript]
    parse/mutation class and the trigger validation of the runtime
    validator) as Rocq functions, and states the properties of the
    natural-language specification over them.

    Conventions.  JavaScript strings are modelled as [string]s whose
    characters stand for code units below 256.  JavaScript numbers that are
    line numbers, columns, ordinals or identifiers are integers ([Z] or
    [nat]).  A thrown exception is the [Throw] case of [Result].  Objects
    used as dictionaries are association lists kept in insertion order. *)

From Stdlib Require Import String Ascii List ZArith Lia Bool Arith PeanoNat.
From Stdlib Require Import DecimalString Sorting.Sorted Sorting.Permutation.
Import ListNotations.
Open Scope string_scope.
Open Scope list_scope.

Set Implicit Arguments.

(* ================================================================== *)
(** * 1. JavaScript preliminaries *)
(* ================================================================== *)

(** ** Exceptions *)

Inductive Result (A : Type) : Type :=
| Ok (a : A)
| Throw (msg : string).

Arguments Ok {A} a.
Arguments Throw {A} msg.

Definition bind {A B} (r : Result A) (f : A -> Result B) : Result B :=
  match r with
  | Ok a => f a
  | Throw m => Throw m
  end.

Notation "'do' x <- r ; k" := (bind r (fun x => k))
  (at level 10, x name, r at level 100, k at level 200).

Definition isOk {A} (r : Result A) : bool :=
  match r with Ok _ => true | Throw _ => false end.

(** ** Characters and strings *)

Definition nl : ascii := ascii_of_nat 10.
Definition dquote : ascii := ascii_of_nat 34.
Definition squote : ascii := ascii_of_nat 39.
Definition bquote : ascii := ascii_of_nat 96.

Definition code (c : ascii) : nat := nat_of_ascii c.

Definition inRange (lo hi : nat) (c : ascii) : bool :=
  (lo <=? code c)%nat && (code c <=? hi)%nat.

(** The regular-expression class [\s], which is also the set removed by
    [String.prototype.trim], restricted to code units below 256. *)
Definition isSpace (c : ascii) : bool :=
  inRange 9 13 c || (code c =? 32)%nat || (code c =? 160)%nat.

Definition isDigit (c : ascii) : bool := inRange 48 57 c.
Definition isAlpha (c : ascii) : bool := inRange 65 90 c || inRange 97 122 c.

(** The class [\w]. *)
Definition isWord (c : ascii) : bool :=
  isAlpha c || isDigit c || (code c =? 95)%nat.

Definition chars (s : string) : list ascii := list_ascii_of_string s.
Definition str (l : list ascii) : string := string_of_list_ascii l.

Fixpoint stripPrefix (p s : list ascii) : option (list ascii) :=
  match p, s with
  | [], _ => Some s
  | a :: p', b :: s' => if Ascii.eqb a b then stripPrefix p' s' else None
  | _ :: _, [] => None
  end.

(** [s.startsWith(p)] *)
Definition startsWith (p s : string) : bool :=
  match stripPrefix (chars p) (chars s) with Some _ => true | None => false end.

(** [s.endsWith(p)] *)
Definition endsWith (p s : string) : bool :=
  match stripPrefix (rev (chars p)) (rev (chars s)) with
  | Some _ => true
  | None => false
  end.

(** [s.includes(p)] *)
Fixpoint includesL (p s : list ascii) : bool :=
  match stripPrefix p s with
  | Some _ => true
  | None => match s with [] => false | _ :: s' => includesL p s' end
  end.

Definition includes (p s : string) : bool := includesL (chars p) (chars s).

Fixpoint dropWhile {A} (f : A -> bool) (l : list A) : list A :=
  match l with
  | [] => []
  | x :: r => if f x then dropWhile f r else l
  end.

(** [s.trim()] *)
Definition trim (s : string) : string :=
  str (rev (dropWhile isSpace (rev (dropWhile isSpace (chars s))))).

(** [s.substring(a, b)] for [0 <= a <= b]. *)
Definition substring (a b : nat) (s : string) : string :=
  String.substring a (b - a) s.

(** [s.split('\n')] *)
Fixpoint split_nl (s : string) : list string :=
  match s with
  | EmptyString => [EmptyString]
  | String c r =>
      if Ascii.eqb c nl then EmptyString :: split_nl r
      else match split_nl r with
           | h :: t => String c h :: t
           | [] => [String c EmptyString]
           end
  end.

(** [s.split(sep)] for a separator of one character. *)
Fixpoint splitOn (sep : ascii) (s : string) : list string :=
  match s with
  | EmptyString => [EmptyString]
  | String c r =>
      if Ascii.eqb c sep then EmptyString :: splitOn sep r
      else match splitOn sep r with
           | h :: t => String c h :: t
           | [] => [String c EmptyString]
           end
  end.

(** [l.join(sep)] *)
Fixpoint join (sep : string) (l : list string) : string :=
  match l with
  | [] => EmptyString
  | [x] => x
  | x :: r => x ++ sep ++ join sep r
  end.

Definition NL : string := String nl EmptyString.

(** [String(n)] for an integer. *)
Definition string_of_Z (z : Z) : string :=
  NilZero.string_of_int (Z.to_int z).

Definition string_of_nat (n : nat) : string :=
  NilZero.string_of_uint (Nat.to_uint n).

(** ** Objects used as dictionaries

    An object (or [Map]) with keys of type [K] is an association list in
    insertion order; assigning to an existing key replaces the value in
    place, assigning to a new key appends. *)

Section Dict.
Context {K V : Type} (eqb : K -> K -> bool).

Fixpoint dget (k : K) (d : list (K * V)) : option V :=
  match d with
  | [] => None
  | (k', v) :: r => if eqb k k' then Some v else dget k r
  end.

Fixpoint dset (k : K) (v : V) (d : list (K * V)) : list (K * V) :=
  match d with
  | [] => [(k, v)]
  | (k', v') :: r =>
      if eqb k k' then (k, v) :: r else (k', v') :: dset k v r
  end.

Definition dhas (k : K) (d : list (K * V)) : bool :=
  match dget k d with Some _ => true | None => false end.
End Dict.

Definition keys {K V} (d : list (K * V)) : list K := map fst d.
Definition values {K V} (d : list (K * V)) : list V := map snd d.

(** [Object.keys]/[Object.values]/[Object.entries] of an object with
    numeric keys: the non-negative integer keys come first in ascending
    order, then the remaining keys (here the negative ones) in insertion
    order. *)
Fixpoint insertByKey {V} (e : Z * V) (l : list (Z * V)) : list (Z * V) :=
  match l with
  | [] => [e]
  | e' :: r => if (fst e <=? fst e')%Z then e :: l else e' :: insertByKey e r
  end.

Definition Object_entries {V} (d : list (Z * V)) : list (Z * V) :=
  fold_right insertByKey [] (filter (fun e => (0 <=? fst e)%Z) d)
  ++ filter (fun e => (fst e <? 0)%Z) d.

(** ** Plain objects and their prototype

    A plain object ([{}]) used as a dictionary with string keys inherits
    the members of [Object.prototype], which the [in] operator and a
    property read see, and the name [__proto__] is its accessor for the
    prototype: an assignment to that name replaces the prototype and
    creates no own property.  In the association list of a plain object
    the entry under [__proto__], if there is one, therefore stands for the
    prototype that an assignment has given the object; every other entry
    is an own property. *)

Definition objectPrototypeNames : list string :=
  ["constructor"; "__defineGetter__"; "__defineSetter__"; "hasOwnProperty";
   "__lookupGetter__"; "__lookupSetter__"; "isPrototypeOf";
   "propertyIsEnumerable"; "toString"; "valueOf"; "__proto__";
   "toLocaleString"].

Definition isObjectPrototypeName (k : string) : bool :=
  existsb (String.eqb k) objectPrototypeNames.

(** The own properties: what [Object.keys] and [Object.entries] list. *)
Definition ownEntries {V} (d : list (string * V)) : list (string * V) :=
  filter (fun e => negb (String.eqb (fst e) "__proto__")) d.

Definition ownKeys {V} (d : list (string * V)) : list string :=
  keys (ownEntries d).

(* ================================================================== *)
(** * 2. Regular expressions

    A backtracking matcher for the fragment of JavaScript regular
    expressions that the analysed code uses: character classes, literals,
    sequence, alternation, greedy [*], [+] and [?], capturing groups,
    back-references, [^], [$] and [\b]. *)
(* ================================================================== *)

Module Regex.

Inductive re : Type :=
| Chr (p : ascii -> bool)
| Lit (s : string)
| Seq (a b : re)
| Alt (a b : re)
| Star (a : re)
| Opt (a : re)
| Grp (n : nat) (a : re)
| Ref (n : nat)
| Bol
| Eol
| WordB.

Definition Plus (a : re) : re := Seq a (Star a).

Fixpoint seq (l : list re) : re :=
  match l with
  | [] => Lit EmptyString
  | [a] => a
  | a :: r => Seq a (seq r)
  end.

Definition caps := list (nat * list ascii).

Definition lastOr (prev : option ascii) (l : list ascii) : option ascii :=
  match rev l with
  | [] => prev
  | x :: _ => Some x
  end.

Definition wordAt (c : option ascii) : bool :=
  match c with Some x => isWord x | None => false end.

Definition Cont : Type :=
  option ascii -> list ascii -> caps -> option (list ascii * caps).

(** The greedy loop of [a*], given the matcher [ma] of [a]: try one more
    iteration, which has to consume input, and only if everything after
    it fails continue with [k] from here.  [fuel] bounds the number of
    iterations; the length of the input is enough. *)
Fixpoint starLoop (ma : option ascii -> list ascii -> caps -> Cont ->
                        option (list ascii * caps))
         (k : Cont) (fuel : nat) (prev : option ascii) (s : list ascii)
         (c : caps) {struct fuel} : option (list ascii * caps) :=
  match fuel with
  | O => k prev s c
  | S f =>
      match ma prev s c
              (fun p' s' c' =>
                 if (length s' <? length s)%nat
                 then starLoop ma k f p' s' c' else None) with
      | Some x => Some x
      | None => k prev s c
      end
  end.

(** [m r prev s c k]: match [r] at a position whose preceding character
    is [prev] and whose remaining input is [s], with captures [c]; on
    success continue with [k]. *)
Fixpoint m (r : re) (prev : option ascii) (s : list ascii) (c : caps)
         (k : Cont) {struct r} : option (list ascii * caps) :=
  match r with
  | Chr p =>
      match s with
      | x :: s' => if p x then k (Some x) s' c else None
      | [] => None
      end
  | Lit l =>
      match stripPrefix (chars l) s with
      | Some s' => k (lastOr prev (chars l)) s' c
      | None => None
      end
  | Seq a b => m a prev s c (fun p' s' c' => m b p' s' c' k)
  | Alt a b =>
      match m a prev s c k with
      | Some x => Some x
      | None => m b prev s c k
      end
  | Opt a =>
      match m a prev s c k with
      | Some x => Some x
      | None => k prev s c
      end
  | Star a => starLoop (m a) k (length s) prev s c
  | Grp n a =>
      m a prev s c
        (fun p' s' c' =>
           k p' s' (dset Nat.eqb n (firstn (length s - length s') s) c'))
  | Ref n =>
      match dget Nat.eqb n c with
      | Some t =>
          match stripPrefix t s with
          | Some s' => k (lastOr prev t) s' c
          | None => None
          end
      | None => k prev s c
      end
  | Bol => match prev with None => k prev s c | Some _ => None end
  | Eol => match s with [] => k prev s c | _ :: _ => None end
  | WordB =>
      if xorb (wordAt prev) (wordAt (hd_error s)) then k prev s c else None
  end.

Definition matchAt (r : re) (prev : option ascii) (s : list ascii)
  : option (list ascii * caps) :=
  m r prev s [] (fun _ s' c' => Some (s', c')).

(** A match found by scanning: the text before it, the matched text, the
    text after it and the captures. *)
Record Match := mkMatch {
  before : list ascii;
  matched : list ascii;
  after : list ascii;
  groups : caps
}.

Fixpoint searchFrom (r : re) (pre : list ascii) (prev : option ascii)
         (s : list ascii) : option Match :=
  match matchAt r prev s with
  | Some (s', c) =>
      Some (mkMatch (rev pre) (firstn (length s - length s') s) s' c)
  | None =>
      match s with
      | [] => None
      | x :: s' => searchFrom r (x :: pre) (Some x) s'
      end
  end.

(** [re.exec(s)] / [s.match(re)] without the [g] flag. *)
Definition exec (r : re) (s : string) : option Match :=
  searchFrom r [] None (chars s).

(** [re.test(s)] on a regular expression whose [lastIndex] is 0. *)
Definition test (r : re) (s : string) : bool :=
  match exec r s with Some _ => true | None => false end.

Definition group (n : nat) (mt : Match) : option string :=
  option_map str (dget Nat.eqb n (groups mt)).

(** Expansion of a replacement template: [$$], [$&], [$`], [$'] and
    [$1]..[$9] (a reference to a group that does not exist is kept
    literally; [gcount] is the number of groups of the expression). *)
Fixpoint expand (gcount : nat) (mt : Match) (t : list ascii) : list ascii :=
  match t with
  | [] => []
  | d :: t1 =>
      if Ascii.eqb d "$"%char then
        match t1 with
        | [] => [d]
        | x :: t2 =>
            if Ascii.eqb x "$"%char then d :: expand gcount mt t2
            else if Ascii.eqb x "&"%char then matched mt ++ expand gcount mt t2
            else if Ascii.eqb x bquote then before mt ++ expand gcount mt t2
            else if Ascii.eqb x squote then after mt ++ expand gcount mt t2
            else if isDigit x then
              let n := (code x - 48)%nat in
              if ((1 <=? n) && (n <=? gcount))%nat then
                match dget Nat.eqb n (groups mt) with
                | Some g => g ++ expand gcount mt t2
                | None => expand gcount mt t2
                end
              else d :: expand gcount mt t1
            else d :: expand gcount mt t1
        end
      else d :: expand gcount mt t1
  end.

(** [s.replace(re, template)] for an expression without the [g] flag. *)
Definition replaceFirst (gcount : nat) (r : re) (template : string)
           (s : string) : string :=
  match exec r s with
  | Some mt =>
      str (before mt ++ expand gcount mt (chars template) ++ after mt)
  | None => s
  end.

(** [s.replace(re, template)] for an expression with the [g] flag: every
    match, left to right, an empty match advancing by one character. *)
Fixpoint replaceAllFrom (fuel gcount : nat) (r : re) (template : list ascii)
         (pre : list ascii) (prev : option ascii) (s : list ascii)
  : list ascii :=
  match fuel with
  | O => s
  | S fuel' =>
      match matchAt r prev s with
      | Some (s', c) =>
          let mtxt := firstn (length s - length s') s in
          let mt := mkMatch (rev pre) mtxt s' c in
          match mtxt with
          | [] =>
              expand gcount mt template ++
              match s with
              | [] => []
              | x :: t =>
                  x :: replaceAllFrom fuel' gcount r template
                         (x :: pre) (Some x) t
              end
          | _ :: _ =>
              expand gcount mt template ++
              replaceAllFrom fuel' gcount r template
                (rev mtxt ++ pre) (lastOr prev mtxt) s'
          end
      | None =>
          match s with
          | [] => []
          | x :: t =>
              x :: replaceAllFrom fuel' gcount r template
                     (x :: pre) (Some x) t
          end
      end
  end.

Definition replaceAll (gcount : nat) (r : re) (template : string)
           (s : string) : string :=
  str (replaceAllFrom (S (String.length s)) gcount r (chars template)
         [] None (chars s)).

(** Every match of an expression with the [g] flag, found by calling
    [exec] until it returns [null]: each search starts where the previous
    match ended.  The expressions this is used with match no empty
    string. *)
Fixpoint execAllFrom (fuel : nat) (r : re) (pre : list ascii)
         (prev : option ascii) (s : list ascii) : list Match :=
  match fuel with
  | O => []
  | S fuel' =>
      match searchFrom r pre prev s with
      | Some mt =>
          mt :: execAllFrom fuel' r (rev (before mt ++ matched mt))
                  (lastOr prev (before mt ++ matched mt)) (after mt)
      | None => []
      end
  end.

Definition execAll (r : re) (s : string) : list Match :=
  execAllFrom (S (String.length s)) r [] None (chars s).

(** Common classes. *)
Definition ws : re := Chr isSpace.
Definition isOneOf (l : string) (c : ascii) : bool :=
  existsb (Ascii.eqb c) (chars l).
Definition notOneOf (l : string) (c : ascii) : bool := negb (isOneOf l c).

End Regex.


(* ================================================================== *)
(** * 3. The syntax tree and the scope graph

    The tree produced by [@typescript-eslint/typescript-estree], invoked
    with [loc: true] and [range: true], so every node carries both. Only
    the node kinds the analysed code inspects have a constructor of their
    own; any other kind is an [OtherNode] with its child nodes. *)
(* ================================================================== *)

Scheme All for list.
Scheme All for option.

Record Loc := mkLoc {
  startLine : Z;
  startCol : Z;
  endLine : Z;
  endCol : Z
}.

Record NodeInfo := mkInfo {
  loc : Loc;
  range : nat * nat
}.

(** The [value] of a [Literal]: string, number, boolean, [null], or
    something else (a regular expression or a bigint). *)
Inductive LitVal : Type :=
| LStr (s : string)
| LNum (n : Z)
| LBool (b : bool)
| LNull
| LOther (raw : string).

Inductive PropKey : Type :=
| KeyIdent (name : string)
| KeyLit (v : LitVal)
| KeyOther.

Inductive TypeNode : Type :=
| TSStringKeyword
| TSNumberKeyword
| TSBooleanKeyword
| TSNullKeyword
| TSAnyKeyword
| TSUnknownKeyword
| TSUndefinedKeyword
| TSLiteralType (literal : option LitVal)
| TSArrayType (elementType : TypeNode)
| TSUnionType (types : list TypeNode)
| TSIntersectionType (types : list TypeNode)
| TSTypeLiteral (members : list TypeMember)
| TSIndexedAccessType (objectType indexType : TypeNode)
| TSTypeReference (typeName : option string)
| TSOtherType
with TypeMember : Type :=
| TSPropertySignature (line : Z) (key : PropKey)
    (typeAnnotation : option TypeNode) (optional : bool)
| TSOtherMember.

Inductive Node : Type :=
| Program (i : NodeInfo) (body : list Node)
| ExportNamedDeclaration (i : NodeInfo) (declaration : option Node)
| ClassDeclaration (i : NodeInfo) (id : option string)
    (superClass : option Node) (superTypeParameters : list TypeNode)
    (body : list Node)
| MethodDefinition (i : NodeInfo) (key value : Node) (kind : string)
    (static : bool)
| PropertyDefinition (i : NodeInfo) (key : Node) (value : option Node)
| FunctionDeclaration (i : NodeInfo) (id : option string)
    (params : list Node) (body : Node)
| FunctionExpression (i : NodeInfo) (params : list Node) (body : Node)
| ArrowFunctionExpression (i : NodeInfo) (params : list Node) (body : Node)
| TSInterfaceDeclaration (i : NodeInfo) (id : string)
    (body : list TypeMember)
| TSTypeAliasDeclaration (i : NodeInfo) (id : string)
    (typeAnnotation : TypeNode)
| BlockStatement (i : NodeInfo) (body : list Node)
| VariableDeclaration (i : NodeInfo) (kind : string)
    (declarations : list Node)
| VariableDeclarator (i : NodeInfo) (id : Node) (init : option Node)
| ExpressionStatement (i : NodeInfo) (expression : Node)
| ReturnStatement (i : NodeInfo) (argument : option Node)
| IfStatement (i : NodeInfo) (test consequent : Node)
    (alternate : option Node)
| ForStatement (i : NodeInfo) (init test update : option Node) (body : Node)
| ForInStatement (i : NodeInfo) (left right body : Node)
| ForOfStatement (i : NodeInfo) (left right body : Node)
| WhileStatement (i : NodeInfo) (test body : Node)
| TryStatement (i : NodeInfo) (block : Node) (handler finalizer : option Node)
| CatchClause (i : NodeInfo) (param : option Node) (body : Node)
| Identifier (i : NodeInfo) (name : string)
    (typeAnnotation : option TypeNode)
| Literal (i : NodeInfo) (value : LitVal)
| TemplateLiteral (i : NodeInfo) (quasis : list (option string))
    (expressions : list Node)
| MemberExpression (i : NodeInfo) (object property : Node)
    (computed optional : bool)
| ChainExpression (i : NodeInfo) (expression : Node)
| TSNonNullExpression (i : NodeInfo) (expression : Node)
| AwaitExpression (i : NodeInfo) (argument : Node)
| NewExpression (i : NodeInfo) (callee : Node) (arguments : list Node)
| CallExpression (i : NodeInfo) (callee : Node) (arguments : list Node)
| ArrayExpression (i : NodeInfo) (elements : list (option Node))
| ObjectExpression (i : NodeInfo) (properties : list Node)
| Property (i : NodeInfo) (key value : Node) (computed : bool)
| SpreadElement (i : NodeInfo) (argument : Node)
| UnaryExpression (i : NodeInfo) (operator : string) (argument : Node)
| ObjectPattern (i : NodeInfo) (properties : list Node)
| AssignmentPattern (i : NodeInfo) (left right : Node)
| RestElement (i : NodeInfo) (argument : Node)
| ThisExpression (i : NodeInfo)
| OtherNode (i : NodeInfo) (type : string) (children : list Node).

Definition info (n : Node) : NodeInfo :=
  match n with
  | Program i _ | ExportNamedDeclaration i _ | ClassDeclaration i _ _ _ _
  | MethodDefinition i _ _ _ _ | PropertyDefinition i _ _
  | FunctionDeclaration i _ _ _ | FunctionExpression i _ _
  | ArrowFunctionExpression i _ _ | TSInterfaceDeclaration i _ _
  | TSTypeAliasDeclaration i _ _ | BlockStatement i _
  | VariableDeclaration i _ _ | VariableDeclarator i _ _
  | ExpressionStatement i _ | ReturnStatement i _ | IfStatement i _ _ _
  | ForStatement i _ _ _ _ | ForInStatement i _ _ _ | ForOfStatement i _ _ _
  | WhileStatement i _ _ | TryStatement i _ _ _ | CatchClause i _ _
  | Identifier i _ _ | Literal i _ | TemplateLiteral i _ _
  | MemberExpression i _ _ _ _ | ChainExpression i _
  | TSNonNullExpression i _ | AwaitExpression i _ | NewExpression i _ _
  | CallExpression i _ _ | ArrayExpression i _ | ObjectExpression i _
  | Property i _ _ _ | SpreadElement i _ | UnaryExpression i _ _
  | ObjectPattern i _ | AssignmentPattern i _ _ | RestElement i _
  | ThisExpression i | OtherNode i _ _ => i
  end.

(** [node.type] *)
Definition nodeType (n : Node) : string :=
  match n with
  | Program _ _ => "Program"
  | ExportNamedDeclaration _ _ => "ExportNamedDeclaration"
  | ClassDeclaration _ _ _ _ _ => "ClassDeclaration"
  | MethodDefinition _ _ _ _ _ => "MethodDefinition"
  | PropertyDefinition _ _ _ => "PropertyDefinition"
  | FunctionDeclaration _ _ _ _ => "FunctionDeclaration"
  | FunctionExpression _ _ _ => "FunctionExpression"
  | ArrowFunctionExpression _ _ _ => "ArrowFunctionExpression"
  | TSInterfaceDeclaration _ _ _ => "TSInterfaceDeclaration"
  | TSTypeAliasDeclaration _ _ _ => "TSTypeAliasDeclaration"
  | BlockStatement _ _ => "BlockStatement"
  | VariableDeclaration _ _ _ => "VariableDeclaration"
  | VariableDeclarator _ _ _ => "VariableDeclarator"
  | ExpressionStatement _ _ => "ExpressionStatement"
  | ReturnStatement _ _ => "ReturnStatement"
  | IfStatement _ _ _ _ => "IfStatement"
  | ForStatement _ _ _ _ _ => "ForStatement"
  | ForInStatement _ _ _ _ => "ForInStatement"
  | ForOfStatement _ _ _ _ => "ForOfStatement"
  | WhileStatement _ _ _ => "WhileStatement"
  | TryStatement _ _ _ _ => "TryStatement"
  | CatchClause _ _ _ => "CatchClause"
  | Identifier _ _ _ => "Identifier"
  | Literal _ _ => "Literal"
  | TemplateLiteral _ _ _ => "TemplateLiteral"
  | MemberExpression _ _ _ _ _ => "MemberExpression"
  | ChainExpression _ _ => "ChainExpression"
  | TSNonNullExpression _ _ => "TSNonNullExpression"
  | AwaitExpression _ _ => "AwaitExpression"
  | NewExpression _ _ _ => "NewExpression"
  | CallExpression _ _ _ => "CallExpression"
  | ArrayExpression _ _ => "ArrayExpression"
  | ObjectExpression _ _ => "ObjectExpression"
  | Property _ _ _ _ => "Property"
  | SpreadElement _ _ => "SpreadElement"
  | UnaryExpression _ _ _ => "UnaryExpression"
  | ObjectPattern _ _ => "ObjectPattern"
  | AssignmentPattern _ _ _ => "AssignmentPattern"
  | RestElement _ _ => "RestElement"
  | ThisExpression _ => "ThisExpression"
  | OtherNode _ t _ => t
  end.

Definition optList {A} (o : option A) : list A :=
  match o with Some a => [a] | None => [] end.

Fixpoint somes {A} (l : list (option A)) : list A :=
  match l with
  | [] => []
  | Some a :: r => a :: somes r
  | None :: r => somes r
  end.


(** [this.bubbleScript.substring(node.range[0], node.range[1])] *)
Definition sourceText (script : string) (n : Node) : string :=
  substring (fst (range (info n))) (snd (range (info n))) script.

Definition startLineOf (n : Node) : Z := startLine (loc (info n)).

(** ** Scopes and variables ([@bubblelab/ts-scope-manager])

    A [ScopeVariable] (the library's [Variable]) carries its [$id], its name, the locations of the nodes of
    its definitions ([defs[k].node.loc], absent when the definition has no
    located node) and the [type] of the scope it belongs to.  A [Scope] has
    a type, the location of its block, its variables and its enclosing
    scope ([upper]). *)

Record ScopeVariable := mkVar {
  varId : Z;
  varName : string;
  defs : list (option Loc);
  varScopeType : string
}.

Inductive Scope : Type :=
| mkScope (type : string) (block : Loc) (variables : list ScopeVariable)
    (upper : option Scope).

Definition scopeType (s : Scope) : string :=
  match s with mkScope t _ _ _ => t end.
Definition scopeBlock (s : Scope) : Loc :=
  match s with mkScope _ b _ _ => b end.
Definition scopeVariables (s : Scope) : list ScopeVariable :=
  match s with mkScope _ _ v _ => v end.
Definition scopeUpper (s : Scope) : option Scope :=
  match s with mkScope _ _ _ u => u end.

(** [scopeManager.scopes] *)
Definition ScopeManager := list Scope.

(** [lineNumber >= scopeStart && lineNumber <= scopeEnd] *)
Definition scopeContainsLine (line : Z) (s : Scope) : bool :=
  (startLine (scopeBlock s) <=? line)%Z && (line <=? endLine (scopeBlock s))%Z.

(* ================================================================== *)
(** * 4. Shared schemas ([@bubblelab/shared-schemas]) *)
(* ================================================================== *)

Inductive BubbleParameterType : Type :=
| STRING | NUMBER | BOOLEAN | OBJECT | ARRAY | ENV | VARIABLE | EXPRESSION
| UNKNOWN.

Definition BubbleParameterType_eqb (a b : BubbleParameterType) : bool :=
  match a, b with
  | STRING, STRING | NUMBER, NUMBER | BOOLEAN, BOOLEAN | OBJECT, OBJECT
  | ARRAY, ARRAY | ENV, ENV | VARIABLE, VARIABLE | EXPRESSION, EXPRESSION
  | UNKNOWN, UNKNOWN => true
  | _, _ => false
  end.

(** The value of a parameter is always a string at extraction time: the
    content of a string literal, or the source text of the expression. *)
Record BubbleParameter := mkParam {
  paramName : string;
  paramValue : string;
  paramType : BubbleParameterType;
  paramVariableId : option Z;
  paramLocation : Loc;
  paramSource : string
}.

Inductive DependencyGraphNode : Type :=
| mkDep (name nodeType uniqueId : string) (variableId : Z)
    (variableName : option string) (dependencies : list DependencyGraphNode).

Definition depName (d : DependencyGraphNode) : string :=
  match d with mkDep n _ _ _ _ _ => n end.
Definition depUniqueId (d : DependencyGraphNode) : string :=
  match d with mkDep _ _ u _ _ _ => u end.
Definition depVariableId (d : DependencyGraphNode) : Z :=
  match d with mkDep _ _ _ v _ _ => v end.
Definition depDependencies (d : DependencyGraphNode)
  : list DependencyGraphNode :=
  match d with mkDep _ _ _ _ _ ds => ds end.

Record ParsedBubbleWithInfo := mkBubble {
  variableId : Z;
  variableName : string;
  bubbleName : string;
  className : string;
  parameters : list BubbleParameter;
  hasAwait : bool;
  hasActionCall : bool;
  bubbleNodeType : string;
  location : Loc;
  description : option string;
  dependencyGraph : option DependencyGraphNode
}.

Inductive WorkflowNode : Type :=
| WBubble (variableId : Z)
| WIf (location : Loc) (condition : string) (children : list WorkflowNode)
    (elseBranch : option (list WorkflowNode))
| WFor (location : Loc) (condition : string) (children : list WorkflowNode)
| WWhile (location : Loc) (condition : string) (children : list WorkflowNode)
| WTryCatch (location : Loc) (children : list WorkflowNode)
    (catchBlock : option (list WorkflowNode))
| WCodeBlock (location : Loc) (code : string) (children : list WorkflowNode).

Record ParsedWorkflow := mkWorkflow {
  root : list WorkflowNode;
  bubbles : list (Z * ParsedBubbleWithInfo)
}.

Record BubbleTrigger := mkTrigger {
  triggerType : string;
  cronSchedule : option string
}.

(** JSON values (the payload schema). *)
Inductive JSON : Type :=
| JNull
| JBool (b : bool)
| JNum (n : Z)
| JStr (s : string)
| JArr (l : list JSON)
| JObj (fields : list (string * JSON))
| JOther (raw : string).

Definition litToJSON (v : LitVal) : JSON :=
  match v with
  | LStr s => JStr s
  | LNum n => JNum n
  | LBool b => JBool b
  | LNull => JNull
  | LOther r => JOther r
  end.

(** ** The bubble registry ([BubbleFactory])

    [getMetadata(name)] gives, for a registered bubble, its node type, its
    detailed dependency specifications and its flat dependency list.  The
    class-name index is what [buildClassNameLookup] returns. *)

Record DependencySpec := mkSpec {
  specName : string;
  specTools : option (list string);
  specInstances : option (list (option string))
}.

Record BubbleMetadata := mkMeta {
  metaType : option string;
  bubbleDependenciesDetailed : option (list DependencySpec);
  bubbleDependencies : option (list string)
}.

Record ClassInfo := mkClassInfo {
  ciBubbleName : string;
  ciClassName : string;
  ciNodeType : string
}.

Record BubbleFactory := mkFactory {
  registry : list (string * BubbleMetadata);
  classNameLookup : list (string * ClassInfo)
}.

Definition getMetadata (f : BubbleFactory) (name : string)
  : option BubbleMetadata :=
  dget String.eqb name (registry f).

(** Modelled from the spec: [buildClassNameLookup] of
    [utils/bubble-helper] is not among the sources; the spec describes it
    as the registry's class-name index (constructor identifier to bubble
    name, class name and node type). *)
Definition buildClassNameLookup (f : BubbleFactory)
  : list (string * ClassInfo) :=
  classNameLookup f.

(* ================================================================== *)
(** * 5. [BubbleParser] (extraction/BubbleParser.ts) *)
(* ================================================================== *)

Definition withHasAwait (b : ParsedBubbleWithInfo) (v : bool) :=
  mkBubble (variableId b) (variableName b) (bubbleName b) (className b)
    (parameters b) v (hasActionCall b) (bubbleNodeType b) (location b)
    (description b) (dependencyGraph b).

Definition withHasActionCall (b : ParsedBubbleWithInfo) (v : bool) :=
  mkBubble (variableId b) (variableName b) (bubbleName b) (className b)
    (parameters b) (hasAwait b) v (bubbleNodeType b) (location b)
    (description b) (dependencyGraph b).

Definition withVariableName (b : ParsedBubbleWithInfo) (v : string) :=
  mkBubble (variableId b) v (bubbleName b) (className b)
    (parameters b) (hasAwait b) (hasActionCall b) (bubbleNodeType b)
    (location b) (description b) (dependencyGraph b).

Definition withVariableId (b : ParsedBubbleWithInfo) (v : Z) :=
  mkBubble v (variableName b) (bubbleName b) (className b)
    (parameters b) (hasAwait b) (hasActionCall b) (bubbleNodeType b)
    (location b) (description b) (dependencyGraph b).

Definition withParameters (b : ParsedBubbleWithInfo)
           (v : list BubbleParameter) :=
  mkBubble (variableId b) (variableName b) (bubbleName b) (className b)
    v (hasAwait b) (hasActionCall b) (bubbleNodeType b)
    (location b) (description b) (dependencyGraph b).

(** [if (description) bubbleNode.description = description] *)
Definition withDescription (b : ParsedBubbleWithInfo) (v : option string) :=
  match v with
  | Some d =>
      mkBubble (variableId b) (variableName b) (bubbleName b) (className b)
        (parameters b) (hasAwait b) (hasActionCall b) (bubbleNodeType b)
        (location b) (Some d) (dependencyGraph b)
  | None => b
  end.

Definition withDependencyGraph (b : ParsedBubbleWithInfo)
           (v : DependencyGraphNode) :=
  mkBubble (variableId b) (variableName b) (bubbleName b) (className b)
    (parameters b) (hasAwait b) (hasActionCall b) (bubbleNodeType b)
    (location b) (description b) (Some v).

Definition withParamVariableId (p : BubbleParameter) (v : Z) :=
  mkParam (paramName p) (paramValue p) (paramType p) (Some v)
    (paramLocation p) (paramSource p).

Definition isEmptyString (s : string) : bool :=
  match s with EmptyString => true | String _ _ => false end.

Definition nonEmpty (s : string) : bool := negb (isEmptyString s).

(** [value || undefined] on a string *)
Definition truthyString (s : string) : option string :=
  if isEmptyString s then None else Some s.

(** ** Comments above a node *)

(** The backwards scan of [extractCommentForNode]: [currentLine] is the
    1-indexed line under inspection; the result is the collected comment
    lines (top first) and the [isBlockComment] flag. *)
Fixpoint scanCommentLines (lines : list string) (currentLine : nat)
         (commentLines : list string) (isBlockComment : bool)
  : list string * bool :=
  match currentLine with
  | O => (commentLines, isBlockComment)
  | S above =>
      let line :=
        match nth_error lines above with
        | Some l => trim l
        | None => EmptyString
        end in
      if isEmptyString line then
        match commentLines with
        | _ :: _ => (commentLines, isBlockComment)
        | [] => scanCommentLines lines above commentLines isBlockComment
        end
      else if startsWith "//" line then
        scanCommentLines lines above (line :: commentLines) isBlockComment
      else if startsWith "*" line || startsWith "/**" line
              || startsWith "/*" line then
        scanCommentLines lines above (line :: commentLines) true
      else if endsWith "*/" line then
        scanCommentLines lines above (line :: commentLines) true
      else (commentLines, isBlockComment)
  end.

Import Regex.

(** [/^\/\*\*?\s*/] *)
Definition reBlockOpen : re :=
  seq [Bol; Lit "/*"; Opt (Lit "*"); Star ws].
(** [/\s*\*\/\s*$/] *)
Definition reBlockClose : re :=
  seq [Star ws; Lit "*/"; Star ws; Eol].
(** [/^\s*\*\s?/] *)
Definition reStarPrefix : re :=
  seq [Bol; Star ws; Lit "*"; Opt ws].
(** [/^\/\/\s?/] *)
Definition reSlashPrefix : re :=
  seq [Bol; Lit "//"; Opt ws].

Definition cleanBlockComment (fullComment : string) : string :=
  trim (join " "
    (filter nonEmpty
      (map (fun line => trim (replaceFirst 0 reStarPrefix EmptyString line))
        (split_nl
          (replaceFirst 0 reBlockClose EmptyString
            (replaceFirst 0 reBlockOpen EmptyString fullComment)))))).

Definition cleanLineComments (fullComment : string) : string :=
  trim (join " "
    (filter nonEmpty
      (map (fun line => trim (replaceFirst 0 reSlashPrefix EmptyString line))
        (split_nl fullComment)))).

Section BubbleParser.

(** [this.bubbleScript] *)
Variable bubbleScript : string.

(** [extractCommentForNode(node)], as a function of [node.loc.start.line]. *)
Definition extractCommentForLine (nodeLine : Z) : option string :=
  if (nodeLine =? 0)%Z then None
  else
    let lines := split_nl bubbleScript in
    let '(commentLines, isBlockComment) :=
      scanCommentLines lines (Z.to_nat (nodeLine - 1)) [] false in
    match commentLines with
    | [] => None
    | _ :: _ =>
        let fullComment := join NL commentLines in
        truthyString
          (if isBlockComment then cleanBlockComment fullComment
           else cleanLineComments fullComment)
    end.

Definition extractCommentForNode (node : Node) : option string :=
  extractCommentForLine (startLineOf node).

(** ** Parameter extraction *)

Definition isProcessEnv (text : string) : bool :=
  startsWith "process.env." text.

Definition simpleTypes : list string :=
  ["Literal"; "Identifier"; "MemberExpression"; "TemplateLiteral";
   "ArrayExpression"; "ObjectExpression"].

Definition extractParameterValue (expression : Node)
  : string * BubbleParameterType :=
  let valueText := sourceText bubbleScript expression in
  let rest :=
    match expression with
    | MemberExpression _ _ _ _ _ | ChainExpression _ _ =>
        if isProcessEnv valueText then (valueText, ENV)
        else (valueText, VARIABLE)
    | Identifier _ _ _ => (valueText, VARIABLE)
    | Literal _ (LStr s) => (s, STRING)
    | Literal _ (LNum _) => (valueText, NUMBER)
    | Literal _ (LBool _) => (valueText, BOOLEAN)
    | TemplateLiteral _ _ _ => (valueText, STRING)
    | ArrayExpression _ _ => (valueText, ARRAY)
    | ObjectExpression _ _ => (valueText, OBJECT)
    | _ =>
        if negb (existsb (String.eqb (nodeType expression)) simpleTypes)
        then (valueText, EXPRESSION)
        else (valueText, UNKNOWN)
    end in
  match expression with
  | TSNonNullExpression _ (MemberExpression _ _ _ _ _ as inner) =>
      if isProcessEnv (sourceText bubbleScript inner) then (valueText, ENV)
      else rest
  | _ => rest
  end.

Definition locOf (n : Node) : Loc := loc (info n).

Definition identifierNameOr (dflt : string) (n : Node) : string :=
  match n with Identifier _ name _ => name | _ => dflt end.

(** The parameters read from one property of the object argument. *)
Definition parametersOfProperty (prop : Node) : list BubbleParameter :=
  match prop with
  | Property _ (Identifier _ name _) value _ =>
      match value with
      | AssignmentPattern _ _ _ => []
      | _ =>
          let '(v, t) := extractParameterValue value in
          [mkParam name v t None (locOf value) "object-property"]
      end
  | SpreadElement _ spreadArg =>
      let '(v, t) := extractParameterValue spreadArg in
      [mkParam (identifierNameOr "spread" spreadArg) v t None
         (locOf spreadArg) "spread"]
  | _ => []
  end.

Definition extractFromNewExpression
           (classNames : list (string * ClassInfo)) (newExpr : Node)
  : option ParsedBubbleWithInfo :=
  match newExpr with
  | NewExpression i (Identifier _ cname _) args =>
      match dget String.eqb cname classNames with
      | None => None
      | Some ci =>
          let parameters :=
            match args with
            | [] => []
            | ObjectExpression _ props :: _ =>
                flat_map parametersOfProperty props
            | expr :: _ =>
                let '(v, t) := extractParameterValue expr in
                [mkParam (identifierNameOr "arg0" expr) v t None
                   (locOf expr) "first-arg"]
            end in
          Some (mkBubble (-1) EmptyString (ciBubbleName ci) (ciClassName ci)
                  parameters false false (ciNodeType ci) (loc i) None None)
      end
  | _ => None
  end.

Fixpoint extractBubbleFromExpression
         (classNames : list (string * ClassInfo)) (expr : Node)
  : option ParsedBubbleWithInfo :=
  match expr with
  | AwaitExpression _ argument =>
      option_map (fun inner => withHasAwait inner true)
        (extractBubbleFromExpression classNames argument)
  | NewExpression _ _ _ => extractFromNewExpression classNames expr
  | CallExpression _ (MemberExpression _ obj (Identifier _ "action" _) _ _) _ =>
      match obj with
      | NewExpression _ _ _ =>
          option_map (fun node => withHasActionCall node true)
            (extractFromNewExpression classNames obj)
      | _ => None
      end
  | _ => None
  end.

(** ** Resolving variables *)

(** [variable.defs[0]?.node?.loc?.start?.line], when it is a non-zero
    number. *)
Definition firstDeclLine (v : ScopeVariable) : option Z :=
  match defs v with
  | Some l :: _ => if (startLine l =? 0)%Z then None else Some (startLine l)
  | _ => None
  end.

Definition findVariableForBubble (variableName : string)
           (declarationNode : Node) (scopeManager : ScopeManager)
  : option ScopeVariable :=
  let line := startLineOf declarationNode in
  if (line =? 0)%Z then None
  else
    find (fun variable =>
            String.eqb (varName variable) variableName &&
            match firstDeclLine variable with
            | Some declLine => (Z.abs (declLine - line) <=? 2)%Z
            | None => false
            end)
      (flat_map scopeVariables
         (filter (scopeContainsLine line) scopeManager)).

(** A scope followed by its chain of enclosing scopes. *)
Fixpoint scopeChain (s : Scope) : list Scope :=
  match s with
  | mkScope _ _ _ up =>
      s :: match up with Some p => scopeChain p | None => [] end
  end.

(** [findVariableIdByName].  The source collects the scopes in a [Set],
    which only drops repeated occurrences of a scope and so cannot change
    which variable is found first. *)
Definition findVariableIdByName (variableName : string) (contextLine : Z)
           (scopeManager : ScopeManager) : option Z :=
  let containingScopes :=
    filter (scopeContainsLine contextLine) scopeManager in
  let allScopes := flat_map scopeChain containingScopes in
  option_map varId
    (find (fun variable =>
             String.eqb (varName variable) variableName &&
             match firstDeclLine variable with
             | Some declLine => (declLine <=? contextLine)%Z
             | None => false
             end)
       (flat_map scopeVariables allScopes)).

Definition isIdentStart (c : ascii) : bool :=
  isAlpha c || isOneOf "_$" c.
Definition isIdentPart (c : ascii) : bool :=
  isAlpha c || isDigit c || isOneOf "_$" c.
(** The identifier pattern: a letter, underscore or dollar sign followed by
    any number of letters, digits, underscores and dollar signs. *)
Definition reIdent : re := Seq (Chr isIdentStart) (Star (Chr isIdentPart)).

(** [^(ident)\[], with [ident] the identifier pattern above, captured. *)
Definition reArrayAccess : re := seq [Bol; Grp 1 reIdent; Lit "["].
(** [^(ident)\.] *)
Definition rePropertyAccess : re := seq [Bol; Grp 1 reIdent; Lit "."].
(** [^ident$] *)
Definition reSimpleVariable : re := seq [Bol; reIdent; Eol].

Definition extractBaseVariableName (expression : string) : option string :=
  let trimmed := trim expression in
  match exec reArrayAccess trimmed with
  | Some arrayMatch => group 1 arrayMatch
  | None =>
      match exec rePropertyAccess trimmed with
      | Some propertyMatch => group 1 propertyMatch
      | None =>
          if test reSimpleVariable trimmed then Some trimmed else None
      end
  end.

Definition addVariableReferencesToParameters
           (parameters : list BubbleParameter) (contextNode : Node)
           (scopeManager : ScopeManager) : list BubbleParameter :=
  let contextLine := startLineOf contextNode in
  map (fun param =>
         match paramType param with
         | VARIABLE =>
             match extractBaseVariableName (paramValue param) with
             | Some baseVariableName =>
                 match findVariableIdByName baseVariableName contextLine
                         scopeManager with
                 | Some variableId => withParamVariableId param variableId
                 | None => param
                 end
             | None => param
             end
         | _ => param
         end)
    parameters.

End BubbleParser.

(** ** Locating bubbles *)

Definition BubbleMap := list (Z * ParsedBubbleWithInfo).

Section BubbleLocator.

Variable bubbleScript : string.
Variable classNames : list (string * ClassInfo).
Variable scopeManager : ScopeManager.

(** An anonymous instantiation: the statement, arrow function or return
    statement [node] whose expression [expr] may be a bubble.  The source
    repeats this block three times; the arrow-function copy does not
    extract a comment ([withComment = false]). *)
Definition registerAnonymous (withComment : bool) (node expr : Node)
           (nodes : BubbleMap) : BubbleMap :=
  match extractBubbleFromExpression bubbleScript classNames expr with
  | None => nodes
  | Some bubbleNode =>
      let synthetic :=
        ("_anonymous_" ++ className bubbleNode ++ "_"
           ++ string_of_nat (length nodes))%string in
      let b := withVariableName bubbleNode synthetic in
      let b :=
        if withComment
        then withDescription b (extractCommentForNode bubbleScript node)
        else b in
      let syntheticId := (-1 * (Z.of_nat (length nodes) + 1))%Z in
      let b := withVariableId b syntheticId in
      let b :=
        withParameters b
          (addVariableReferencesToParameters (parameters b) node
             scopeManager) in
      dset Z.eqb syntheticId b nodes
  end.

(** One declarator of a [VariableDeclaration] [node]. *)
Definition registerDeclarator (node declarator : Node) (nodes : BubbleMap)
  : Result BubbleMap :=
  match declarator with
  | VariableDeclarator _ (Identifier _ nameText _) (Some init) =>
      match extractBubbleFromExpression bubbleScript classNames init with
      | None => Ok nodes
      | Some bubbleNode =>
          let b := withVariableName bubbleNode nameText in
          let b :=
            withDescription b (extractCommentForNode bubbleScript node) in
          match findVariableForBubble nameText node scopeManager with
          | Some variable =>
              let b := withVariableId b (varId variable) in
              let b :=
                withParameters b
                  (addVariableReferencesToParameters (parameters b) node
                     scopeManager) in
              Ok (dset Z.eqb (varId variable) b nodes)
          | None =>
              Throw ("Variable " ++ nameText
                       ++ " not found in scope manager")%string
          end
      end
  | _ => Ok nodes
  end.

(** What [visitNode] does at the node itself, before visiting children. *)
Definition visitLocal (node : Node) (nodes : BubbleMap) : Result BubbleMap :=
  match node with
  | VariableDeclaration _ _ declarations =>
      fold_left (fun acc d => bind acc (registerDeclarator node d))
        declarations (Ok nodes)
  | ExpressionStatement _ expression =>
      Ok (registerAnonymous true node expression nodes)
  | ArrowFunctionExpression _ _ body =>
      match body with
      | BlockStatement _ _ => Ok nodes
      | _ => Ok (registerAnonymous false node body nodes)
      end
  | ReturnStatement _ (Some argument) =>
      Ok (registerAnonymous true node argument nodes)
  | _ => Ok nodes
  end.

(** [visitNode]: the local step, then every child in property order. *)
Fixpoint visitNode (node : Node) (nodes : BubbleMap) {struct node}
  : Result BubbleMap :=
  let v1 := fun (c : Node) (acc : Result BubbleMap) =>
              bind acc (visitNode c) in
  let vo := fun (o : option Node) (acc : Result BubbleMap) =>
              match o with
              | Some c => bind acc (visitNode c)
              | None => acc
              end in
  let vs := fun (l : list Node) (acc : Result BubbleMap) =>
              fold_left (fun a c => bind a (visitNode c)) l acc in
  let start := visitLocal node nodes in
  match node with
  | Program _ body => vs body start
  | ExportNamedDeclaration _ d => vo d start
  | ClassDeclaration _ _ sup _ body => vo sup (vs body start)
  | MethodDefinition _ k v _ _ => v1 v (v1 k start)
  | PropertyDefinition _ k v => vo v (v1 k start)
  | FunctionDeclaration _ _ ps b => vs ps (v1 b start)
  | FunctionExpression _ ps b => vs ps (v1 b start)
  | ArrowFunctionExpression _ ps b => vs ps (v1 b start)
  | TSInterfaceDeclaration _ _ _ => start
  | TSTypeAliasDeclaration _ _ _ => start
  | BlockStatement _ body => vs body start
  | VariableDeclaration _ _ ds => vs ds start
  | VariableDeclarator _ x i => vo i (v1 x start)
  | ExpressionStatement _ e => v1 e start
  | ReturnStatement _ a => vo a start
  | IfStatement _ t c a => vo a (v1 c (v1 t start))
  | ForStatement _ i t u b => v1 b (vo u (vo t (vo i start)))
  | ForInStatement _ l r b => v1 b (v1 r (v1 l start))
  | ForOfStatement _ l r b => v1 b (v1 r (v1 l start))
  | WhileStatement _ t b => v1 b (v1 t start)
  | TryStatement _ b h f => vo f (vo h (v1 b start))
  | CatchClause _ p b => v1 b (vo p start)
  | Identifier _ _ _ => start
  | Literal _ _ => start
  | TemplateLiteral _ _ es => vs es start
  | MemberExpression _ o p _ _ => v1 p (v1 o start)
  | ChainExpression _ e => v1 e start
  | TSNonNullExpression _ e => v1 e start
  | AwaitExpression _ a => v1 a start
  | NewExpression _ c args => v1 c (vs args start)
  | CallExpression _ c args => v1 c (vs args start)
  | ArrayExpression _ es =>
      fold_left (fun a o => vo o a) es start
  | ObjectExpression _ ps => vs ps start
  | Property _ k v _ => v1 v (v1 k start)
  | SpreadElement _ a => v1 a start
  | UnaryExpression _ _ a => v1 a start
  | ObjectPattern _ ps => vs ps start
  | AssignmentPattern _ l r => v1 r (v1 l start)
  | RestElement _ a => v1 a start
  | ThisExpression _ => start
  | OtherNode _ _ cs => vs cs start
  end.

End BubbleLocator.

(** ** The dependency graph *)

Definition toInt32 (z : Z) : Z :=
  let u := (z mod 2 ^ 32)%Z in
  if (u <? 2 ^ 31)%Z then u else (u - 2 ^ 32)%Z.

Definition toUint32 (z : Z) : Z := (z mod 2 ^ 32)%Z.

(** The nearest IEEE-754 double to an integer, ties to even: integers of
    magnitude below [2^53] are exact, larger ones keep 53 significant
    bits. *)
Definition roundToDouble (p : Z) : Z :=
  let a := Z.abs p in
  if (a <? 2 ^ 53)%Z then p
  else
    let e := (Z.log2 a - 52)%Z in
    let q := (a / 2 ^ e)%Z in
    let r := (a mod 2 ^ e)%Z in
    let half := (2 ^ (e - 1))%Z in
    let q' :=
      if (r <? half)%Z then q
      else if (half <? r)%Z then (q + 1)%Z
      else if Z.even q then q else (q + 1)%Z in
    (Z.sgn p * (q' * 2 ^ e))%Z.

(** One round of the loop of [hashUniqueIdToVarId]:
    [hash ^= c; hash = (hash * 16777619) >>> 0]. *)
Definition hashStep (hash : Z) (c : ascii) : Z :=
  let x := toInt32 (Z.lxor (toInt32 hash) (Z.of_nat (code c))) in
  toUint32 (roundToDouble (x * 16777619)%Z).

Definition hashUniqueIdToVarId (input : string) : Z :=
  let hash := fold_left hashStep (chars input) 2166136261%Z in
  (100000 + hash mod 900000)%Z.

(** [ordinalCounters]: a [Map] from count keys to ordinals, shared by the
    whole construction of one graph and threaded as state. *)
Definition Counters := list (string * nat).

(** [(ordinalCounters.get(key) || 0) + 1], stored back. *)
Definition nextOrdinalFor (key : string) (c : Counters) : nat * Counters :=
  let n := S (match dget String.eqb key c with Some k => k | None => 0%nat end)
  in (n, dset String.eqb key n c).

Definition inSeen (name : string) (seen : list string) : bool :=
  existsb (String.eqb name) seen.

(** [metadata?.type || 'unknown'] *)
Definition typeOrUnknown (m : option BubbleMetadata) : string :=
  match m with
  | Some md =>
      match metaType md with
      | Some t => if isEmptyString t then "unknown" else t
      | None => "unknown"
      end
  | None => "unknown"
  end.

(** A loop that threads the children built so far and the counters, and
    stops when a recursive call fails to return. *)
Fixpoint forEachM {A S : Type} (f : A -> S -> option S) (l : list A) (s : S)
  : option S :=
  match l with
  | [] => Some s
  | a :: r =>
      match f a s with
      | Some s' => forEachM f r s'
      | None => None
      end
  end.

Definition GraphState := (list DependencyGraphNode * Counters)%type.

Definition pushChild (r : option (DependencyGraphNode * Counters))
           (children : list DependencyGraphNode) : option GraphState :=
  match r with
  | Some (d, c) => Some (children ++ [d], c)
  | None => None
  end.

(** The body of [buildDependencyGraph], with the recursive call
    [this.buildDependencyGraph(name, bubbleFactory, nextSeen, tools, parent,
    ordinalCounters, usedVariableIds, undefined, false, instance)] taken as
    the function [recurse]; [None] means that a call did not return.
    [usedVariableIds] is only passed along by the source and is left out. *)

Section DependencyGraphBody.

Variable bubbleFactory : BubbleFactory.

Variable recurse :
  string -> list string -> option (list string) -> string -> Counters ->
  option string -> option (DependencyGraphNode * Counters).

(** The tool children of an agent node: one recursive call per tool. *)
Definition toolChildrenOf (nextSeen : list string) (parent : string)
           (tools : list string) (counters : Counters) : option GraphState :=
  forEachM
    (fun toolName '(toolChildren, cs) =>
       pushChild (recurse toolName nextSeen None parent cs (Some toolName))
         toolChildren)
    tools ([], counters).

(** The synthetic [ai-agent] node created under [uniqueId] when the agent
    is already on the path. *)
Definition syntheticAgent (nextSeen : list string) (uniqueId : string)
           (tools : list string) (nodeType : string)
           (instVarName : option string) (counters : Counters)
  : option (DependencyGraphNode * Counters) :=
  let aiCountKey := (uniqueId ++ "|ai-agent")%string in
  let '(aiOrdinal, counters2) := nextOrdinalFor aiCountKey counters in
  let aiAgentUniqueId :=
    (uniqueId ++ ".ai-agent#" ++ string_of_nat aiOrdinal)%string in
  let aiAgentVarId := hashUniqueIdToVarId aiAgentUniqueId in
  match toolChildrenOf nextSeen aiAgentUniqueId tools counters2 with
  | Some (toolChildren, counters3) =>
      Some (mkDep "ai-agent" nodeType aiAgentUniqueId aiAgentVarId
              instVarName toolChildren, counters3)
  | None => None
  end.

(** One instance of one detailed dependency specification. *)
Definition expandInstance (nextSeen : list string) (uniqueId : string)
           (spec : DependencySpec) (instVarName : option string)
           (st : GraphState) : option GraphState :=
  let '(children, counters) := st in
  let childName := specName spec in
  let toolsForChild :=
    if String.eqb childName "ai-agent" then specTools spec else None in
  let nodeType := typeOrUnknown (getMetadata bubbleFactory childName) in
  match toolsForChild with
  | Some tools =>
      if String.eqb childName "ai-agent" && inSeen "ai-agent" nextSeen then
        pushChild
          (syntheticAgent nextSeen uniqueId tools nodeType instVarName
             counters)
          children
      else
        pushChild
          (recurse childName nextSeen toolsForChild uniqueId counters
             instVarName)
          children
  | None =>
      pushChild
        (recurse childName nextSeen toolsForChild uniqueId counters
           instVarName)
        children
  end.

(** The instance variable names of a specification: those of its
    [instances], or a single unnamed instance when it has none. *)
Definition instanceNames (spec : DependencySpec) : list (option string) :=
  match specInstances spec with
  | Some (x :: l) => x :: l
  | _ => [None]
  end.

Definition expandSpec (nextSeen : list string) (uniqueId : string)
           (spec : DependencySpec) (st : GraphState) : option GraphState :=
  forEachM (expandInstance nextSeen uniqueId spec) (instanceNames spec) st.

Definition detailedOf (metadata : option BubbleMetadata)
  : list DependencySpec :=
  match metadata with
  | Some md =>
      match bubbleDependenciesDetailed md with
      | Some l => l
      | None => []
      end
  | None => []
  end.

Definition directDepsOf (metadata : option BubbleMetadata) : list string :=
  match metadata with
  | Some md =>
      match bubbleDependencies md with
      | Some l => l
      | None => []
      end
  | None => []
  end.

(** The children declared by the registry: the detailed specifications,
    or else the flat dependency list. *)
Definition registryChildren (metadata : option BubbleMetadata)
           (nextSeen : list string) (uniqueId : string)
           (counters : Counters) : option GraphState :=
  match detailedOf metadata with
  | (_ :: _) as detailed =>
      forEachM (expandSpec nextSeen uniqueId) detailed ([], counters)
  | [] =>
      forEachM
        (fun dep '(children, cs) =>
           pushChild
             (recurse dep nextSeen None uniqueId cs
                (Some "No bubble detail dependency"))
             children)
        (directDepsOf metadata) ([], counters)
  end.

(** The tools configured on an [ai-agent] node itself. *)
Definition dynamicToolChildren (bubbleName : string)
           (toolsForThisNode : option (list string))
           (nextSeen : list string) (uniqueId : string) (st : GraphState)
  : option GraphState :=
  match toolsForThisNode with
  | Some tools =>
      if String.eqb bubbleName "ai-agent" then
        forEachM
          (fun toolName '(children, cs) =>
             if inSeen toolName nextSeen then Some (children, cs)
             else
               pushChild
                 (recurse toolName nextSeen None uniqueId cs (Some toolName))
                 children)
          tools st
      else Some st
  | None => Some st
  end.

Definition graphBody (bubbleName : string) (seen : list string)
           (toolsForThisNode : option (list string)) (parentUniqueId : string)
           (ordinalCounters : Counters) (explicitVariableId : option Z)
           (suppressSelfSegment : bool) (instanceVariableName : option string)
  : option (DependencyGraphNode * Counters) :=
  let countKey := (parentUniqueId ++ "|" ++ bubbleName)%string in
  let '(nextOrdinal, counters1) := nextOrdinalFor countKey ordinalCounters in
  let uniqueId :=
    if suppressSelfSegment then parentUniqueId
    else if nonEmpty parentUniqueId
         then (parentUniqueId ++ "." ++ bubbleName ++ "#"
                 ++ string_of_nat nextOrdinal)%string
         else (bubbleName ++ "#" ++ string_of_nat nextOrdinal)%string in
  let variableId :=
    match explicitVariableId with
    | Some v => v
    | None => hashUniqueIdToVarId uniqueId
    end in
  let metadata := getMetadata bubbleFactory bubbleName in
  if inSeen bubbleName seen then
    Some (mkDep bubbleName (typeOrUnknown metadata) uniqueId variableId
            instanceVariableName [], counters1)
  else
    let nextSeen := bubbleName :: seen in
    match registryChildren metadata nextSeen uniqueId counters1 with
    | None => None
    | Some st =>
        match dynamicToolChildren bubbleName toolsForThisNode nextSeen
                uniqueId st with
        | None => None
        | Some (children, counters) =>
            Some (mkDep bubbleName (typeOrUnknown metadata) uniqueId
                    variableId instanceVariableName children, counters)
        end
    end.

End DependencyGraphBody.

(** [buildDependencyGraph].  The recursion of the source is not structural,
    so the function takes [fuel], the number of nested calls it may make;
    [None] means the fuel ran out. *)
Fixpoint buildDependencyGraph (fuel : nat) (bubbleFactory : BubbleFactory)
         (bubbleName : string) (seen : list string)
         (toolsForThisNode : option (list string)) (parentUniqueId : string)
         (ordinalCounters : Counters) (explicitVariableId : option Z)
         (suppressSelfSegment : bool) (instanceVariableName : option string)
  : option (DependencyGraphNode * Counters) :=
  match fuel with
  | O => None
  | S fuel' =>
      graphBody bubbleFactory
        (fun name nextSeen tools parent counters instName =>
           buildDependencyGraph fuel' bubbleFactory name nextSeen tools
             parent counters None false instName)
        bubbleName seen toolsForThisNode parentUniqueId ordinalCounters
        explicitVariableId suppressSelfSegment instanceVariableName
  end.

(** ** The handle entrypoint *)

Fixpoint firstSome {A B} (f : A -> option B) (l : list A) : option B :=
  match l with
  | [] => None
  | a :: r => match f a with Some b => Some b | None => firstSome f r end
  end.

Definition handleInDeclarators (declarations : list Node) : option Node :=
  firstSome
    (fun d =>
       match d with
       | VariableDeclarator _ (Identifier _ "handle" _) (Some init) =>
           match init with
           | ArrowFunctionExpression _ _ _ | FunctionExpression _ _ _ =>
               Some init
           | _ => None
           end
       | _ => None
       end)
    declarations.

Definition findHandleInClass (cls : Node) : option Node :=
  match cls with
  | ClassDeclaration _ _ _ _ members =>
      firstSome
        (fun member =>
           match member with
           | MethodDefinition _ (Identifier _ "handle" _)
               (FunctionExpression _ _ _ as value) _ _ => Some value
           | _ => None
           end)
        members
  | _ => None
  end.

(** The checks [findHandleFunctionNode] applies to a statement, or to the
    declaration of an [ExportNamedDeclaration]. *)
Definition handleOfDeclaration (d : Node) : option Node :=
  match d with
  | FunctionDeclaration _ (Some "handle") _ _ => Some d
  | VariableDeclaration _ _ declarations => handleInDeclarators declarations
  | ClassDeclaration _ _ _ _ _ => findHandleInClass d
  | _ => None
  end.

Definition findHandleFunctionNode (ast : Node) : option Node :=
  match ast with
  | Program _ body =>
      firstSome
        (fun stmt =>
           match stmt with
           | ExportNamedDeclaration _ (Some d) => handleOfDeclaration d
           | _ => handleOfDeclaration stmt
           end)
        body
  | _ => None
  end.

Definition functionParams (fn : Node) : list Node :=
  match fn with
  | FunctionDeclaration _ _ ps _ | FunctionExpression _ ps _
  | ArrowFunctionExpression _ ps _ => ps
  | _ => []
  end.

Definition functionBody (fn : Node) : option Node :=
  match fn with
  | FunctionDeclaration _ _ _ b | FunctionExpression _ _ b
  | ArrowFunctionExpression _ _ b => Some b
  | _ => None
  end.

(** ** The workflow tree *)

Section WorkflowTree.

Variable bubbleScript : string.

(** [bubbleMap]: the [Map] built from [Object.entries(bubbles)]. *)
Variable bubbleMap : BubbleMap.

Fixpoint extractNewExpression (expr : Node) : option Node :=
  match expr with
  | AwaitExpression _ argument => extractNewExpression argument
  | CallExpression _ (MemberExpression _ obj _ _ _) _ =>
      extractNewExpression obj
  | NewExpression _ _ _ => Some expr
  | _ => None
  end.

Definition findBubbleInExpression (expr : Node)
  : option ParsedBubbleWithInfo :=
  match extractNewExpression expr with
  | None => None
  | Some newExpr =>
      find (fun bubble =>
              (startLine (location bubble) =? startLine (locOf newExpr))%Z
              && (endLine (location bubble) =? endLine (locOf newExpr))%Z
              && (Z.abs (startCol (location bubble)
                         - startCol (locOf newExpr)) <=? 5)%Z)
        (values bubbleMap)
  end.

(** The bubble a [VariableDeclaration] stands for: the first declarator
    whose name is the [variableName] of a bubble or whose initialiser is
    located at a bubble. *)
Definition bubbleOfDeclarators (declarations : list Node)
  : option ParsedBubbleWithInfo :=
  firstSome
    (fun decl =>
       match decl with
       | VariableDeclarator _ (Identifier _ name _) (Some init) =>
           match find (fun b => String.eqb (variableName b) name)
                   (values bubbleMap) with
           | Some bubble => Some bubble
           | None => findBubbleInExpression init
           end
       | _ => None
       end)
    declarations.

Definition forCondition (stmt : Node) : string :=
  let text (o : option Node) :=
    match o with
    | Some n => sourceText bubbleScript n
    | None => EmptyString
    end in
  match stmt with
  | ForStatement _ init test update _ =>
      trim (text init ++ "; " ++ text test ++ "; " ++ text update)%string
  | ForInStatement _ lhs rhs _ =>
      (sourceText bubbleScript lhs ++ " in "
         ++ sourceText bubbleScript rhs)%string
  | ForOfStatement _ lhs rhs _ =>
      (sourceText bubbleScript lhs ++ " of "
         ++ sourceText bubbleScript rhs)%string
  | _ => EmptyString
  end.

(** [buildWorkflowNodeFromStatement], with [buildIfNode], [buildForNode],
    [buildWhileNode], [buildTryCatchNode] and [buildCodeBlockNode] inlined
    at the statement kinds that dispatch to them. *)
Fixpoint buildWorkflowNodeFromStatement (stmt : Node) {struct stmt}
  : option WorkflowNode :=
  let statements (l : list Node) : list WorkflowNode :=
    somes (map buildWorkflowNodeFromStatement l) in
  let blockOrSingle (body : Node) : list WorkflowNode :=
    match body with
    | BlockStatement _ l => statements l
    | _ => optList (buildWorkflowNodeFromStatement body)
    end in
  let blockOnly (body : Node) : list WorkflowNode :=
    match body with
    | BlockStatement _ l => statements l
    | _ => []
    end in
  let codeBlock (children : list WorkflowNode) : option WorkflowNode :=
    Some (WCodeBlock (locOf stmt) (sourceText bubbleScript stmt) children) in
  let bubble (b : option ParsedBubbleWithInfo) : option WorkflowNode :=
    match b with
    | Some bb => Some (WBubble (variableId bb))
    | None => codeBlock []
    end in
  match stmt with
  | IfStatement i test consequent alternate =>
      Some (WIf (loc i) (sourceText bubbleScript test)
              (blockOrSingle consequent)
              (option_map blockOrSingle alternate))
  | ForStatement i _ _ _ body | ForInStatement i _ _ body
  | ForOfStatement i _ _ body =>
      Some (WFor (loc i) (forCondition stmt) (blockOrSingle body))
  | WhileStatement i test body =>
      Some (WWhile (loc i) (sourceText bubbleScript test)
              (blockOrSingle body))
  | TryStatement i block handler _ =>
      Some (WTryCatch (loc i) (blockOnly block)
              (option_map
                 (fun h =>
                    match h with
                    | CatchClause _ _ body => blockOnly body
                    | _ => []
                    end)
                 handler))
  | VariableDeclaration _ _ declarations =>
      bubble (bubbleOfDeclarators declarations)
  | ExpressionStatement _ expression =>
      bubble (findBubbleInExpression expression)
  | ReturnStatement _ (Some argument) =>
      bubble (findBubbleInExpression argument)
  | BlockStatement _ body => codeBlock (statements body)
  | _ => codeBlock []
  end.

End WorkflowTree.

Definition buildWorkflowTree (bubbleScript : string) (ast : Node)
           (bubbles : BubbleMap) : ParsedWorkflow :=
  match findHandleFunctionNode ast with
  | Some handleNode =>
      match functionBody handleNode with
      | Some (BlockStatement _ body) =>
          mkWorkflow
            (somes (map (buildWorkflowNodeFromStatement bubbleScript
                           (Object_entries bubbles)) body))
            bubbles
      | _ => mkWorkflow [] bubbles
      end
  | None => mkWorkflow [] bubbles
  end.

(** The traversal used to check a workflow against the bubble map (the
    [collectBubbleIds] helper of the test-suite): every node, its children,
    its [elseBranch] and its [catchBlock]. *)
Fixpoint collectBubbleIds (n : WorkflowNode) : list Z :=
  match n with
  | WBubble v => [v]
  | WIf _ _ children elseBranch =>
      flat_map collectBubbleIds children
      ++ match elseBranch with
         | Some l => flat_map collectBubbleIds l
         | None => []
         end
  | WFor _ _ children | WWhile _ _ children | WCodeBlock _ _ children =>
      flat_map collectBubbleIds children
  | WTryCatch _ children catchBlock =>
      flat_map collectBubbleIds children
      ++ match catchBlock with
         | Some l => flat_map collectBubbleIds l
         | None => []
         end
  end.

Definition workflowBubbleIds (w : ParsedWorkflow) : list Z :=
  flat_map collectBubbleIds (root w).

(** ** The payload schema *)

Definition jget (k : string) (o : JSON) : option JSON :=
  match o with
  | JObj fields => dget String.eqb k fields
  | _ => None
  end.

(** [o[k] = v] on an object *)
Definition jset (k : string) (v : JSON) (o : JSON) : JSON :=
  match o with
  | JObj fields => JObj (dset String.eqb k v fields)
  | _ => o
  end.

(** What a read [o[k]] finds on a plain object: an own value or one
    inherited from the prototype the object has been given, a built-in
    member inherited from [Object.prototype] (a function, or under
    [__proto__] the prototype object itself), or nothing.  The [in]
    operator holds in the first two cases. *)
Inductive Member : Type :=
| MemberValue (v : JSON)
| BuiltinMember
| NoMember.

Fixpoint jsMember (k : string) (o : JSON) {struct o} : Member :=
  match o with
  | JObj fields =>
      (fix scan (l : list (string * JSON)) (inherited : Member) {struct l}
         : Member :=
         match l with
         | [] => inherited
         | (k', v) :: r =>
             if String.eqb k' k then MemberValue v
             else if String.eqb k' "__proto__" then scan r (jsMember k v)
             else scan r inherited
         end)
        fields
        (if isObjectPrototypeName k then BuiltinMember else NoMember)
  | _ => NoMember
  end.

(** [o[k] = v] with a computed key.  Under [__proto__] an object replaces
    the prototype and a primitive value does nothing.  ([null], an array
    or a regular expression would replace the prototype as well; such a
    prototype is not recorded: these values are only assigned by
    [evaluateDefaultExpressionToJSON], to an object whose prototype
    nothing reads afterwards.) *)
Definition jsAssign (k : string) (v : JSON) (fields : list (string * JSON))
  : list (string * JSON) :=
  if String.eqb k "__proto__" then
    match v with
    | JObj _ => dset String.eqb k v fields
    | _ => fields
    end
  else dset String.eqb k v fields.

Definition indexed (l : list JSON) : list (string * JSON) :=
  combine (map string_of_nat (List.seq 0 (length l))) l.

(** [{...x}]: the own enumerable properties of what a read has found: the
    own properties of an object, the elements of an array and the
    characters of a string under their indices, and nothing for any other
    value or for a built-in member. *)
Definition spreadOf (x : Member) : list (string * JSON) :=
  match x with
  | MemberValue (JObj fields) => ownEntries fields
  | MemberValue (JArr l) => indexed l
  | MemberValue (JStr s) =>
      indexed (map (fun c => JStr (String c EmptyString)) (chars s))
  | _ => []
  end.


Definition jkeys (o : JSON) : list string :=
  match o with
  | JObj fields => keys fields
  | _ => []
  end.

Definition emptyObject : JSON := JObj [].

Definition typeSchema (t : string) : JSON := JObj [("type", JStr t)].

(** [eventKeyToSchema] *)
Definition eventKeyToSchema (eventKey : string) : option JSON :=
  if String.eqb eventKey "slack/bot_mentioned" then
    Some (JObj
      [("type", JStr "object");
       ("properties", JObj
          [("text", typeSchema "string");
           ("channel", typeSchema "string");
           ("thread_ts", typeSchema "string");
           ("user", typeSchema "string");
           ("slack_event", typeSchema "object");
           ("monthlyLimitError", emptyObject)]);
       ("required",
        JArr [JStr "text"; JStr "channel"; JStr "user"; JStr "slack_event"])])
  else if String.eqb eventKey "webhook/http" then
    Some (JObj
      [("type", JStr "object");
       ("properties", JObj [("body", typeSchema "object")])])
  else if String.eqb eventKey "schedule/cron" then
    Some (JObj
      [("type", JStr "object");
       ("properties", JObj [("body", typeSchema "object")])])
  else if String.eqb eventKey "slack/message_received" then
    Some (JObj
      [("type", JStr "object");
       ("properties", JObj
          [("text", typeSchema "string");
           ("channel", typeSchema "string");
           ("user", typeSchema "string");
           ("channel_type", typeSchema "string");
           ("slack_event", typeSchema "object")]);
       ("required",
        JArr [JStr "text"; JStr "channel"; JStr "user"; JStr "slack_event"])])
  else None.

(** The name of a property key: an identifier, or a string literal; an
    empty name counts as absent ([if (!keyName)]). *)
Definition propKeyName (k : PropKey) : option string :=
  match k with
  | KeyIdent name => truthyString name
  | KeyLit (LStr s) => truthyString s
  | _ => None
  end.

Definition nodeKeyName (k : Node) : option string :=
  match k with
  | Identifier _ name _ => truthyString name
  | Literal _ (LStr s) => truthyString s
  | _ => None
  end.

(** The same-file declaration a type name resolves to
    ([resolveTypeNameToJson]): the members of an interface or the
    annotation of a type alias, exported or not. *)
Inductive TypeDecl : Type :=
| InterfaceBody (members : list TypeMember)
| AliasOf (t : TypeNode).

Definition typeDeclNamed (name : string) (d : Node) : option TypeDecl :=
  match d with
  | TSInterfaceDeclaration _ n members =>
      if String.eqb n name then Some (InterfaceBody members) else None
  | TSTypeAliasDeclaration _ n t =>
      if String.eqb n name then Some (AliasOf t) else None
  | _ => None
  end.

Definition resolveTypeName (name : string) (ast : Node) : option TypeDecl :=
  match ast with
  | Program _ body =>
      firstSome
        (fun stmt =>
           match typeDeclNamed name stmt with
           | Some d => Some d
           | None =>
               match stmt with
               | ExportNamedDeclaration _ (Some d) => typeDeclNamed name d
               | _ => None
               end
           end)
        body
  | _ => None
  end.

Fixpoint mapM {A B} (f : A -> Result B) (l : list A) : Result (list B) :=
  match l with
  | [] => Ok []
  | a :: r => do b <- f a; do bs <- mapM f r; Ok (b :: bs)
  end.

Section PayloadSchema.

Variable bubbleScript : string.
Variable ast : Node.

Definition stackOverflow {A} : Result A :=
  Throw "Maximum call stack size exceeded".

(** One member of the loop of [objectTypeToJsonSchema]: [st] holds the
    properties and the required names collected so far, [convert] is
    [tsTypeToJsonSchema]. *)
Definition objectMember (convert : TypeNode -> Result JSON)
           (st : list (string * JSON) * list string) (m : TypeMember)
  : Result (list (string * JSON) * list string) :=
  match m with
  | TSPropertySignature line key typeAnnotation optional =>
      match propKeyName key with
      | None => Ok st
      | Some keyName =>
          do propSchema <-
            match typeAnnotation with
            | Some t => convert t
            | None => Ok emptyObject
            end;
          let propSchema :=
            match extractCommentForLine bubbleScript line with
            | Some d => jset "description" (JStr d) propSchema
            | None => propSchema
            end in
          Ok (jsAssign keyName propSchema (fst st),
              if optional then snd st else snd st ++ [keyName])
      end
  | TSOtherMember => Ok st
  end.

(** [objectTypeToJsonSchema] *)
Definition objectTypeToJsonSchema (convert : TypeNode -> Result JSON)
           (elements : list TypeMember) : Result JSON :=
  do acc <-
    fold_left (fun acc m => do st <- acc; objectMember convert st m)
      elements (Ok ([], []));
  let schema :=
    [("type", JStr "object"); ("properties", JObj (fst acc))] in
  Ok (JObj (match snd acc with
            | [] => schema
            | _ :: _ => schema ++ [("required", JArr (map JStr (snd acc)))]
            end)).

(** [tsTypeToJsonSchema].  A type alias may refer to itself, in which case
    the source recurses until the stack overflows; [fuel] bounds the depth
    of the recursion. *)
Fixpoint tsTypeToJsonSchema (fuel : nat) (typeNode : TypeNode) : Result JSON :=
  match fuel with
  | O => stackOverflow
  | S fuel' =>
      match typeNode with
      | TSStringKeyword => Ok (typeSchema "string")
      | TSNumberKeyword => Ok (typeSchema "number")
      | TSBooleanKeyword => Ok (typeSchema "boolean")
      | TSNullKeyword => Ok (typeSchema "null")
      | TSAnyKeyword | TSUnknownKeyword | TSUndefinedKeyword => Ok emptyObject
      | TSLiteralType (Some v) => Ok (JObj [("const", litToJSON v)])
      | TSLiteralType None => Ok emptyObject
      | TSArrayType elementType =>
          do items <- tsTypeToJsonSchema fuel' elementType;
          Ok (JObj [("type", JStr "array"); ("items", items)])
      | TSUnionType types =>
          do anyOf <- mapM (tsTypeToJsonSchema fuel') types;
          Ok (JObj [("anyOf", JArr anyOf)])
      | TSIntersectionType types =>
          do allOf <- mapM (tsTypeToJsonSchema fuel') types;
          Ok (JObj [("allOf", JArr allOf)])
      | TSTypeLiteral members =>
          objectTypeToJsonSchema (tsTypeToJsonSchema fuel') members
      | TSIndexedAccessType (TSTypeReference (Some "BubbleTriggerEventRegistry"))
          (TSLiteralType (Some (LStr eventKey))) =>
          match eventKeyToSchema eventKey with
          | Some schema => Ok schema
          | None => Ok emptyObject
          end
      | TSIndexedAccessType _ _ => Ok emptyObject
      | TSTypeReference (Some name) =>
          match resolveTypeName name ast with
          | Some (InterfaceBody members) =>
              objectTypeToJsonSchema (tsTypeToJsonSchema fuel') members
          | Some (AliasOf t) => tsTypeToJsonSchema fuel' t
          | None => Ok emptyObject
          end
      | TSTypeReference None => Ok emptyObject
      | TSOtherType => Ok emptyObject
      end
  end.

(** [evaluateDefaultExpressionToJSON]; [None] is [undefined]. *)
Definition evaluateDefaultExpressionToJSON (expr : Node) : option JSON :=
  match expr with
  | Literal _ v => Some (litToJSON v)
  | TemplateLiteral _ quasis [] =>
      Some (JStr (String.concat EmptyString
                    (map (fun q => match q with
                                   | Some cooked => cooked
                                   | None => EmptyString
                                   end) quasis)))
  | TemplateLiteral _ _ (_ :: _) => None
  | UnaryExpression _ operator (Literal _ v) =>
      match v with
      | LNum num =>
          if String.eqb operator "-" then Some (JNum (- num))
          else if String.eqb operator "+" then Some (JNum num)
          else None
      | LBool b =>
          if String.eqb operator "!" then Some (JBool (negb b)) else None
      | _ => None
      end
  | UnaryExpression _ _ _ => None
  | ArrayExpression _ elements =>
      option_map JArr
        (fold_right
           (fun el acc =>
              match el, acc with
              | Some (Literal _ v), Some out => Some (litToJSON v :: out)
              | _, _ => None
              end)
           (Some []) elements)
  | ObjectExpression _ properties =>
      option_map JObj
        (fold_left
           (fun acc p =>
              match acc, p with
              | Some obj, Property _ key (Literal _ v) _ =>
                  match nodeKeyName key with
                  | Some pk => Some (jsAssign pk (litToJSON v) obj)
                  | None => None
                  end
              | _, _ => None
              end)
           properties (Some []))
  | _ => None
  end.

(** [getFirstParamIdentifierName] *)
Definition getFirstParamIdentifierName (firstParam : Node) : option string :=
  match firstParam with
  | Identifier _ name _ => Some name
  | AssignmentPattern _ (Identifier _ name _) _ => Some name
  | RestElement _ (Identifier _ name _) => Some name
  | _ => None
  end.

(** The destructured properties of the handle parameter: for every
    top-level [VariableDeclaration] of the body, every declarator whose
    pattern is an object pattern and whose initialiser is the identifier
    [paramName], every [Property] of that pattern with a usable key, paired
    with the evaluated default when the property's value is an
    [AssignmentPattern]. *)
Definition destructuredDefaults (paramName : string) (body : list Node)
  : list (string * option JSON) :=
  flat_map
    (fun stmt =>
       match stmt with
       | VariableDeclaration _ _ declarations =>
           flat_map
             (fun decl =>
                match decl with
                | VariableDeclarator _ (ObjectPattern _ properties)
                    (Some (Identifier _ initName _)) =>
                    if String.eqb initName paramName then
                      flat_map
                        (fun prop =>
                           match prop with
                           | Property _ key value _ =>
                               match nodeKeyName key with
                               | None => []
                               | Some keyName =>
                                   match value with
                                   | AssignmentPattern _ _ defExpr =>
                                       [(keyName,
                                         evaluateDefaultExpressionToJSON
                                           defExpr)]
                                   | _ => [(keyName, None)]
                                   end
                               end
                           | _ => []
                           end)
                        properties
                    else []
                | _ => []
                end)
             declarations
       | _ => []
       end)
    body.

(** [if (evaluated !== undefined && !(keyName in defaults))
       defaults[keyName] = evaluated] *)
Definition recordDefault (defaults : list (string * JSON))
           (entry : string * option JSON) : list (string * JSON) :=
  match snd entry with
  | Some evaluated =>
      match jsMember (fst entry) (JObj defaults) with
      | NoMember => jsAssign (fst entry) evaluated defaults
      | _ => defaults
      end
  | None => defaults
  end.

(** [extractPayloadDefaultsFromHandle]; [None] is [null]. *)
Definition extractPayloadDefaultsFromHandle (handleNode : Node)
  : option (list (string * JSON)) :=
  match functionParams handleNode with
  | [] => None
  | firstParam :: _ =>
      match getFirstParamIdentifierName firstParam with
      | None => None
      | Some paramName =>
          if isEmptyString paramName then None
          else
            match functionBody handleNode with
            | Some (BlockStatement _ body) =>
                let defaults :=
                  fold_left recordDefault
                    (destructuredDefaults paramName body) [] in
                match ownKeys defaults with
                | [] => None
                | _ :: _ => Some defaults
                end
            | _ => None
            end
      end
  end.

Definition firstParamTypeAnnotation (firstParam : Node) : option TypeNode :=
  match firstParam with
  | Identifier _ _ t => t
  | AssignmentPattern _ (Identifier _ _ t) _ => t
  | RestElement _ (Identifier _ _ t) => t
  | _ => None
  end.

(** The loop of [getPayloadJsonSchema] that attaches the defaults, over
    [Object.entries(defaults)]:
    [if (key in props) props[key] = {...props[key], default: defVal}]. *)
Definition attachDefaults (defaults : list (string * JSON))
           (props : list (string * JSON)) : list (string * JSON) :=
  fold_left
    (fun props entry =>
       match jsMember (fst entry) (JObj props) with
       | NoMember => props
       | current =>
           jsAssign (fst entry)
             (JObj (dset String.eqb "default" (snd entry) (spreadOf current)))
             props
       end)
    (ownEntries defaults) props.

(** [getPayloadJsonSchema]; [Ok None] is [null]. *)
Definition getPayloadJsonSchema (fuel : nat) : Result (option JSON) :=
  match findHandleFunctionNode ast with
  | None => Ok None
  | Some handleNode =>
      match functionParams handleNode with
      | [] => Ok None
      | firstParam :: _ =>
          match firstParamTypeAnnotation firstParam with
          | None => Ok (Some emptyObject)
          | Some typeAnn =>
              do schema <- tsTypeToJsonSchema fuel typeAnn;
              match extractPayloadDefaultsFromHandle handleNode,
                    jget "properties" schema with
              | Some defaults, Some (JObj props) =>
                  Ok (Some (jset "properties"
                              (JObj (attachDefaults defaults props)) schema))
              | _, _ => Ok (Some schema)
              end
          end
      end
  end.

End PayloadSchema.

(** ** [parseBubblesFromAST] *)

(** The number of nested calls [buildDependencyGraph] is given: one more
    than the number of names that can ever be expanded. *)
Definition graphFuel (bubbleFactory : BubbleFactory) : nat :=
  S (S (length (registry bubbleFactory))).

Section ParseBubbles.

Variable bubbleScript : string.

(** [parseToolsParamValue] of [utils/parameter-formatter] is not among the
    sources; it is taken as given: it reads the text of a [tools] parameter
    and returns the array of tools, each with its [name] if it has one. *)
Variable parseToolsParamValue : string -> option (list (option string)).

Definition rootAIAgentTools (bubble : ParsedBubbleWithInfo)
  : option (list string) :=
  if String.eqb (bubbleName bubble) "ai-agent" then
    match find (fun p => String.eqb (paramName p) "tools")
            (parameters bubble) with
    | Some toolsParam =>
        option_map (@somes string)
          (parseToolsParamValue (paramValue toolsParam))
    | None => None
    end
  else None.

Definition attachDependencyGraph (bubbleFactory : BubbleFactory)
           (entry : Z * ParsedBubbleWithInfo)
  : Result (Z * ParsedBubbleWithInfo) :=
  let bubble := snd entry in
  match buildDependencyGraph (graphFuel bubbleFactory) bubbleFactory
          (bubbleName bubble) [] (rootAIAgentTools bubble)
          (string_of_Z (variableId bubble)) []
          (Some (variableId bubble)) true (Some (variableName bubble)) with
  | Some (graph, _) => Ok (fst entry, withDependencyGraph bubble graph)
  | None => stackOverflow
  end.

(** [parseBubblesFromAST]: the bubble map and the workflow.  The flat
    [dependencies] list and [instanceMethodsLocation] are not modelled. *)
Definition parseBubblesFromAST (bubbleFactory : BubbleFactory) (ast : Node)
           (scopeManager : ScopeManager)
  : Result (BubbleMap * ParsedWorkflow) :=
  let classNameToInfo := buildClassNameLookup bubbleFactory in
  match classNameToInfo with
  | [] =>
      Throw ("Failed to trace bubble dependencies: "
               ++ "No bubbles found in BubbleFactory")%string
  | _ :: _ =>
      do located <- visitNode bubbleScript classNameToInfo scopeManager ast [];
      do nodes <- mapM (attachDependencyGraph bubbleFactory) located;
      Ok (nodes, buildWorkflowTree bubbleScript ast nodes)
  end.

End ParseBubbles.

(* ================================================================== *)
(** * 6. [BubbleScript] (parse/BubbleScript.ts) *)
(* ================================================================== *)

Record BubbleScript := mkScript {
  ast : Node;
  scopeManager : ScopeManager;
  parsedBubbles : BubbleMap;
  originalParsedBubbles : BubbleMap;
  workflow : ParsedWorkflow;
  scriptVariables : list (Z * ScopeVariable);
  variableLocations : list (Z * Loc);
  bubbleScript : string;
  bubbleFactory : BubbleFactory;
  currentBubbleScript : string;
  trigger : BubbleTrigger
}.

(** ** Visible variables *)

Definition globalNames : list string :=
  ["console"; "Array"; "Object"; "String"; "Number"; "Boolean"; "Date";
   "Math"; "JSON"; "Promise"; "Error"; "Function"; "Symbol"; "Map"; "Set";
   "WeakMap"; "WeakSet"; "Proxy"; "Reflect"; "Buffer"; "process"; "global";
   "require"; "__dirname"; "__filename"; "module"; "exports";
   "Intl"; "SymbolConstructor"; "ArrayConstructor"; "MapConstructor";
   "SetConstructor"; "PromiseConstructor"; "ErrorConstructor"; "RegExp";
   "PropertyKey"; "PropertyDescriptor"; "Partial"; "Required"; "Readonly";
   "Pick"; "Record"; "Exclude"; "Extract"; "Omit"; "NonNullable"].

Definition isGlobalVariable (variable : ScopeVariable) : bool :=
  existsb (String.eqb (varName variable)) globalNames
  || String.eqb (varScopeType variable) "global"
  || includes "Constructor" (varName variable)
  || includes "Array" (varName variable)
  || includes "Iterator" (varName variable)
  || startsWith "Disposable" (varName variable)
  || startsWith "Async" (varName variable)
  || includes "Decorator" (varName variable).

Definition isVariableDeclaredBeforeLine (variable : ScopeVariable)
           (lineNumber : Z) : bool :=
  match defs variable with
  | [] => true
  | declarations =>
      existsb (fun def =>
                 match def with
                 | Some l => (startLine l <=? lineNumber)%Z
                 | None => false
                 end)
        declarations
  end.

(** [Array.prototype.sort] with a comparator: a stable insertion sort. *)
Fixpoint insertSorted {A} (cmp : A -> A -> Z) (a : A) (l : list A) : list A :=
  match l with
  | [] => [a]
  | b :: r =>
      if (cmp b a <=? 0)%Z then b :: insertSorted cmp a r else a :: l
  end.

Definition sortBy {A} (cmp : A -> A -> Z) (l : list A) : list A :=
  fold_left (fun acc a => insertSorted cmp a acc) l [].

Definition scopePriority (t : string) : Z :=
  if String.eqb t "block" then 5
  else if String.eqb t "for" then 4
  else if String.eqb t "function" then 3
  else if String.eqb t "module" then 2
  else if String.eqb t "global" then 1
  else 0.

Definition scopeRange (s : Scope) : Z :=
  (endLine (scopeBlock s) - startLine (scopeBlock s))%Z.

Definition compareScopes (a b : Scope) : Z :=
  if negb (scopeRange a =? scopeRange b)%Z
  then (scopeRange a - scopeRange b)%Z
  else (scopePriority (scopeType b) - scopePriority (scopeType a))%Z.

Definition getAllScopesContainingLine (sm : ScopeManager) (lineNumber : Z)
  : list Scope :=
  sortBy compareScopes (filter (scopeContainsLine lineNumber) sm).

(** [allAccessibleVars.add(variable)]: a [Set] of variable objects in
    insertion order.  The set compares objects by identity; the model
    compares their [$id]s, which the scope analysis gives to exactly one
    variable object each.  The two agree on the scope graphs in which
    equal ids mean equal variables ([uniqueIds] below), and the properties
    of [getVarsForLine] are stated for those. *)
Definition setAdd (s : list ScopeVariable) (v : ScopeVariable)
  : list ScopeVariable :=
  if existsb (fun w => (varId w =? varId v)%Z) s then s else s ++ [v].

Definition getVarsForLine (sm : ScopeManager) (lineNumber : Z)
  : list ScopeVariable :=
  let containingScopes := getAllScopesContainingLine sm lineNumber in
  let allAccessibleVars :=
    fold_left
      (fun acc scope =>
         fold_left setAdd (flat_map scopeVariables (scopeChain scope)) acc)
      containingScopes [] in
  filter (fun variable => isVariableDeclaredBeforeLine variable lineNumber)
    (filter (fun variable => negb (isGlobalVariable variable))
       allAccessibleVars).

(** ** Variable table *)

(** [extractVariableLocation] *)
Definition extractVariableLocation (variable : ScopeVariable) : option Loc :=
  match defs variable with
  | Some l :: _ => Some l
  | _ => None
  end.

(** [buildVariableMapping]: the variable table and the location table. *)
Definition buildVariableMapping (sm : ScopeManager)
  : list (Z * ScopeVariable) * list (Z * Loc) :=
  fold_left
    (fun acc variable =>
       if isGlobalVariable variable then acc
       else
         (dset Z.eqb (varId variable) variable (fst acc),
          match extractVariableLocation variable with
          | Some l => dset Z.eqb (varId variable) l (snd acc)
          | None => snd acc
          end))
    (flat_map scopeVariables sm) ([], []).

(** ** The trigger *)

Definition isQuote (c : ascii) : bool :=
  Ascii.eqb c squote || Ascii.eqb c dquote || Ascii.eqb c bquote.

(** The fallback pattern over the source text: [extends], white space,
    [BubbleFlow], an opening angle bracket, a quote (group 1), the event
    key (group 2, one or more characters none of which is a quote), the
    same quote again, a closing angle bracket; white space is allowed
    around the brackets. *)
Definition reExtendsBubbleFlow : re :=
  seq [Lit "extends"; Plus ws; Lit "BubbleFlow"; Star ws; Lit "<"; Star ws;
       Grp 1 (Chr isQuote); Grp 2 (Plus (Chr (fun c => negb (isQuote c))));
       Ref 1; Star ws; Lit ">"].

(** [readonly], white space, [cronSchedule], an equals sign, a quote, the
    expression (group 1, quote-free), a quote. *)
Definition reCronSchedule : re :=
  seq [Lit "readonly"; Plus ws; Lit "cronSchedule"; Star ws; Lit "=";
       Star ws; Chr isQuote; Grp 1 (Plus (Chr (fun c => negb (isQuote c))));
       Chr isQuote].

(** The [cronSchedule] class field: the first property definition of that
    name whose value is a string literal. *)
Definition cronScheduleOfMembers (members : list Node) : option string :=
  firstSome
    (fun member =>
       match member with
       | PropertyDefinition _ (Identifier _ "cronSchedule" _)
           (Some (Literal _ (LStr v))) => Some v
       | _ => None
       end)
    members.

(** The local function [tryClass] of [getBubbleTriggerEventType]. *)
Definition tryClass (cls : Node) : option BubbleTrigger :=
  match cls with
  | ClassDeclaration _ _ (Some (Identifier _ "BubbleFlow" _))
      (TSLiteralType (Some (LStr eventType)) :: _) members =>
      if isEmptyString eventType then None
      else
        Some (mkTrigger eventType
                (if String.eqb eventType "schedule/cron"
                 then cronScheduleOfMembers members
                 else None))
  | _ => None
  end.

(** What the loop of [getBubbleTriggerEventType] finds at one top-level
    statement: a class declaration, exported or not, is tried. *)
Definition triggerOfStatement (stmt : Node) : option BubbleTrigger :=
  match stmt with
  | ClassDeclaration _ _ _ _ _ => tryClass stmt
  | ExportNamedDeclaration _ (Some (ClassDeclaration _ _ _ _ _ as d)) =>
      tryClass d
  | _ => None
  end.

Definition triggerFromSource (script : string) : option BubbleTrigger :=
  match exec reExtendsBubbleFlow script with
  | Some mt =>
      match group 2 mt with
      | Some eventType =>
          Some (mkTrigger eventType
                  (if String.eqb eventType "schedule/cron" then
                     match exec reCronSchedule script with
                     | Some cronMatch => group 1 cronMatch
                     | None => None
                     end
                   else None))
      | None => None
      end
  | None => None
  end.

(** [getBubbleTriggerEventType], as a function of [this.ast] and
    [this.currentBubbleScript]. *)
Definition detectTrigger (ast : Node) (currentBubbleScript : string)
  : option BubbleTrigger :=
  let fromAst :=
    match ast with
    | Program _ body => firstSome triggerOfStatement body
    | _ => None
    end in
  match fromAst with
  | Some t => Some t
  | None => triggerFromSource currentBubbleScript
  end.

Definition getBubbleTriggerEventType (this : BubbleScript)
  : option BubbleTrigger :=
  detectTrigger (ast this) (currentBubbleScript this).

(** ** Mutation of the source buffer *)

Definition setCurrentBubbleScript (this : BubbleScript) (text : string)
  : BubbleScript :=
  mkScript (ast this) (scopeManager this) (parsedBubbles this)
    (originalParsedBubbles this) (workflow this) (scriptVariables this)
    (variableLocations this) (bubbleScript this) (bubbleFactory this)
    text (trigger this).

(** The class of the value part of an assignment: any character except a
    semicolon, a comma and a line feed. *)
Definition isValueChar (c : ascii) : bool :=
  negb (Ascii.eqb c ";"%char || Ascii.eqb c ","%char || Ascii.eqb c nl).

(** The declaration pattern built by [reassignVariable]: group 1 is a word
    boundary, one of [const], [let], [var], white space, the variable name,
    an equals sign with optional white space around it; group 2 is the
    value.  The name goes through [escapeRegExp], so it matches itself
    literally. *)
Definition variablePattern (name : string) : re :=
  seq [Grp 1 (seq [WordB; Alt (Lit "const") (Alt (Lit "let") (Lit "var"));
                   Plus ws; Lit name; Star ws; Lit "="; Star ws]);
       Grp 2 (Plus (Chr isValueChar))].

(** The bare assignment pattern: as above without the keyword. *)
Definition assignmentPattern (name : string) : re :=
  seq [Grp 1 (seq [WordB; Lit name; Star ws; Lit "="; Star ws]);
       Grp 2 (Plus (Chr isValueChar))].

(** [lines[index] = value] for an index inside the array. *)
Fixpoint setNth {A} (n : nat) (a : A) (l : list A) : list A :=
  match n, l with
  | O, _ :: r => a :: r
  | S n', x :: r => x :: setNth n' a r
  | _, [] => []
  end.

(** [lines[lineIndex]]: [None] is [undefined]. *)
Definition lineAt (lines : list string) (lineIndex : Z) : option string :=
  if (lineIndex <? 0)%Z then None else nth_error lines (Z.to_nat lineIndex).

Definition reassignVariable (this : BubbleScript) (variableId : Z)
           (newValue : string) : Result string * BubbleScript :=
  match dget Z.eqb variableId (scriptVariables this) with
  | None =>
      (Throw ("Variable with ID " ++ string_of_Z variableId
                ++ " not found")%string, this)
  | Some variable =>
      match dget Z.eqb variableId (variableLocations this) with
      | None =>
          (Throw ("Location for variable " ++ varName variable ++ " (ID: "
                    ++ string_of_Z variableId ++ ") not found")%string, this)
      | Some location =>
          let lines := split_nl (currentBubbleScript this) in
          let lineIndex := (startLine location - 1)%Z in
          let originalLine := lineAt lines lineIndex in
          (* a regular expression tested against [undefined] sees the
             text of that word *)
          let subject :=
            match originalLine with
            | Some l => l
            | None => "undefined"
            end in
          let rewrite (pattern : re) : Result string * BubbleScript :=
            match originalLine with
            | Some l =>
                let newLine :=
                  replaceAll 2 pattern ("$1" ++ newValue)%string l in
                let text :=
                  join NL (setNth (Z.to_nat lineIndex) newLine lines) in
                (Ok text, setCurrentBubbleScript this text)
            | None =>
                (Throw "Cannot read properties of undefined (reading 'replace')",
                 this)
            end in
          if test (variablePattern (varName variable)) subject then
            rewrite (variablePattern (varName variable))
          else if test (assignmentPattern (varName variable)) subject then
            rewrite (assignmentPattern (varName variable))
          else
            (Throw ("Could not find variable assignment pattern for "
                      ++ varName variable ++ " on line "
                      ++ string_of_Z (startLine location))%string, this)
      end
  end.

Definition injectLines (this : BubbleScript) (lines : list string)
           (lineNumber : Z) : Result string * BubbleScript :=
  if (lineNumber <? 1)%Z then
    (Throw "Line number must be 1 or greater", this)
  else
    let scriptLines := split_nl (currentBubbleScript this) in
    let insertIndex := Z.to_nat (lineNumber - 1) in
    if (length scriptLines <? insertIndex)%nat then
      (Throw ("Line number " ++ string_of_Z lineNumber
                ++ " exceeds script length ("
                ++ string_of_nat (length scriptLines) ++ " lines)")%string,
       this)
    else
      let text :=
        join NL (firstn insertIndex scriptLines ++ lines
                   ++ skipn insertIndex scriptLines) in
      (Ok text, setCurrentBubbleScript this text).

(** ** Construction and re-parsing

    The parser and the scope analysis are libraries.  [parse] turns source
    text into a tree or throws a syntax error.  The scope analysis numbers
    the variables it creates with a module-level counter, which is global
    mutable state shared by every [BubbleScript]: [analyze] takes the
    current counter and returns the scope graph together with the counter
    it leaves behind. *)

Section Construction.

Variable parse : string -> Result Node.
Variable analyze : Node -> Z -> ScopeManager * Z.
Variable parseToolsParamValue : string -> option (list (option string)).

(** Modelled from the spec: [resetIds] of [@bubblelab/ts-scope-manager] is
    not among the sources; the spec describes it as resetting the id
    counter before a parse. *)
Definition resetIds (counter : Z) : Z := 0%Z.

Definition defaultTrigger : BubbleTrigger := mkTrigger "webhook/http" None.

(** [new BubbleScript(bubbleScript, bubbleFactory)], started with the
    global id counter at [counter]. *)
Definition newBubbleScript (script : string) (factory : BubbleFactory)
           (counter : Z) : Result BubbleScript * Z :=
  let counter := resetIds counter in
  match parse script with
  | Throw msg => (Throw msg, counter)
  | Ok tree =>
      let '(sm, counter') := analyze tree counter in
      let '(vars, locs) := buildVariableMapping sm in
      match parseBubblesFromAST script parseToolsParamValue factory tree sm
      with
      | Throw msg => (Throw msg, counter')
      | Ok (found, wf) =>
          (Ok (mkScript tree sm found found wf vars locs script factory
                 script
                 (match detectTrigger tree script with
                  | Some t => t
                  | None => defaultTrigger
                  end)),
           counter')
      end
  end.

(** [reparseAST()] *)
Definition reparseAST (this : BubbleScript) (counter : Z)
  : Result BubbleScript * Z :=
  let counter := resetIds counter in
  match parse (currentBubbleScript this) with
  | Throw msg => (Throw msg, counter)
  | Ok tree =>
      let '(sm, counter') := analyze tree counter in
      let '(vars, locs) := buildVariableMapping sm in
      match parseBubblesFromAST (currentBubbleScript this)
              parseToolsParamValue (bubbleFactory this) tree sm with
      | Throw msg => (Throw msg, counter')
      | Ok (found, wf) =>
          (Ok (mkScript tree sm found (originalParsedBubbles this) wf vars
                 locs (bubbleScript this) (bubbleFactory this)
                 (currentBubbleScript this)
                 (match detectTrigger tree (currentBubbleScript this) with
                  | Some t => t
                  | None => defaultTrigger
                  end)),
           counter')
      end
  end.

End Construction.

(* ================================================================== *)
(** * 7. Validation with extraction (validation/index.ts) *)
(* ================================================================== *)

Record ValidationAndExtractionResult := mkValidation {
  valid : bool;
  errors : option (list string);
  bubbleParameters : option BubbleMap;
  resultWorkflow : option ParsedWorkflow;
  inputSchema : option JSON;
  resultTrigger : option BubbleTrigger;
  requiredCredentials : option (list (string * list string))
}.

Definition invalid (errs : list string) : ValidationAndExtractionResult :=
  mkValidation false (Some errs) None None None None None.

Definition missingTriggerMessage : string := "Missing trigger event".

Definition missingCronMessage : string :=
  "Missing cron schedule, please define it with the readonly cronSchedule property inside the BubbleFlow class. Ex. readonly cronSchedule = '0 0 * * *';".

Definition invalidCronMessage : string :=
  "Invalid cron schedule, please define it with the readonly cronSchedule property inside the BubbleFlow class. Ex. readonly cronSchedule = '0 0 * * *';".

(** ** The checks before extraction

    [validateScript] of the validation module is not among the sources.
    Its result is read through [success] and through [errors] (here
    [scriptErrors]), a record from line numbers to messages. *)
Record ScriptValidation := mkScriptValidation {
  success : bool;
  scriptErrors : option (list (Z * string))
}.

Definition importFromCore (quote : ascii) : string :=
  ("from " ++ String quote ("@bubblelab/bubble-core"
                              ++ String quote EmptyString))%string.

(** [class], a name (group 1), [extends BubbleFlow], with white space
    between the words. *)
Definition reBubbleFlowClass : re :=
  seq [Lit "class"; Plus ws; Grp 1 (Plus (Chr isWord)); Plus ws;
       Lit "extends"; Plus ws; Lit "BubbleFlow"].

(** The expression built from the class name: the class header, any
    characters (line feeds included), then [async handle] and an opening
    parenthesis.  The source repeats the characters lazily; the
    expression is only tested, and whether it matches does not depend on
    that. *)
Definition reHandleMethod (className : string) : re :=
  seq [Lit "class"; Plus ws; Lit className; Plus ws; Lit "extends"; Plus ws;
       Lit "BubbleFlow"; Star (Chr (fun _ => true)); Lit "async"; Plus ws;
       Lit "handle"; Star ws; Lit "("].

(** [validateBubbleFlowStructure] *)
Definition validateBubbleFlowStructure (code : string) : list string :=
  let errors :=
    if negb (includes (importFromCore squote) code)
       && negb (includes (importFromCore dquote) code)
    then ["Missing BubbleFlow import from @bubblelab/bubble-core"]
    else [] in
  match exec reBubbleFlowClass code with
  | None => errors ++ ["Code must contain a class that extends BubbleFlow"]
  | Some bubbleFlowMatch =>
      let className :=
        match group 1 bubbleFlowMatch with
        | Some name => name
        | None => "undefined"
        end in
      let errors :=
        if negb (test (reHandleMethod className) code)
        then errors ++ ["does not implement inherited abstract member"]
        else errors in
      if negb (includes ("export class " ++ className) code)
      then errors ++ [("Class " ++ className ++ " must be exported")%string]
      else errors
  end.

Definition isStraightQuote (c : ascii) : bool :=
  Ascii.eqb c squote || Ascii.eqb c dquote.

(** [import], a brace list (group 1: one or more characters other than a
    closing brace), [from] and the quoted module name
    [@nodex/bubble-core]. *)
Definition reNodexImport : re :=
  seq [Lit "import"; Star ws; Lit "{";
       Grp 1 (Plus (Chr (fun c => negb (Ascii.eqb c "}"%char)))); Lit "}";
       Star ws; Lit "from"; Star ws; Chr isStraightQuote;
       Lit "@nodex/bubble-core"; Chr isStraightQuote].

(** White space, [as], white space, a word. *)
Definition reAlias : re :=
  seq [Plus ws; Lit "as"; Plus ws; Plus (Chr isWord)].

(** [new], a class name ending in [Bubble] (group 1) and an opening
    parenthesis. *)
Definition reBubbleInstantiation : re :=
  seq [Lit "new"; Plus ws; Grp 1 (seq [Plus (Chr isWord); Lit "Bubble"]);
       Star ws; Lit "("].

(** [validateBubbleUsage] *)
Definition validateBubbleUsage (code : string) : list string :=
  match exec reNodexImport code with
  | None => []
  | Some importMatch =>
      let importedBubbles :=
        filter (fun item => negb (String.eqb item "BubbleFlow"))
          (map (replaceFirst 0 reAlias EmptyString)
             (filter (endsWith "Bubble")
                (map trim
                   (splitOn ","%char
                      (match group 1 importMatch with
                       | Some list => list
                       | None => EmptyString
                       end))))) in
      flat_map
        (fun mt =>
           let bubbleClass :=
             match group 1 mt with
             | Some name => name
             | None => "undefined"
             end in
           if existsb (String.eqb bubbleClass) importedBubbles then []
           else
             [("Unregistered bubble class: " ++ bubbleClass
                 ++ ". All bubble classes must be imported from @bubblelab/bubble-core")%string])
        (execAll reBubbleInstantiation code)
  end.

Section Validation.

Variable parse : string -> Result Node.
Variable analyze : Node -> Z -> ScopeManager * Z.
Variable parseToolsParamValue : string -> option (list (option string)).

(** [validateCronExpression] of the shared schemas is not among the
    sources; it is taken as given.  It is called on the cron schedule even
    when the schedule is [undefined] ([None]); it returns the [valid] flag
    of its result, or throws. *)
Variable validateCronExpression : option string -> Result bool.

(** [validateScript], taken as given: its result, or the exception it
    throws. *)
Variable validateScript : string -> Result ScriptValidation.

(** [BubbleInjector.findCredentials], taken as given: per bubble id, the
    credential types it needs. *)
Variable findCredentials : BubbleScript -> Result (list (Z * list string)).

(** The recursion depth available to the schema inference. *)
Variable stackDepth : nat.

(** The errors that steps 1 to 3 of [validateBubbleFlow] collect, or the
    single message of an exception caught there. *)
Definition collectValidationErrors (code : string) : list string :=
  match validateScript code with
  | Throw msg => [msg]
  | Ok validationResult =>
      (if success validationResult then []
       else
         match scriptErrors validationResult with
         | Some errs =>
             map (fun entry =>
                    ("line " ++ string_of_Z (fst entry) ++ ": "
                       ++ snd entry)%string)
               (Object_entries errs)
         | None => []
         end)
      ++ validateBubbleFlowStructure code
      ++ validateBubbleUsage code
  end.

Definition validateBubbleFlow (code : string) : ValidationAndExtractionResult :=
  let errs := collectValidationErrors code in
  mkValidation (match errs with [] => true | _ :: _ => false end)
    (match errs with [] => None | _ :: _ => Some errs end)
    None None None None None.

Definition validateTriggerEvent (script : BubbleScript)
  : Result (list string) :=
  let triggerEvent := getBubbleTriggerEventType script in
  let errs :=
    match triggerEvent with
    | None => [missingTriggerMessage]
    | Some _ => []
    end in
  match triggerEvent with
  | Some t =>
      if String.eqb (triggerType t) "schedule/cron" then
        let errs :=
          match cronSchedule t with
          | Some c => if isEmptyString c then errs ++ [missingCronMessage]
                      else errs
          | None => errs ++ [missingCronMessage]
          end in
        do ok <- validateCronExpression (cronSchedule t);
        Ok (if ok then errs else errs ++ [invalidCronMessage])
      else Ok errs
  | None => Ok errs
  end.

Definition requiredCredentialsOf (bubbleParameters : BubbleMap)
           (credentials : list (Z * list string))
  : list (string * list string) :=
  fold_left
    (fun acc entry =>
       match dget Z.eqb (fst entry) bubbleParameters, snd entry with
       | Some bubble, _ :: _ =>
           dset String.eqb (bubbleName bubble) (snd entry) acc
       | _, _ => acc
       end)
    (Object_entries credentials) [].

(** [validateAndExtract(code, bubbleFactory)], started with the global id
    counter at [counter]. *)
Definition validateAndExtract (code : string) (factory : BubbleFactory)
           (counter : Z) : ValidationAndExtractionResult * Z :=
  let validationResult := validateBubbleFlow code in
  if negb (valid validationResult) then (validationResult, counter)
  else
    match newBubbleScript parse analyze parseToolsParamValue code factory
            counter with
    | (Throw msg, counter') => (invalid [msg], counter')
    | (Ok script, counter') =>
        match validateTriggerEvent script with
        | Throw msg => (invalid [msg], counter')
        | Ok (e :: es) => (invalid (e :: es), counter')
        | Ok [] =>
            let found := parsedBubbles script in
            match findCredentials script,
                  getPayloadJsonSchema (currentBubbleScript script)
                    (ast script) stackDepth with
            | Ok credentials, Ok schema =>
                (mkValidation true None (Some found) (Some (workflow script))
                   (Some (match schema with
                          | Some s => s
                          | None => emptyObject
                          end))
                   (getBubbleTriggerEventType script)
                   (match requiredCredentialsOf found credentials with
                    | [] => None
                    | l => Some l
                    end),
                 counter')
            | Throw msg, _ => (invalid [msg], counter')
            | _, Throw msg => (invalid [msg], counter')
            end
        end
    end.

End Validation.

(* ================================================================== *)
(** * 8. Further functions of the parser, the script object and the
      validation *)
(* ================================================================== *)

(** ** Scopes and variables of a line ([BubbleScript]) *)

(** [findScopeForLine]: the loop keeps the scope found so far and
    [smallestRange], which starts at [Infinity] ([None]). *)
Definition findScopeForLine (sm : ScopeManager) (lineNumber : Z)
  : option Scope :=
  fst
    (fold_left
       (fun (st : option Scope * option Z) scope =>
          let '(targetScope, smallestRange) := st in
          if scopeContainsLine lineNumber scope then
            let range := scopeRange scope in
            let isPreferredScope :=
              String.eqb (scopeType scope) "module"
              && match targetScope with
                 | Some t => String.eqb (scopeType t) "global"
                 | None => false
                 end in
            if match smallestRange with
               | Some r => (range <? r)%Z
               | None => true
               end || isPreferredScope
            then (Some scope, Some range)
            else st
          else st)
       sm (None, None)).

(** [getAllAccessibleVariables]: the variables of the scope and of the
    scopes above it. *)
Definition getAllAccessibleVariables (scope : Scope) : list ScopeVariable :=
  flat_map scopeVariables (scopeChain scope).

Record ScopeInfo := mkScopeInfo {
  infoScopeType : string;
  infoVariables : list string;
  infoAllAccessible : list string;
  infoLineRange : string
}.

(** [getScopeInfoForLine]; [None] is [null]. *)
Definition getScopeInfoForLine (sm : ScopeManager) (lineNumber : Z)
  : option ScopeInfo :=
  match findScopeForLine sm lineNumber with
  | None => None
  | Some targetScope =>
      let names (l : list ScopeVariable) :=
        map varName (filter (fun v => negb (isGlobalVariable v)) l) in
      Some (mkScopeInfo (scopeType targetScope)
              (names (scopeVariables targetScope))
              (names (getAllAccessibleVariables targetScope))
              (string_of_Z (startLine (scopeBlock targetScope)) ++ "-"
                 ++ string_of_Z (endLine (scopeBlock targetScope)))%string)
  end.

(** [allVars.add(variable.name)]: a [Set] of strings in insertion order. *)
Definition nameAdd (s : list string) (name : string) : list string :=
  if existsb (String.eqb name) s then s else s ++ [name].

(** [getAllUserVariables] *)
Definition getAllUserVariables (sm : ScopeManager) : list string :=
  fold_left
    (fun allVars variable =>
       if isGlobalVariable variable then allVars
       else nameAdd allVars (varName variable))
    (flat_map scopeVariables sm) [].

(** [getVariableById]; [None] is [undefined]. *)
Definition getVariableById (this : BubbleScript) (id : Z)
  : option ScopeVariable :=
  dget Z.eqb id (scriptVariables this).

(** [getVariableLocation]; [None] is [null]. *)
Definition getVariableLocation (this : BubbleScript) (variableId : Z)
  : option Loc :=
  dget Z.eqb variableId (variableLocations this).

(** [resetBubbleScript] *)
Definition resetBubbleScript (this : BubbleScript) : BubbleScript :=
  setCurrentBubbleScript this (bubbleScript this).

(** ** The flat dependency list ([BubbleParser]) *)

Section FlatDependencies.

(** [parseToolsParamValue], taken as given as in [parseBubblesFromAST]. *)
Variable parseToolsParamValue : string -> option (list (option string)).

Variable bubbleFactory : BubbleFactory.
Variable parameters : list BubbleParameter.

(** The state of the loop of [findDependenciesForBubble]: the queue, the
    set [seen] and the result. *)
Definition DependencySearch : Type :=
  (list string * list string * list string)%type.

(** [if (seen.has(n)) continue; seen.add(n); result.push(n);
    queue.push(n)] *)
Definition visitDependency (st : DependencySearch) (name : string)
  : DependencySearch :=
  let '(queue, seen, result) := st in
  if inSeen name seen then st
  else (queue ++ [name], seen ++ [name], result ++ [name]).

(** The body of the [while] loop once [name] has been taken off the
    queue. *)
Definition expandDependency (name : string) (st : DependencySearch)
  : DependencySearch :=
  let st :=
    if String.eqb name "ai-agent" then
      match find (fun param => String.eqb (paramName param) "tools")
              parameters with
      | Some toolsParam =>
          match parseToolsParamValue (paramValue toolsParam) with
          | Some tools =>
              fold_left
                (fun st tool =>
                   match tool with
                   | Some toolName => visitDependency st toolName
                   | None => st
                   end)
                tools st
          | None => st
          end
      | None => st
      end
    else st in
  let metadata := getMetadata bubbleFactory name in
  let detailed :=
    match metadata with
    | Some m =>
        match bubbleDependenciesDetailed m with
        | Some d => d
        | None => []
        end
    | None => []
    end in
  match detailed with
  | _ :: _ =>
      fold_left
        (fun st spec =>
           let depName := specName spec in
           let st := visitDependency st depName in
           if String.eqb depName "ai-agent" then
             match specTools spec with
             | Some tools => fold_left visitDependency tools st
             | None => st
             end
           else st)
        detailed st
  | [] =>
      let deps :=
        match metadata with
        | Some m =>
            match bubbleDependencies m with
            | Some d => d
            | None => []
            end
        | None => []
        end in
      fold_left visitDependency deps st
  end.

(** The [while] loop; [fuel] bounds the number of names taken off the
    queue, and [None] means that it ran out. *)
Fixpoint dependencyLoop (fuel : nat) (st : DependencySearch)
  : option (list string) :=
  match fuel with
  | O => None
  | S fuel' =>
      let '(queue, seen, result) := st in
      match queue with
      | [] => Some result
      | name :: rest => dependencyLoop fuel' (expandDependency name
                                                (rest, seen, result))
      end
  end.

(** [findDependenciesForBubble(currentDependencies, bubbleFactory,
    parameters, seen)] *)
Definition findDependenciesForBubble (fuel : nat)
           (currentDependencies : list string) (seen : list string)
  : option (list string) :=
  dependencyLoop fuel
    (currentDependencies,
     fold_left nameAdd currentDependencies seen,
     []).

End FlatDependencies.

(** ** Instance methods of the flow class ([BubbleParser]) *)

(** The super class is [BubbleFlow]: the identifier itself, or a
    [TSTypeReference] whose [typeName], its first child, is that
    identifier. *)
Definition isBubbleFlowSuper (superClass : Node) : bool :=
  match superClass with
  | Identifier _ name _ => String.eqb name "BubbleFlow"
  | OtherNode _ "TSTypeReference" (Identifier _ name _ :: _) =>
      String.eqb name "BubbleFlow"
  | _ => false
  end.

(** [findMainBubbleFlowClass] *)
Definition findMainBubbleFlowClass (ast : Node) : option Node :=
  match ast with
  | Program _ body =>
      firstSome
        (fun statement =>
           let classDecl :=
             match statement with
             | ExportNamedDeclaration _
                 (Some (ClassDeclaration _ _ _ _ _ as d)) => Some d
             | ClassDeclaration _ _ _ _ _ => Some statement
             | _ => None
             end in
           match classDecl with
           | Some (ClassDeclaration _ _ (Some superClass) _ _ as c) =>
               if isBubbleFlowSuper superClass then Some c else None
           | _ => None
           end)
        body
  | _ => None
  end.

Record InstanceMethod := mkMethod {
  methodName : string;
  methodStartLine : Z;
  methodEndLine : Z;
  definitionStartLine : Z;
  bodyStartLine : Z
}.

(** [line || fallback] on numbers *)
Definition lineOr (line fallback : Z) : Z :=
  if (line =? 0)%Z then fallback else line.

(** [findAllInstanceMethods]: the members that are methods of kind
    [method], not static, with an identifier as key and a function
    expression as value. *)
Definition findAllInstanceMethods (classDeclaration : Node)
  : list InstanceMethod :=
  match classDeclaration with
  | ClassDeclaration _ _ _ _ body =>
      flat_map
        (fun member =>
           match member with
           | MethodDefinition i (Identifier _ name _)
               (FunctionExpression _ _ methodBody) kind static =>
               if negb static && String.eqb kind "method" then
                 let definitionStart := lineOr (startLine (loc i)) (-1) in
                 let bodyStart :=
                   lineOr (startLine (locOf methodBody)) definitionStart in
                 let definitionEnd := lineOr (endLine (loc i)) (-1) in
                 [mkMethod name definitionStart definitionEnd
                    definitionStart bodyStart]
               else []
           | _ => []
           end)
        body
  | _ => []
  end.



Section MethodInvocations.

Variable methodNames : list string.




End MethodInvocations.

(* ================================================================== *)
(** * 9. Specification-side definitions and sample inputs *)
(* ================================================================== *)

(** A string without a line feed. *)
Definition noNewline (s : string) : Prop := ~ In nl (chars s).

(** The number of lines of the current source buffer. *)
Definition scriptLineCount (this : BubbleScript) : Z :=
  Z.of_nat (length (split_nl (currentBubbleScript this))).

Definition at_ (line col : Z) (endCol : Z) : Loc := mkLoc line col line endCol.

Definition noInfo : NodeInfo := mkInfo (mkLoc 1 0 1 0) (0, 0)%nat.

Definition emptyFactory : BubbleFactory := mkFactory [] [].

(** A script of three lines with three known variables: [a] and [b] are
    declared on lines 1 and 2; [c] is recorded on line 3, which holds no
    assignment. *)
Definition threeLines : string :=
  "const a = 1;
let b = 2;
foo(b);".

Definition threeLinesScript : BubbleScript :=
  mkScript (Program noInfo []) [] [] [] (mkWorkflow [] [])
    [(1, mkVar 1 "a" [Some (at_ 1 6 11)] "module");
     (2, mkVar 2 "b" [Some (at_ 2 4 9)] "module");
     (3, mkVar 3 "c" [Some (at_ 3 0 3)] "module")]%Z
    [(1, at_ 1 6 11); (2, at_ 2 4 9); (3, at_ 3 0 3)]%Z
    threeLines emptyFactory threeLines (mkTrigger "webhook/http" None).

(** An injected string that itself holds two lines. *)
Definition twoStatements : string :=
  "let y = 1;
let z = 2;".

(** ** Visible variables: the specification's reading *)

(** Every variable of every scope of the graph and of their enclosing
    scopes. *)
Definition allVariables (sm : ScopeManager) : list ScopeVariable :=
  flat_map (fun s => flat_map scopeVariables (scopeChain s)) sm.

(** The scope manager gives every variable an [$id] of its own. *)
Definition uniqueIds (sm : ScopeManager) : Prop :=
  forall v w,
    In v (allVariables sm) -> In w (allVariables sm) ->
    varId v = varId w -> v = w.

(** [v] belongs to a scope whose block contains [line], or to one of the
    scopes enclosing such a scope. *)
Definition accessibleAt (sm : ScopeManager) (line : Z) (v : ScopeVariable)
  : Prop :=
  exists s a,
    In s sm /\ scopeContainsLine line s = true
    /\ In a (scopeChain s) /\ In v (scopeVariables a).

(** The variables the query leaves out as global or built-in, in words:
    the name is one of the listed built-in names, the variable belongs to
    a global scope, the name contains one of four fragments, or it starts
    with one of two prefixes. *)
Definition hasFragment (fragment name : string) : Prop :=
  exists before after, name = (before ++ fragment ++ after)%string.

Definition hasPrefix (prefix name : string) : Prop :=
  exists after, name = (prefix ++ after)%string.

Definition treatedAsGlobal (v : ScopeVariable) : Prop :=
  In (varName v) globalNames
  \/ varScopeType v = "global"
  \/ (exists fragment,
         In fragment ["Constructor"; "Array"; "Iterator"; "Decorator"]
         /\ hasFragment fragment (varName v))
  \/ (exists prefix,
         In prefix ["Disposable"; "Async"] /\ hasPrefix prefix (varName v)).

(** The scope graph of the eleven-line script of the test-suite: [a], [b]
    and [d] at module level (lines 2, 3 and 10), a [for] loop on lines 5 to
    8 declaring [i], and its body block declaring [c] on line 6. *)
Definition loopGlobalScope : Scope :=
  mkScope "global" (mkLoc 1 0 11 4)
    [mkVar 1 "console" [] "global"; mkVar 2 "Array" [] "global"] None.

Definition var_a := mkVar 3 "a" [Some (at_ 2 12 17)] "module".
Definition var_b := mkVar 4 "b" [Some (at_ 3 10 15)] "module".
Definition var_d := mkVar 5 "d" [Some (at_ 10 12 21)] "module".
Definition var_i := mkVar 6 "i" [Some (at_ 5 15 20)] "for".
Definition var_c := mkVar 7 "c" [Some (at_ 6 14 27)] "block".

Definition loopModuleScope : Scope :=
  mkScope "module" (mkLoc 1 0 11 4) [var_a; var_b; var_d]
    (Some loopGlobalScope).

Definition loopForScope : Scope :=
  mkScope "for" (mkLoc 5 6 8 7) [var_i] (Some loopModuleScope).

Definition loopBlockScope : Scope :=
  mkScope "block" (mkLoc 5 35 8 7) [var_c] (Some loopForScope).

Definition loopScopes : ScopeManager :=
  [loopGlobalScope; loopModuleScope; loopForScope; loopBlockScope].

(** The same graph when the variable of the loop body is called
    [itemsArray]. *)
Definition var_items := mkVar 7 "itemsArray" [Some (at_ 6 14 32)] "block".

Definition arrayLoopBody : Scope :=
  mkScope "block" (mkLoc 5 35 8 7) [var_items] (Some loopForScope).

Definition arrayLoopScopes : ScopeManager :=
  [loopGlobalScope; loopModuleScope; loopForScope; arrayLoopBody].

(** ** Dependency graphs: measure and sample registry *)

(** The names that can have children: the registered names and the agent
    name. *)
Definition expandable (f : BubbleFactory) : list string :=
  nodup string_dec ("ai-agent" :: keys (registry f)).

(** How many expandable names are not yet on the path. *)
Definition remaining (f : BubbleFactory) (seen : list string) : nat :=
  length (filter (fun n => negb (inSeen n seen)) (expandable f)).

(** The strict descendants of a node. *)
Fixpoint descendants (d : DependencyGraphNode) : list DependencyGraphNode :=
  match d with
  | mkDep _ _ _ _ _ ds => ds ++ flat_map descendants ds
  end.

(** The names of the children the registry declares for a bubble: one per
    instance of each detailed specification, or else the flat dependency
    list. *)
Definition declaredChildNames (f : BubbleFactory) (name : string)
  : list string :=
  match detailedOf (getMetadata f name) with
  | (_ :: _) as detailed =>
      flat_map (fun spec => map (fun _ => specName spec) (instanceNames spec))
        detailed
  | [] => directDepsOf (getMetadata f name)
  end.

(** The configured tools of an agent node that get a child: those not on
    the path. *)
Definition keptToolNames (name : string) (toolsThis : option (list string))
           (path : list string) : list string :=
  match toolsThis with
  | Some tools =>
      if String.eqb name "ai-agent"
      then filter (fun toolName => negb (inSeen toolName path)) tools
      else []
  | None => []
  end.

(** A child that ends a cycle: a leaf, or an agent standing for a
    declared agent dependency and carrying exactly its tools. *)
Definition endsCycle (f : BubbleFactory) (name : string)
           (child : DependencyGraphNode) : Prop :=
  depDependencies child = []
  \/ (depName child = "ai-agent"
      /\ exists spec tools,
          In spec (detailedOf (getMetadata f name))
          /\ specName spec = "ai-agent" /\ specTools spec = Some tools
          /\ map depName (depDependencies child) = tools).

(** A registry in which an agent tool depends on the agent itself. *)
Definition agentRegistry : BubbleFactory :=
  mkFactory
    [("ai-agent", mkMeta (Some "service") None None);
     ("research-agent-tool",
      mkMeta (Some "tool")
        (Some [mkSpec "ai-agent"
                 (Some ["web-search-tool"; "web-scrape-tool"]) None])
        None);
     ("web-search-tool", mkMeta (Some "tool") None None);
     ("web-scrape-tool", mkMeta (Some "tool") None (Some ["ai-agent"]))]
    [("AIAgentBubble", mkClassInfo "ai-agent" "AIAgentBubble" "service")].

(** ** Sample flows

    Source texts and their syntax trees, with the locations and ranges the
    parser would give. *)

Definition nfo (line col endLine endCol : Z) (first last : nat) : NodeInfo :=
  mkInfo (mkLoc line col endLine endCol) (first, last).

Definition helloFactory : BubbleFactory :=
  mkFactory [("hello-world", mkMeta (Some "service") None None)]
    [("HelloBubble", mkClassInfo "hello-world" "HelloBubble" "service")].

(** No tool configuration is read in the samples. *)
Definition noTools (text : string) : option (list (option string)) := None.

(** A flow whose only bubble is an awaited, anonymous instantiation. *)
Definition anonText : string :=
  "export class Flow extends BubbleFlow<'webhook/http'> {
  async handle(payload: Payload) {
    // Greets the caller
    await new HelloBubble({ name: payload.name }).action();
  }
}".

Definition anonProgram : Node :=
  Program (nfo 1 0 6 1 0 180)
    [ExportNamedDeclaration (nfo 1 0 6 1 0 180)
       (Some (ClassDeclaration (nfo 1 7 6 1 7 180) (Some "Flow")
                (Some (Identifier (nfo 1 26 1 36 26 36) "BubbleFlow" None))
                [TSLiteralType (Some (LStr "webhook/http"))]
                [(MethodDefinition (nfo 2 2 5 3 57 178) (Identifier (nfo 2 8 2 14 63 69) "handle" None)
                   (FunctionExpression (nfo 2 14 5 3 69 178) [(Identifier (nfo 2 15 2 31 70 86) "payload" (Some (TSTypeReference (Some "Payload"))))]
                      (BlockStatement (nfo 2 33 5 3 88 178)
                         [(ExpressionStatement (nfo 4 4 4 59 119 174)
                            (AwaitExpression (nfo 4 4 4 58 119 173)
                               (CallExpression (nfo 4 10 4 58 125 173)
                                  (MemberExpression (nfo 4 10 4 56 125 171)
                                     (NewExpression (nfo 4 10 4 49 125 164) (Identifier (nfo 4 14 4 25 129 140) "HelloBubble" None)
                                        [ObjectExpression (nfo 4 26 4 48 141 163)
                                           [Property (nfo 4 28 4 46 143 161) (Identifier (nfo 4 28 4 32 143 147) "name" None)
                                             (MemberExpression (nfo 4 34 4 46 149 161) (Identifier (nfo 4 34 4 41 149 156) "payload" None)
                                                (Identifier (nfo 4 42 4 46 157 161) "name" None) false false) false]])
                                     (Identifier (nfo 4 50 4 56 165 171) "action" None) false false) [])))]))
                   "method" false)]))].

(** A flow with a named bubble followed by an anonymous one. *)
Definition mixedText : string :=
  "export class Flow extends BubbleFlow<'webhook/http'> {
  async handle(payload: Payload) {
    const greeter = new HelloBubble({ name: 'a' });
    await new HelloBubble({ name: 'b' }).action();
  }
}".

Definition mixedProgram : Node :=
  Program (nfo 1 0 6 1 0 198)
    [ExportNamedDeclaration (nfo 1 0 6 1 0 198)
       (Some (ClassDeclaration (nfo 1 7 6 1 7 198) (Some "Flow")
                (Some (Identifier (nfo 1 26 1 36 26 36) "BubbleFlow" None))
                [TSLiteralType (Some (LStr "webhook/http"))]
                [(MethodDefinition (nfo 2 2 5 3 57 196) (Identifier (nfo 2 8 2 14 63 69) "handle" None)
                   (FunctionExpression (nfo 2 14 5 3 69 196) [(Identifier (nfo 2 15 2 31 70 86) "payload" (Some (TSTypeReference (Some "Payload"))))]
                      (BlockStatement (nfo 2 33 5 3 88 196)
                         [(VariableDeclaration (nfo 3 4 3 51 94 141) "const"
                            [VariableDeclarator (nfo 3 10 3 50 100 140)
                               (Identifier (nfo 3 10 3 17 100 107) "greeter" None)
                               (Some (NewExpression (nfo 3 20 3 50 110 140) (Identifier (nfo 3 24 3 35 114 125) "HelloBubble" None)
                                        [ObjectExpression (nfo 3 36 3 49 126 139)
                                           [Property (nfo 3 38 3 47 128 137) (Identifier (nfo 3 38 3 42 128 132) "name" None)
                                             (Literal (nfo 3 44 3 47 134 137) (LStr "a")) false]]))]);
                            (ExpressionStatement (nfo 4 4 4 50 146 192)
                            (AwaitExpression (nfo 4 4 4 49 146 191)
                               (CallExpression (nfo 4 10 4 49 152 191)
                                  (MemberExpression (nfo 4 10 4 47 152 189)
                                     (NewExpression (nfo 4 10 4 40 152 182) (Identifier (nfo 4 14 4 25 156 167) "HelloBubble" None)
                                        [ObjectExpression (nfo 4 26 4 39 168 181)
                                           [Property (nfo 4 28 4 37 170 179) (Identifier (nfo 4 28 4 32 170 174) "name" None)
                                             (Literal (nfo 4 34 4 37 176 179) (LStr "b")) false]])
                                     (Identifier (nfo 4 41 4 47 183 189) "action" None) false false) [])))]))
                   "method" false)]))].

(** A flow whose handle method calls a helper method that holds the
    bubble, the shape of the content-creation fixture of the test-suite. *)
Definition helperText : string :=
  "export class Flow extends BubbleFlow<'webhook/http'> {
  async handle(payload: Payload) {
    await this.greet();
  }
  async greet() {
    const greeter = new HelloBubble({ name: 'a' });
    await greeter.action();
  }
}".

Definition helperProgram : Node :=
  Program (nfo 1 0 9 1 0 221)
    [ExportNamedDeclaration (nfo 1 0 9 1 0 221)
       (Some (ClassDeclaration (nfo 1 7 9 1 7 221) (Some "Flow")
                (Some (Identifier (nfo 1 26 1 36 26 36) "BubbleFlow" None))
                [TSLiteralType (Some (LStr "webhook/http"))]
                [(MethodDefinition (nfo 2 2 4 3 57 117) (Identifier (nfo 2 8 2 14 63 69) "handle" None)
                   (FunctionExpression (nfo 2 14 4 3 69 117) [(Identifier (nfo 2 15 2 31 70 86) "payload" (Some (TSTypeReference (Some "Payload"))))]
                      (BlockStatement (nfo 2 33 4 3 88 117)
                         [(ExpressionStatement (nfo 3 4 3 23 94 113)
                            (AwaitExpression (nfo 3 4 3 22 94 112)
                               (CallExpression (nfo 3 10 3 22 100 112)
                                  (MemberExpression (nfo 3 10 3 20 100 110) (ThisExpression (nfo 3 10 3 14 100 104))
                                     (Identifier (nfo 3 15 3 20 105 110) "greet" None) false false) [])))]))
                   "method" false);
                   (MethodDefinition (nfo 5 2 8 3 120 219) (Identifier (nfo 5 8 5 13 126 131) "greet" None)
                   (FunctionExpression (nfo 5 13 8 3 131 219) []
                      (BlockStatement (nfo 5 16 8 3 134 219)
                         [(VariableDeclaration (nfo 6 4 6 51 140 187) "const"
                            [VariableDeclarator (nfo 6 10 6 50 146 186)
                               (Identifier (nfo 6 10 6 17 146 153) "greeter" None)
                               (Some (NewExpression (nfo 6 20 6 50 156 186) (Identifier (nfo 6 24 6 35 160 171) "HelloBubble" None)
                                        [ObjectExpression (nfo 6 36 6 49 172 185)
                                           [Property (nfo 6 38 6 47 174 183) (Identifier (nfo 6 38 6 42 174 178) "name" None)
                                             (Literal (nfo 6 44 6 47 180 183) (LStr "a")) false]]))]);
                            (ExpressionStatement (nfo 7 4 7 27 192 215)
                            (AwaitExpression (nfo 7 4 7 26 192 214)
                               (CallExpression (nfo 7 10 7 26 198 214)
                                  (MemberExpression (nfo 7 10 7 24 198 212) (Identifier (nfo 7 10 7 17 198 205) "greeter" None)
                                     (Identifier (nfo 7 18 7 24 206 212) "action" None) false false) [])))]))
                   "method" false)]))].


(** The scope graphs of the samples: the global, module and class scopes,
    and one function scope per method.  The function scope of [handle]
    holds [payload] and, in the second sample, [greeter] (declared on
    line 3); in the third sample the function scope of [greet] holds
    [greeter] (declared on line 6). *)
Definition flowGlobalScope (lastLine : Z) : Scope :=
  mkScope "global" (mkLoc 1 0 lastLine 1) [] None.

Definition flowModuleScope (lastLine : Z) : Scope :=
  mkScope "module" (mkLoc 1 0 lastLine 1)
    [mkVar 1 "Flow" [Some (mkLoc 1 7 lastLine 1)] "module"]
    (Some (flowGlobalScope lastLine)).

Definition flowClassScope (lastLine : Z) : Scope :=
  mkScope "class" (mkLoc 1 7 lastLine 1)
    [mkVar 2 "Flow" [Some (mkLoc 1 7 lastLine 1)] "class"]
    (Some (flowModuleScope lastLine)).

Definition handleVariablesOf (more : list ScopeVariable)
  : list ScopeVariable :=
  mkVar 3 "arguments" [] "function"
  :: mkVar 4 "payload" [Some (at_ 2 15 31)] "function" :: more.

Definition flowScopes (handleVariables : list ScopeVariable) (lastLine : Z)
           (handleEnd : Z) : ScopeManager :=
  [flowGlobalScope lastLine; flowModuleScope lastLine;
   flowClassScope lastLine;
   mkScope "function" (mkLoc 2 14 handleEnd 3) handleVariables
     (Some (flowClassScope lastLine))].

Definition anonScopes : ScopeManager :=
  flowScopes (handleVariablesOf []) 6 5.

Definition mixedScopes : ScopeManager :=
  flowScopes
    (handleVariablesOf [mkVar 5 "greeter" [Some (at_ 3 10 50)] "function"])
    6 5.

Definition helperScopes : ScopeManager :=
  flowScopes (handleVariablesOf []) 9 4
  ++ [mkScope "function" (mkLoc 5 13 8 3)
        [mkVar 5 "arguments" [] "function";
         mkVar 6 "greeter" [Some (at_ 6 10 50)] "function"]
        (Some (flowClassScope 9))].

(** ** Anonymous bubble ids: the specification's reading *)

(** The ids of the anonymous bubbles of a map, in the order in which they
    were located. *)
Definition anonymousIds (nodes : BubbleMap) : list Z :=
  filter (fun k => (k <? 0)%Z) (keys nodes).

(** The sequence -1, -2, ..., -n. *)
Definition minusOneTwo (n : nat) : list Z :=
  map (fun i => (- Z.of_nat (S i))%Z) (List.seq 0 n).

(** The scope manager numbers variables from 1. *)
Definition positiveIds (sm : ScopeManager) : Prop :=
  forall s v, In s sm -> In v (scopeVariables s) -> (0 < varId v)%Z.

(** An anonymous bubble's id is minus its position (from 1) among all the
    bubbles located. *)
Definition anonymousAtPosition (nodes : BubbleMap) : Prop :=
  forall i k b,
    nth_error nodes i = Some (k, b) -> (k < 0)%Z ->
    k = (- (Z.of_nat i + 1))%Z.

(** Every bubble is stored under its own [variableId]. *)
Definition keysAreIds (nodes : BubbleMap) : Prop :=
  forall k b, In (k, b) nodes -> variableId b = k.

Definition locatedOk (nodes : BubbleMap) : Prop :=
  anonymousAtPosition nodes /\ keysAreIds nodes.

(** A property of the map that holds if the visit returns. *)
Definition holdsIfOk (I : BubbleMap -> Prop) (r : Result BubbleMap) : Prop :=
  match r with
  | Ok nodes => I nodes
  | Throw _ => True
  end.

(** The bubbles located in the second sample. *)
Definition mixedNodes : BubbleMap :=
  match visitNode mixedText (buildClassNameLookup helloFactory) mixedScopes
          mixedProgram [] with
  | Ok nodes => nodes
  | Throw _ => []
  end.

(** ** Dependency-graph ids: the specification's reading *)

(** The node's id is the hash of its [uniqueId]. *)
Definition hashed (d : DependencyGraphNode) : Prop :=
  depVariableId d = hashUniqueIdToVarId (depUniqueId d).

(** The node and everything below it have hashed ids. *)
Definition allHashed (d : DependencyGraphNode) : Prop :=
  Forall hashed (d :: descendants d).

(** The graph of the sample agent, as the parser builds it for a bubble
    with variable id 7. *)
Definition agentGraph : option (DependencyGraphNode * Counters) :=
  buildDependencyGraph (graphFuel agentRegistry) agentRegistry "ai-agent"
    [] (Some ["research-agent-tool"]) "7" [] (Some 7%Z) true (Some "agent").

Definition agentGraphNode : DependencyGraphNode :=
  match agentGraph with
  | Some (node, _) => node
  | None => mkDep EmptyString EmptyString EmptyString 0 None []
  end.

Definition agentGraphCounters : Counters :=
  match agentGraph with
  | Some (_, counters) => counters
  | None => []
  end.

(** ** Comments: the specification's reading *)

(** A line that the scan takes for part of a comment. *)
Definition isCommentLine (line : string) : bool :=
  startsWith "//" line || startsWith "*" line || startsWith "/**" line
  || startsWith "/*" line || endsWith "*/" line.







(** A documentation block above a statement. *)
Definition blockComment : string :=
  "/**
 * Greets the caller
 * by name.
 */
const greeter = new HelloBubble({});".

(** A run of line comments above a statement, one of them empty. *)
Definition lineComments : string :=
  "// Step 1
//
//   scrape the page
const x = 1;".











(** ** Triggers: sample flows and a sample validator *)

Definition decimalValue (s : string) : option nat :=
  match chars s with
  | [] => None
  | cs =>
      if forallb isDigit cs
      then Some (fold_left (fun acc c => (10 * acc + (code c - 48))%nat) cs 0%nat)
      else None
  end.

Definition cronFieldOk (lo hi : nat) (field : string) : bool :=
  String.eqb field "*"
  || match decimalValue field with
     | Some n => (lo <=? n)%nat && (n <=? hi)%nat
     | None => false
     end.

(** Modelled from the spec: [validateCronExpression] of the shared schemas
    is not among the sources.  The spec only says that it accepts
    [0 0 * * *] and rejects [99 99 * * *]; this sample accepts five fields
    separated by single blanks, each a star or a number in the range of
    minutes, hours, days of the month, months and days of the week, and
    throws on [undefined]. *)
Definition sampleValidateCron (schedule : option string) : Result bool :=
  match schedule with
  | None => Throw "Cannot read properties of undefined (reading 'trim')"
  | Some e =>
      Ok (match splitOn " "%char e with
          | [mi; h; d; mo; w] =>
              cronFieldOk 0 59 mi && cronFieldOk 0 23 h && cronFieldOk 1 31 d
              && cronFieldOk 1 12 mo && cronFieldOk 0 6 w
          | _ => false
          end)
  end.

(** A parser that knows the sample flows, and a scope analysis that finds
    no variable. *)
Definition sampleParse (programs : list (string * Node)) (text : string)
  : Result Node :=
  match dget String.eqb text programs with
  | Some p => Ok p
  | None => Throw "Unexpected token"
  end.

Definition sampleAnalyze (tree : Node) (counter : Z) : ScopeManager * Z :=
  ([], counter).

Definition noCredentials (script : BubbleScript)
  : Result (list (Z * list string)) := Ok [].

(** A [validateScript] that accepts every script. *)
Definition sampleValidateScript (code : string) : Result ScriptValidation :=
  Ok (mkScriptValidation true None).

(** A flow scheduled daily at midnight. *)
Definition dailyText : string :=
  "import { BubbleFlow, CronEvent } from '@bubblelab/bubble-core';

export class Daily extends BubbleFlow<'schedule/cron'> {
  readonly cronSchedule = '0 0 * * *';
  async handle(payload: CronEvent) {
    return {};
  }
}".

Definition dailyProgram : Node :=
  Program (nfo 1 0 8 1 0 218)
    [OtherNode (nfo 1 0 1 63 0 63) "ImportDeclaration"
        [Literal (nfo 1 38 1 62 38 62) (LStr "@bubblelab/bubble-core");
         OtherNode (nfo 1 9 1 19 9 19) "ImportSpecifier"
            [Identifier (nfo 1 9 1 19 9 19) "BubbleFlow" None; Identifier (nfo 1 9 1 19 9 19) "BubbleFlow" None];
         OtherNode (nfo 1 21 1 30 21 30) "ImportSpecifier"
            [Identifier (nfo 1 21 1 30 21 30) "CronEvent" None; Identifier (nfo 1 21 1 30 21 30) "CronEvent" None]];
     ExportNamedDeclaration (nfo 3 0 8 1 65 218)
       (Some (ClassDeclaration (nfo 3 7 8 1 72 218) (Some "Daily")
                (Some (Identifier (nfo 3 27 3 37 92 102) "BubbleFlow" None))
                [TSLiteralType (Some (LStr "schedule/cron"))]
                [PropertyDefinition (nfo 4 2 4 38 124 160)
                   (Identifier (nfo 4 11 4 23 133 145) "cronSchedule" None)
                   (Some (Literal (nfo 4 26 4 37 148 159) (LStr "0 0 * * *")));
                 MethodDefinition (nfo 5 2 7 3 163 216) (Identifier (nfo 5 8 5 14 169 175) "handle" None)
                   (FunctionExpression (nfo 5 14 7 3 175 216) [Identifier (nfo 5 15 5 33 176 194) "payload" (Some (TSTypeReference (Some "CronEvent")))]
                      (BlockStatement (nfo 5 35 7 3 196 216)
                         [ReturnStatement (nfo 6 4 6 14 202 212)
                            (Some (ObjectExpression (nfo 6 11 6 13 209 211) []))]))
                   "method" false]))].

(** The same flow with a cron expression whose fields are out of range. *)
Definition badCronText : string :=
  "import { BubbleFlow, CronEvent } from '@bubblelab/bubble-core';

export class Daily extends BubbleFlow<'schedule/cron'> {
  readonly cronSchedule = '99 99 * * *';
  async handle(payload: CronEvent) {
    return {};
  }
}".

Definition badCronProgram : Node :=
  Program (nfo 1 0 8 1 0 220)
    [OtherNode (nfo 1 0 1 63 0 63) "ImportDeclaration"
        [Literal (nfo 1 38 1 62 38 62) (LStr "@bubblelab/bubble-core");
         OtherNode (nfo 1 9 1 19 9 19) "ImportSpecifier"
            [Identifier (nfo 1 9 1 19 9 19) "BubbleFlow" None; Identifier (nfo 1 9 1 19 9 19) "BubbleFlow" None];
         OtherNode (nfo 1 21 1 30 21 30) "ImportSpecifier"
            [Identifier (nfo 1 21 1 30 21 30) "CronEvent" None; Identifier (nfo 1 21 1 30 21 30) "CronEvent" None]];
     ExportNamedDeclaration (nfo 3 0 8 1 65 220)
       (Some (ClassDeclaration (nfo 3 7 8 1 72 220) (Some "Daily")
                (Some (Identifier (nfo 3 27 3 37 92 102) "BubbleFlow" None))
                [TSLiteralType (Some (LStr "schedule/cron"))]
                [PropertyDefinition (nfo 4 2 4 40 124 162)
                   (Identifier (nfo 4 11 4 23 133 145) "cronSchedule" None)
                   (Some (Literal (nfo 4 26 4 39 148 161) (LStr "99 99 * * *")));
                 MethodDefinition (nfo 5 2 7 3 165 218) (Identifier (nfo 5 8 5 14 171 177) "handle" None)
                   (FunctionExpression (nfo 5 14 7 3 177 218) [Identifier (nfo 5 15 5 33 178 196) "payload" (Some (TSTypeReference (Some "CronEvent")))]
                      (BlockStatement (nfo 5 35 7 3 198 218)
                         [ReturnStatement (nfo 6 4 6 14 204 214)
                            (Some (ObjectExpression (nfo 6 11 6 13 211 213) []))]))
                   "method" false]))].

(** A cron flow without the [cronSchedule] field. *)
Definition noCronText : string :=
  "import { BubbleFlow, CronEvent } from '@bubblelab/bubble-core';

export class Daily extends BubbleFlow<'schedule/cron'> {
  async handle(payload: CronEvent) {
    return {};
  }
}".

Definition noCronProgram : Node :=
  Program (nfo 1 0 7 1 0 179)
    [OtherNode (nfo 1 0 1 63 0 63) "ImportDeclaration"
        [Literal (nfo 1 38 1 62 38 62) (LStr "@bubblelab/bubble-core");
         OtherNode (nfo 1 9 1 19 9 19) "ImportSpecifier"
            [Identifier (nfo 1 9 1 19 9 19) "BubbleFlow" None; Identifier (nfo 1 9 1 19 9 19) "BubbleFlow" None];
         OtherNode (nfo 1 21 1 30 21 30) "ImportSpecifier"
            [Identifier (nfo 1 21 1 30 21 30) "CronEvent" None; Identifier (nfo 1 21 1 30 21 30) "CronEvent" None]];
     ExportNamedDeclaration (nfo 3 0 7 1 65 179)
       (Some (ClassDeclaration (nfo 3 7 7 1 72 179) (Some "Daily")
                (Some (Identifier (nfo 3 27 3 37 92 102) "BubbleFlow" None))
                [TSLiteralType (Some (LStr "schedule/cron"))]
                [MethodDefinition (nfo 4 2 6 3 124 177) (Identifier (nfo 4 8 4 14 130 136) "handle" None)
                   (FunctionExpression (nfo 4 14 6 3 136 177) [Identifier (nfo 4 15 4 33 137 155) "payload" (Some (TSTypeReference (Some "CronEvent")))]
                      (BlockStatement (nfo 4 35 6 3 157 177)
                         [ReturnStatement (nfo 5 4 5 14 163 173)
                            (Some (ObjectExpression (nfo 5 11 5 13 170 172) []))]))
                   "method" false]))].

(** A flow whose class gives no trigger type. *)
Definition noTriggerText : string :=
  "import { BubbleFlow, CronEvent } from '@bubblelab/bubble-core';

export class Daily extends BubbleFlow {
  async handle(payload: CronEvent) {
    return {};
  }
}".

Definition noTriggerProgram : Node :=
  Program (nfo 1 0 7 1 0 162)
    [OtherNode (nfo 1 0 1 63 0 63) "ImportDeclaration"
        [Literal (nfo 1 38 1 62 38 62) (LStr "@bubblelab/bubble-core");
         OtherNode (nfo 1 9 1 19 9 19) "ImportSpecifier"
            [Identifier (nfo 1 9 1 19 9 19) "BubbleFlow" None; Identifier (nfo 1 9 1 19 9 19) "BubbleFlow" None];
         OtherNode (nfo 1 21 1 30 21 30) "ImportSpecifier"
            [Identifier (nfo 1 21 1 30 21 30) "CronEvent" None; Identifier (nfo 1 21 1 30 21 30) "CronEvent" None]];
     ExportNamedDeclaration (nfo 3 0 7 1 65 162)
       (Some (ClassDeclaration (nfo 3 7 7 1 72 162) (Some "Daily")
                (Some (Identifier (nfo 3 27 3 37 92 102) "BubbleFlow" None))
                []
                [MethodDefinition (nfo 4 2 6 3 107 160) (Identifier (nfo 4 8 4 14 113 119) "handle" None)
                   (FunctionExpression (nfo 4 14 6 3 119 160) [Identifier (nfo 4 15 4 33 120 138) "payload" (Some (TSTypeReference (Some "CronEvent")))]
                      (BlockStatement (nfo 4 35 6 3 140 160)
                         [ReturnStatement (nfo 5 4 5 14 146 156)
                            (Some (ObjectExpression (nfo 5 11 5 13 153 155) []))]))
                   "method" false]))].

(** A flow that imports its classes and whose only bubble is an awaited,
    anonymous instantiation. *)
Definition importedText : string :=
  "import { BubbleFlow, HelloBubble } from '@bubblelab/bubble-core';

export class Flow extends BubbleFlow<'webhook/http'> {
  async handle(payload: { name: string }) {
    // Greets the caller
    await new HelloBubble({ name: payload.name }).action();
  }
}".

Definition importedProgram : Node :=
  Program (nfo 1 0 8 1 0 256)
    [OtherNode (nfo 1 0 1 65 0 65) "ImportDeclaration"
        [Literal (nfo 1 40 1 64 40 64) (LStr "@bubblelab/bubble-core");
         OtherNode (nfo 1 9 1 19 9 19) "ImportSpecifier"
            [Identifier (nfo 1 9 1 19 9 19) "BubbleFlow" None; Identifier (nfo 1 9 1 19 9 19) "BubbleFlow" None];
         OtherNode (nfo 1 21 1 32 21 32) "ImportSpecifier"
            [Identifier (nfo 1 21 1 32 21 32) "HelloBubble" None; Identifier (nfo 1 21 1 32 21 32) "HelloBubble" None]];
     ExportNamedDeclaration (nfo 3 0 8 1 67 256)
       (Some (ClassDeclaration (nfo 3 7 8 1 74 256) (Some "Flow")
                (Some (Identifier (nfo 3 26 3 36 93 103) "BubbleFlow" None))
                [TSLiteralType (Some (LStr "webhook/http"))]
                [MethodDefinition (nfo 4 2 7 3 124 254) (Identifier (nfo 4 8 4 14 130 136) "handle" None)
                   (FunctionExpression (nfo 4 14 7 3 136 254)
                      [Identifier (nfo 4 15 4 40 137 162) "payload"
                         (Some (TSTypeLiteral
                                  [TSPropertySignature 4 (KeyIdent "name")
                                     (Some TSStringKeyword) false]))]
                      (BlockStatement (nfo 4 42 7 3 164 254)
                         [ExpressionStatement (nfo 6 4 6 59 195 250)
                            (AwaitExpression (nfo 6 4 6 58 195 249)
                               (CallExpression (nfo 6 10 6 58 201 249)
                                  (MemberExpression (nfo 6 10 6 56 201 247)
                                     (NewExpression (nfo 6 10 6 49 201 240) (Identifier (nfo 6 14 6 25 205 216) "HelloBubble" None)
                                        [ObjectExpression (nfo 6 26 6 48 217 239)
                                           [Property (nfo 6 28 6 46 219 237) (Identifier (nfo 6 28 6 32 219 223) "name" None)
                                              (MemberExpression (nfo 6 34 6 46 225 237) (Identifier (nfo 6 34 6 41 225 232) "payload" None)
                                                 (Identifier (nfo 6 42 6 46 233 237) "name" None) false false) false]])
                                     (Identifier (nfo 6 50 6 56 241 247) "action" None) false false) []))]))
                   "method" false]))].

Definition cronPrograms : list (string * Node) :=
  [(dailyText, dailyProgram); (badCronText, badCronProgram);
   (noCronText, noCronProgram); (noTriggerText, noTriggerProgram);
   (importedText, importedProgram)].

(** [validateAndExtract] on the sample flows. *)
Definition sampleValidateAndExtract (code : string)
  : ValidationAndExtractionResult :=
  fst (validateAndExtract (sampleParse cronPrograms) sampleAnalyze noTools
         sampleValidateCron sampleValidateScript noCredentials 10 code
         helloFactory 0).

(** ** Parameter classification: the specification's reading *)

(** The characters of an identifier: a start character and part
    characters. *)
Definition isIdentifierName (name : list ascii) : bool :=
  match name with
  | c :: cs => isIdentStart c && forallb isIdentPart cs
  | [] => false
  end.

(** The member expression [process.env]. *)
Definition isProcessEnvObject (n : Node) : bool :=
  match n with
  | MemberExpression _ (Identifier _ "process" _) (Identifier _ "env" _)
      false _ => true
  | _ => false
  end.

(** A member expression, or an optional chain, on [process.env]. *)
Definition onProcessEnv (n : Node) : bool :=
  match n with
  | MemberExpression _ obj _ _ _
  | ChainExpression _ (MemberExpression _ obj _ _ _) => isProcessEnvObject obj
  | _ => false
  end.

(** A non-null assertion on a member expression whose text starts with
    [process.env.]. *)
Definition nonNullEnv (script : string) (e : Node) : bool :=
  match e with
  | TSNonNullExpression _ (MemberExpression _ _ _ _ _ as inner) =>
      isProcessEnv (sourceText script inner)
  | _ => false
  end.

(** What may follow the base identifier of a variable reference: nothing,
    a property path or an index. *)
Definition isAccessSuffix (suffix : string) : Prop :=
  suffix = EmptyString \/ startsWith "." suffix = true
  \/ startsWith "[" suffix = true.

(** [v] is a variable called [name] that is accessible at [line] and
    declared on that line or before. *)
Definition visibleNamed (sm : ScopeManager) (line : Z) (name : string)
           (v : ScopeVariable) : Prop :=
  accessibleAt sm line v /\ varName v = name
  /\ exists declLine,
      firstDeclLine v = Some declLine /\ (declLine <= line)%Z.

(** A flow whose bubble takes one parameter of each kind: an environment
    variable, a variable, a string literal, a conditional expression, an
    indexed variable and an optional chain on the environment. *)
Definition paramText : string :=
  "export class Flow extends BubbleFlow<'webhook/http'> {
  async handle(payload: Payload) {
    const someVar = 'x';
    const items = ['y'];
    await new HelloBubble({ a: process.env.KEY, b: someVar, c: 'literal', d: cond ? 1 : 2, e: items[0], f: process.env?.KEY }).action();
  }
}".

Definition paramEnvKey : Node :=
  MemberExpression (nfo 5 31 5 46 171 186)
     (MemberExpression (nfo 5 31 5 42 171 182) (Identifier (nfo 5 31 5 38 171 178) "process" None)
        (Identifier (nfo 5 39 5 42 179 182) "env" None) false false)
     (Identifier (nfo 5 43 5 46 183 186) "KEY" None) false false.

Definition paramConditional : Node :=
  OtherNode (nfo 5 77 5 89 217 229) "ConditionalExpression"
     [(Identifier (nfo 5 77 5 81 217 221) "cond" None); Literal (nfo 5 84 5 85 224 225) (LNum 1);
      Literal (nfo 5 88 5 89 228 229) (LNum 2)].

Definition paramIndexed : Node :=
  MemberExpression (nfo 5 94 5 102 234 242) (Identifier (nfo 5 94 5 99 234 239) "items" None)
     (Literal (nfo 5 100 5 101 240 241) (LNum 0)) true false.

Definition paramOptionalEnv : Node :=
  ChainExpression (nfo 5 107 5 123 247 263)
     (MemberExpression (nfo 5 107 5 123 247 263)
        (MemberExpression (nfo 5 107 5 118 247 258) (Identifier (nfo 5 107 5 114 247 254) "process" None)
           (Identifier (nfo 5 115 5 118 255 258) "env" None) false false)
        (Identifier (nfo 5 120 5 123 260 263) "KEY" None) false true).

Definition paramNew : Node :=
  NewExpression (nfo 5 10 5 126 150 266) (Identifier (nfo 5 14 5 25 154 165) "HelloBubble" None)
    [ObjectExpression (nfo 5 26 5 125 166 265)
       [Property (nfo 5 28 5 46 168 186) (Identifier (nfo 5 28 5 29 168 169) "a" None)
         paramEnvKey false;
          Property (nfo 5 48 5 58 188 198) (Identifier (nfo 5 48 5 49 188 189) "b" None)
         (Identifier (nfo 5 51 5 58 191 198) "someVar" None) false;
          Property (nfo 5 60 5 72 200 212) (Identifier (nfo 5 60 5 61 200 201) "c" None)
         (Literal (nfo 5 63 5 72 203 212) (LStr "literal")) false;
          Property (nfo 5 74 5 89 214 229) (Identifier (nfo 5 74 5 75 214 215) "d" None)
         paramConditional false;
          Property (nfo 5 91 5 102 231 242) (Identifier (nfo 5 91 5 92 231 232) "e" None)
         paramIndexed false;
          Property (nfo 5 104 5 123 244 263) (Identifier (nfo 5 104 5 105 244 245) "f" None)
         paramOptionalEnv false]].

Definition paramProgram : Node :=
  Program (nfo 1 0 7 1 0 282)
    [ExportNamedDeclaration (nfo 1 0 7 1 0 282)
       (Some (ClassDeclaration (nfo 1 7 7 1 7 282) (Some "Flow")
                (Some (Identifier (nfo 1 26 1 36 26 36) "BubbleFlow" None))
                [TSLiteralType (Some (LStr "webhook/http"))]
                [(MethodDefinition (nfo 2 2 6 3 57 280) (Identifier (nfo 2 8 2 14 63 69) "handle" None)
                   (FunctionExpression (nfo 2 14 6 3 69 280) [(Identifier (nfo 2 15 2 31 70 86) "payload" (Some (TSTypeReference (Some "Payload"))))]
                      (BlockStatement (nfo 2 33 6 3 88 280)
                         [(VariableDeclaration (nfo 3 4 3 24 94 114) "const"
                            [VariableDeclarator (nfo 3 10 3 23 100 113)
                               (Identifier (nfo 3 10 3 17 100 107) "someVar" None)
                               (Some (Literal (nfo 3 20 3 23 110 113) (LStr "x")))]);
                            (VariableDeclaration (nfo 4 4 4 24 119 139) "const"
                            [VariableDeclarator (nfo 4 10 4 23 125 138)
                               (Identifier (nfo 4 10 4 15 125 130) "items" None)
                               (Some (ArrayExpression (nfo 4 18 4 23 133 138) [Some (Literal (nfo 4 19 4 22 134 137) (LStr "y"))]))]);
                            (ExpressionStatement (nfo 5 4 5 136 144 276)
                            (AwaitExpression (nfo 5 4 5 135 144 275)
                               (CallExpression (nfo 5 10 5 135 150 275)
                                  (MemberExpression (nfo 5 10 5 133 150 273)
                                     (paramNew)
                                     (Identifier (nfo 5 127 5 133 267 273) "action" None) false false) [])))]))
                   "method" false)]))].


Definition paramScopes : ScopeManager :=
  flowScopes
    (handleVariablesOf
       [mkVar 5 "someVar" [Some (at_ 3 10 23)] "function";
        mkVar 6 "items" [Some (at_ 4 10 23)] "function"])
    7 6.

(** The parameters of the bubble located in the sample. *)
Definition paramParameters : list BubbleParameter :=
  match visitNode paramText (buildClassNameLookup helloFactory) paramScopes
          paramProgram [] with
  | Ok [(_, b)] => parameters b
  | _ => []
  end.

(** ** Schema defaults: the specification's reading *)




(** A default that is expressible without evaluation: a literal, a
    template without expressions, an array of literals, an object whose
    properties have a name and a literal value, a signed numeric
    literal. *)
Definition isStaticDefault (e : Node) : bool :=
  match e with
  | Literal _ _ => true
  | TemplateLiteral _ _ [] => true
  | ArrayExpression _ elements =>
      forallb (fun el => match el with
                         | Some (Literal _ _) => true
                         | _ => false
                         end) elements
  | ObjectExpression _ properties =>
      forallb (fun p => match p with
                        | Property _ key (Literal _ _) _ =>
                            match nodeKeyName key with
                            | Some _ => true
                            | None => false
                            end
                        | _ => false
                        end) properties
  | UnaryExpression _ operator (Literal _ (LNum _)) =>
      String.eqb operator "-" || String.eqb operator "+"
  | _ => false
  end.






(** A flow whose handle method destructures its payload with defaults:
    a string, an array of strings, a negative number and a call. *)
Definition defaultsText : string :=
  "export interface Payload {
  industry?: string;
  subreddits?: string[];
  limit?: number;
  since?: string;
}
export class Flow extends BubbleFlow<'webhook/http'> {
  async handle(payload: Payload) {
    const { industry = 'general', subreddits = ['a', 'b'], limit = -5, since = today() } = payload;
    return {};
  }
}".

Definition defaultsDeclaration : Node :=
  VariableDeclaration (nfo 9 4 9 99 205 300) "const"
    [VariableDeclarator (nfo 9 10 9 98 211 299)
       (ObjectPattern (nfo 9 10 9 88 211 289)
          [Property (nfo 9 12 9 32 213 233) (Identifier (nfo 9 12 9 20 213 221) "industry" None)
            (AssignmentPattern (nfo 9 12 9 32 213 233) (Identifier (nfo 9 12 9 20 213 221) "industry" None)
               (Literal (nfo 9 23 9 32 224 233) (LStr "general"))) false;
             Property (nfo 9 34 9 57 235 258) (Identifier (nfo 9 34 9 44 235 245) "subreddits" None)
            (AssignmentPattern (nfo 9 34 9 57 235 258) (Identifier (nfo 9 34 9 44 235 245) "subreddits" None)
               (ArrayExpression (nfo 9 47 9 57 248 258)
                  [Some (Literal (nfo 9 48 9 51 249 252) (LStr "a")); Some (Literal (nfo 9 53 9 56 254 257) (LStr "b"))])) false;
             Property (nfo 9 59 9 69 260 270) (Identifier (nfo 9 59 9 64 260 265) "limit" None)
            (AssignmentPattern (nfo 9 59 9 69 260 270) (Identifier (nfo 9 59 9 64 260 265) "limit" None)
               (UnaryExpression (nfo 9 67 9 69 268 270) "-" (Literal (nfo 9 68 9 69 269 270) (LNum 5)))) false;
             Property (nfo 9 71 9 86 272 287) (Identifier (nfo 9 71 9 76 272 277) "since" None)
            (AssignmentPattern (nfo 9 71 9 86 272 287) (Identifier (nfo 9 71 9 76 272 277) "since" None)
               (CallExpression (nfo 9 79 9 86 280 287) (Identifier (nfo 9 79 9 84 280 285) "today" None) [])) false])
       (Some (Identifier (nfo 9 91 9 98 292 299) "payload" None))].

Definition defaultsProgram : Node :=
  Program (nfo 1 0 12 1 0 321)
    [ExportNamedDeclaration (nfo 1 0 6 1 0 110)
       (Some (TSInterfaceDeclaration (nfo 1 7 6 1 7 110) "Payload"
               [TSPropertySignature 2 (KeyIdent "industry") (Some TSStringKeyword) true;
                  TSPropertySignature 3 (KeyIdent "subreddits")
                 (Some (TSArrayType TSStringKeyword)) true;
                  TSPropertySignature 4 (KeyIdent "limit") (Some TSNumberKeyword) true;
                  TSPropertySignature 5 (KeyIdent "since") (Some TSStringKeyword) true]));
     ExportNamedDeclaration (nfo 7 0 12 1 111 321)
       (Some (ClassDeclaration (nfo 7 7 12 1 118 321) (Some "Flow")
               (Some (Identifier (nfo 7 26 7 36 137 147) "BubbleFlow" None))
               [TSLiteralType (Some (LStr "webhook/http"))]
               [(MethodDefinition (nfo 8 2 11 3 168 319) (Identifier (nfo 8 8 8 14 174 180) "handle" None)
                  (FunctionExpression (nfo 8 14 11 3 180 319) [(Identifier (nfo 8 15 8 31 181 197) "payload" (Some (TSTypeReference (Some "Payload"))))]
                     (BlockStatement (nfo 8 33 11 3 199 319)
                        [(defaultsDeclaration);
                           (ReturnStatement (nfo 10 4 10 14 305 315)
                           (Some (ObjectExpression (nfo 10 11 10 13 312 314) [])))]))
                  "method" false)]))].








(** The payload schema inferred for the sample. *)
Definition defaultsSchema : Result (option JSON) :=
  getPayloadJsonSchema defaultsText defaultsProgram 10.

(** ** Trigger errors: the specification's reading *)



(** ** Further properties: what they speak of *)

(** The variables of a scope graph, scope by scope. *)
Definition scopeGraphVariables (sm : ScopeManager) : list ScopeVariable :=
  flat_map scopeVariables sm.

(** A global scope spans at least as many lines as any scope of the
    graph, as the scope of the whole program does. *)
Definition globalScopesWidest (sm : ScopeManager) : Prop :=
  forall g s,
    In g sm -> In s sm -> scopeType g = "global" ->
    (scopeRange s <= scopeRange g)%Z.

(** [a] comes before [b] in the order of [getAllScopesContainingLine]:
    fewer lines, or as many and a priority at least as high. *)
Definition moreSpecific (a b : Scope) : Prop :=
  (scopeRange a < scopeRange b)%Z
  \/ (scopeRange a = scopeRange b
      /\ (scopePriority (scopeType b) <= scopePriority (scopeType a))%Z).

(** What the loop of [buildVariableMapping] has established after the
    variables [seen]. *)
Definition tablesAgree (seen : list ScopeVariable)
           (tables : list (Z * ScopeVariable) * list (Z * Loc)) : Prop :=
  (forall id v,
      dget Z.eqb id (fst tables) = Some v ->
      varId v = id /\ isGlobalVariable v = false /\ In v seen)
  /\ (forall v,
         In v seen -> isGlobalVariable v = false ->
         exists w, dget Z.eqb (varId v) (fst tables) = Some w)
  /\ (forall id l,
         dget Z.eqb id (snd tables) = Some l ->
         exists v, dget Z.eqb id (fst tables) = Some v)
  /\ (forall v l,
         In v seen -> isGlobalVariable v = false ->
         extractVariableLocation v = Some l ->
         exists l', dget Z.eqb (varId v) (snd tables) = Some l').

(** The script object of the second sample, built with a parser and a
    scope analysis that know that sample. *)
Definition mixedBuilt : Result BubbleScript * Z :=
  newBubbleScript (sampleParse [(mixedText, mixedProgram)])
    (fun _ counter => (mixedScopes, counter)) noTools mixedText
    helloFactory 7.

Definition mixedScript : BubbleScript :=
  match fst mixedBuilt with
  | Ok script => script
  | Throw _ => threeLinesScript
  end.

(** The result carries none of the extracted data. *)
Definition carriesNothing (r : ValidationAndExtractionResult) : Prop :=
  bubbleParameters r = None /\ resultWorkflow r = None
  /\ inputSchema r = None /\ resultTrigger r = None
  /\ requiredCredentials r = None.

(** The location a workflow node records; a bubble leaf records none. *)
Definition nodeLocation (n : WorkflowNode) : option Loc :=
  match n with
  | WBubble _ => None
  | WIf l _ _ _ | WFor l _ _ | WWhile l _ _ | WTryCatch l _ _
  | WCodeBlock l _ _ => Some l
  end.

(** A default that [evaluateDefaultExpressionToJSON] can evaluate besides
    the static ones: a negated boolean literal. *)
Definition isNegatedBoolean (e : Node) : bool :=
  match e with
  | UnaryExpression _ operator (Literal _ (LBool _)) =>
      String.eqb operator "!"
  | _ => false
  end.

(** The name of a member of an object type, if it has a usable one, and
    the names of the members that are not optional. *)
Definition memberName (m : TypeMember) : option string :=
  match m with
  | TSPropertySignature _ key _ _ => propKeyName key
  | TSOtherMember => None
  end.

Definition memberNames (members : list TypeMember) : list string :=
  somes (map memberName members).

Definition requiredNames (members : list TypeMember) : list string :=
  somes (map (fun m =>
                match m with
                | TSPropertySignature _ key _ false => propKeyName key
                | _ => None
                end) members).

(** What the workflow node built for a statement keeps of it: a bubble
    leaf stands for a declaration, an expression statement or a [return]
    with an argument; a code block keeps the statement's location and
    source text; a control-flow node keeps the statement's location. *)
Definition statementNode (script : string) (stmt : Node) (n : WorkflowNode)
  : Prop :=
  match n with
  | WBubble _ =>
      match stmt with
      | VariableDeclaration _ _ _ | ExpressionStatement _ _
      | ReturnStatement _ (Some _) => True
      | _ => False
      end
  | WCodeBlock l code _ => l = locOf stmt /\ code = sourceText script stmt
  | WIf l _ _ _ | WFor l _ _ | WWhile l _ _ | WTryCatch l _ _ =>
      l = locOf stmt
  end.

(** An object type with one optional and one required member. *)
Definition sampleMembers : list TypeMember :=
  [TSPropertySignature 2 (KeyIdent "industry") (Some TSStringKeyword) true;
   TSPropertySignature 3 (KeyIdent "limit") (Some TSNumberKeyword) false].

(** A [findCredentials] that asks one credential of every bubble. *)
Definition oneCredentialEach (script : BubbleScript)
  : Result (list (Z * list string)) :=
  Ok (map (fun entry => (fst entry, ["OPENAI_CRED"])) (parsedBubbles script)).

(** The tool names that the [tools] parameter of an agent declares. *)
Definition agentTools (parseTools : string -> option (list (option string)))
           (parameters : list BubbleParameter) : list string :=
  match find (fun param => String.eqb (paramName param) "tools")
          parameters with
  | Some toolsParam =>
      match parseTools (paramValue toolsParam) with
      | Some tools => somes tools
      | None => []
      end
  | None => []
  end.

(** The names the registry declares as dependencies of a bubble: those of
    its detailed specifications, each followed by the declared tools of an
    agent, or else its flat dependency list. *)
Definition registeredDependencies (m : BubbleMetadata) : list string :=
  match bubbleDependenciesDetailed m with
  | Some (spec :: specs) =>
      flat_map
        (fun spec =>
           specName spec
           :: (if String.eqb (specName spec) "ai-agent" then
                 match specTools spec with Some tools => tools | None => [] end
               else []))
        (spec :: specs)
  | _ => match bubbleDependencies m with Some deps => deps | None => [] end
  end.

(** The direct dependencies of a bubble name. *)
Definition directDependencies
           (parseTools : string -> option (list (option string)))
           (factory : BubbleFactory) (parameters : list BubbleParameter)
           (name : string) : list string :=
  (if String.eqb name "ai-agent" then agentTools parseTools parameters
   else [])
  ++ match getMetadata factory name with
     | Some m => registeredDependencies m
     | None => []
     end.

(** Every name that can be a dependency, and a number of loop rounds that
    is enough for the search from [seeds]. *)
Definition dependencyUniverse
           (parseTools : string -> option (list (option string)))
           (factory : BubbleFactory) (parameters : list BubbleParameter)
  : list string :=
  agentTools parseTools parameters
  ++ flat_map (fun e => registeredDependencies (snd e)) (registry factory).

Definition dependencyFuel
           (parseTools : string -> option (list (option string)))
           (factory : BubbleFactory) (parameters : list BubbleParameter)
           (seeds : list string) : nat :=
  S (length (dependencyUniverse parseTools factory parameters)
     + length seeds).





(** The bubble carries the name, the class name and the node type of a
    class of the registry index. *)
Definition registeredBubble (classNames : list (string * ClassInfo))
           (b : ParsedBubbleWithInfo) : Prop :=
  exists cname ci,
    In (cname, ci) classNames
    /\ bubbleName b = ciBubbleName ci
    /\ className b = ciClassName ci
    /\ bubbleNodeType b = ciNodeType ci.

Definition allRegistered (classNames : list (string * ClassInfo))
           (nodes : BubbleMap) : Prop :=
  forall k b, In (k, b) nodes -> registeredBubble classNames b.

(* ================================================================== *)
(** * 10. Properties *)
(* ================================================================== *)

(** ** Lines of text *)

Lemma split_nl_nonempty : forall s, split_nl s <> [].
Proof.
  induction s as [|c r IH]; simpl; [discriminate|].
  destruct (Ascii.eqb c nl); [discriminate|].
  destruct (split_nl r); discriminate.
Qed.

Lemma split_nl_lines_noNewline :
  forall s l, In l (split_nl s) -> noNewline l.
Proof.
  induction s as [|c r IH]; simpl; intros l Hl.
  - destruct Hl as [<-|[]]. intros [].
  - destruct (Ascii.eqb c nl) eqn:E.
    + destruct Hl as [<-|Hl]; [intros []|auto].
    + destruct (split_nl r) as [|h t] eqn:Er.
      * destruct Hl as [<-|[]]. simpl. intros [->|[]].
        rewrite Ascii.eqb_refl in E. discriminate.
      * destruct Hl as [<-|Hl].
        -- simpl. intros [->|Hin].
           ++ rewrite Ascii.eqb_refl in E. discriminate.
           ++ exact (IH h (or_introl eq_refl) Hin).
        -- apply IH. right. exact Hl.
Qed.

Lemma split_nl_single : forall x, noNewline x -> split_nl x = [x].
Proof.
  induction x as [|c r IH]; simpl; intros H; [reflexivity|].
  destruct (Ascii.eqb c nl) eqn:E.
  - apply Ascii.eqb_eq in E. subst c. exfalso. apply H. simpl. now left.
  - rewrite IH; [reflexivity|]. intros Hin. apply H. simpl. now right.
Qed.

Lemma split_nl_line_cons :
  forall x s, noNewline x -> split_nl (x ++ String nl s)%string = x :: split_nl s.
Proof.
  induction x as [|c r IH]; intros s H.
  - reflexivity.
  - cbn [append split_nl].
    destruct (Ascii.eqb c nl) eqn:E.
    + apply Ascii.eqb_eq in E. subst c. exfalso. apply H. simpl. now left.
    + rewrite IH; [reflexivity|]. intros Hin. apply H. simpl. now right.
Qed.

Lemma split_nl_line_then :
  forall x s, noNewline x -> split_nl (x ++ NL ++ s)%string = x :: split_nl s.
Proof. intros x s H. exact (split_nl_line_cons s H). Qed.

Lemma join_cons2 :
  forall sep x y r, join sep (x :: y :: r) = (x ++ sep ++ join sep (y :: r))%string.
Proof. reflexivity. Qed.

(** Re-splitting joined lines gives back the line at position [length pre]
    when it and the lines before it contain no line feed. *)
Lemma split_join_nth :
  forall pre x post,
    Forall noNewline pre -> noNewline x ->
    nth_error (split_nl (join NL (pre ++ x :: post))) (length pre) = Some x.
Proof.
  induction pre as [|a pre IH]; intros x post Hpre Hx; cbn [app length].
  - destruct post as [|y post].
    + cbn [join]. rewrite split_nl_single by assumption. reflexivity.
    + rewrite join_cons2, split_nl_line_then by assumption. reflexivity.
  - inversion Hpre as [|? ? Ha Hpre']; subst.
    destruct (pre ++ x :: post) as [|y rest] eqn:E.
    + destruct pre; discriminate.
    + rewrite join_cons2, split_nl_line_then by assumption.
      cbn [nth_error]. rewrite <- E. apply IH; assumption.
Qed.

Lemma split_nl_app_line :
  forall x s, split_nl (x ++ String nl s)%string = split_nl x ++ split_nl s.
Proof.
  induction x as [|c r IH]; intros s.
  - reflexivity.
  - cbn [append split_nl]. rewrite IH.
    destruct (Ascii.eqb c nl); [reflexivity|].
    pose proof (split_nl_nonempty r) as Hr.
    destruct (split_nl r) as [|h t]; [contradiction|]. reflexivity.
Qed.

(** Re-splitting joined lines gives, at position [length pre], the first
    of the lines the string at that position splits into. *)
Lemma split_join_nth_head :
  forall pre x post,
    Forall noNewline pre ->
    nth_error (split_nl (join NL (pre ++ x :: post))) (length pre)
    = Some (hd EmptyString (split_nl x)).
Proof.
  induction pre as [|a pre IH]; intros x post Hpre; cbn [app length].
  - pose proof (split_nl_nonempty x) as Hx.
    destruct post as [|y post].
    + cbn [join]. destruct (split_nl x); [contradiction|]. reflexivity.
    + rewrite join_cons2. change (NL ++ join NL (y :: post))%string
        with (String nl (join NL (y :: post))).
      rewrite split_nl_app_line.
      destruct (split_nl x); [contradiction|]. reflexivity.
  - inversion Hpre as [|? ? Ha Hpre']; subst.
    destruct (pre ++ x :: post) as [|y rest] eqn:E.
    + destruct pre; discriminate.
    + rewrite join_cons2, split_nl_line_then by assumption.
      cbn [nth_error]. rewrite <- E. apply IH; assumption.
Qed.

Lemma firstn_split_noNewline :
  forall s n, Forall noNewline (firstn n (split_nl s)).
Proof.
  intros s n. apply Forall_forall. intros l Hl.
  apply split_nl_lines_noNewline with (s := s).
  rewrite <- (firstn_skipn n). apply in_or_app. now left.
Qed.

(** ** Strings and their characters *)

Lemma str_chars : forall s, str (chars s) = s.
Proof. intros s. apply string_of_list_ascii_of_string. Qed.

Lemma chars_append :
  forall a b, chars (a ++ b)%string = chars a ++ chars b.
Proof.
  induction a as [|c a IH]; simpl; intros b; [reflexivity|].
  now rewrite IH.
Qed.

Lemma chars_str : forall l, chars (str l) = l.
Proof. exact list_ascii_of_string_of_list_ascii. Qed.

Lemma stripPrefix_Some :
  forall p s r, stripPrefix p s = Some r <-> s = p ++ r.
Proof.
  induction p as [|a p IH]; intros s r.
  - destruct s; simpl; split; congruence.
  - destruct s as [|b s]; simpl; [split; discriminate|].
    destruct (Ascii.eqb a b) eqn:E.
    + apply Ascii.eqb_eq in E. subst b. rewrite IH. split; congruence.
    + apply Ascii.eqb_neq in E. split; [discriminate|]. congruence.
Qed.

Lemma startsWith_hasPrefix :
  forall p s, startsWith p s = true <-> hasPrefix p s.
Proof.
  intros p s. unfold startsWith, hasPrefix.
  destruct (stripPrefix (chars p) (chars s)) as [r|] eqn:E.
  - apply stripPrefix_Some in E. split; [intros _|reflexivity].
    exists (str r). rewrite <- (str_chars s), E.
    rewrite <- (str_chars (p ++ str r)), chars_append, chars_str.
    reflexivity.
  - split; [discriminate|]. intros [after ->].
    rewrite chars_append in E.
    assert (H : stripPrefix (chars p) (chars p ++ chars after)
                = Some (chars after)) by now apply stripPrefix_Some.
    congruence.
Qed.

Lemma includesL_iff :
  forall p s, includesL p s = true <-> exists a b, s = a ++ p ++ b.
Proof.
  intros p. induction s as [|c s IH].
  - simpl. destruct (stripPrefix p []) as [r|] eqn:E.
    + apply stripPrefix_Some in E. split; [intros _|reflexivity].
      exists [], r. exact E.
    + split; [discriminate|]. intros (a & b & H).
      destruct a; [|discriminate]. simpl in H.
      assert (stripPrefix p [] = Some b) by now apply stripPrefix_Some.
      congruence.
  - cbn [includesL]. destruct (stripPrefix p (c :: s)) as [r|] eqn:E.
    + apply stripPrefix_Some in E. split; [intros _|reflexivity].
      exists [], r. exact E.
    + rewrite IH. split.
      * intros (a & b & ->). exists (c :: a), b. reflexivity.
      * intros (a & b & H). destruct a as [|c' a].
        -- simpl in H.
           assert (stripPrefix p (c :: s) = Some b)
             by now apply stripPrefix_Some.
           congruence.
        -- inversion H; subst. eauto.
Qed.

Lemma includes_hasFragment :
  forall p s, includes p s = true <-> hasFragment p s.
Proof.
  intros p s. unfold includes, hasFragment. rewrite includesL_iff. split.
  - intros (a & b & H). exists (str a), (str b).
    rewrite <- (str_chars s), H.
    rewrite <- (str_chars (str a ++ p ++ str b)).
    now rewrite !chars_append, !chars_str.
  - intros (a & b & ->). exists (chars a), (chars b).
    now rewrite !chars_append.
Qed.

Lemma existsb_eqb_In :
  forall x l, existsb (String.eqb x) l = true <-> In x l.
Proof.
  intros x l. rewrite existsb_exists. split.
  - intros (y & Hy & E). apply String.eqb_eq in E. now subst.
  - intros H. exists x. split; [assumption | apply String.eqb_refl].
Qed.

(** ** C9: mutation errors *)

Lemma reassignVariable_error_unchanged :
  forall this id v msg this',
    reassignVariable this id v = (Throw msg, this') -> this' = this.
Proof.
  intros this id v msg this'. unfold reassignVariable.
  destruct (dget Z.eqb id (scriptVariables this)) as [variable|];
    [|intros H; inversion H; reflexivity].
  destruct (dget Z.eqb id (variableLocations this)) as [location|];
    [|intros H; inversion H; reflexivity].
  destruct (lineAt _ _) as [l|];
    repeat match goal with
           | |- context [if ?b then _ else _] => destruct b
           end;
    intros H; inversion H; reflexivity.
Qed.

Lemma injectLines_error_unchanged :
  forall this lines n msg this',
    injectLines this lines n = (Throw msg, this') -> this' = this.
Proof.
  intros this lines n msg this'. unfold injectLines.
  destruct (n <? 1)%Z; [intros H; inversion H; reflexivity|].
  destruct (_ <? _)%nat; intros H; inversion H; reflexivity.
Qed.

(** C9, as amended.  [reassignVariable] throws when the variable id is
    unknown and when neither the declaration pattern nor the bare
    assignment pattern matches the variable's declaration line;
    [injectLines] throws when the 1-indexed line number is below 1 or more
    than one past the last line, and succeeds for every other line number;
    at the position just after the last line it appends the injected
    strings to the lines of the buffer; whenever either operation throws,
    the script object, and so its current source buffer, is the one it was
    called on; and after a successful [injectLines], line [N] of the new
    buffer is the first injected string up to its first line feed, hence
    that string itself when it holds no line feed. *)
Theorem mutation_errors_leave_buffer_unchanged :
  forall this : BubbleScript,
    (forall id v,
        dget Z.eqb id (scriptVariables this) = None ->
        exists msg, reassignVariable this id v = (Throw msg, this))
    /\ (forall id v variable location line,
           dget Z.eqb id (scriptVariables this) = Some variable ->
           dget Z.eqb id (variableLocations this) = Some location ->
           lineAt (split_nl (currentBubbleScript this))
                  (startLine location - 1) = Some line ->
           test (variablePattern (varName variable)) line = false ->
           test (assignmentPattern (varName variable)) line = false ->
           exists msg, reassignVariable this id v = (Throw msg, this))
    /\ (forall lines n,
           (n < 1 \/ scriptLineCount this + 1 < n)%Z ->
           exists msg, injectLines this lines n = (Throw msg, this))
    /\ (forall lines n,
           (1 <= n <= scriptLineCount this + 1)%Z ->
           exists text,
             injectLines this lines n
             = (Ok text, setCurrentBubbleScript this text)
             /\ (n = (scriptLineCount this + 1)%Z ->
                 text
                 = join NL (split_nl (currentBubbleScript this) ++ lines)))
    /\ (forall id v msg this',
           reassignVariable this id v = (Throw msg, this') ->
           currentBubbleScript this' = currentBubbleScript this)
    /\ (forall lines n msg this',
           injectLines this lines n = (Throw msg, this') ->
           currentBubbleScript this' = currentBubbleScript this)
    /\ (forall first rest n text this',
           injectLines this (first :: rest) n = (Ok text, this') ->
           currentBubbleScript this' = text
           /\ nth_error (split_nl text) (Z.to_nat (n - 1))
              = Some (hd EmptyString (split_nl first))
           /\ (noNewline first ->
               nth_error (split_nl text) (Z.to_nat (n - 1)) = Some first)).
Proof.
  intros this. repeat split.
  - intros id v H. unfold reassignVariable. rewrite H. eauto.
  - intros id v variable location line Hv Hl Hline H1 H2.
    unfold reassignVariable. rewrite Hv, Hl, Hline, H1, H2. eauto.
  - intros lines n Hn. unfold injectLines, scriptLineCount in *.
    destruct (n <? 1)%Z eqn:E1; [eauto|].
    apply Z.ltb_ge in E1.
    destruct Hn as [Hn|Hn]; [lia|].
    destruct (_ <? _)%nat eqn:E2; [eauto|].
    apply Nat.ltb_ge in E2. lia.
  - intros lines n [Hn1 Hn2]. unfold injectLines, scriptLineCount in *.
    destruct (n <? 1)%Z eqn:E1; [apply Z.ltb_lt in E1; lia|].
    destruct (_ <? _)%nat eqn:E2; [apply Nat.ltb_lt in E2; lia|].
    eexists. split; [reflexivity|]. intros ->.
    replace (Z.to_nat (_ + 1 - 1))
      with (length (split_nl (currentBubbleScript this))) by lia.
    now rewrite firstn_all, skipn_all, app_nil_r.
  - intros id v msg this' H.
    now rewrite (reassignVariable_error_unchanged _ _ _ H).
  - intros lines n msg this' H.
    now rewrite (injectLines_error_unchanged _ _ _ H).
  - unfold injectLines in H.
    destruct (n <? 1)%Z; [discriminate|].
    destruct (_ <? _)%nat; [discriminate|].
    inversion H; subst. reflexivity.
  - unfold injectLines in H.
    destruct (n <? 1)%Z eqn:E1; [discriminate|].
    destruct (_ <? _)%nat eqn:E2; [discriminate|].
    apply Nat.ltb_ge in E2.
    inversion H; subst text this'. clear H.
    set (i := Z.to_nat (n - 1)) in *.
    set (sl := split_nl (currentBubbleScript this)) in *.
    pose proof (@split_join_nth_head (firstn i sl) first (rest ++ skipn i sl)
                  (firstn_split_noNewline _ _)) as P.
    rewrite (firstn_length_le sl E2) in P. exact P.
  - intros Hfirst. unfold injectLines in H.
    destruct (n <? 1)%Z eqn:E1; [discriminate|].
    destruct (_ <? _)%nat eqn:E2; [discriminate|].
    apply Nat.ltb_ge in E2.
    inversion H; subst text this'. clear H.
    set (i := Z.to_nat (n - 1)) in *.
    set (sl := split_nl (currentBubbleScript this)) in *.
    pose proof (@split_join_nth (firstn i sl) first (rest ++ skipn i sl)
                  (firstn_split_noNewline _ _) Hfirst) as P.
    rewrite (firstn_length_le sl E2) in P. exact P.
Qed.

Lemma mutation_errors_witness :
  (exists msg, reassignVariable threeLinesScript 99 "5"
               = (Throw msg, threeLinesScript))
  /\ (exists msg, reassignVariable threeLinesScript 3 "5"
                  = (Throw msg, threeLinesScript))
  /\ (exists msg, injectLines threeLinesScript ["let z = 2;"] 0
                  = (Throw msg, threeLinesScript))
  /\ (exists msg, injectLines threeLinesScript ["let z = 2;"] 5
                  = (Throw msg, threeLinesScript))
  /\ (exists text,
         injectLines threeLinesScript ["let z = 2;"] 4
         = (Ok text, setCurrentBubbleScript threeLinesScript text)
         /\ text = join NL (split_nl threeLines ++ ["let z = 2;"]))
  /\ nth_error
       (split_nl
          (currentBubbleScript
             (snd (injectLines threeLinesScript ["let z = 2;"] 2))))
       1 = Some "let z = 2;"
  /\ nth_error
       (split_nl
          (currentBubbleScript
             (snd (injectLines threeLinesScript [twoStatements] 2))))
       1 = Some "let y = 1;".
Proof.
  destruct (mutation_errors_leave_buffer_unchanged threeLinesScript)
    as (H1 & H2 & H3 & H4 & _ & _ & H6).
  split; [apply H1; reflexivity|].
  split.
  { apply (H2 3%Z "5" (mkVar 3 "c" [Some (at_ 3 0 3)] "module") (at_ 3 0 3)
              "foo(b);"); reflexivity. }
  split; [apply H3; left; reflexivity|].
  split; [apply H3; right; reflexivity|].
  split.
  { destruct (H4 ["let z = 2;"] 4%Z) as (text & Ht & Happ);
      [split; vm_compute; discriminate|].
    exists text. split; [exact Ht | exact (Happ eq_refl)]. }
  split.
  - destruct (injectLines threeLinesScript ["let z = 2;"] 2)
      as [r this'] eqn:E.
    assert (Hr : exists text, r = Ok text).
    { vm_compute in E. inversion E. eauto. }
    destruct Hr as [text ->].
    destruct (H6 "let z = 2;" [] 2%Z text this' E) as (Hc & _ & Hn).
    simpl snd. rewrite Hc. apply Hn.
    intros Hin. vm_compute in Hin. intuition discriminate.
  - destruct (injectLines threeLinesScript [twoStatements] 2)
      as [r this'] eqn:E.
    assert (Hr : exists text, r = Ok text).
    { vm_compute in E. inversion E. eauto. }
    destruct Hr as [text ->].
    destruct (H6 twoStatements [] 2%Z text this' E) as (Hc & Hn & _).
    simpl snd. rewrite Hc. exact Hn.
Defined.

(** C9, as worded, fails on the three-line script: line number 4 is beyond
    its end, yet the injection succeeds and appends; and when the first
    injected string holds two lines, line 2 of the result is only its first
    line. *)
Lemma mutation_errors_counterexample :
  scriptLineCount threeLinesScript = 3%Z
  /\ fst (injectLines threeLinesScript ["let z = 2;"] 4)
     = Ok "const a = 1;
let b = 2;
foo(b);
let z = 2;"
  /\ ~ (forall this lines n,
           (n < 1 \/ scriptLineCount this < n)%Z ->
           exists msg, injectLines this lines n = (Throw msg, this))
  /\ nth_error
       (split_nl (currentBubbleScript
                    (snd (injectLines threeLinesScript [twoStatements] 2))))
       1 <> Some twoStatements.
Proof.
  split; [reflexivity|]. split; [reflexivity|]. split.
  - intros H.
    destruct (H threeLinesScript ["let z = 2;"] 4%Z) as [msg Hm].
    + right. reflexivity.
    + discriminate Hm.
  - vm_compute. discriminate.
Qed.

(** The two mutation tests of the test-suite, on the three-line script. *)
Example injectLines_example :
  fst (injectLines threeLinesScript ["let z = 2;"] 2)
  = Ok "const a = 1;
let z = 2;
let b = 2;
foo(b);".
Proof. reflexivity. Qed.

Example reassignVariable_example :
  fst (reassignVariable threeLinesScript 2 "99")
  = Ok "const a = 1;
let b = 99;
foo(b);".
Proof. reflexivity. Qed.

(** ** C6: visible variables *)

Lemma In_insertSorted :
  forall A (cmp : A -> A -> Z) a l x,
    In x (insertSorted cmp a l) <-> x = a \/ In x l.
Proof.
  induction l as [|b r IH]; simpl; intros x.
  - intuition.
  - destruct (cmp b a <=? 0)%Z; simpl; [rewrite IH|]; intuition.
Qed.

Lemma In_sortBy :
  forall A (cmp : A -> A -> Z) l x, In x (sortBy cmp l) <-> In x l.
Proof.
  intros A cmp l x. unfold sortBy.
  assert (G : forall l acc,
             In x (fold_left (fun acc a => insertSorted cmp a acc) l acc)
             <-> In x l \/ In x acc).
  { clear l. induction l as [|a l IH]; simpl; intros acc.
    - intuition.
    - rewrite IH, In_insertSorted. intuition. }
  rewrite G. simpl. intuition.
Qed.

Lemma In_setAdd_sub :
  forall s v x, In x (setAdd s v) -> In x s \/ x = v.
Proof.
  intros s v x. unfold setAdd.
  destruct (existsb _ s); [auto|].
  rewrite in_app_iff. simpl. intuition.
Qed.

Lemma setAdd_keeps : forall s v x, In x s -> In x (setAdd s v).
Proof.
  intros s v x H. unfold setAdd.
  destruct (existsb _ s); [assumption|]. apply in_or_app. now left.
Qed.

Lemma setAdd_has_id :
  forall s v, exists w, In w (setAdd s v) /\ varId w = varId v.
Proof.
  intros s v. unfold setAdd.
  destruct (existsb _ s) eqn:E.
  - apply existsb_exists in E. destruct E as (w & Hw & Heq).
    apply Z.eqb_eq in Heq. eauto.
  - exists v. split; [apply in_or_app; right; now left | reflexivity].
Qed.

Lemma fold_setAdd_sub :
  forall l acc x, In x (fold_left setAdd l acc) -> In x acc \/ In x l.
Proof.
  induction l as [|v l IH]; simpl; intros acc x H; [auto|].
  destruct (IH _ _ H) as [H1|H1]; [|auto].
  destruct (In_setAdd_sub _ _ _ H1); auto.
Qed.

Lemma fold_setAdd_keeps :
  forall l acc x, In x acc -> In x (fold_left setAdd l acc).
Proof.
  induction l as [|v l IH]; simpl; intros acc x H; [assumption|].
  apply IH. now apply setAdd_keeps.
Qed.

Lemma fold_setAdd_has_id :
  forall l acc v,
    In v l -> exists w, In w (fold_left setAdd l acc) /\ varId w = varId v.
Proof.
  induction l as [|u l IH]; simpl; intros acc v H; [contradiction|].
  destruct H as [->|H]; [|now apply IH].
  destruct (setAdd_has_id acc v) as (w & Hw & Hid).
  exists w. split; [now apply fold_setAdd_keeps | assumption].
Qed.

Lemma fold_scopes_flat :
  forall (scopes : list Scope) acc,
    fold_left
      (fun acc scope =>
         fold_left setAdd (flat_map scopeVariables (scopeChain scope)) acc)
      scopes acc
    = fold_left setAdd
        (flat_map (fun s => flat_map scopeVariables (scopeChain s)) scopes)
        acc.
Proof.
  induction scopes as [|s r IH]; simpl; intros acc; [reflexivity|].
  rewrite fold_left_app. apply IH.
Qed.

Lemma accessibleAt_iff :
  forall sm line v,
    accessibleAt sm line v
    <-> In v (flat_map (fun s => flat_map scopeVariables (scopeChain s))
                (getAllScopesContainingLine sm line)).
Proof.
  intros sm line v. unfold accessibleAt, getAllScopesContainingLine.
  rewrite in_flat_map. split.
  - intros (s & a & Hs & Hc & Ha & Hv). exists s. split.
    + apply In_sortBy, filter_In. auto.
    + apply in_flat_map. eauto.
  - intros (s & Hs & Hv). apply In_sortBy, filter_In in Hs.
    apply in_flat_map in Hv. destruct Hv as (a & Ha & Hv).
    exists s, a. tauto.
Qed.

Lemma accessibleAt_allVariables :
  forall sm line v, accessibleAt sm line v -> In v (allVariables sm).
Proof.
  intros sm line v (s & a & Hs & _ & Ha & Hv).
  unfold allVariables. apply in_flat_map. exists s. split; [assumption|].
  apply in_flat_map. eauto.
Qed.

Lemma scopeChain_self : forall s, In s (scopeChain s).
Proof. destruct s; simpl; now left. Qed.

Lemma getVarsForLine_iff :
  forall sm line v,
    uniqueIds sm ->
    (In v (getVarsForLine sm line)
     <-> accessibleAt sm line v
         /\ isGlobalVariable v = false
         /\ isVariableDeclaredBeforeLine v line = true).
Proof.
  intros sm line v Huniq. unfold getVarsForLine.
  rewrite !filter_In, fold_scopes_flat, negb_true_iff.
  rewrite accessibleAt_iff.
  set (vars := flat_map _ (getAllScopesContainingLine sm line)).
  assert (Hacc : In v (fold_left setAdd vars []) <-> In v vars).
  { split.
    - intros H. destruct (fold_setAdd_sub _ _ _ H) as [[]|]; assumption.
    - intros H. destruct (fold_setAdd_has_id vars [] v H) as (w & Hw & Hid).
      assert (Hwv : In w vars)
        by (destruct (fold_setAdd_sub _ _ _ Hw) as [[]|]; assumption).
      rewrite <- (Huniq w v); try assumption;
        eapply accessibleAt_allVariables; apply accessibleAt_iff; eassumption. }
  rewrite Hacc. tauto.
Qed.

(** The code's test for global and built-in variables, in words. *)
Lemma isGlobalVariable_treatedAsGlobal :
  forall v, isGlobalVariable v = true <-> treatedAsGlobal v.
Proof.
  intros v. unfold isGlobalVariable, treatedAsGlobal.
  rewrite !orb_true_iff, existsb_eqb_In, String.eqb_eq,
    !includes_hasFragment, !startsWith_hasPrefix.
  split.
  - intros [[[[[[[H|H]|H]|H]|H]|H]|H]|H]; auto.
    + right; right; left. exists "Constructor". simpl. tauto.
    + right; right; left. exists "Array". simpl. tauto.
    + right; right; left. exists "Iterator". simpl. tauto.
    + right; right; right. exists "Disposable". simpl. tauto.
    + right; right; right. exists "Async". simpl. tauto.
    + right; right; left. exists "Decorator". simpl. tauto.
  - intros [H|[H|[(fr & Hin & H)|(pr & Hin & H)]]].
    + tauto.
    + tauto.
    + simpl in Hin. destruct Hin as [<-|[<-|[<-|[<-|[]]]]]; tauto.
    + simpl in Hin. destruct Hin as [<-|[<-|[]]]; tauto.
Qed.

Lemma isGlobalVariable_false :
  forall v, isGlobalVariable v = false <-> ~ treatedAsGlobal v.
Proof.
  intros v. rewrite <- isGlobalVariable_treatedAsGlobal.
  destruct (isGlobalVariable v); split; congruence.
Qed.

(** C6, as amended.  In a scope graph whose variables have distinct ids,
    the variables returned for a line are exactly those of the scopes
    whose block contains the line and of the scopes enclosing them, minus
    the variables the query treats as global or built-in (a listed
    built-in name, a variable of a global scope, a name containing
    [Constructor], [Array], [Iterator] or [Decorator], a name starting
    with [Disposable] or [Async]) and minus those with definitions none of
    which is at or before the line.  Hence a variable of a loop-body scope
    that is not treated as global is returned on the lines of the body
    from its declaration on and on no line before the loop, such a
    variable of an enclosing scope is returned inside a nested block, and
    a variable treated as global is never returned. *)
Theorem visible_variables_characterised :
  forall (sm : ScopeManager) (line : Z),
    uniqueIds sm ->
    (forall v,
        In v (getVarsForLine sm line)
        <-> accessibleAt sm line v
            /\ ~ treatedAsGlobal v
            /\ isVariableDeclaredBeforeLine v line = true)
    /\ (forall body v,
           In body sm -> In v (scopeVariables body) ->
           ~ treatedAsGlobal v ->
           (scopeContainsLine line body = true ->
            isVariableDeclaredBeforeLine v line = true ->
            In v (getVarsForLine sm line))
           /\ (defs v <> [] ->
               (forall l, In (Some l) (defs v) ->
                          (startLine (scopeBlock body) <= startLine l)%Z) ->
               (line < startLine (scopeBlock body))%Z ->
               ~ In v (getVarsForLine sm line)))
    /\ (forall inner outer v,
           In inner sm -> In outer (scopeChain inner) ->
           In v (scopeVariables outer) ->
           ~ treatedAsGlobal v ->
           isVariableDeclaredBeforeLine v line = true ->
           scopeContainsLine line inner = true ->
           In v (getVarsForLine sm line))
    /\ (forall v, treatedAsGlobal v -> ~ In v (getVarsForLine sm line)).
Proof.
  intros sm line Huniq.
  assert (Hiff : forall v,
             In v (getVarsForLine sm line)
             <-> accessibleAt sm line v
                 /\ ~ treatedAsGlobal v
                 /\ isVariableDeclaredBeforeLine v line = true).
  { intros v. rewrite <- isGlobalVariable_false.
    now apply getVarsForLine_iff. }
  assert (Hnested :
    forall inner outer v,
      In inner sm -> In outer (scopeChain inner) ->
      In v (scopeVariables outer) ->
      ~ treatedAsGlobal v ->
      isVariableDeclaredBeforeLine v line = true ->
      scopeContainsLine line inner = true ->
      In v (getVarsForLine sm line)).
  { intros inner outer v Hi Ho Hv Hg Hd Hc.
    apply Hiff. split; [|tauto]. exists inner, outer. tauto. }
  split; [exact Hiff|].
  split; [|split; [exact Hnested|]].
  - intros body v Hb Hv Hg. split.
    + intros Hc Hd. eapply Hnested; eauto using scopeChain_self.
    + intros Hdefs Hlines Hlt Hin.
      apply Hiff in Hin. destruct Hin as (_ & _ & Hd).
      unfold isVariableDeclaredBeforeLine in Hd.
      destruct (defs v) as [|d ds] eqn:E; [congruence|].
      apply existsb_exists in Hd. destruct Hd as ([l|] & Hl & Hle);
        [|discriminate].
      apply Z.leb_le in Hle. specialize (Hlines l Hl). lia.
  - intros v Hg Hin. apply Hiff in Hin. tauto.
Qed.

Lemma loopScopes_uniqueIds : uniqueIds loopScopes.
Proof.
  intros v w Hv Hw. vm_compute in Hv, Hw.
  repeat (destruct Hv as [<-|Hv]; [|]); try contradiction;
    repeat (destruct Hw as [<-|Hw]; [|]); try contradiction;
    intros Hid; try reflexivity; vm_compute in Hid; discriminate.
Qed.

Lemma visible_variables_witness :
  In var_c (getVarsForLine loopScopes 6)
  /\ ~ In var_c (getVarsForLine loopScopes 4)
  /\ In var_a (getVarsForLine loopScopes 6)
  /\ ~ In var_items (getVarsForLine arrayLoopScopes 6).
Proof.
  destruct (@visible_variables_characterised loopScopes 6 loopScopes_uniqueIds)
    as (_ & Hbody & Hnested & _).
  destruct (@visible_variables_characterised loopScopes 4 loopScopes_uniqueIds)
    as (_ & Hbody4 & _).
  split.
  { apply (Hbody loopBlockScope var_c); try reflexivity.
    - simpl. tauto.
    - simpl. tauto.
    - apply isGlobalVariable_false. reflexivity. }
  split.
  { apply (Hbody4 loopBlockScope var_c); try reflexivity.
    - simpl. tauto.
    - simpl. tauto.
    - apply isGlobalVariable_false. reflexivity.
    - discriminate.
    - intros l [Hl|[]]. inversion Hl. simpl. lia. }
  split.
  { apply (Hnested loopBlockScope loopModuleScope var_a); try reflexivity.
    - simpl. tauto.
    - simpl. tauto.
    - simpl. tauto.
    - apply isGlobalVariable_false. reflexivity. }
  assert (Hu : uniqueIds arrayLoopScopes).
  { intros v w Hv Hw. vm_compute in Hv, Hw.
    repeat (destruct Hv as [<-|Hv]; [|]); try contradiction;
      repeat (destruct Hw as [<-|Hw]; [|]); try contradiction;
      intros Hid; try reflexivity; vm_compute in Hid; discriminate. }
  destruct (@visible_variables_characterised arrayLoopScopes 6 Hu)
    as (_ & _ & _ & Hout).
  apply Hout. right; right; left. exists "Array". split; [simpl; tauto|].
  exists "items", EmptyString. reflexivity.
Defined.

(** C6, as worded, fails for a loop-body variable called [itemsArray]: it
    belongs to a scope containing line 6, is declared on that line, is no
    variable of a global scope and bears no built-in name, and is not
    returned for line 6. *)
Lemma visible_variables_counterexample :
  uniqueIds arrayLoopScopes
  /\ accessibleAt arrayLoopScopes 6 var_items
  /\ In var_items (scopeVariables arrayLoopBody)
  /\ scopeContainsLine 6 arrayLoopBody = true
  /\ varScopeType var_items <> "global"
  /\ ~ In (varName var_items) globalNames
  /\ isVariableDeclaredBeforeLine var_items 6 = true
  /\ ~ In var_items (getVarsForLine arrayLoopScopes 6).
Proof.
  split.
  { intros v w Hv Hw. vm_compute in Hv, Hw.
    repeat (destruct Hv as [<-|Hv]; [|]); try contradiction;
      repeat (destruct Hw as [<-|Hw]; [|]); try contradiction;
      intros Hid; try reflexivity; vm_compute in Hid; discriminate. }
  split.
  { exists arrayLoopBody, arrayLoopBody. simpl. tauto. }
  split; [simpl; tauto|]. split; [reflexivity|].
  split; [discriminate|].
  split.
  { intros H. apply existsb_eqb_In in H. vm_compute in H. discriminate. }
  split; [reflexivity|].
  intros H. vm_compute in H. intuition discriminate.
Qed.

(** The scoping test of the test-suite. *)
Example getVarsForLine_example :
  map varName (getVarsForLine loopScopes 2) = ["a"]
  /\ map varName (getVarsForLine loopScopes 6) = ["c"; "i"; "a"; "b"]
  /\ map varName (getVarsForLine loopScopes 11) = ["a"; "b"; "d"].
Proof. repeat split; reflexivity. Qed.

(** ** C8: the dependency graph is cycle-safe *)

Lemma forEachM_total :
  forall A S (f : A -> S -> option S) l s,
    (forall a s, In a l -> exists s', f a s = Some s') ->
    exists s', forEachM f l s = Some s'.
Proof.
  induction l as [|a l IH]; simpl; intros s H; [eauto|].
  destruct (H a s (or_introl eq_refl)) as [s' ->].
  apply IH. intros; apply H; now right.
Qed.

Lemma pushChild_some :
  forall r children,
    (exists x, r = Some x) -> exists s, pushChild r children = Some s.
Proof. intros r children [[d c] ->]. simpl. eauto. Qed.

Section GraphBodyFacts.

Variable f : BubbleFactory.
Variable rec :
  string -> list string -> option (list string) -> string -> Counters ->
  option string -> option (DependencyGraphNode * Counters).

Lemma graphBody_seen :
  forall name seen tools parent counters explicit suppress inst,
    inSeen name seen = true ->
    exists node counters',
      graphBody f rec name seen tools parent counters explicit suppress inst
      = Some (node, counters')
      /\ depName node = name /\ depDependencies node = [].
Proof.
  intros. unfold graphBody.
  destruct (nextOrdinalFor _ _) as [n c1]. rewrite H. eauto.
Qed.

Lemma graphBody_name :
  forall name seen tools parent counters explicit suppress inst node c,
    graphBody f rec name seen tools parent counters explicit suppress inst
    = Some (node, c) ->
    depName node = name.
Proof.
  intros until c. unfold graphBody.
  destruct (nextOrdinalFor _ _) as [n c1].
  destruct (inSeen name seen); [intros H; inversion H; reflexivity|].
  destruct (registryChildren _ _ _ _ _ _) as [st|]; [|discriminate].
  destruct (dynamicToolChildren _ _ _ _ _ _) as [[ch cs]|]; [|discriminate].
  intros H; inversion H; reflexivity.
Qed.

Lemma toolChildrenOf_total :
  forall nextSeen parent tools counters,
    (forall name t p c i, exists r, rec name nextSeen t p c i = Some r) ->
    exists s, toolChildrenOf rec nextSeen parent tools counters = Some s.
Proof.
  intros. unfold toolChildrenOf. apply forEachM_total.
  intros a [ch cs] _. apply pushChild_some. apply H.
Qed.

Lemma expandInstance_total :
  forall nextSeen uniqueId spec inst st,
    (forall name t p c i, exists r, rec name nextSeen t p c i = Some r) ->
    exists s, expandInstance f rec nextSeen uniqueId spec inst st = Some s.
Proof.
  intros nextSeen uniqueId spec inst [ch cs] H. unfold expandInstance.
  destruct (if String.eqb (specName spec) "ai-agent" then _ else _)
    as [tools|]; [|apply pushChild_some, H].
  destruct (_ && _); [|apply pushChild_some, H].
  apply pushChild_some. unfold syntheticAgent.
  destruct (nextOrdinalFor _ _) as [o c2].
  edestruct toolChildrenOf_total as [[tc c3] Htc]; [exact H|].
  rewrite Htc. eauto.
Qed.

Lemma graphBody_total :
  forall name seen tools parent counters explicit suppress inst,
    (forall n t p c i, exists r, rec n (name :: seen) t p c i = Some r) ->
    exists r,
      graphBody f rec name seen tools parent counters explicit suppress inst
      = Some r.
Proof.
  intros until inst. intros H. unfold graphBody.
  destruct (nextOrdinalFor _ _) as [n c1].
  destruct (inSeen name seen); [eauto|].
  assert (R : exists st,
             registryChildren f rec (getMetadata f name) (name :: seen)
               (if suppress then parent
                else if nonEmpty parent
                     then (parent ++ "." ++ name ++ "#" ++ string_of_nat n)%string
                     else (name ++ "#" ++ string_of_nat n)%string) c1
             = Some st).
  { unfold registryChildren. destruct (detailedOf _) as [|sp l].
    - apply forEachM_total. intros a [ch cs] _. apply pushChild_some, H.
    - apply forEachM_total. intros a st _. unfold expandSpec.
      apply forEachM_total. intros i st' _.
      now apply expandInstance_total. }
  destruct R as [st ->].
  assert (D : exists st',
             dynamicToolChildren rec name tools (name :: seen)
               (if suppress then parent
                else if nonEmpty parent
                     then (parent ++ "." ++ name ++ "#" ++ string_of_nat n)%string
                     else (name ++ "#" ++ string_of_nat n)%string) st
             = Some st').
  { unfold dynamicToolChildren. destruct tools as [ts|]; [|eauto].
    destruct (String.eqb name "ai-agent"); [|eauto].
    apply forEachM_total. intros a [ch cs] _.
    destruct (inSeen a (name :: seen)); [eauto|]. apply pushChild_some, H. }
  destruct D as [[ch cs] ->]. eauto.
Qed.

(** A name that is neither registered nor the agent name has no children,
    whatever the recursive call does. *)
Lemma graphBody_unregistered :
  forall name seen tools parent counters explicit suppress inst,
    getMetadata f name = None -> name <> "ai-agent" ->
    exists r,
      graphBody f rec name seen tools parent counters explicit suppress inst
      = Some r.
Proof.
  intros until inst. intros Hm Hn. unfold graphBody.
  destruct (nextOrdinalFor _ _) as [n c1].
  destruct (inSeen name seen); [eauto|].
  rewrite Hm. unfold registryChildren, dynamicToolChildren. simpl.
  destruct tools as [ts|]; [|eauto].
  destruct (String.eqb name "ai-agent") eqn:E; [|eauto].
  apply String.eqb_eq in E. contradiction.
Qed.

End GraphBodyFacts.

Lemma inSeen_In : forall n seen, inSeen n seen = true <-> In n seen.
Proof.
  intros n seen. unfold inSeen. rewrite existsb_exists. split.
  - intros (x & Hx & E). apply String.eqb_eq in E. now subst.
  - intros H. exists n. split; [assumption | apply String.eqb_refl].
Qed.

Lemma filter_length_lt :
  forall A (p q : A -> bool) l x,
    (forall y, q y = true -> p y = true) ->
    In x l -> p x = true -> q x = false ->
    (length (filter q l) < length (filter p l))%nat.
Proof.
  intros A p q l x Hsub. 
  assert (Hle : forall l, (length (filter q l) <= length (filter p l))%nat).
  { clear l. induction l as [|y l IH]; simpl; [lia|].
    destruct (q y) eqn:Eq.
    - rewrite (Hsub _ Eq). simpl. lia.
    - destruct (p y); simpl; lia. }
  induction l as [|y l IH]; simpl; intros Hin Hp Hq; [contradiction|].
  destruct Hin as [->|Hin].
  - rewrite Hp, Hq. simpl. specialize (Hle l). lia.
  - specialize (IH Hin Hp Hq). destruct (q y) eqn:Eq.
    + rewrite (Hsub _ Eq). simpl. lia.
    + destruct (p y); simpl; lia.
Qed.

Lemma remaining_decreases :
  forall f name seen,
    In name (expandable f) -> inSeen name seen = false ->
    (remaining f (name :: seen) < remaining f seen)%nat.
Proof.
  intros f name seen Hin Hseen. unfold remaining.
  apply filter_length_lt with (x := name); try assumption.
  - intros y. unfold inSeen. simpl. rewrite !negb_true_iff.
    intros H. apply orb_false_iff in H. tauto.
  - now rewrite Hseen.
  - unfold inSeen. simpl. now rewrite String.eqb_refl.
Qed.

Lemma remaining_bound :
  forall f seen, (remaining f seen < graphFuel f)%nat.
Proof.
  intros f seen. unfold remaining, graphFuel, expandable.
  eapply Nat.le_lt_trans; [apply filter_length_le|].
  eapply Nat.le_lt_trans.
  - apply NoDup_incl_length with (l' := "ai-agent" :: keys (registry f)).
    + apply NoDup_nodup.
    + intros x Hx. now apply nodup_In in Hx.
  - simpl. unfold keys. rewrite length_map. lia.
Qed.

Lemma dget_not_key :
  forall V (d : list (string * V)) k,
    ~ In k (keys d) -> dget String.eqb k d = None.
Proof.
  induction d as [|[k' v] d IH]; simpl; intros k H; [reflexivity|].
  destruct (String.eqb k k') eqn:E.
  - apply String.eqb_eq in E. subst. tauto.
  - apply IH. tauto.
Qed.

Lemma not_expandable :
  forall f name,
    ~ In name (expandable f) ->
    getMetadata f name = None /\ name <> "ai-agent".
Proof.
  intros f name H. unfold expandable in H. rewrite nodup_In in H.
  simpl in H. split.
  - apply dget_not_key. tauto.
  - intros ->. tauto.
Qed.

Lemma buildDependencyGraph_total :
  forall fuel f name seen tools parent counters explicit suppress inst,
    (remaining f seen < fuel)%nat ->
    exists r,
      buildDependencyGraph fuel f name seen tools parent counters explicit
        suppress inst = Some r.
Proof.
  induction fuel as [|fuel IH]; intros until inst; intros Hfuel; [lia|].
  simpl.
  destruct (inSeen name seen) eqn:Es.
  - destruct (graphBody_seen f
                (fun n ns t p c i =>
                   buildDependencyGraph fuel f n ns t p c None false i)
                name seen tools parent counters explicit suppress inst Es)
      as (node & c' & -> & _). eauto.
  - destruct (in_dec string_dec name (expandable f)) as [Hin|Hnot].
    + apply graphBody_total. intros n t p c i. apply IH.
      pose proof (remaining_decreases f name seen Hin Es). lia.
    + destruct (not_expandable f name Hnot) as [Hm Hn].
      now apply graphBody_unregistered.
Qed.

Lemma buildDependencyGraph_name :
  forall fuel f name seen tools parent counters explicit suppress inst node c,
    buildDependencyGraph fuel f name seen tools parent counters explicit
      suppress inst = Some (node, c) ->
    depName node = name.
Proof.
  destruct fuel; simpl; intros; [discriminate|].
  eapply graphBody_name; eassumption.
Qed.

Lemma forEachM_grows :
  forall A (g : A -> GraphState -> option GraphState) l s s',
    (forall a s s', In a l -> g a s = Some s' -> incl (fst s) (fst s')) ->
    forEachM g l s = Some s' -> incl (fst s) (fst s').
Proof.
  induction l as [|a l IH]; simpl; intros s s' Hg H.
  - inversion H. apply incl_refl.
  - destruct (g a s) as [s1|] eqn:E; [|discriminate].
    eapply incl_tran.
    + eapply Hg; [now left | exact E].
    + apply IH; [|assumption]. intros; eapply Hg; eauto.
Qed.

Lemma forEachM_hits :
  forall A (g : A -> GraphState -> option GraphState) l a0 s s'
         (Q : DependencyGraphNode -> Prop),
    (forall a s s', In a l -> g a s = Some s' -> incl (fst s) (fst s')) ->
    In a0 l ->
    (forall s s', g a0 s = Some s' -> exists x, In x (fst s') /\ Q x) ->
    forEachM g l s = Some s' ->
    exists x, In x (fst s') /\ Q x.
Proof.
  induction l as [|a l IH]; simpl; intros a0 s s' Q Hg Hin Hq H;
    [contradiction|].
  destruct (g a s) as [s1|] eqn:E; [|discriminate].
  destruct Hin as [->|Hin].
  - destruct (Hq _ _ E) as (x & Hx & HQ). exists x. split; [|assumption].
    eapply forEachM_grows; [| exact H | exact Hx].
    intros; eapply Hg; eauto.
  - eapply IH; eauto.
Qed.

Lemma pushChild_grows :
  forall r children s',
    pushChild r children = Some s' -> incl children (fst s').
Proof.
  intros [[d c]|] children s' H; simpl in H; inversion H; simpl.
  apply incl_appl, incl_refl.
Qed.

Lemma pushChild_last :
  forall r children s',
    pushChild r children = Some s' ->
    exists d c, r = Some (d, c) /\ s' = (children ++ [d], c).
Proof.
  intros [[d c]|] children s' H; simpl in H; inversion H. eauto.
Qed.

Section GraphShape.

Variable f : BubbleFactory.
Variable rec :
  string -> list string -> option (list string) -> string -> Counters ->
  option string -> option (DependencyGraphNode * Counters).

Hypothesis rec_name :
  forall n ns t p c i d c', rec n ns t p c i = Some (d, c') -> depName d = n.

Lemma toolChildrenOf_names :
  forall nextSeen parent tools counters tc c',
    toolChildrenOf rec nextSeen parent tools counters = Some (tc, c') ->
    map depName tc = tools.
Proof.
  intros nextSeen parent tools counters tc c'. unfold toolChildrenOf.
  assert (G : forall tools acc c tc c',
             forEachM
               (fun toolName '(toolChildren, cs) =>
                  pushChild
                    (rec toolName nextSeen None parent cs (Some toolName))
                    toolChildren)
               tools (acc, c) = Some (tc, c') ->
             map depName tc = map depName acc ++ tools).
  { clear tools counters tc c'.
    induction tools as [|t tools IH]; simpl; intros acc c tc c' H.
    - inversion H. now rewrite app_nil_r.
    - destruct (pushChild _ acc) as [[acc1 c1]|] eqn:E; [|discriminate].
      apply pushChild_last in E. destruct E as (d & c2 & Hr & Heq).
      inversion Heq; subst acc1 c1. rewrite (IH _ _ _ _ H).
      rewrite map_app, <- app_assoc. simpl.
      erewrite rec_name; [reflexivity | exact Hr]. }
  intros H. now rewrite (G _ _ _ _ _ H).
Qed.

Lemma expandInstance_grows :
  forall nextSeen uniqueId spec inst s s',
    expandInstance f rec nextSeen uniqueId spec inst s = Some s' ->
    incl (fst s) (fst s').
Proof.
  intros nextSeen uniqueId spec inst [ch cs] s'. unfold expandInstance.
  destruct (if String.eqb (specName spec) "ai-agent" then _ else _);
    [destruct (_ && _)|]; apply pushChild_grows.
Qed.

Lemma expandInstance_synthetic :
  forall nextSeen uniqueId spec tools inst s s',
    specName spec = "ai-agent" -> specTools spec = Some tools ->
    inSeen "ai-agent" nextSeen = true ->
    expandInstance f rec nextSeen uniqueId spec inst s = Some s' ->
    exists agent,
      In agent (fst s')
      /\ depName agent = "ai-agent"
      /\ map depName (depDependencies agent) = tools.
Proof.
  intros nextSeen uniqueId spec tools inst [ch cs] s' Hn Ht Hs.
  unfold expandInstance. rewrite Hn, Ht, Hs. simpl.
  intros H. apply pushChild_last in H. destruct H as (d & c & Hr & ->).
  exists d. split; [simpl; apply in_or_app; right; now left|].
  unfold syntheticAgent in Hr.
  destruct (nextOrdinalFor _ cs) as [o c2].
  destruct (toolChildrenOf _ _ _ _ _) as [[tc c3]|] eqn:E; [|discriminate].
  inversion Hr; subst d c. simpl. split; [reflexivity|].
  eapply toolChildrenOf_names; eassumption.
Qed.

Lemma instanceNames_nonempty :
  forall spec, exists i l, instanceNames spec = i :: l.
Proof.
  intros spec. unfold instanceNames.
  destruct (specInstances spec) as [[|x l]|]; eauto.
Qed.

Lemma expandSpec_grows :
  forall nextSeen uniqueId spec s s',
    expandSpec f rec nextSeen uniqueId spec s = Some s' ->
    incl (fst s) (fst s').
Proof.
  intros nextSeen uniqueId spec s s'. unfold expandSpec.
  apply forEachM_grows. intros a s0 s1 _. apply expandInstance_grows.
Qed.

Lemma expandSpec_synthetic :
  forall nextSeen uniqueId spec tools s s',
    specName spec = "ai-agent" -> specTools spec = Some tools ->
    inSeen "ai-agent" nextSeen = true ->
    expandSpec f rec nextSeen uniqueId spec s = Some s' ->
    exists agent,
      In agent (fst s')
      /\ depName agent = "ai-agent"
      /\ map depName (depDependencies agent) = tools.
Proof.
  intros nextSeen uniqueId spec tools s s' Hn Ht Hs. unfold expandSpec.
  destruct (instanceNames_nonempty spec) as (i & l & ->).
  apply forEachM_hits with (a0 := i).
  - intros a s0 s1 _. apply expandInstance_grows.
  - now left.
  - intros s0 s1. now apply expandInstance_synthetic.
Qed.

Lemma dynamicToolChildren_grows :
  forall name tools nextSeen uniqueId s s',
    dynamicToolChildren rec name tools nextSeen uniqueId s = Some s' ->
    incl (fst s) (fst s').
Proof.
  intros name tools nextSeen uniqueId s s'. unfold dynamicToolChildren.
  destruct tools as [ts|]; [|intros H; inversion H; apply incl_refl].
  destruct (String.eqb name "ai-agent");
    [|intros H; inversion H; apply incl_refl].
  apply forEachM_grows. intros a [ch cs] s1 _.
  destruct (inSeen a nextSeen).
  - intros H; inversion H; apply incl_refl.
  - apply pushChild_grows.
Qed.

Lemma graphBody_synthetic :
  forall name seen toolsThis parent counters explicit suppress inst node c
         spec tools,
    graphBody f rec name seen toolsThis parent counters explicit suppress
      inst = Some (node, c) ->
    inSeen name seen = false ->
    In spec (detailedOf (getMetadata f name)) ->
    specName spec = "ai-agent" -> specTools spec = Some tools ->
    inSeen "ai-agent" (name :: seen) = true ->
    exists agent,
      In agent (depDependencies node)
      /\ depName agent = "ai-agent"
      /\ map depName (depDependencies agent) = tools.
Proof.
  intros until tools. intros H Hseen Hspec Hn Ht Hagent.
  unfold graphBody in H.
  destruct (nextOrdinalFor _ _) as [o c1]. rewrite Hseen in H.
  destruct (registryChildren _ _ _ _ _ _) as [st|] eqn:R; [|discriminate].
  destruct (dynamicToolChildren _ _ _ _ _ _) as [[ch cs]|] eqn:D;
    [|discriminate].
  inversion H; subst node c. simpl. clear H.
  unfold registryChildren in R.
  destruct (detailedOf (getMetadata f name)) as [|sp l] eqn:Ed;
    [contradiction|].
  assert (Hst : exists agent,
             In agent (fst st) /\ depName agent = "ai-agent"
             /\ map depName (depDependencies agent) = tools).
  { eapply forEachM_hits with (a0 := spec); [| exact Hspec | | exact R].
    - intros a s0 s1 _. apply expandSpec_grows.
    - intros s0 s1. now apply expandSpec_synthetic. }
  destruct Hst as (agent & Hin & Hq). exists agent. split; [|assumption].
  apply (dynamicToolChildren_grows _ _ _ _ _ D). exact Hin.
Qed.

End GraphShape.

Lemma forEachM_appends :
  forall A (g : A -> GraphState -> option GraphState)
         (names : A -> list string) (P : DependencyGraphNode -> Prop) l s s',
    (forall a s s', In a l -> g a s = Some s' ->
                    exists new, fst s' = fst s ++ new
                                /\ map depName new = names a
                                /\ Forall P new) ->
    forEachM g l s = Some s' ->
    exists new, fst s' = fst s ++ new
                /\ map depName new = flat_map names l
                /\ Forall P new.
Proof.
  induction l as [|a l IH]; simpl; intros s s' Hg H.
  - inversion H; subst. exists []. rewrite app_nil_r. auto.
  - destruct (g a s) as [s1|] eqn:E; [|discriminate].
    destruct (Hg a s s1 (or_introl eq_refl) E) as (n1 & H1 & N1 & P1).
    destruct (IH s1 s') as (n2 & H2 & N2 & P2); [|exact H|].
    { intros; eapply Hg; eauto. }
    exists (n1 ++ n2). rewrite H2, H1, <- app_assoc, map_app, N1, N2.
    split; [reflexivity|]. split; [reflexivity|].
    apply Forall_app. auto.
Qed.

Section GraphChildren.

Variable f : BubbleFactory.
Variable rec :
  string -> list string -> option (list string) -> string -> Counters ->
  option string -> option (DependencyGraphNode * Counters).

Hypothesis rec_name :
  forall n ns t p c i d c', rec n ns t p c i = Some (d, c') -> depName d = n.

Hypothesis rec_leaf :
  forall n ns t p c i d c',
    rec n ns t p c i = Some (d, c') -> inSeen n ns = true ->
    depDependencies d = [].

Lemma expandInstance_appends :
  forall name nextSeen uniqueId spec inst s s',
    In spec (detailedOf (getMetadata f name)) ->
    expandInstance f rec nextSeen uniqueId spec inst s = Some s' ->
    exists new,
      fst s' = fst s ++ new
      /\ map depName new = [specName spec]
      /\ Forall (fun child =>
                   inSeen (depName child) nextSeen = true ->
                   endsCycle f name child) new.
Proof.
  intros name nextSeen uniqueId spec inst [ch cs] s' Hspec.
  unfold expandInstance.
  assert (Hrec : forall t,
             pushChild (rec (specName spec) nextSeen t uniqueId cs inst) ch
             = Some s' ->
             exists new,
               fst s' = fst (ch, cs) ++ new
               /\ map depName new = [specName spec]
               /\ Forall (fun child =>
                            inSeen (depName child) nextSeen = true ->
                            endsCycle f name child) new).
  { intros t H. apply pushChild_last in H. destruct H as (d & c & Hr & ->).
    exists [d]. split; [reflexivity|].
    pose proof (@rec_name _ _ _ _ _ _ _ _ Hr) as Hn.
    split; [simpl; now rewrite Hn|].
    constructor; [|constructor]. intros Hs. left.
    rewrite Hn in Hs. eapply rec_leaf; eassumption. }
  destruct (String.eqb (specName spec) "ai-agent") eqn:En;
    [|apply Hrec].
  destruct (specTools spec) as [tools|] eqn:Et; [|apply Hrec].
  destruct (inSeen "ai-agent" nextSeen) eqn:Es; [|apply Hrec].
  cbn [andb]. intros H. apply pushChild_last in H.
  destruct H as (d & c & Hr & ->).
  unfold syntheticAgent in Hr.
  destruct (nextOrdinalFor _ cs) as [o c2].
  destruct (toolChildrenOf _ _ _ _ _) as [[tc c3]|] eqn:E; [|discriminate].
  inversion Hr; subst d c. apply String.eqb_eq in En.
  exists [mkDep "ai-agent" (typeOrUnknown (getMetadata f (specName spec)))
            (uniqueId ++ ".ai-agent#" ++ string_of_nat o)
            (hashUniqueIdToVarId
               (uniqueId ++ ".ai-agent#" ++ string_of_nat o))
            inst tc].
  split; [reflexivity|]. split; [simpl; now rewrite En|].
  constructor; [|constructor]. intros _. right. split; [reflexivity|].
  exists spec, tools. repeat split; try assumption.
  simpl. eapply toolChildrenOf_names; eassumption.
Qed.

Lemma registryChildren_appends :
  forall name nextSeen uniqueId counters st,
    registryChildren f rec (getMetadata f name) nextSeen uniqueId counters
    = Some st ->
    map depName (fst st) = declaredChildNames f name
    /\ Forall (fun child =>
                 inSeen (depName child) nextSeen = true ->
                 endsCycle f name child) (fst st).
Proof.
  intros name nextSeen uniqueId counters st.
  unfold registryChildren, declaredChildNames.
  destruct (detailedOf (getMetadata f name)) as [|sp l] eqn:Ed.
  - intros H.
    apply (@forEachM_appends _ _ (fun dep => [dep])
             (fun child =>
                inSeen (depName child) nextSeen = true ->
                endsCycle f name child)) in H.
    + destruct H as (new & H1 & H2 & H3). simpl in H1. rewrite H1.
      split; [|exact H3]. rewrite H2.
      clear. induction (directDepsOf (getMetadata f name)); simpl; congruence.
    + intros dep [ch cs] s' _ Hp. apply pushChild_last in Hp.
      destruct Hp as (d & c & Hr & ->). exists [d].
      pose proof (@rec_name _ _ _ _ _ _ _ _ Hr) as Hn.
      split; [reflexivity|]. split; [simpl; now rewrite Hn|].
      constructor; [|constructor]. intros Hs. left.
      rewrite Hn in Hs. eapply rec_leaf; eassumption.
  - intros H.
    apply (@forEachM_appends _ _
             (fun spec => map (fun _ => specName spec) (instanceNames spec))
             (fun child =>
                inSeen (depName child) nextSeen = true ->
                endsCycle f name child)) in H.
    + destruct H as (new & H1 & H2 & H3). simpl in H1. rewrite H1.
      split; [rewrite H2; reflexivity | exact H3].
    + intros spec s s' Hspec He. unfold expandSpec in He.
      apply (@forEachM_appends _ _ (fun _ => [specName spec])
               (fun child =>
                  inSeen (depName child) nextSeen = true ->
                  endsCycle f name child)) in He.
      * destruct He as (new & H1 & H2 & H3). exists new.
        split; [exact H1|]. split; [|exact H3]. rewrite H2.
        clear. induction (instanceNames spec); simpl; congruence.
      * intros inst s0 s1 _. apply expandInstance_appends.
        rewrite Ed. exact Hspec.
Qed.

Lemma dynamicToolChildren_appends :
  forall name toolsThis nextSeen uniqueId s s',
    dynamicToolChildren rec name toolsThis nextSeen uniqueId s = Some s' ->
    exists new,
      fst s' = fst s ++ new
      /\ map depName new = keptToolNames name toolsThis nextSeen
      /\ Forall (fun child => inSeen (depName child) nextSeen = false) new.
Proof.
  intros name toolsThis nextSeen uniqueId s s'.
  unfold dynamicToolChildren, keptToolNames.
  assert (Hnone : Some s = Some s' ->
                  exists new : list DependencyGraphNode,
                    fst s' = fst s ++ new /\ map depName new = []
                    /\ Forall (fun child =>
                                 inSeen (depName child) nextSeen = false) new).
  { intros H; inversion H; subst. exists []. rewrite app_nil_r. auto. }
  destruct toolsThis as [tools|]; [|exact Hnone].
  destruct (String.eqb name "ai-agent"); [|exact Hnone].
  intros H.
  apply (@forEachM_appends _ _
           (fun t => if negb (inSeen t nextSeen) then [t] else [])
           (fun child => inSeen (depName child) nextSeen = false)) in H.
  - destruct H as (new & H1 & H2 & H3). exists new.
    split; [exact H1|]. split; [|exact H3]. rewrite H2.
    clear. induction tools as [|t tools IH]; simpl; [reflexivity|].
    destruct (inSeen t nextSeen); simpl; congruence.
  - intros t [ch cs] s1 _. destruct (inSeen t nextSeen) eqn:Es; simpl.
    + intros Hs; inversion Hs; subst. exists []. rewrite app_nil_r. auto.
    + intros Hp. apply pushChild_last in Hp.
      destruct Hp as (d & c & Hr & ->). exists [d].
      pose proof (@rec_name _ _ _ _ _ _ _ _ Hr) as Hn.
      split; [reflexivity|]. split; [simpl; now rewrite Hn|].
      constructor; [|constructor]. now rewrite Hn.
Qed.

Lemma graphBody_children :
  forall name seen toolsThis parent counters explicit suppress inst node c,
    graphBody f rec name seen toolsThis parent counters explicit suppress
      inst = Some (node, c) ->
    inSeen name seen = false ->
    map depName (depDependencies node)
    = declaredChildNames f name ++ keptToolNames name toolsThis (name :: seen)
    /\ (forall child,
           In child (depDependencies node) ->
           inSeen (depName child) (name :: seen) = true ->
           endsCycle f name child).
Proof.
  intros until c. intros H Hseen. unfold graphBody in H.
  destruct (nextOrdinalFor _ _) as [o c1]. rewrite Hseen in H.
  destruct (registryChildren _ _ _ _ _ _) as [st|] eqn:R; [|discriminate].
  destruct (dynamicToolChildren _ _ _ _ _ _) as [[ch cs]|] eqn:D;
    [|discriminate].
  inversion H; subst node c. cbn [depDependencies]. clear H.
  apply registryChildren_appends in R. destruct R as [R1 R2].
  apply dynamicToolChildren_appends in D.
  destruct D as (new & D1 & D2 & D3). cbn [fst] in D1. subst ch.
  split; [now rewrite map_app, R1, D2|].
  intros child Hin Hs. apply in_app_or in Hin. destruct Hin as [Hin|Hin].
  - exact (proj1 (Forall_forall _ _) R2 child Hin Hs).
  - pose proof (proj1 (Forall_forall _ _) D3 child Hin). congruence.
Qed.

End GraphChildren.

Lemma buildDependencyGraph_leaf :
  forall fuel f name seen tools parent counters explicit suppress inst node c,
    buildDependencyGraph fuel f name seen tools parent counters explicit
      suppress inst = Some (node, c) ->
    inSeen name seen = true ->
    depDependencies node = [].
Proof.
  destruct fuel; simpl; intros until c; intros Hb Hs; [discriminate|].
  destruct (graphBody_seen f
              (fun n ns t p c i =>
                 buildDependencyGraph fuel f n ns t p c None false i)
              name seen tools parent counters explicit suppress inst Hs)
    as (node' & c'' & Hb' & _ & Hd).
  rewrite Hb in Hb'. inversion Hb'; subst. exact Hd.
Qed.

(** C8, as amended.  Building the dependency graph with the fuel the
    parser gives it (or more) returns a graph for every registry, bubble
    name, path, tool configuration and counter state.  A call for a name
    already on the path returns a node of that name without dependencies.
    The children of an expanded node are, in order, those the registry
    declares for it and, for an agent with configured tools, one child per
    configured tool that is not on the path: a configured tool already on
    the path gets no child.  A declared child whose name is on the path is
    a leaf, or is an agent standing for a declared agent dependency and
    carrying exactly its tools; and every declared agent dependency with
    tools met while the agent is on the path has such a child. *)
Theorem dependency_graph_cycle_safe :
  forall (f : BubbleFactory) (name : string) (seen : list string)
         (toolsThis : option (list string)) (parent : string)
         (counters : Counters) (explicit : option Z) (suppress : bool)
         (inst : option string) (fuel : nat),
    (graphFuel f <= fuel)%nat ->
    exists node counters',
      buildDependencyGraph fuel f name seen toolsThis parent counters
        explicit suppress inst = Some (node, counters')
      /\ depName node = name
      /\ (inSeen name seen = true -> depDependencies node = [])
      /\ (inSeen name seen = false ->
          map depName (depDependencies node)
          = declaredChildNames f name
              ++ keptToolNames name toolsThis (name :: seen))
      /\ (forall child,
             inSeen name seen = false ->
             In child (depDependencies node) ->
             inSeen (depName child) (name :: seen) = true ->
             endsCycle f name child)
      /\ (forall spec tools,
             inSeen name seen = false ->
             In spec (detailedOf (getMetadata f name)) ->
             specName spec = "ai-agent" -> specTools spec = Some tools ->
             inSeen "ai-agent" (name :: seen) = true ->
             exists agent,
               In agent (depDependencies node)
               /\ depName agent = "ai-agent"
               /\ map depName (depDependencies agent) = tools).
Proof.
  intros f name seen toolsThis parent counters explicit suppress inst fuel
         Hfuel.
  destruct (@buildDependencyGraph_total fuel f name seen toolsThis parent
              counters explicit suppress inst) as [[node c'] Hb].
  { pose proof (remaining_bound f seen). lia. }
  exists node, c'. split; [exact Hb|].
  split; [eapply buildDependencyGraph_name; exact Hb|].
  split; [intros Hs; eapply buildDependencyGraph_leaf; eassumption|].
  destruct fuel as [|fuel]; [discriminate|]. simpl in Hb.
  assert (Hname : forall n ns t p c i d c0,
             buildDependencyGraph fuel f n ns t p c None false i
             = Some (d, c0) -> depName d = n).
  { intros n ns t p c i d c0. apply buildDependencyGraph_name. }
  assert (Hleaf : forall n ns t p c i d c0,
             buildDependencyGraph fuel f n ns t p c None false i
             = Some (d, c0) -> inSeen n ns = true -> depDependencies d = []).
  { intros n ns t p c i d c0. apply buildDependencyGraph_leaf. }
  assert (Hch : inSeen name seen = false ->
                map depName (depDependencies node)
                = declaredChildNames f name
                    ++ keptToolNames name toolsThis (name :: seen)
                /\ (forall child,
                       In child (depDependencies node) ->
                       inSeen (depName child) (name :: seen) = true ->
                       endsCycle f name child)).
  { intros Hs.
    apply (@graphBody_children f
             (fun n ns t p c i =>
                buildDependencyGraph fuel f n ns t p c None false i)
             Hname Hleaf name seen toolsThis parent counters explicit
             suppress inst node c' Hb Hs). }
  split; [|split].
  - intros Hs. apply (proj1 (Hch Hs)).
  - intros child Hs. apply (proj2 (Hch Hs)).
  - intros spec tools Hs Hspec Hn Ht Hagent.
    eapply graphBody_synthetic; try eassumption.
    intros n ns t p c i d c0. apply buildDependencyGraph_name.
Qed.

(** The graph of an agent configured with the agent tool: the tool's own
    agent dependency becomes a synthetic agent with the two tools below
    it, and the scrape tool's dependency on the agent ends in a leaf. *)
Example agent_graph_example :
  option_map fst
    (buildDependencyGraph (graphFuel agentRegistry) agentRegistry "ai-agent"
       [] (Some ["research-agent-tool"]) "7" [] (Some 7%Z) true
       (Some "agent"))
  = Some
      (mkDep "ai-agent" "service" "7" 7 (Some "agent")
         [mkDep "research-agent-tool" "tool" "7.research-agent-tool#1"
            (hashUniqueIdToVarId "7.research-agent-tool#1")
            (Some "research-agent-tool")
            [mkDep "ai-agent" "service" "7.research-agent-tool#1.ai-agent#1"
               (hashUniqueIdToVarId "7.research-agent-tool#1.ai-agent#1")
               None
               [mkDep "web-search-tool" "tool"
                  "7.research-agent-tool#1.ai-agent#1.web-search-tool#1"
                  (hashUniqueIdToVarId
                     "7.research-agent-tool#1.ai-agent#1.web-search-tool#1")
                  (Some "web-search-tool") [];
                mkDep "web-scrape-tool" "tool"
                  "7.research-agent-tool#1.ai-agent#1.web-scrape-tool#1"
                  (hashUniqueIdToVarId
                     "7.research-agent-tool#1.ai-agent#1.web-scrape-tool#1")
                  (Some "web-scrape-tool")
                  [mkDep "ai-agent" "service"
                     "7.research-agent-tool#1.ai-agent#1.web-scrape-tool#1.ai-agent#1"
                     (hashUniqueIdToVarId
                        "7.research-agent-tool#1.ai-agent#1.web-scrape-tool#1.ai-agent#1")
                     (Some "No bubble detail dependency") []]]]]).
Proof. vm_compute. reflexivity. Qed.

Lemma dependency_graph_witness :
  (exists node counters',
      buildDependencyGraph (graphFuel agentRegistry) agentRegistry
        "research-agent-tool" ["ai-agent"] None "7" [] None false None
      = Some (node, counters')
      /\ exists agent,
          In agent (depDependencies node)
          /\ depName agent = "ai-agent"
          /\ map depName (depDependencies agent)
             = ["web-search-tool"; "web-scrape-tool"])
  /\ (exists node counters',
         buildDependencyGraph (graphFuel agentRegistry) agentRegistry
           "ai-agent" [] (Some ["research-agent-tool"; "ai-agent"]) "7" []
           (Some 7%Z) true (Some "agent")
         = Some (node, counters')
         /\ map depName (depDependencies node) = ["research-agent-tool"]).
Proof.
  split.
  - destruct (@dependency_graph_cycle_safe agentRegistry
                "research-agent-tool" ["ai-agent"] None "7" [] None false
                None (graphFuel agentRegistry) (le_n _))
      as (node & c' & Hb & _ & _ & _ & _ & Hsyn).
    exists node, c'. split; [exact Hb|].
    apply (Hsyn (mkSpec "ai-agent"
                   (Some ["web-search-tool"; "web-scrape-tool"]) None));
      try reflexivity.
    simpl. now left.
  - destruct (@dependency_graph_cycle_safe agentRegistry "ai-agent" []
                (Some ["research-agent-tool"; "ai-agent"]) "7" []
                (Some 7%Z) true (Some "agent") (graphFuel agentRegistry)
                (le_n _))
      as (node & c' & Hb & _ & _ & Hch & _).
    exists node, c'. split; [exact Hb|].
    exact (Hch eq_refl).
Defined.

(** C8, as worded, fails for an agent configured with itself as a tool:
    the tool's name is on the path when the tools are visited, and the
    agent's node gets no child for it, neither a leaf nor a synthetic
    agent. *)
Lemma dependency_graph_counterexample :
  exists node counters',
    buildDependencyGraph (graphFuel agentRegistry) agentRegistry "ai-agent"
      [] (Some ["ai-agent"]) "7" [] (Some 7%Z) true (Some "agent")
    = Some (node, counters')
    /\ depDependencies node = []
    /\ ~ (exists leaf,
             In leaf (depDependencies node) /\ depName leaf = "ai-agent").
Proof.
  eexists. eexists. split; [vm_compute; reflexivity|].
  split; [reflexivity|]. intros (leaf & [] & _).
Qed.

(** ** C3: anonymous bubble ids *)

Lemma dget_In_keys :
  forall V (d : list (Z * V)) k v,
    dget Z.eqb k d = Some v -> In k (keys d).
Proof.
  induction d as [|[k' v'] d IH]; simpl; intros k v H; [discriminate|].
  destruct (Z.eqb k k') eqn:E.
  - apply Z.eqb_eq in E. now left.
  - right. eapply IH; eassumption.
Qed.

Lemma dset_fresh :
  forall V (d : list (Z * V)) k v,
    ~ In k (keys d) -> dset Z.eqb k v d = d ++ [(k, v)].
Proof.
  induction d as [|[k' v'] d IH]; simpl; intros k v H; [reflexivity|].
  destruct (Z.eqb k k') eqn:E.
  - apply Z.eqb_eq in E. subst. tauto.
  - rewrite IH; [reflexivity | tauto].
Qed.

Lemma nth_dset_other :
  forall V (d : list (Z * V)) k v i k' v',
    nth_error (dset Z.eqb k v d) i = Some (k', v') -> k' <> k ->
    nth_error d i = Some (k', v').
Proof.
  induction d as [|[k0 v0] d IH]; simpl; intros k v i k' v' H Hne.
  - destruct i as [|[|i]]; simpl in H; try discriminate.
    inversion H; subst. contradiction.
  - destruct (Z.eqb k k0) eqn:E.
    + apply Z.eqb_eq in E. subst k0.
      destruct i; simpl in *; [inversion H; subst; contradiction | exact H].
    + destruct i; simpl in *; [exact H | eapply IH; eassumption].
Qed.

Lemma In_dset :
  forall V (d : list (Z * V)) k v k' v',
    In (k', v') (dset Z.eqb k v d) ->
    (k' = k /\ v' = v) \/ In (k', v') d.
Proof.
  induction d as [|[k0 v0] d IH]; simpl; intros k v k' v' H.
  - destruct H as [H|[]]. inversion H. auto.
  - destruct (Z.eqb k k0).
    + destruct H as [H|H]; [inversion H; auto | auto].
    + destruct H as [H|H]; [auto|].
      destruct (IH _ _ _ _ H); auto.
Qed.

Lemma anonymous_key_fresh :
  forall nodes,
    anonymousAtPosition nodes ->
    ~ In (-1 * (Z.of_nat (length nodes) + 1))%Z (keys nodes).
Proof.
  intros nodes Hpos Hin. unfold keys in Hin.
  apply In_nth_error in Hin. destruct Hin as [i Hi].
  rewrite nth_error_map in Hi.
  destruct (nth_error nodes i) as [[k b]|] eqn:E; [|discriminate].
  assert (Hk0 : k = (-1 * (Z.of_nat (length nodes) + 1))%Z)
    by (cbv beta iota delta [option_map fst] in Hi; congruence).
  assert (Hlt : (i < length nodes)%nat)
    by (apply nth_error_Some; congruence).
  pose proof (Hpos _ _ _ E) as Hk. lia.
Qed.

Lemma locatedOk_anonymous :
  forall nodes b,
    locatedOk nodes ->
    variableId b = (-1 * (Z.of_nat (length nodes) + 1))%Z ->
    locatedOk (dset Z.eqb (-1 * (Z.of_nat (length nodes) + 1))%Z b nodes).
Proof.
  intros nodes b [Hpos Hkeys] Hid.
  rewrite dset_fresh by now apply anonymous_key_fresh. split.
  - intros i k b' Hn Hk.
    destruct (Nat.lt_ge_cases i (length nodes)) as [Hlt|Hge].
    + rewrite nth_error_app1 in Hn by assumption. eauto.
    + rewrite nth_error_app2 in Hn by assumption.
      destruct (i - length nodes)%nat as [|j] eqn:Ej; cbn [nth_error] in Hn.
      * assert (k = (-1 * (Z.of_nat (length nodes) + 1))%Z) by congruence.
        lia.
      * destruct j; discriminate.
  - intros k b' Hin. apply in_app_or in Hin.
    destruct Hin as [Hin|[Hin|[]]]; [eauto|]. inversion Hin; subst. exact Hid.
Qed.

Lemma locatedOk_named :
  forall nodes b k,
    locatedOk nodes -> (0 < k)%Z -> variableId b = k ->
    locatedOk (dset Z.eqb k b nodes).
Proof.
  intros nodes b k [Hpos Hkeys] Hk Hid. split.
  - intros i k' b' Hn Hneg. apply Hpos with (b := b'); [|assumption].
    eapply nth_dset_other; [eassumption | lia].
  - intros k' b' Hin. destruct (In_dset _ _ _ _ _ Hin) as [[-> ->]|H]; eauto.
Qed.

Section LocatorFacts.

Variable script : string.
Variable classNames : list (string * ClassInfo).
Variable sm : ScopeManager.
Hypothesis sm_positive : positiveIds sm.

Lemma findVariableForBubble_positive :
  forall name node v,
    findVariableForBubble name node sm = Some v -> (0 < varId v)%Z.
Proof.
  intros name node v. unfold findVariableForBubble.
  destruct (startLineOf node =? 0)%Z; [discriminate|].
  intros H. apply find_some in H. destruct H as [Hin _].
  apply in_flat_map in Hin. destruct Hin as (s & Hs & Hv).
  apply filter_In in Hs. eapply sm_positive; [apply Hs | exact Hv].
Qed.

Lemma registerAnonymous_ok :
  forall withComment node expr nodes,
    locatedOk nodes ->
    locatedOk (registerAnonymous script classNames sm withComment node expr
                 nodes).
Proof.
  intros withComment node expr nodes H. unfold registerAnonymous.
  destruct (extractBubbleFromExpression script classNames expr) as [b|];
    [|assumption].
  apply locatedOk_anonymous; [assumption | reflexivity].
Qed.

Lemma registerDeclarator_ok :
  forall node declarator nodes,
    locatedOk nodes ->
    holdsIfOk locatedOk
      (registerDeclarator script classNames sm node declarator nodes).
Proof.
  intros node declarator nodes H. unfold registerDeclarator.
  destruct declarator; try exact H.
  destruct declarator; try exact H.
  destruct init as [init|]; try exact H.
  destruct (extractBubbleFromExpression script classNames init) as [b|];
    [|exact H].
  destruct (findVariableForBubble _ _ sm) as [v|] eqn:E; [|exact I].
  simpl. apply locatedOk_named; [assumption | | reflexivity].
  eapply findVariableForBubble_positive; eassumption.
Qed.

Lemma visitLocal_ok :
  forall node nodes,
    locatedOk nodes ->
    holdsIfOk locatedOk (visitLocal script classNames sm node nodes).
Proof.
  intros node nodes H. unfold visitLocal.
  destruct node; try exact H; simpl.
  - (* ArrowFunctionExpression *)
    destruct node; try exact H; now apply registerAnonymous_ok.
  - (* VariableDeclaration *)
    assert (G : forall ds acc,
               holdsIfOk locatedOk acc ->
               holdsIfOk locatedOk
                 (fold_left
                    (fun acc d =>
                       bind acc
                         (registerDeclarator script classNames sm
                            (VariableDeclaration i kind declarations) d))
                    ds acc)).
    { induction ds as [|d ds IH]; simpl; intros acc Hacc; [assumption|].
      apply IH. destruct acc as [n|m]; simpl; [|exact I].
      now apply registerDeclarator_ok. }
    now apply G.
  - (* ExpressionStatement *)
    now apply registerAnonymous_ok.
  - (* ReturnStatement *)
    destruct argument; [now apply registerAnonymous_ok | exact H].
Qed.

End LocatorFacts.

(** A property of the map kept by the local step is kept by the whole
    visit. *)
Section VisitInvariant.

Variable script : string.
Variable classNames : list (string * ClassInfo).
Variable sm : ScopeManager.
Variable Inv : BubbleMap -> Prop.

Hypothesis local_keeps :
  forall node nodes,
    Inv nodes -> holdsIfOk Inv (visitLocal script classNames sm node nodes).

Let keeps (c : Node) : Prop :=
  forall acc,
    holdsIfOk Inv acc ->
    holdsIfOk Inv (bind acc (visitNode script classNames sm c)).

Lemma keeps_list :
  forall l,
    @list_all Node keeps l ->
    forall acc,
      holdsIfOk Inv acc ->
      holdsIfOk Inv
        (fold_left (fun a c => bind a (visitNode script classNames sm c))
           l acc).
Proof.
  induction 1 as [|c Hc l Hl IH]; simpl; intros acc Hacc; [assumption|].
  apply IH. now apply Hc.
Qed.

Lemma keeps_option :
  forall o,
    @option_all Node keeps o ->
    forall acc,
      holdsIfOk Inv acc ->
      holdsIfOk Inv
        (match o with
         | Some c => bind acc (visitNode script classNames sm c)
         | None => acc
         end).
Proof.
  intros o [c Hc|] acc Hacc; [now apply Hc | assumption].
Qed.

Lemma keeps_options :
  forall l,
    @list_all (option Node) (@option_all Node keeps) l ->
    forall acc,
      holdsIfOk Inv acc ->
      holdsIfOk Inv
        (fold_left
           (fun a o =>
              match o with
              | Some c => bind a (visitNode script classNames sm c)
              | None => a
              end)
           l acc).
Proof.
  induction 1 as [|o Ho l Hl IH]; simpl; intros acc Hacc; [assumption|].
  apply IH. now apply keeps_option.
Qed.

Lemma visitNode_keeps_all : forall c, keeps c.
Proof.
  induction c; intros acc Hacc;
    (destruct acc as [nodes|msg]; [|exact I]);
    simpl in Hacc; cbn [bind]; cbn [visitNode];
    match goal with
    | |- context [visitLocal script classNames sm ?n nodes] =>
        pose proof (local_keeps n Hacc) as Hstart
    end;
    repeat first
      [ exact Hstart
      | apply keeps_list; [assumption|]
      | apply keeps_options; [assumption|]
      | apply keeps_option; [assumption|]
      | match goal with
        | H : keeps ?x
          |- holdsIfOk Inv (bind _ (visitNode script classNames sm ?x)) =>
            apply H
        end ].
Qed.

Lemma visitNode_keeps :
  forall node nodes,
    Inv nodes -> holdsIfOk Inv (visitNode script classNames sm node nodes).
Proof.
  intros node nodes H.
  exact (visitNode_keeps_all node (Ok nodes) H).
Qed.

End VisitInvariant.

Lemma positions_sorted :
  forall (ks : list Z) (off : Z),
    (forall i k, nth_error ks i = Some k -> (k < 0)%Z ->
                 k = (- (off + Z.of_nat i + 1))%Z) ->
    StronglySorted Z.gt (filter (fun k => (k <? 0)%Z) ks)
    /\ Forall (fun k => (k < - off)%Z) (filter (fun k => (k <? 0)%Z) ks).
Proof.
  induction ks as [|k r IH]; intros off H; simpl.
  - split; constructor.
  - destruct (IH (off + 1)%Z) as [Hs Hf].
    { intros i k' Hn Hk. rewrite (H (S i) k' Hn Hk). lia. }
    destruct (k <? 0)%Z eqn:E.
    + apply Z.ltb_lt in E.
      assert (Hk : k = (- (off + 1))%Z) by (rewrite (H 0%nat k eq_refl E); lia).
      split.
      * constructor; [assumption|].
        eapply Forall_impl; [|exact Hf]. intros a Ha. simpl in Ha. lia.
      * constructor; [lia|].
        eapply Forall_impl; [|exact Hf]. intros a Ha. simpl in Ha. lia.
    + split; [assumption|].
      eapply Forall_impl; [|exact Hf]. intros a Ha. simpl in Ha. lia.
Qed.

Lemma positions_all_negative :
  forall (ks : list Z) (off : nat),
    (forall i k, nth_error ks i = Some k ->
                 k = (- (Z.of_nat (off + i) + 1))%Z) ->
    ks = map (fun i => (- Z.of_nat (S i))%Z) (List.seq off (length ks)).
Proof.
  induction ks as [|k r IH]; intros off H; simpl; [reflexivity|].
  f_equal.
  - rewrite (H 0%nat k eq_refl). lia.
  - apply IH. intros i k' Hn. rewrite (H (S i) k' Hn). f_equal. lia.
Qed.

Lemma filter_all :
  forall A (p : A -> bool) l, (forall x, In x l -> p x = true) -> filter p l = l.
Proof.
  induction l as [|a l IH]; simpl; intros H; [reflexivity|].
  rewrite (H a (or_introl eq_refl)). f_equal. apply IH. auto.
Qed.

Lemma nth_error_keys :
  forall (nodes : BubbleMap) i k,
    nth_error (keys nodes) i = Some k ->
    exists b, nth_error nodes i = Some (k, b).
Proof.
  intros nodes i k H. unfold keys in H. rewrite nth_error_map in H.
  destruct (nth_error nodes i) as [[k' b]|]; [|discriminate].
  inversion H; subst. eauto.
Qed.

(** C3, as amended.  In a scope graph whose variable ids are positive, a
    visit that starts from the empty map and returns leaves a map in which
    every bubble is stored under its own id and every negative
    (anonymous) id is minus the position, counted from 1, that its bubble
    has among all the bubbles located, named ones included; so the
    anonymous ids are negative and strictly decreasing in the order in
    which they were located, and they are -1, -2, ... when the map holds
    anonymous bubbles only.  An awaited [new X(...).action()] expression
    statement met with the map still empty is stored under -1 with
    [hasAwait] and [hasActionCall] set. *)
Theorem anonymous_ids_by_position :
  forall (script : string) (classNames : list (string * ClassInfo))
         (sm : ScopeManager) (tree : Node) (nodes : BubbleMap),
    positiveIds sm ->
    visitNode script classNames sm tree [] = Ok nodes ->
    anonymousAtPosition nodes
    /\ keysAreIds nodes
    /\ Forall (fun k => (k < 0)%Z) (anonymousIds nodes)
    /\ StronglySorted Z.gt (anonymousIds nodes)
    /\ ((forall k, In k (keys nodes) -> (k < 0)%Z) ->
        anonymousIds nodes = minusOneTwo (length nodes))
    /\ (forall si ai ci mi ni ii callee args t c o cargs b0,
           extractFromNewExpression script classNames
             (NewExpression ni callee args) = Some b0 ->
           exists b,
             visitLocal script classNames sm
               (ExpressionStatement si
                  (AwaitExpression ai
                     (CallExpression ci
                        (MemberExpression mi (NewExpression ni callee args)
                           (Identifier ii "action" t) c o)
                        cargs)))
               []
             = Ok [((-1)%Z, b)]
             /\ variableId b = (-1)%Z
             /\ hasAwait b = true /\ hasActionCall b = true).
Proof.
  intros script classNames sm tree nodes Hsm Hvisit.
  assert (Hok : locatedOk nodes).
  { pose proof (@visitNode_keeps script classNames sm locatedOk
                  (visitLocal_ok script classNames Hsm) tree []) as H.
    rewrite Hvisit in H. apply H. split.
    - intros i k b Hn. destruct i; discriminate.
    - intros k b []. }
  destruct Hok as [Hpos Hkeys].
  assert (Hpos' : forall i k, nth_error (keys nodes) i = Some k ->
                              (k < 0)%Z -> k = (- (0 + Z.of_nat i + 1))%Z).
  { intros i k Hn Hk. destruct (nth_error_keys _ _ Hn) as [b Hb].
    rewrite (Hpos _ _ _ Hb Hk). lia. }
  destruct (positions_sorted (keys nodes) 0 Hpos') as [Hsorted Hneg].
  split; [exact Hpos|]. split; [exact Hkeys|].
  split; [|split; [exact Hsorted|split]].
  - eapply Forall_impl; [|exact Hneg]. intros a Ha. simpl in Ha. lia.
  - intros Hall. unfold anonymousIds, minusOneTwo.
    rewrite filter_all by (intros x Hx; apply Z.ltb_lt; auto).
    replace (length nodes) with (length (keys nodes))
      by (unfold keys; apply length_map).
    apply positions_all_negative. intros i k Hn.
    rewrite (Hpos' i k Hn); [f_equal; lia | apply Hall].
    eapply nth_error_In; eassumption.
  - intros si ai ci mi ni ii callee args t c o cargs b0 Hnew.
    unfold visitLocal, registerAnonymous.
    cbn [extractBubbleFromExpression]. rewrite Hnew. cbn [option_map].
    destruct (extractCommentForNode script _) as [d|];
      (eexists; split; [reflexivity | repeat split; reflexivity]).
Qed.

Lemma mixedScopes_positive : positiveIds mixedScopes.
Proof.
  intros s v Hs Hv. simpl in Hs.
  repeat (destruct Hs as [<-|Hs]; [simpl in Hv; intuition (subst; simpl; lia)|]).
  contradiction.
Qed.

Lemma anonymous_ids_witness :
  anonymousIds mixedNodes = [(-2)%Z]
  /\ StronglySorted Z.gt (anonymousIds mixedNodes)
  /\ keysAreIds mixedNodes.
Proof.
  split; [reflexivity|].
  destruct (@anonymous_ids_by_position mixedText
              (buildClassNameLookup helloFactory) mixedScopes mixedProgram
              mixedNodes mixedScopes_positive)
    as (_ & Hkeys & _ & Hsorted & _).
  - vm_compute. reflexivity.
  - split; assumption.
Defined.

(** C3 as stated fails: when a named bubble is located first, the only
    anonymous bubble of the pass gets -2, so the anonymous ids are not the
    sequence -1, -2, .... *)
Lemma anonymous_ids_counterexample :
  visitNode mixedText (buildClassNameLookup helloFactory) mixedScopes
    mixedProgram [] = Ok mixedNodes
  /\ keys mixedNodes = [5%Z; (-2)%Z]
  /\ anonymousIds mixedNodes
     <> minusOneTwo (length (anonymousIds mixedNodes)).
Proof.
  split; [vm_compute; reflexivity|].
  split; [reflexivity|].
  vm_compute. discriminate.
Qed.

(** The anonymous-bubble property of the specification, on the first
    sample. *)
Example anonymous_bubble_example :
  match visitNode anonText (buildClassNameLookup helloFactory) anonScopes
          anonProgram [] with
  | Ok [(k, b)] =>
      k = (-1)%Z /\ variableId b = (-1)%Z
      /\ hasAwait b = true /\ hasActionCall b = true
      /\ description b = Some "Greets the caller"
  | _ => False
  end.
Proof. vm_compute. repeat split. Qed.

(** ** C1: the workflow tree and the bubble map *)

(** C1 fails on the code: for the flow whose [handle] calls a helper
    method that holds the bubble, the parse returns a bubble map with the
    key 6, while the workflow tree built from the body of [handle] is one
    code block without any bubble leaf. *)
Theorem workflow_misses_helper_bubbles :
  exists nodes wf,
    parseBubblesFromAST helperText noTools helloFactory helperProgram
      helperScopes = Ok (nodes, wf)
    /\ keys nodes = [6%Z]
    /\ workflowBubbleIds wf = []
    /\ root wf
       = [WCodeBlock (mkLoc 3 4 3 23) "await this.greet();" []].
Proof.
  eexists. eexists. split; [vm_compute; reflexivity|].
  repeat split.
Qed.

(** The other half of C1 holds: the leaves of the tree are bubbles of the
    map. *)

Section WorkflowLeaves.

Variable script : string.
Variable bubbleMap : BubbleMap.

(** [id] is the variable id of a bubble of the map. *)
Let located (id : Z) : Prop :=
  exists b, In b (values bubbleMap) /\ variableId b = id.

Let leavesLocated (n : WorkflowNode) : Prop :=
  forall id, In id (collectBubbleIds n) -> located id.

Let builds (stmt : Node) : Prop :=
  forall n,
    buildWorkflowNodeFromStatement script bubbleMap stmt = Some n ->
    leavesLocated n.

Lemma findBubbleInExpression_In :
  forall e b, findBubbleInExpression bubbleMap e = Some b ->
              In b (values bubbleMap).
Proof.
  intros e b. unfold findBubbleInExpression.
  destruct (extractNewExpression e); [|discriminate].
  intros H. now apply find_some in H.
Qed.

Lemma bubbleOfDeclarators_In :
  forall l b, bubbleOfDeclarators bubbleMap l = Some b ->
              In b (values bubbleMap).
Proof.
  intros l b. unfold bubbleOfDeclarators.
  induction l as [|d l IH]; cbn [firstSome]; [discriminate|].
  match goal with
  | |- match ?x with _ => _ end = _ -> _ => destruct x as [b'|] eqn:E
  end; [|exact IH].
  intros H. injection H as ->.
  repeat match type of E with
         | match ?x with _ => _ end = _ =>
             lazymatch x with
             | find _ _ => fail
             | _ => destruct x; try discriminate
             end
         end.
  destruct (find _ (values bubbleMap)) as [b0|] eqn:F.
  - injection E as <-. now apply find_some in F.
  - now apply findBubbleInExpression_In in E.
Qed.

Lemma statements_located :
  forall l,
    @list_all Node builds l ->
    forall id,
      In id (flat_map collectBubbleIds
               (somes (map (buildWorkflowNodeFromStatement script bubbleMap)
                         l))) ->
      located id.
Proof.
  induction 1 as [|c Hc l Hl IH]; cbn [map somes flat_map]; intros id Hid;
    [contradiction|].
  destruct (buildWorkflowNodeFromStatement script bubbleMap c) as [n|] eqn:E;
    cbn [somes flat_map] in Hid; [|now apply IH].
  apply in_app_or in Hid as [Hid|Hid]; [now apply (Hc n E) | now apply IH].
Qed.

Lemma blockOrSingle_located :
  forall body,
    builds body ->
    forall id,
      In id (flat_map collectBubbleIds
               match body with
               | BlockStatement _ l =>
                   somes (map (buildWorkflowNodeFromStatement script
                                 bubbleMap) l)
               | _ => optList (buildWorkflowNodeFromStatement script
                                 bubbleMap body)
               end) ->
      located id.
Proof.
  intros body Hb id Hid.
  assert (Hsingle :
            In id (flat_map collectBubbleIds
                     (optList (buildWorkflowNodeFromStatement script
                                 bubbleMap body))) -> located id).
  { destruct (buildWorkflowNodeFromStatement script bubbleMap body)
      as [n|] eqn:E; cbn [optList flat_map]; [|contradiction].
    rewrite app_nil_r. now apply (Hb n E). }
  destruct body; try (now apply Hsingle).
  destruct (buildWorkflowNodeFromStatement script bubbleMap
              (BlockStatement i body)) as [n|] eqn:E.
  - cbn [buildWorkflowNodeFromStatement] in E. injection E as <-.
    apply (Hb _ eq_refl). exact Hid.
  - discriminate.
Qed.

Lemma blockOnly_located :
  forall body,
    builds body ->
    forall id,
      In id (flat_map collectBubbleIds
               match body with
               | BlockStatement _ l =>
                   somes (map (buildWorkflowNodeFromStatement script
                                 bubbleMap) l)
               | _ => []
               end) ->
      located id.
Proof.
  intros body Hb id Hid. destruct body; try contradiction.
  apply (Hb _ eq_refl). exact Hid.
Qed.

Let buildsWithin (stmt : Node) : Prop :=
  builds stmt
  /\ match stmt with
     | CatchClause _ _ body => builds body
     | _ => True
     end.

Lemma list_all_builds :
  forall l, @list_all Node buildsWithin l -> @list_all Node builds l.
Proof.
  induction 1 as [|c Hc l Hl IH]; constructor; [apply Hc | exact IH].
Qed.

Lemma bubble_located :
  forall (found : option ParsedBubbleWithInfo) l text n,
    (forall b, found = Some b -> In b (values bubbleMap)) ->
    match found with
    | Some bb => Some (WBubble (variableId bb))
    | None => Some (WCodeBlock l text [])
    end = Some n ->
    leavesLocated n.
Proof.
  intros [bb|] l text n Hf E; injection E as <-; intros id Hid;
    cbn [collectBubbleIds flat_map In] in Hid; [|contradiction].
  destruct Hid as [<-|[]]. exists bb. split; [now apply Hf | reflexivity].
Qed.

Ltac useBuilds :=
  match goal with
  | H : _ ?b |- _ ?b => apply H
  end.

Lemma buildWorkflowNodeFromStatement_located :
  forall stmt, buildsWithin stmt.
Proof.
  induction stmt; (split; [|try exact I]);
    try (intros n E; cbn [buildWorkflowNodeFromStatement] in E;
         injection E as <-; intros leaf Hid;
         cbn [collectBubbleIds flat_map] in Hid; contradiction).
  - (* block *)
    intros n E. cbn [buildWorkflowNodeFromStatement] in E.
    injection E as <-. intros leaf Hid. cbn [collectBubbleIds] in Hid.
    eapply statements_located; [apply list_all_builds|]; eassumption.
  - (* declaration *)
    intros n E. cbn [buildWorkflowNodeFromStatement] in E.
    eapply bubble_located; [|exact E]. apply bubbleOfDeclarators_In.
  - (* expression statement *)
    intros n E. cbn [buildWorkflowNodeFromStatement] in E.
    eapply bubble_located; [|exact E]. apply findBubbleInExpression_In.
  - (* return *)
    intros n E. cbn [buildWorkflowNodeFromStatement] in E.
    destruct argument as [argument|].
    + eapply bubble_located; [|exact E]. apply findBubbleInExpression_In.
    + injection E as <-. intros leaf Hid. contradiction.
  - (* if *)
    intros n E. cbn [buildWorkflowNodeFromStatement] in E.
    injection E as <-. intros leaf Hid. cbn [collectBubbleIds] in Hid.
    apply in_app_or in Hid as [Hid|Hid].
    + eapply blockOrSingle_located in Hid; [exact Hid | useBuilds].
    + match goal with
      | H : option_all _ _ |- _ => destruct H as [alt Halt|]
      end; cbn [option_map] in Hid; [|contradiction].
      eapply blockOrSingle_located in Hid; [exact Hid | apply Halt].
  - (* for *)
    intros n E. cbn [buildWorkflowNodeFromStatement] in E.
    injection E as <-. intros leaf Hid. cbn [collectBubbleIds] in Hid.
    eapply blockOrSingle_located in Hid; [exact Hid | useBuilds].
  - (* for in *)
    intros n E. cbn [buildWorkflowNodeFromStatement] in E.
    injection E as <-. intros leaf Hid. cbn [collectBubbleIds] in Hid.
    eapply blockOrSingle_located in Hid; [exact Hid | useBuilds].
  - (* for of *)
    intros n E. cbn [buildWorkflowNodeFromStatement] in E.
    injection E as <-. intros leaf Hid. cbn [collectBubbleIds] in Hid.
    eapply blockOrSingle_located in Hid; [exact Hid | useBuilds].
  - (* while *)
    intros n E. cbn [buildWorkflowNodeFromStatement] in E.
    injection E as <-. intros leaf Hid. cbn [collectBubbleIds] in Hid.
    eapply blockOrSingle_located in Hid; [exact Hid | useBuilds].
  - (* try *)
    intros n E. cbn [buildWorkflowNodeFromStatement] in E.
    injection E as <-. intros leaf Hid. cbn [collectBubbleIds] in Hid.
    apply in_app_or in Hid as [Hid|Hid].
    + eapply blockOnly_located in Hid; [exact Hid | useBuilds].
    + match goal with
      | H : option_all _ handler |- _ => destruct H as [h Hh|]
      end; cbn [option_map] in Hid; [|contradiction].
      destruct h; try contradiction.
      eapply blockOnly_located in Hid; [exact Hid | apply Hh].
  - (* catch clause *)
    useBuilds.
Qed.

End WorkflowLeaves.

Lemma insertByKey_In :
  forall V (e x : Z * V) l, In x (insertByKey e l) -> x = e \/ In x l.
Proof.
  intros V e x l. induction l as [|e' r IH]; cbn [insertByKey].
  - intros [<-|[]]. now left.
  - destruct (fst e <=? fst e')%Z; cbn [In].
    + intros [<-|H]; auto.
    + intros [<-|H]; [auto|]. destruct (IH H); auto.
Qed.

Lemma Object_entries_In :
  forall V (d : list (Z * V)) x, In x (Object_entries d) -> In x d.
Proof.
  intros V d x H. unfold Object_entries in H.
  apply in_app_or in H as [H|H]; [|now apply filter_In in H].
  assert (G : forall l, In x (fold_right insertByKey [] l) -> In x l).
  { induction l as [|e l IH]; cbn [fold_right]; [tauto|].
    intros Hx. apply insertByKey_In in Hx as [->|Hx]; [now left|].
    right. now apply IH. }
  apply G in H. now apply filter_In in H.
Qed.

(** Every bubble leaf of the workflow tree carries the variable id of a
    bubble of the map the tree was built from. *)
Lemma workflow_leaves_located :
  forall script tree bubbles leaf,
    In leaf (workflowBubbleIds (buildWorkflowTree script tree bubbles)) ->
    exists k b, In (k, b) bubbles /\ variableId b = leaf.
Proof.
  intros script tree bubbles leaf. unfold workflowBubbleIds, buildWorkflowTree.
  destruct (findHandleFunctionNode tree) as [handleNode|]; [|contradiction].
  destruct (functionBody handleNode) as [body|]; [|contradiction].
  destruct body; try contradiction. cbn [root]. intros H.
  assert (Hall : @list_all Node
                   (fun stmt =>
                      forall n,
                        buildWorkflowNodeFromStatement script
                          (Object_entries bubbles) stmt = Some n ->
                        forall id, In id (collectBubbleIds n) ->
                                   exists b,
                                     In b (values (Object_entries bubbles))
                                     /\ variableId b = id) body).
  { clear H.
    induction body as [|c body IH]; [constructor | constructor; [|exact IH]].
    apply (proj1 (buildWorkflowNodeFromStatement_located script
                    (Object_entries bubbles) c)). }
  destruct (statements_located _ _ Hall leaf H) as (b & Hb & Hid).
  unfold values in Hb. apply in_map_iff in Hb as ([k b'] & E & Hin).
  cbn [snd] in E. subst b'. exists k, b. split; [|exact Hid].
  now apply Object_entries_In.
Qed.

Lemma mapM_In :
  forall A B (f : A -> Result B) l l' y,
    mapM f l = Ok l' -> In y l' -> exists x, In x l /\ f x = Ok y.
Proof.
  intros A B f. induction l as [|a l IH]; intros l' y H Hy; cbn [mapM] in H.
  - injection H as <-. contradiction.
  - destruct (f a) as [b|] eqn:Ea; [|discriminate]. cbn [bind] in H.
    destruct (mapM f l) as [bs|] eqn:El; [|discriminate]. cbn [bind] in H.
    injection H as <-. destruct Hy as [<-|Hy].
    + exists a. split; [now left | exact Ea].
    + destruct (IH bs y eq_refl Hy) as (x & Hx & Hf). exists x.
      split; [now right | exact Hf].
Qed.

(** For a parse that returns, no bubble leaf of the workflow tree
    references an id outside the bubble map. *)
Lemma workflow_leaves_are_keys :
  forall script tools factory tree sm nodes wf,
    positiveIds sm ->
    parseBubblesFromAST script tools factory tree sm = Ok (nodes, wf) ->
    incl (workflowBubbleIds wf) (keys nodes).
Proof.
  intros script tools factory tree sm nodes wf Hsm. unfold parseBubblesFromAST.
  destruct (buildClassNameLookup factory) as [|c cs] eqn:Ec; [discriminate|].
  rewrite <- Ec.
  destruct (visitNode script (buildClassNameLookup factory) sm tree [])
    as [located|] eqn:Hvisit; [|discriminate]. cbn [bind].
  destruct (mapM _ located) as [attached|] eqn:Hm; [|discriminate].
  cbn [bind]. intros H. injection H as <- <-.
  assert (Hok : locatedOk located).
  { pose proof (@visitNode_keeps script (buildClassNameLookup factory) sm
                  locatedOk
                  (visitLocal_ok script (buildClassNameLookup factory) Hsm)
                  tree []) as H.
    rewrite Hvisit in H. apply H. split.
    - intros i k b Hn. destruct i; discriminate.
    - intros k b []. }
  intros leaf Hleaf.
  apply workflow_leaves_located in Hleaf as (k & b & Hin & <-).
  destruct (mapM_In _ _ _ Hm Hin) as ([k0 b0] & Hin0 & Hf).
  unfold attachDependencyGraph in Hf. cbn [fst snd] in Hf.
  destruct (buildDependencyGraph _ _ _ _ _ _ _ _ _ _) as [[graph cnt]|];
    [|discriminate].
  injection Hf as <- <-.
  destruct Hok as [_ Hkeys]. rewrite <- (Hkeys _ _ Hin0) in Hin.
  unfold keys. apply in_map_iff. eexists. split; [|exact Hin]. reflexivity.
Qed.

(** ** C2: determinism *)

Lemma forEachM_inv :
  forall A S (I : S -> Prop) (g : A -> S -> option S) l s s',
    (forall a s s', I s -> g a s = Some s' -> I s') ->
    I s -> forEachM g l s = Some s' -> I s'.
Proof.
  induction l as [|a l IH]; simpl; intros s s' Hg Hs H.
  - inversion H; subst. assumption.
  - destruct (g a s) as [s1|] eqn:E; [|discriminate].
    eapply IH; [exact Hg | eapply Hg; eassumption | exact H].
Qed.

Lemma allHashed_children :
  forall n t u v vn ds,
    Forall allHashed ds ->
    Forall hashed (descendants (mkDep n t u v vn ds)).
Proof.
  intros n t u v vn ds H. simpl. apply Forall_app. split.
  - eapply Forall_impl; [|exact H]. intros d Hd. now inversion Hd.
  - apply Forall_forall. intros x Hx. apply in_flat_map in Hx.
    destruct Hx as (d & Hd & Hx).
    rewrite Forall_forall in H. specialize (H d Hd).
    inversion H as [|? ? _ Hrest]; subst.
    rewrite Forall_forall in Hrest. auto.
Qed.

Section GraphIds.

Variable f : BubbleFactory.
Variable rec :
  string -> list string -> option (list string) -> string -> Counters ->
  option string -> option (DependencyGraphNode * Counters).

Hypothesis rec_hashed :
  forall n ns t p c i d c', rec n ns t p c i = Some (d, c') -> allHashed d.

Let childrenHashed (st : GraphState) : Prop := Forall allHashed (fst st).

Lemma pushChild_hashed :
  forall n ns t p c i children s',
    Forall allHashed children ->
    pushChild (rec n ns t p c i) children = Some s' ->
    childrenHashed s'.
Proof.
  intros n ns t p c i children s' Hch H.
  apply pushChild_last in H. destruct H as (d & c' & Hr & ->).
  unfold childrenHashed. simpl. apply Forall_app. split; [assumption|].
  constructor; [|constructor]. eapply rec_hashed; eassumption.
Qed.

Lemma toolChildrenOf_hashed :
  forall nextSeen parent tools counters s',
    toolChildrenOf rec nextSeen parent tools counters = Some s' ->
    childrenHashed s'.
Proof.
  intros nextSeen parent tools counters s'. unfold toolChildrenOf.
  apply forEachM_inv with (I := childrenHashed); [|constructor].
  intros a [ch cs] s1 Hs. now apply pushChild_hashed.
Qed.

Lemma expandInstance_hashed :
  forall nextSeen uniqueId spec inst s s',
    childrenHashed s ->
    expandInstance f rec nextSeen uniqueId spec inst s = Some s' ->
    childrenHashed s'.
Proof.
  intros nextSeen uniqueId spec inst [ch cs] s' Hs. unfold expandInstance.
  destruct (if String.eqb (specName spec) "ai-agent" then _ else _)
    as [tools|]; [|now apply pushChild_hashed].
  destruct (_ && _); [|now apply pushChild_hashed].
  intros H. apply pushChild_last in H. destruct H as (d & c' & Hr & ->).
  unfold childrenHashed. simpl. apply Forall_app. split; [assumption|].
  constructor; [|constructor].
  unfold syntheticAgent in Hr. destruct (nextOrdinalFor _ cs) as [o c2].
  destruct (toolChildrenOf _ _ _ _ _) as [[tc c3]|] eqn:E; [|discriminate].
  inversion Hr; subst d c'. constructor; [reflexivity|].
  apply allHashed_children.
  exact (toolChildrenOf_hashed _ _ _ _ E).
Qed.

Lemma graphBody_hashed :
  forall name seen tools parent counters explicit suppress inst node c,
    graphBody f rec name seen tools parent counters explicit suppress inst
    = Some (node, c) ->
    Forall hashed (descendants node)
    /\ match explicit with
       | Some v => depVariableId node = v
       | None => hashed node
       end.
Proof.
  intros until c. unfold graphBody.
  destruct (nextOrdinalFor _ _) as [o c1].
  destruct (inSeen name seen).
  { intros H; inversion H; subst. split; [constructor|].
    destruct explicit; reflexivity. }
  destruct (registryChildren _ _ _ _ _ _) as [st|] eqn:R; [|discriminate].
  destruct (dynamicToolChildren _ _ _ _ _ _) as [[ch cs]|] eqn:D;
    [|discriminate].
  intros H; inversion H; subst node c. clear H.
  split; [|destruct explicit; reflexivity].
  apply allHashed_children.
  assert (Hst : childrenHashed st).
  { unfold registryChildren in R.
    destruct (detailedOf _) as [|sp l].
    - eapply forEachM_inv with (I := childrenHashed); [| |exact R];
        [|constructor].
      intros a [ch0 cs0] s1 Hs. now apply pushChild_hashed.
    - eapply forEachM_inv with (I := childrenHashed); [| |exact R];
        [|constructor].
      intros a s0 s1 Hs. unfold expandSpec.
      apply forEachM_inv with (I := childrenHashed); [|assumption].
      intros i s2 s3. apply expandInstance_hashed. }
  change (childrenHashed (ch, cs)).
  unfold dynamicToolChildren in D.
  destruct tools as [ts|]; [|inversion D; subst; assumption].
  destruct (String.eqb name "ai-agent"); [|inversion D; subst; assumption].
  eapply forEachM_inv with (I := childrenHashed); [| exact Hst | exact D].
  intros a [ch0 cs0] s1 Hs. destruct (inSeen a (name :: seen)).
  - intros H; inversion H; subst. assumption.
  - now apply pushChild_hashed.
Qed.

End GraphIds.

Lemma buildDependencyGraph_hashed :
  forall fuel f name seen tools parent counters explicit suppress inst node c,
    buildDependencyGraph fuel f name seen tools parent counters explicit
      suppress inst = Some (node, c) ->
    Forall hashed (descendants node)
    /\ match explicit with
       | Some v => depVariableId node = v
       | None => hashed node
       end.
Proof.
  induction fuel as [|fuel IH]; intros until c; simpl; [discriminate|].
  apply graphBody_hashed.
  intros n ns t p c0 i d c' H. specialize (IH _ _ _ _ _ _ _ _ _ _ _ H).
  constructor; tauto.
Qed.

(** C2.  Two constructions from the same source text and registry give the
    same script object, and leave the same counter behind, whatever the
    shared id counter held before each of them, and so do two re-parses of
    one script object: the counter is reset before the scope analysis
    runs.  In every dependency graph the id of every node below the root
    is the hash of that node's [uniqueId], a number between 100000 and
    999999, and the root has the bubble's own id. *)
Theorem parse_is_deterministic :
  forall (parse : string -> Result Node)
         (analyze : Node -> Z -> ScopeManager * Z)
         (parseTools : string -> option (list (option string)))
         (script : string) (factory : BubbleFactory) (counter1 counter2 : Z),
    newBubbleScript parse analyze parseTools script factory counter1
    = newBubbleScript parse analyze parseTools script factory counter2
    /\ (forall this,
           reparseAST parse analyze parseTools this counter1
           = reparseAST parse analyze parseTools this counter2)
    /\ (forall uniqueId,
           (100000 <= hashUniqueIdToVarId uniqueId <= 999999)%Z)
    /\ (forall fuel name seen tools parent counters rootId inst node c,
           buildDependencyGraph fuel factory name seen tools parent counters
             (Some rootId) true inst = Some (node, c) ->
           depVariableId node = rootId
           /\ depUniqueId node = parent
           /\ forall d, In d (descendants node) ->
                        depVariableId d
                        = hashUniqueIdToVarId (depUniqueId d)).
Proof.
  intros. split; [reflexivity|]. split; [reflexivity|]. split.
  - intros u. unfold hashUniqueIdToVarId.
    pose proof (Z.mod_pos_bound
                  (fold_left hashStep (chars u) 2166136261%Z) 900000) as H.
    lia.
  - intros fuel name seen tools parent counters rootId inst node c H.
    destruct (buildDependencyGraph_hashed _ _ _ _ _ _ _ _ _ _ H) as [Hd Hr].
    split; [exact Hr|]. split.
    + destruct fuel; [discriminate|]. simpl in H. unfold graphBody in H.
      destruct (nextOrdinalFor _ _) as [o c1].
      destruct (inSeen name seen); [inversion H; reflexivity|].
      destruct (registryChildren _ _ _ _ _ _); [|discriminate].
      destruct (dynamicToolChildren _ _ _ _ _ _) as [[ch cs]|];
        [|discriminate].
      inversion H; reflexivity.
    + rewrite Forall_forall in Hd. exact Hd.
Qed.

Lemma parse_is_deterministic_witness :
  depVariableId agentGraphNode = 7%Z
  /\ depUniqueId agentGraphNode = "7"
  /\ Forall hashed (descendants agentGraphNode).
Proof.
  destruct (parse_is_deterministic (fun _ => Throw "no parser")
              (fun _ c => ([], c)) noTools EmptyString agentRegistry 0 1)
    as (_ & _ & _ & Hgraph).
  destruct (Hgraph (graphFuel agentRegistry) "ai-agent" []
              (Some ["research-agent-tool"]) "7" [] 7%Z (Some "agent")
              agentGraphNode agentGraphCounters)
    as (Hroot & Huid & Hbelow).
  - vm_compute. reflexivity.
  - split; [exact Hroot|]. split; [exact Huid|].
    apply Forall_forall. exact Hbelow.
Defined.

(** ** C5: trigger errors *)


Section TriggerValidation.

Variable parse : string -> Result Node.
Variable analyze : Node -> Z -> ScopeManager * Z.
Variable parseTools : string -> option (list (option string)).
Variable validateCron : option string -> Result bool.
Variable validateScript : string -> Result ScriptValidation.
Variable findCredentials : BubbleScript -> Result (list (Z * list string)).
Variable stackDepth : nat.





Lemma validateTriggerEvent_cases :
  forall script,
    match getBubbleTriggerEventType script with
    | None => validateTriggerEvent validateCron script
              = Ok [missingTriggerMessage]
    | Some t =>
        if String.eqb (triggerType t) "schedule/cron" then
          match cronSchedule t, validateCron (cronSchedule t) with
          | _, Throw msg =>
              validateTriggerEvent validateCron script = Throw msg
          | None, Ok ok =>
              exists rest,
                validateTriggerEvent validateCron script
                = Ok (missingCronMessage :: rest)
          | Some c, Ok false =>
              exists errs,
                validateTriggerEvent validateCron script
                = Ok (errs ++ [invalidCronMessage])
          | Some c, Ok true =>
              validateTriggerEvent validateCron script
              = Ok (if isEmptyString c then [missingCronMessage] else [])
          end
        else validateTriggerEvent validateCron script = Ok []
    end.
Proof.
  intros script. unfold validateTriggerEvent.
  destruct (getBubbleTriggerEventType script) as [t|]; [|reflexivity].
  destruct (String.eqb (triggerType t) "schedule/cron"); [|reflexivity].
  destruct (cronSchedule t) as [c|];
    destruct (validateCron _) as [[|]|msg]; simpl; eauto.
Qed.


End TriggerValidation.


Example trigger_examples :
  detectTrigger dailyProgram dailyText
  = Some (mkTrigger "schedule/cron" (Some "0 0 * * *"))
  /\ triggerFromSource dailyText
     = Some (mkTrigger "schedule/cron" (Some "0 0 * * *"))
  /\ triggerFromSource noTriggerText = None
  /\ errors (sampleValidateAndExtract noTriggerText)
     = Some [missingTriggerMessage]
  /\ errors (sampleValidateAndExtract badCronText)
     = Some [invalidCronMessage]
  /\ valid (sampleValidateAndExtract dailyText) = true
  /\ resultTrigger (sampleValidateAndExtract dailyText)
     = Some (mkTrigger "schedule/cron" (Some "0 0 * * *")).
Proof. vm_compute. repeat split. Qed.

(** ** C4: parameter classification *)

Lemma starLoop_greedy :
  forall (p : ascii -> bool) (k : Cont) cs t fuel prev c x,
    forallb p cs = true ->
    match t with [] => True | y :: _ => p y = false end ->
    (length cs <= fuel)%nat ->
    (forall prev', k prev' t c = Some x) ->
    starLoop (m (Chr p)) k fuel prev (cs ++ t) c = Some x.
Proof.
  intros p k cs t. remember (m (Chr p)) as ma eqn:Hma.
  assert (Hstep : forall prev s c k',
             ma prev s c k'
             = match s with
               | y :: s' => if p y then k' (Some y) s' c else None
               | [] => None
               end) by (intros; subst ma; reflexivity).
  clear Hma.
  induction cs as [|a cs IH]; intros fuel prev c x Hcs Ht Hf Hk.
  - cbn [app]. destruct fuel as [|f]; cbn [starLoop]; [apply Hk|].
    rewrite Hstep.
    destruct t as [|y t']; [apply Hk|]. rewrite Ht. apply Hk.
  - cbn [forallb] in Hcs. apply andb_prop in Hcs as [Ha Hcs].
    destruct fuel as [|f]; [cbn [length] in Hf; lia|].
    cbn [app starLoop]. rewrite Hstep, Ha.
    replace (length (cs ++ t) <? length (a :: cs ++ t))%nat with true
      by (symmetry; apply Nat.ltb_lt; cbn [length]; lia).
    rewrite (IH f (Some a) c x); auto. cbn [length] in Hf. lia.
Qed.

Lemma starLoop_fails :
  forall (p : ascii -> bool) (k : Cont) t c cs fuel prev,
    forallb p cs = true ->
    match t with [] => True | y :: _ => p y = false end ->
    (forall cs1 cs2 prev', cs = cs1 ++ cs2 -> k prev' (cs2 ++ t) c = None) ->
    starLoop (m (Chr p)) k fuel prev (cs ++ t) c = None.
Proof.
  intros p k t c cs. remember (m (Chr p)) as ma eqn:Hma.
  assert (Hstep : forall prev s c k',
             ma prev s c k'
             = match s with
               | y :: s' => if p y then k' (Some y) s' c else None
               | [] => None
               end) by (intros; subst ma; reflexivity).
  clear Hma.
  induction cs as [|a cs IH]; intros fuel prev Hcs Ht Hk.
  - cbn [app]. pose proof (Hk [] [] prev eq_refl) as H0. cbn [app] in H0.
    destruct fuel as [|f]; cbn [starLoop]; [exact H0|].
    rewrite Hstep.
    destruct t as [|y t']; [rewrite H0; reflexivity|]. rewrite Ht, H0.
    reflexivity.
  - cbn [forallb] in Hcs. apply andb_prop in Hcs as [Ha Hcs].
    pose proof (Hk [] (a :: cs) prev eq_refl) as H0.
    destruct fuel as [|f]; cbn [app starLoop]; [exact H0|].
    rewrite Hstep, Ha.
    replace (length (cs ++ t) <? length (a :: cs ++ t))%nat with true
      by (symmetry; apply Nat.ltb_lt; cbn [length]; lia).
    rewrite IH; auto.
    intros cs1 cs2 prev' E. apply (Hk (a :: cs1) cs2 prev'). now rewrite E.
Qed.

(** An anchored expression matches at the start of the text or nowhere. *)
Lemma searchFrom_anchored :
  forall r s pre x, searchFrom (Seq Bol r) pre (Some x) s = None.
Proof.
  intros r s. induction s as [|y s IH]; intros pre x; cbn; auto.
Qed.

Lemma exec_anchored :
  forall r s,
    exec (Seq Bol r) s
    = match matchAt (Seq Bol r) None (chars s) with
      | Some (s', c) =>
          Some (mkMatch [] (firstn (length (chars s) - length s') (chars s))
                  s' c)
      | None => None
      end.
Proof.
  intros r s. unfold exec. destruct (chars s) as [|x l].
  - cbn [searchFrom]. destruct (matchAt _ _ _) as [[s' c]|]; reflexivity.
  - cbn [searchFrom]. destruct (matchAt _ _ _) as [[s' c]|]; [reflexivity|].
    apply searchFrom_anchored.
Qed.

Lemma identPart_not_delimiter :
  forall x, isIdentPart x = true ->
            Ascii.eqb "["%char x = false /\ Ascii.eqb "."%char x = false.
Proof.
  intros x H. split.
  - destruct (Ascii.eqb_spec "["%char x) as [<-|]; [|reflexivity].
    vm_compute in H. discriminate.
  - destruct (Ascii.eqb_spec "."%char x) as [<-|]; [|reflexivity].
    vm_compute in H. discriminate.
Qed.

Lemma firstn_exactly :
  forall (A : Type) (l l' : list A) n,
    n = length l -> firstn n (l ++ l') = l.
Proof.
  intros A l l' n ->. rewrite <- (Nat.add_0_r (length l)).
  rewrite firstn_app_2. cbn [firstn]. apply app_nil_r.
Qed.

Lemma firstn_prefix :
  forall (A : Type) (l l' : list A),
    firstn (length (l ++ l') - length l') (l ++ l') = l.
Proof.
  intros A l l'. rewrite length_app.
  replace (length l + length l' - length l')%nat with (length l + 0)%nat
    by lia.
  rewrite firstn_app_2. cbn [firstn]. apply app_nil_r.
Qed.

(** [^(ident)d] on an identifier followed by the delimiter [d]. *)
Lemma access_matches :
  forall (d c0 : ascii) cs r,
    isIdentStart c0 = true -> forallb isIdentPart cs = true ->
    isIdentPart d = false ->
    matchAt (seq [Bol; Grp 1 reIdent; Lit (String d EmptyString)]) None
      (c0 :: cs ++ d :: r)
    = Some (r, [(1%nat, c0 :: cs)]).
Proof.
  intros d c0 cs r H0 Hcs Hd. unfold matchAt, reIdent. cbn [seq m].
  rewrite H0.
  apply (starLoop_greedy isIdentPart); auto.
  - rewrite length_app. lia.
  - intros _. cbn [chars list_ascii_of_string stripPrefix].
    rewrite Ascii.eqb_refl.
    change (c0 :: cs ++ d :: r) with ((c0 :: cs) ++ d :: r).
    rewrite firstn_prefix. reflexivity.
Qed.

(** [^(ident)d] on an identifier followed by nothing or by a character
    that is neither [d] nor part of an identifier. *)
Lemma access_fails :
  forall (d c0 : ascii) cs t,
    forallb isIdentPart cs = true ->
    isIdentPart d = false ->
    match t with
    | [] => True
    | y :: _ => isIdentPart y = false /\ Ascii.eqb d y = false
    end ->
    matchAt (seq [Bol; Grp 1 reIdent; Lit (String d EmptyString)]) None
      (c0 :: cs ++ t)
    = None.
Proof.
  intros d c0 cs t Hcs Hd Ht. unfold matchAt, reIdent. cbn [seq m].
  destruct (isIdentStart c0); [|reflexivity].
  apply (starLoop_fails isIdentPart); auto.
  - destruct t; [exact I | tauto].
  - intros cs1 cs2 _ E. cbn [chars list_ascii_of_string stripPrefix].
    destruct cs2 as [|y cs2]; cbn [app].
    + destruct t as [|y t']; [reflexivity|].
      destruct Ht as [_ ->]. reflexivity.
    + assert (Hy : isIdentPart y = true).
      { subst cs. rewrite forallb_app in Hcs.
        apply andb_prop in Hcs as [_ Hcs]. cbn [forallb] in Hcs.
        now apply andb_prop in Hcs. }
      destruct (Ascii.eqb_spec d y) as [->|]; [congruence | reflexivity].
Qed.

(** [^ident$] on an identifier. *)
Lemma simple_matches :
  forall c0 cs,
    isIdentStart c0 = true -> forallb isIdentPart cs = true ->
    test reSimpleVariable (str (c0 :: cs)) = true.
Proof.
  intros c0 cs H0 Hcs. unfold test, reSimpleVariable.
  cbn [seq]. rewrite exec_anchored.
  replace (matchAt (Seq Bol (Seq reIdent Eol)) None (chars (str (c0 :: cs))))
    with (Some (@nil ascii, @nil (nat * list ascii))); [reflexivity|].
  symmetry. unfold chars, str. rewrite list_ascii_of_string_of_list_ascii.
  unfold matchAt, reIdent. cbn [m]. rewrite H0.
  match goal with
  | |- starLoop _ ?k ?f ?p cs ?c = ?x =>
      pose proof (@starLoop_greedy isIdentPart k cs [] f p c ([], [])) as H
  end.
  rewrite app_nil_r in H. apply H; auto.
Qed.

Lemma identPart_facts :
  forall x,
    (isIdentStart x = true -> isIdentPart x = true)
    /\ (isIdentPart x = true -> isSpace x = false).
Proof.
  intros [[] [] [] [] [] [] [] []]; split; intros H;
    solve [reflexivity | vm_compute in H; discriminate].
Qed.

Lemma dropWhile_stop :
  forall (A : Type) (f : A -> bool) a x b,
    f x = false -> dropWhile f (a ++ x :: b) = dropWhile f a ++ x :: b.
Proof.
  intros A f a x b Hx. induction a as [|y a IH]; cbn [app dropWhile].
  - now rewrite Hx.
  - destruct (f y); [exact IH | reflexivity].
Qed.

Lemma chars_trim :
  forall s,
    chars (trim s)
    = rev (dropWhile isSpace (rev (dropWhile isSpace (chars s)))).
Proof.
  intros s. unfold trim, chars, str.
  apply list_ascii_of_string_of_list_ascii.
Qed.

(** Trimming a text that starts with a character that is not white space
    removes nothing up to its last such character. *)
Lemma chars_trim_prefix :
  forall s c0 pre x r,
    chars s = (c0 :: pre) ++ x :: r ->
    isSpace c0 = false -> isSpace x = false ->
    chars (trim s)
    = (c0 :: pre) ++ x :: rev (dropWhile isSpace (rev r)).
Proof.
  intros s c0 pre x r E H0 Hx. rewrite chars_trim, E.
  cbn [app dropWhile]. rewrite H0.
  change (c0 :: pre ++ x :: r) with ((c0 :: pre) ++ x :: r).
  rewrite rev_app_distr. cbn [rev]. rewrite <- app_assoc. cbn [app].
  rewrite dropWhile_stop by exact Hx.
  rewrite rev_app_distr. cbn [rev]. rewrite rev_app_distr, rev_involutive.
  cbn [rev app]. rewrite <- app_assoc. reflexivity.
Qed.

Lemma chars_trim_identifier :
  forall s c0 cs,
    chars s = c0 :: cs ->
    isIdentStart c0 = true -> forallb isIdentPart cs = true ->
    chars (trim s) = c0 :: cs.
Proof.
  intros s c0 cs E H0 Hcs.
  assert (Hs0 : isSpace c0 = false)
    by (apply identPart_facts, identPart_facts, H0).
  destruct cs as [|c1 cs'].
  - rewrite chars_trim, E. cbn [dropWhile rev app]. rewrite Hs0.
    cbn [dropWhile rev app]. now rewrite Hs0.
  - destruct (@exists_last _ (c1 :: cs') ltac:(discriminate))
      as (pre & x & Ex).
    rewrite Ex in E, Hcs |- *.
    rewrite forallb_app in Hcs. apply andb_prop in Hcs as [_ Hx].
    cbn [forallb] in Hx. apply andb_prop in Hx as [Hx _].
    rewrite (@chars_trim_prefix s c0 pre x []); auto.
    now apply identPart_facts.
Qed.

(** The base name of an identifier, an indexed identifier or a property
    path is the identifier it starts with. *)
Lemma extractBaseVariableName_identifier :
  forall name suffix,
    isIdentifierName (chars name) = true ->
    suffix = EmptyString \/ startsWith "." suffix = true
    \/ startsWith "[" suffix = true ->
    extractBaseVariableName (name ++ suffix) = Some name.
Proof.
  intros name suffix Hname Hsuffix.
  destruct (chars name) as [|c0 cs] eqn:En; [discriminate|].
  cbn [isIdentifierName] in Hname. apply andb_prop in Hname as [H0 Hcs].
  assert (Hs0 : isSpace c0 = false)
    by (apply identPart_facts, identPart_facts, H0).
  assert (Hn : str (c0 :: cs) = name) by (rewrite <- En; apply str_chars).
  unfold extractBaseVariableName, reArrayAccess, rePropertyAccess.
  cbn [seq]. rewrite !exec_anchored.
  change (Seq Bol (Seq (Grp 1 reIdent) (Lit "[")))
    with (seq [Bol; Grp 1 reIdent; Lit (String "["%char EmptyString)]).
  change (Seq Bol (Seq (Grp 1 reIdent) (Lit ".")))
    with (seq [Bol; Grp 1 reIdent; Lit (String "."%char EmptyString)]).
  destruct Hsuffix as [-> | [Hdot | Hbr]].
  - assert (Et : chars (trim (name ++ EmptyString)) = c0 :: cs ++ []).
    { rewrite app_nil_r. apply chars_trim_identifier; auto.
      rewrite chars_append, En. apply app_nil_r. }
    rewrite Et, !access_fails by (auto; exact I).
    rewrite app_nil_r in Et.
    replace (trim (name ++ EmptyString)) with (str (c0 :: cs))
      by (rewrite <- Et; apply str_chars).
    rewrite simple_matches by auto. now rewrite Hn.
  - unfold startsWith in Hdot. cbn [chars list_ascii_of_string] in Hdot.
    fold (chars suffix) in Hdot.
    destruct (chars suffix) as [|d r] eqn:Es; [discriminate|].
    cbn [stripPrefix] in Hdot.
    destruct (Ascii.eqb_spec "."%char d) as [<-|]; [|discriminate].
    assert (Et : chars (trim (name ++ suffix))
                 = c0 :: cs ++ "."%char
                      :: rev (dropWhile isSpace (rev r))).
    { apply (@chars_trim_prefix _ c0 cs "."%char r); auto.
      now rewrite chars_append, En, Es. }
    rewrite Et. rewrite access_fails by (auto; split; reflexivity).
    rewrite access_matches by auto.
    cbv beta iota delta [group groups dget Nat.eqb option_map].
    now rewrite Hn.
  - unfold startsWith in Hbr. cbn [chars list_ascii_of_string] in Hbr.
    fold (chars suffix) in Hbr.
    destruct (chars suffix) as [|d r] eqn:Es; [discriminate|].
    cbn [stripPrefix] in Hbr.
    destruct (Ascii.eqb_spec "["%char d) as [<-|]; [|discriminate].
    assert (Et : chars (trim (name ++ suffix))
                 = c0 :: cs ++ "["%char
                      :: rev (dropWhile isSpace (rev r))).
    { apply (@chars_trim_prefix _ c0 cs "["%char r); auto.
      now rewrite chars_append, En, Es. }
    rewrite Et. rewrite access_matches by auto.
    cbv beta iota delta [group groups dget Nat.eqb option_map].
    now rewrite Hn.
Qed.

Lemma starLoop_sound :
  forall (p : ascii -> bool) (k : Cont) c x fuel prev s,
    starLoop (m (Chr p)) k fuel prev s c = Some x ->
    exists cs t prev',
      s = cs ++ t /\ forallb p cs = true /\ k prev' t c = Some x.
Proof.
  intros p k c x. remember (m (Chr p)) as ma eqn:Hma.
  assert (Hstep : forall prev s c k',
             ma prev s c k'
             = match s with
               | y :: s' => if p y then k' (Some y) s' c else None
               | [] => None
               end) by (intros; subst ma; reflexivity).
  clear Hma.
  induction fuel as [|f IH]; intros prev s H; cbn [starLoop] in H.
  - exists [], s, prev. auto.
  - rewrite Hstep in H. destruct s as [|y s'].
    + exists [], [], prev. auto.
    + destruct (p y) eqn:Hy.
      * destruct (length s' <? length (y :: s'))%nat.
        -- destruct (starLoop ma k f (Some y) s' c) as [z|] eqn:Hz.
           ++ injection H as <-. destruct (IH _ _ Hz) as (cs & t & q & E & Hcs & Hk).
              exists (y :: cs), t, q. subst s'. cbn [forallb app].
              rewrite Hy. auto.
           ++ exists [], (y :: s'), prev. auto.
        -- exists [], (y :: s'), prev. auto.
      * exists [], (y :: s'), prev. auto.
Qed.

Lemma access_inv :
  forall (d : ascii) s s' c,
    matchAt (seq [Bol; Grp 1 reIdent; Lit (String d EmptyString)]) None s
    = Some (s', c) ->
    exists name,
      isIdentifierName name = true /\ s = name ++ d :: s'
      /\ c = [(1%nat, name)].
Proof.
  intros d s s' c. unfold matchAt, reIdent. cbn [seq m].
  destruct s as [|c0 s1]; [discriminate|].
  destruct (isIdentStart c0) eqn:H0; [|discriminate].
  intros H. apply (starLoop_sound isIdentPart) in H.
  destruct H as (cs & t & _ & E & Hcs & Hk).
  cbn [chars list_ascii_of_string stripPrefix] in Hk.
  destruct t as [|y t']; [discriminate|].
  destruct (Ascii.eqb_spec d y) as [<-|]; [|discriminate].
  injection Hk as <- <-. subst s1.
  exists (c0 :: cs). cbn [isIdentifierName]. rewrite H0, Hcs.
  split; [reflexivity|]. split; [reflexivity|].
  cbn [dset]. do 2 f_equal.
  change (c0 :: cs ++ d :: t') with ((c0 :: cs) ++ d :: t').
  apply firstn_exactly. rewrite length_app. cbn [length]. lia.
Qed.

Lemma simple_inv :
  forall s, test reSimpleVariable s = true -> isIdentifierName (chars s) = true.
Proof.
  intros s. unfold test, reSimpleVariable. cbn [seq]. rewrite exec_anchored.
  destruct (matchAt _ _ _) as [[s' c]|] eqn:H; [intros _|discriminate].
  revert H. unfold matchAt, reIdent. cbn [m].
  destruct (chars s) as [|c0 s1]; [discriminate|].
  destruct (isIdentStart c0) eqn:H0; [|discriminate].
  intros H. apply (starLoop_sound isIdentPart) in H.
  destruct H as (cs & t & _ & E & Hcs & Hk).
  destruct t; [|discriminate]. rewrite app_nil_r in E. subst s1.
  cbn [isIdentifierName]. now rewrite H0, Hcs.
Qed.

(** Conversely, a base name is found only for a text that, once trimmed,
    is an identifier, possibly followed by an opening bracket or a dot,
    and the base name is that identifier. *)
Lemma extractBaseVariableName_inv :
  forall expression base,
    extractBaseVariableName expression = Some base ->
    isIdentifierName (chars base) = true
    /\ exists suffix,
        trim expression = (base ++ suffix)%string
        /\ (suffix = EmptyString \/ startsWith "." suffix = true
            \/ startsWith "[" suffix = true).
Proof.
  intros expression base.
  unfold extractBaseVariableName, reArrayAccess, rePropertyAccess.
  cbn [seq]. rewrite !exec_anchored.
  change (Seq Bol (Seq (Grp 1 reIdent) (Lit "[")))
    with (seq [Bol; Grp 1 reIdent; Lit (String "["%char EmptyString)]).
  change (Seq Bol (Seq (Grp 1 reIdent) (Lit ".")))
    with (seq [Bol; Grp 1 reIdent; Lit (String "."%char EmptyString)]).
  assert (Hfound :
            forall d s' c,
              matchAt (seq [Bol; Grp 1 reIdent; Lit (String d EmptyString)])
                None (chars (trim expression)) = Some (s', c) ->
              option_map str (dget Nat.eqb 1%nat c) = Some base ->
              isIdentifierName (chars base) = true
              /\ trim expression = (base ++ String d (str s'))%string).
  { intros d s' c Hm Hg. apply access_inv in Hm.
    destruct Hm as (name & Hname & E & ->).
    cbn [dget Nat.eqb option_map] in Hg. injection Hg as <-.
    unfold chars at 1, str at 1.
    rewrite list_ascii_of_string_of_list_ascii. split; [exact Hname|].
    rewrite <- (str_chars (trim expression)), E.
    rewrite <- (str_chars (str name ++ String d (str s'))).
    rewrite chars_append. cbn [chars list_ascii_of_string].
    unfold chars, str. now rewrite !list_ascii_of_string_of_list_ascii. }
  destruct (matchAt (seq [Bol; Grp 1 reIdent; Lit "["]) None
              (chars (trim expression))) as [[s1 c1]|] eqn:Ha.
  - intros Hg. destruct (Hfound _ _ _ Ha Hg) as [Hn Ht].
    split; [exact Hn|]. eexists. split; [exact Ht|]. right. right.
    reflexivity.
  - destruct (matchAt (seq [Bol; Grp 1 reIdent; Lit "."]) None
                (chars (trim expression))) as [[s2 c2]|] eqn:Hp.
    + intros Hg. destruct (Hfound _ _ _ Hp Hg) as [Hn Ht].
      split; [exact Hn|]. eexists. split; [exact Ht|]. right. left.
      reflexivity.
    + destruct (test reSimpleVariable (trim expression)) eqn:Hs;
        [|discriminate].
      intros H. injection H as <-. split; [now apply simple_inv|].
      exists EmptyString. split; [|now left].
      rewrite <- (str_chars (trim expression ++ EmptyString)), chars_append.
      cbn [chars list_ascii_of_string]. rewrite app_nil_r.
      symmetry. apply str_chars.
Qed.

Lemma findVariableIdByName_visible :
  forall name line sm,
    match findVariableIdByName name line sm with
    | Some id => exists v, visibleNamed sm line name v /\ varId v = id
    | None => forall v, ~ visibleNamed sm line name v
    end.
Proof.
  intros name line sm. unfold findVariableIdByName.
  destruct (find _ _) as [v|] eqn:F; cbn [option_map].
  - apply find_some in F as [Hin Hp]. exists v. split; [|reflexivity].
    apply in_flat_map in Hin as (a & Ha & Hv).
    apply in_flat_map in Ha as (s & Hs & Ha).
    apply filter_In in Hs as [Hs Hc].
    apply andb_prop in Hp as [Hn Hd]. apply String.eqb_eq in Hn.
    split; [exists s, a; auto|]. split; [exact Hn|].
    destruct (firstDeclLine v) as [d|]; [|discriminate].
    exists d. split; [reflexivity | now apply Z.leb_le].
  - intros v ((s & a & Hs & Hc & Ha & Hv) & Hn & d & Hd & Hle).
    assert (Hin : In v (flat_map scopeVariables
                          (flat_map scopeChain
                             (filter (scopeContainsLine line) sm)))).
    { apply in_flat_map. exists a. split; [|exact Hv].
      apply in_flat_map. exists s. split; [|exact Ha].
      apply filter_In. auto. }
    pose proof (find_none _ _ F v Hin) as Hp. cbn beta in Hp.
    rewrite Hd, Hn, String.eqb_refl in Hp. cbn [andb] in Hp.
    apply Z.leb_le in Hle. congruence.
Qed.

(** C4.  The value of a constructor property whose key is an identifier
    is classified as follows, the value kept being the source text of the
    expression unless said otherwise.  A non-null assertion on a member
    expression whose text starts with [process.env.] is tagged env; a
    member expression or an optional chain is tagged env when its own
    text starts with [process.env.] and variable otherwise; an identifier
    is tagged variable; a string literal is tagged string with the
    literal's value; a number or boolean literal is tagged number or
    boolean; a template literal is tagged string; array and object
    literals are tagged array and object; a node of any other kind than
    these is tagged expression.  Afterwards a parameter tagged variable
    whose value is an identifier, alone or followed by a dot or an opening
    bracket, gets the id of the first variable of that name that is
    accessible at the line of the bubble and declared on that line or
    before, if there is one; every other parameter is left as it is. *)
Theorem parameters_classified :
  forall (script : string) (contextNode : Node) (scopes : ScopeManager),
    let textOf := sourceText script in
    let classify := extractParameterValue script in
    let resolve :=
      fun params =>
        addVariableReferencesToParameters params contextNode scopes in
    let envOrVariable :=
      fun e =>
        (textOf e,
         if startsWith "process.env." (textOf e) then ENV else VARIABLE) in
    (forall i ki name ty value computed,
        (forall j l r, value <> AssignmentPattern j l r) ->
        parametersOfProperty script
          (Property i (Identifier ki name ty) value computed)
        = [mkParam name (fst (classify value)) (snd (classify value)) None
             (locOf value) "object-property"])
    /\ (forall e, nonNullEnv script e = true -> classify e = (textOf e, ENV))
    /\ (forall i obj prop computed optional,
           classify (MemberExpression i obj prop computed optional)
           = envOrVariable (MemberExpression i obj prop computed optional))
    /\ (forall i inner,
           classify (ChainExpression i inner)
           = envOrVariable (ChainExpression i inner))
    /\ (forall i name ty,
           classify (Identifier i name ty)
           = (textOf (Identifier i name ty), VARIABLE))
    /\ (forall i s, classify (Literal i (LStr s)) = (s, STRING))
    /\ (forall i n,
           classify (Literal i (LNum n))
           = (textOf (Literal i (LNum n)), NUMBER))
    /\ (forall i b,
           classify (Literal i (LBool b))
           = (textOf (Literal i (LBool b)), BOOLEAN))
    /\ (forall i quasis es,
           classify (TemplateLiteral i quasis es)
           = (textOf (TemplateLiteral i quasis es), STRING))
    /\ (forall i elements,
           classify (ArrayExpression i elements)
           = (textOf (ArrayExpression i elements), ARRAY))
    /\ (forall i props,
           classify (ObjectExpression i props)
           = (textOf (ObjectExpression i props), OBJECT))
    /\ (forall e,
           existsb (String.eqb (nodeType e))
             ("ChainExpression" :: simpleTypes) = false ->
           nonNullEnv script e = false ->
           classify e = (textOf e, EXPRESSION))
    /\ (forall params n p,
           nth_error params n = Some p ->
           (paramType p <> VARIABLE ->
            nth_error (resolve params) n = Some p)
           /\ (forall name suffix,
                  paramType p = VARIABLE ->
                  paramValue p = (name ++ suffix)%string ->
                  isIdentifierName (chars name) = true ->
                  isAccessSuffix suffix ->
                  nth_error (resolve params) n
                  = Some match findVariableIdByName name
                                 (startLineOf contextNode) scopes with
                         | Some id => withParamVariableId p id
                         | None => p
                         end)
           /\ (paramType p = VARIABLE ->
               (forall name suffix,
                   trim (paramValue p) = (name ++ suffix)%string ->
                   isIdentifierName (chars name) = true ->
                   ~ isAccessSuffix suffix) ->
               nth_error (resolve params) n = Some p))
    /\ (forall name line,
           match findVariableIdByName name line scopes with
           | Some id =>
               exists v, visibleNamed scopes line name v /\ varId v = id
           | None => forall v, ~ visibleNamed scopes line name v
           end).
Proof.
  intros script contextNode scopes textOf classify resolve envOrVariable.
  split.
  { intros i ki name ty value computed Hv. unfold parametersOfProperty.
    fold classify. destruct (classify value) as [v t].
    destruct value; try reflexivity. now contradiction (Hv i0 value1 value2). }
  split.
  { intros e He. destruct e; try discriminate.
    destruct e; try discriminate.
    unfold classify, extractParameterValue. cbn [nonNullEnv] in He.
    now rewrite He. }
  split.
  { intros i obj prop computed optional.
    unfold classify, envOrVariable, extractParameterValue, isProcessEnv.
    fold textOf. now destruct (startsWith _ _). }
  split.
  { intros i inner.
    unfold classify, envOrVariable, extractParameterValue, isProcessEnv.
    fold textOf. now destruct (startsWith _ _). }
  do 7 (split; [reflexivity|]).
  split.
  { intros e He Hn. unfold classify, extractParameterValue.
    destruct e; try discriminate He; try reflexivity.
    - destruct e; try reflexivity; try (cbn [nonNullEnv] in Hn; now rewrite Hn).
    - cbn [nodeType existsb] in He. apply orb_false_elim in He as [_ He].
      cbn [nodeType]. now rewrite He. }
  split.
  { intros params n p Hp. unfold resolve, addVariableReferencesToParameters.
    rewrite nth_error_map, Hp. cbn [option_map].
    split; [|split].
    - intros Ht. destruct (paramType p); try reflexivity. congruence.
    - intros name suffix Ht Hv Hname Hsuffix. rewrite Ht, Hv.
      now rewrite extractBaseVariableName_identifier.
    - intros Ht Hform. rewrite Ht.
      destruct (extractBaseVariableName (paramValue p)) as [base|] eqn:Hb;
        [|reflexivity].
      apply extractBaseVariableName_inv in Hb.
      destruct Hb as (Hname & suffix & Htrim & Hsuffix).
      now contradiction (Hform base suffix). }
  intros name line. apply findVariableIdByName_visible.
Qed.

Lemma parameters_classified_witness :
  extractParameterValue paramText paramConditional
  = ("cond ? 1 : 2", EXPRESSION)
  /\ nth_error
       (addVariableReferencesToParameters
          [mkParam "e" "items[0]" VARIABLE None (locOf paramIndexed)
             "object-property"]
          paramNew paramScopes) 0
     = Some (mkParam "e" "items[0]" VARIABLE (Some 6%Z) (locOf paramIndexed)
               "object-property").
Proof.
  destruct (parameters_classified paramText paramNew paramScopes)
    as (_ & _ & _ & _ & _ & _ & _ & _ & _ & _ & _ & Hexpr & Hres & _).
  split.
  - rewrite (Hexpr paramConditional); reflexivity.
  - destruct (Hres [mkParam "e" "items[0]" VARIABLE None (locOf paramIndexed)
                      "object-property"] 0%nat _ eq_refl) as (_ & H & _).
    rewrite (H "items" "[0]"); try reflexivity.
    right. right. reflexivity.
Defined.

(** C4 as stated fails: the optional chain [process.env?.KEY] is an
    optional chain on [process.env], and it is tagged variable. *)
Lemma parameters_classified_counterexample :
  onProcessEnv paramOptionalEnv = true
  /\ extractParameterValue paramText paramOptionalEnv
     = ("process.env?.KEY", VARIABLE)
  /\ ~ (forall script e,
          onProcessEnv e = true ->
          snd (extractParameterValue script e) = ENV).
Proof.
  split; [reflexivity|]. split; [reflexivity|].
  intros H. specialize (H paramText paramOptionalEnv eq_refl). discriminate.
Qed.

(** The parameters of the sample bubble, as the parser returns them. *)
Example parameters_example :
  map (fun p => (paramName p, paramValue p, paramType p, paramVariableId p))
    paramParameters
  = [("a", "process.env.KEY", ENV, None);
     ("b", "someVar", VARIABLE, Some 5%Z);
     ("c", "literal", STRING, None);
     ("d", "cond ? 1 : 2", EXPRESSION, None);
     ("e", "items[0]", VARIABLE, Some 6%Z);
     ("f", "process.env?.KEY", VARIABLE, None)]
  /\ extractBaseVariableName "result.data" = Some "result"
  /\ extractBaseVariableName "prompts[i]" = Some "prompts"
  /\ extractBaseVariableName "myVar" = Some "myVar"
  /\ extractBaseVariableName "a?.b" = None.
Proof. vm_compute. repeat split. Qed.

(** ** C7: schema defaults *)



Lemma skeys_dset_present :
  forall V (d : list (string * V)) k v v0,
    dget String.eqb k d = Some v0 -> keys (dset String.eqb k v d) = keys d.
Proof.
  induction d as [|[k0 w] d IH]; intros k v v0 H; cbn [dset dget] in *;
    [discriminate|].
  destruct (String.eqb_spec k k0) as [->|]; [reflexivity|].
  cbn [keys map fst]. f_equal. eapply IH; eassumption.
Qed.

Lemma skeys_dset_fresh :
  forall V (d : list (string * V)) k v,
    dget String.eqb k d = None -> keys (dset String.eqb k v d) = keys d ++ [k].
Proof.
  induction d as [|[k0 w] d IH]; intros k v H; cbn [dset dget] in *;
    [reflexivity|].
  destruct (String.eqb k k0); [discriminate|].
  cbn [keys map fst app]. f_equal. now apply IH.
Qed.

Lemma sdget_In :
  forall V (d : list (string * V)) k v,
    dget String.eqb k d = Some v -> In (k, v) d.
Proof.
  induction d as [|[k0 w] d IH]; intros k v H; cbn [dget] in H;
    [discriminate|].
  destruct (String.eqb_spec k k0) as [->|].
  - injection H as ->. now left.
  - right. now apply IH.
Qed.

Lemma sdget_key :
  forall V (d : list (string * V)) k,
    dget String.eqb k d = None -> ~ In k (keys d).
Proof.
  induction d as [|[k0 w] d IH]; intros k H; cbn [dget] in H; [tauto|].
  destruct (String.eqb_spec k k0); [discriminate|].
  cbn [keys map fst In]. intros [E|E]; [congruence|]. now apply (IH k).
Qed.

























Lemma isStaticDefault_evaluates :
  forall e, isStaticDefault e = true ->
            exists d, evaluateDefaultExpressionToJSON e = Some d.
Proof.
  intros e H. destruct e; try discriminate; cbn [isStaticDefault] in H;
    cbn [evaluateDefaultExpressionToJSON].
  - eauto.
  - destruct expressions; [eauto | discriminate].
  - assert (Hl : exists out,
               fold_right
                 (fun el acc =>
                    match el, acc with
                    | Some (Literal _ v), Some out => Some (litToJSON v :: out)
                    | _, _ => None
                    end) (Some []) elements = Some out).
    { induction elements as [|el els IHl]; cbn [fold_right]; [eauto|].
      cbn [forallb] in H. apply andb_prop in H as [Hel Hels].
      destruct (IHl Hels) as [out ->].
      destruct el as [[]|]; try discriminate. eauto. }
    destruct Hl as [out ->]. cbn [option_map]. eauto.
  - assert (Hl : forall acc, exists obj,
               fold_left
                 (fun acc p =>
                    match acc, p with
                    | Some obj, Property _ key (Literal _ v) _ =>
                        match nodeKeyName key with
                        | Some pk =>
                            Some (jsAssign pk (litToJSON v) obj)
                        | None => None
                        end
                    | _, _ => None
                    end) properties (Some acc) = Some obj).
    { induction properties as [|p ps IHl]; intros acc; cbn [fold_left];
        [eauto|].
      cbn [forallb] in H. apply andb_prop in H as [Hp Hps].
      destruct p; try discriminate. destruct p2; try discriminate.
      destruct (nodeKeyName p1); [|discriminate]. now apply IHl. }
    destruct (Hl []) as [obj ->]. cbn [option_map]. eauto.
  - destruct e; try discriminate. destruct value; try discriminate.
    apply orb_prop in H as [->| H]; [eauto|].
    rewrite H. destruct (String.eqb operator "-"); eauto.
Qed.




(** The schema of the sample: the three evaluable defaults are attached,
    the call is not. *)
Example schema_defaults_example :
  defaultsSchema
  = Ok (Some
          (JObj
             [("type", JStr "object");
              ("properties",
               JObj
                 [("industry",
                   JObj [("type", JStr "string");
                         ("default", JStr "general")]);
                  ("subreddits",
                   JObj [("type", JStr "array");
                         ("items", JObj [("type", JStr "string")]);
                         ("default", JArr [JStr "a"; JStr "b"])]);
                  ("limit",
                   JObj [("type", JStr "number"); ("default", JNum (-5))]);
                  ("since", JObj [("type", JStr "string")])])])).
Proof. vm_compute. reflexivity. Qed.

(** ** Further properties of the script object *)

Lemma split_join :
  forall l, l <> [] -> Forall noNewline l -> split_nl (join NL l) = l.
Proof.
  induction l as [|x l IH]; intros Hne Hl; [congruence|].
  inversion Hl as [|? ? Hx Hl']; subst.
  destruct l as [|y r].
  - cbn [join]. now apply split_nl_single.
  - rewrite join_cons2, split_nl_line_then by assumption.
    f_equal. apply IH; [discriminate | assumption].
Qed.

Lemma split_nl_all_noNewline : forall s, Forall noNewline (split_nl s).
Proof.
  intros s. apply Forall_forall. intros l Hl.
  now apply split_nl_lines_noNewline with (s := s).
Qed.

Lemma spliced_lines :
  forall (old lines : list string) i,
    old <> [] -> Forall noNewline old -> Forall noNewline lines ->
    split_nl (join NL (firstn i old ++ lines ++ skipn i old))
    = firstn i old ++ lines ++ skipn i old.
Proof.
  intros old lines i Hne Hold Hlines. apply split_join.
  - intros H. apply (f_equal (@length string)) in H.
    rewrite !length_app, length_firstn, length_skipn in H. cbn [length] in H.
    destruct old; [congruence|]. cbn [length] in H. lia.
  - apply Forall_app. split; [|apply Forall_app; split; [exact Hlines|]].
    + apply Forall_forall. intros x Hx.
      apply (proj1 (Forall_forall _ _) Hold).
      rewrite <- (firstn_skipn i). apply in_or_app. now left.
    + apply Forall_forall. intros x Hx.
      apply (proj1 (Forall_forall _ _) Hold).
      rewrite <- (firstn_skipn i). apply in_or_app. now right.
Qed.

(** A successful [injectLines] of lines without line feeds puts them
    before line [n]: the lines before [n] are as they were, the injected
    lines follow, then the old lines from [n] on; the number of lines
    grows by the number of injected lines. *)
Theorem injectLines_splices :
  forall (this : BubbleScript) (lines : list string) (n : Z)
         (text : string) (this' : BubbleScript),
    Forall noNewline lines ->
    injectLines this lines n = (Ok text, this') ->
    let old := split_nl (currentBubbleScript this) in
    let i := Z.to_nat (n - 1) in
    (1 <= n <= scriptLineCount this + 1)%Z
    /\ currentBubbleScript this' = text
    /\ split_nl text = firstn i old ++ lines ++ skipn i old
    /\ scriptLineCount this'
       = (scriptLineCount this + Z.of_nat (length lines))%Z.
Proof.
  intros this lines n text this' Hlines. unfold injectLines, scriptLineCount.
  destruct (n <? 1)%Z eqn:E1; [discriminate|]. apply Z.ltb_ge in E1.
  destruct (_ <? _)%nat eqn:E2; [discriminate|]. apply Nat.ltb_ge in E2.
  intros H. injection H as <- <-. cbn zeta.
  pose proof (spliced_lines (Z.to_nat (n - 1))
                (@split_nl_nonempty (currentBubbleScript this))
                (split_nl_all_noNewline (currentBubbleScript this)) Hlines)
    as Hs.
  split; [lia|]. split; [reflexivity|]. split; [exact Hs|].
  cbn [currentBubbleScript setCurrentBubbleScript]. rewrite Hs.
  rewrite !length_app, length_firstn, length_skipn. lia.
Qed.

Lemma injectLines_splices_witness :
  split_nl (currentBubbleScript
              (snd (injectLines threeLinesScript ["x"; "y"] 2)))
  = firstn 1 (split_nl threeLines) ++ ["x"; "y"]
    ++ skipn 1 (split_nl threeLines).
Proof.
  assert (Hl : Forall noNewline ["x"; "y"]).
  { repeat (apply Forall_cons;
              [intros H; vm_compute in H; destruct H as [H|H];
               [discriminate H | exact H]|]).
    apply Forall_nil. }
  destruct (@injectLines_splices threeLinesScript ["x"; "y"] 2 _ _ Hl
              eq_refl) as (_ & Ht & Hs & _).
  exact Hs.
Defined.

Lemma setCurrentBubbleScript_twice :
  forall this a b,
    setCurrentBubbleScript (setCurrentBubbleScript this a) b
    = setCurrentBubbleScript this b.
Proof. reflexivity. Qed.

(** Two injections in a row, the second just after the lines of the
    first, are one injection of all the lines. *)
Theorem injectLines_compose :
  forall (this : BubbleScript) (first second : list string) (n : Z)
         (text : string) (this' : BubbleScript),
    Forall noNewline first ->
    injectLines this first n = (Ok text, this') ->
    injectLines this' second (n + Z.of_nat (length first))
    = injectLines this (first ++ second) n.
Proof.
  intros this first second n text this' Hfirst. unfold injectLines.
  destruct (n <? 1)%Z eqn:E1; [discriminate|]. apply Z.ltb_ge in E1.
  destruct (_ <? _)%nat eqn:E2; [discriminate|]. apply Nat.ltb_ge in E2.
  intros H. injection H as <- <-.
  cbn [currentBubbleScript setCurrentBubbleScript].
  rewrite (spliced_lines (Z.to_nat (n - 1))
             (@split_nl_nonempty (currentBubbleScript this))
             (split_nl_all_noNewline (currentBubbleScript this)) Hfirst).
  set (old := split_nl (currentBubbleScript this)) in *.
  set (i := Z.to_nat (n - 1)) in *.
  replace (n + Z.of_nat (length first) <? 1)%Z with false
    by (symmetry; apply Z.ltb_ge; lia).
  replace (Z.to_nat (n + Z.of_nat (length first) - 1))
    with (length (firstn i old ++ first))
    by (rewrite length_app, length_firstn; unfold i; lia).
  replace (length (firstn i old ++ first ++ skipn i old)
           <? length (firstn i old ++ first))%nat with false
    by (symmetry; apply Nat.ltb_ge; rewrite !length_app; lia).
  rewrite (app_assoc (firstn i old) first (skipn i old)).
  rewrite firstn_app, firstn_all, Nat.sub_diag. cbn [firstn].
  rewrite skipn_app, skipn_all, Nat.sub_diag. cbn [skipn app].
  rewrite app_nil_r, <- !app_assoc. reflexivity.
Qed.

Lemma injectLines_compose_witness :
  injectLines (snd (injectLines threeLinesScript ["x"] 2)) ["y"] 3
  = injectLines threeLinesScript ["x"; "y"] 2.
Proof.
  apply (@injectLines_compose threeLinesScript ["x"] ["y"] 2
           (match fst (injectLines threeLinesScript ["x"] 2) with
            | Ok t => t
            | Throw m => m
            end)).
  - apply Forall_cons; [|apply Forall_nil].
    intros H; vm_compute in H; destruct H as [H|H];
      [discriminate H | exact H].
  - reflexivity.
Defined.

(** Neither mutation re-parses: whatever it returns, the script object
    differs from the one it was called on in the current buffer at most,
    so the tree, the bubbles and the variable tables still describe the
    old text, and [resetBubbleScript] brings back the text the object was
    built from. *)
Theorem mutations_touch_only_the_buffer :
  forall (this this' : BubbleScript) (r : Result string),
    (exists lines n, injectLines this lines n = (r, this'))
    \/ (exists id v, reassignVariable this id v = (r, this')) ->
    setCurrentBubbleScript this' (currentBubbleScript this) = this
    /\ parsedBubbles this' = parsedBubbles this
    /\ ast this' = ast this
    /\ resetBubbleScript this' = resetBubbleScript this.
Proof.
  intros this this' r H.
  assert (E : this' = this
              \/ exists t, this' = setCurrentBubbleScript this t).
  { destruct H as [(lines & n & H)|(id & v & H)].
    - unfold injectLines in H.
      destruct (n <? 1)%Z; [injection H as _ <-; now left|].
      destruct (_ <? _)%nat; injection H as _ <-; [now left|].
      right. eauto.
    - unfold reassignVariable in H.
      destruct (dget Z.eqb id (scriptVariables this));
        [|injection H as _ <-; now left].
      destruct (dget Z.eqb id (variableLocations this));
        [|injection H as _ <-; now left].
      destruct (lineAt _ _);
        repeat match type of H with
               | context [if ?b then _ else _] => destruct b
               end;
        injection H as _ <-; eauto. }
  destruct this.
  destruct E as [->|[t ->]]; repeat split; reflexivity.
Qed.

Lemma mutations_touch_only_the_buffer_witness :
  resetBubbleScript (snd (injectLines threeLinesScript ["x"] 2))
  = resetBubbleScript threeLinesScript.
Proof.
  apply (@mutations_touch_only_the_buffer threeLinesScript _
           (fst (injectLines threeLinesScript ["x"] 2))).
  left. exists ["x"], 2%Z. reflexivity.
Defined.

Lemma NoDup_map_filter :
  forall A B (f : A -> B) (p : A -> bool) l,
    NoDup (map f l) -> NoDup (map f (filter p l)).
Proof.
  intros A B f p l. induction l as [|a l IH]; cbn [map filter]; intros H;
    [constructor|].
  apply NoDup_cons_iff in H as [Ha Hl].
  destruct (p a); [|now apply IH].
  cbn [map]. constructor; [|now apply IH].
  intros Hin. apply Ha. apply in_map_iff in Hin as (x & Hx & Hin).
  apply in_map_iff. exists x. split; [exact Hx|].
  now apply filter_In in Hin.
Qed.

Lemma setAdd_NoDup :
  forall s v, NoDup (map varId s) -> NoDup (map varId (setAdd s v)).
Proof.
  intros s v H. unfold setAdd.
  destruct (existsb _ s) eqn:E; [exact H|].
  rewrite map_app. cbn [map]. apply NoDup_app; [exact H | | ].
  - constructor; [intros []|constructor].
  - intros x Hx [<-|[]]. apply in_map_iff in Hx as (w & Hw & Hin).
    assert (Ht : existsb (fun w => (varId w =? varId v)%Z) s = true).
    { apply existsb_exists. exists w. split; [exact Hin|].
      now apply Z.eqb_eq. }
    congruence.
Qed.

Lemma fold_setAdd_NoDup :
  forall l acc,
    NoDup (map varId acc) -> NoDup (map varId (fold_left setAdd l acc)).
Proof.
  induction l as [|v l IH]; cbn [fold_left]; intros acc H; [exact H|].
  apply IH. now apply setAdd_NoDup.
Qed.

(** In a scope graph whose variables have distinct ids, so that the ids
    tell the variable objects apart, [getVarsForLine] returns every
    variable once: a variable reached through several containing scopes
    or through several scope chains appears a single time, and no two
    returned variables share an id. *)
Theorem getVarsForLine_distinct :
  forall (sm : ScopeManager) (line : Z),
    uniqueIds sm ->
    NoDup (getVarsForLine sm line)
    /\ NoDup (map varId (getVarsForLine sm line)).
Proof.
  intros sm line _.
  assert (H : NoDup (map varId (getVarsForLine sm line))).
  { unfold getVarsForLine. do 2 apply NoDup_map_filter.
    rewrite fold_scopes_flat. apply fold_setAdd_NoDup. constructor. }
  split; [|exact H]. eapply NoDup_map_inv. exact H.
Qed.

Lemma getVarsForLine_distinct_witness :
  NoDup (getVarsForLine loopScopes 6)
  /\ NoDup (map varId (getVarsForLine loopScopes 6)).
Proof.
  apply (@getVarsForLine_distinct loopScopes 6). exact loopScopes_uniqueIds.
Defined.

Lemma compareScopes_le :
  forall a b, (compareScopes a b <= 0)%Z <-> moreSpecific a b.
Proof.
  intros a b. unfold compareScopes, moreSpecific.
  destruct (scopeRange a =? scopeRange b)%Z eqn:E; cbn [negb].
  - apply Z.eqb_eq in E. lia.
  - apply Z.eqb_neq in E. lia.
Qed.

Lemma moreSpecific_trans :
  forall a b c, moreSpecific a b -> moreSpecific b c -> moreSpecific a c.
Proof. unfold moreSpecific. intros a b c H1 H2. lia. Qed.

Lemma moreSpecific_total :
  forall a b, moreSpecific a b \/ moreSpecific b a.
Proof. unfold moreSpecific. intros a b. lia. Qed.

Lemma insertSorted_sorted :
  forall a l,
    StronglySorted moreSpecific l ->
    StronglySorted moreSpecific (insertSorted compareScopes a l).
Proof.
  intros a l H. induction H as [|b r Hr IH Hb]; cbn [insertSorted].
  - repeat constructor.
  - destruct (compareScopes b a <=? 0)%Z eqn:E.
    + apply Z.leb_le, compareScopes_le in E.
      constructor; [exact IH|].
      apply Forall_forall. intros x Hx.
      apply In_insertSorted in Hx as [->|Hx]; [exact E|].
      now apply (proj1 (Forall_forall _ _) Hb).
    + apply Z.leb_gt in E.
      assert (Hab : moreSpecific a b).
      { destruct (moreSpecific_total a b) as [H|H]; [exact H|].
        apply compareScopes_le in H. lia. }
      constructor; [now constructor|].
      constructor; [exact Hab|].
      apply Forall_forall. intros x Hx.
      apply moreSpecific_trans with (b := b); [exact Hab|].
      now apply (proj1 (Forall_forall _ _) Hb).
Qed.

Lemma insertSorted_perm :
  forall A (cmp : A -> A -> Z) a l, Permutation (insertSorted cmp a l) (a :: l).
Proof.
  intros A cmp a l. induction l as [|b r IH]; cbn [insertSorted];
    [reflexivity|].
  destruct (cmp b a <=? 0)%Z; [|reflexivity].
  rewrite IH. apply perm_swap.
Qed.

Lemma sortBy_perm :
  forall A (cmp : A -> A -> Z) l, Permutation (sortBy cmp l) l.
Proof.
  intros A cmp l. unfold sortBy.
  assert (G : forall l acc,
             Permutation
               (fold_left (fun acc a => insertSorted cmp a acc) l acc)
               (acc ++ l)).
  { clear l. induction l as [|a l IH]; intros acc; cbn [fold_left].
    - now rewrite app_nil_r.
    - rewrite IH, insertSorted_perm.

      apply Permutation_middle. }
  apply (G l []).
Qed.

(** [getAllScopesContainingLine] returns the scopes whose block contains
    the line, each as often as the scope manager lists it, ordered from
    the most specific on: by number of lines, and among scopes of as many
    lines by priority (block, for, function, module, global). *)
Theorem containing_scopes_sorted :
  forall (sm : ScopeManager) (line : Z),
    Permutation (getAllScopesContainingLine sm line)
      (filter (scopeContainsLine line) sm)
    /\ StronglySorted moreSpecific (getAllScopesContainingLine sm line)
    /\ (forall first rest s,
           getAllScopesContainingLine sm line = first :: rest ->
           In s sm -> scopeContainsLine line s = true ->
           (scopeRange first <= scopeRange s)%Z).
Proof.
  intros sm line. unfold getAllScopesContainingLine.
  assert (Hsorted : forall l, StronglySorted moreSpecific
                                (sortBy compareScopes l)).
  { intros l. unfold sortBy.
    assert (G : forall l acc,
               StronglySorted moreSpecific acc ->
               StronglySorted moreSpecific
                 (fold_left (fun acc a => insertSorted compareScopes a acc)
                    l acc)).
    { clear l. induction l as [|a l IH]; intros acc Hacc; cbn [fold_left];
        [exact Hacc|].
      apply IH. now apply insertSorted_sorted. }
    apply G. constructor. }
  split; [apply sortBy_perm|]. split; [apply Hsorted|].
  intros first rest s E Hs Hc.
  assert (Hin : In s (first :: rest)).
  { rewrite <- E. apply In_sortBy. apply filter_In. auto. }
  pose proof (Hsorted (filter (scopeContainsLine line) sm)) as Hs'.
  rewrite E in Hs'. inversion Hs' as [|? ? _ Hall]; subst.
  destruct Hin as [<-|Hin]; [lia|].
  pose proof (proj1 (Forall_forall _ _) Hall s Hin) as Hm.
  unfold moreSpecific in Hm. lia.
Qed.

Lemma containing_scopes_sorted_witness :
  (scopeRange loopBlockScope <= scopeRange loopModuleScope)%Z.
Proof.
  apply (proj2 (proj2 (containing_scopes_sorted loopScopes 6))
           loopBlockScope [loopForScope; loopModuleScope; loopGlobalScope]
           loopModuleScope);
    [reflexivity | right; left; reflexivity | reflexivity].
Defined.

(** The state of the loop of [findScopeForLine] after the scopes [seen]:
    nothing found among them, or a scope of [seen] that contains the line
    and has the fewest lines of those that do. *)
Lemma findScopeForLine_loop :
  forall (sm : ScopeManager) (line : Z),
    globalScopesWidest sm ->
    forall rest seen (st : option Scope * option Z),
      incl (seen ++ rest) sm ->
      match st with
      | (None, r) =>
          r = None
          /\ forall s, In s seen -> scopeContainsLine line s = false
      | (Some t, r) =>
          r = Some (scopeRange t) /\ In t seen
          /\ scopeContainsLine line t = true
          /\ forall s, In s seen -> scopeContainsLine line s = true ->
                       (scopeRange t <= scopeRange s)%Z
      end ->
      match fold_left
              (fun (st : option Scope * option Z) scope =>
                 let '(targetScope, smallestRange) := st in
                 if scopeContainsLine line scope then
                   let range := scopeRange scope in
                   let isPreferredScope :=
                     String.eqb (scopeType scope) "module"
                     && match targetScope with
                        | Some t => String.eqb (scopeType t) "global"
                        | None => false
                        end in
                   if match smallestRange with
                      | Some r => (range <? r)%Z
                      | None => true
                      end || isPreferredScope
                   then (Some scope, Some range)
                   else st
                 else st)
              rest st with
      | (None, _) =>
          forall s, In s (seen ++ rest) -> scopeContainsLine line s = false
      | (Some t, _) =>
          In t (seen ++ rest) /\ scopeContainsLine line t = true
          /\ forall s, In s (seen ++ rest) ->
                       scopeContainsLine line s = true ->
                       (scopeRange t <= scopeRange s)%Z
      end.
Proof.
  intros sm line Hwide.
  induction rest as [|scope rest IH]; intros seen st Hincl Hst.
  - cbn [fold_left]. rewrite app_nil_r.
    destruct st as [[t|] r]; [tauto | tauto].
  - cbn [fold_left].
    replace (seen ++ scope :: rest) with ((seen ++ [scope]) ++ rest)
      in * by (rewrite <- app_assoc; reflexivity).
    apply IH; [exact Hincl|].
    assert (Hscope : In scope sm).
    { apply Hincl. apply in_or_app. left. apply in_or_app. right. now left. }
    destruct st as [[t|] r].
    + destruct Hst as (-> & Ht & Hc & Hmin).
      assert (Htsm : In t sm).
      { apply Hincl. apply in_or_app. left. apply in_or_app. now left. }
      destruct (scopeContainsLine line scope) eqn:Ec.
      * cbn zeta.
        destruct ((scopeRange scope <? scopeRange t)%Z
                  || String.eqb (scopeType scope) "module"
                     && String.eqb (scopeType t) "global") eqn:Ep.
        -- assert (Hle : (scopeRange scope <= scopeRange t)%Z).
           { apply orb_prop in Ep as [Ep|Ep].
             - apply Z.ltb_lt in Ep. lia.
             - apply andb_prop in Ep as [_ Eg]. apply String.eqb_eq in Eg.
               now apply Hwide. }
           split; [reflexivity|].
           split; [apply in_or_app; right; now left|].
           split; [exact Ec|].
           intros s Hs Hcs. apply in_app_or in Hs as [Hs|[<-|[]]]; [|lia].
           specialize (Hmin s Hs Hcs). lia.
        -- apply orb_false_elim in Ep as [Ep _]. apply Z.ltb_ge in Ep.
           split; [reflexivity|].
           split; [apply in_or_app; now left|]. split; [exact Hc|].
           intros s Hs Hcs. apply in_app_or in Hs as [Hs|[<-|[]]];
             [now apply Hmin | exact Ep].
      * split; [reflexivity|].
        split; [apply in_or_app; now left|]. split; [exact Hc|].
        intros s Hs Hcs. apply in_app_or in Hs as [Hs|[<-|[]]];
          [now apply Hmin | congruence].
    + destruct Hst as (-> & Hnone).
      destruct (scopeContainsLine line scope) eqn:Ec.
      * cbn zeta. cbn [orb].
        split; [reflexivity|].
        split; [apply in_or_app; right; now left|]. split; [exact Ec|].
        intros s Hs Hcs. apply in_app_or in Hs as [Hs|[<-|[]]]; [|lia].
        rewrite (Hnone s Hs) in Hcs. discriminate.
      * split; [reflexivity|].
        intros s Hs. apply in_app_or in Hs as [Hs|[<-|[]]];
          [now apply Hnone | exact Ec].
Qed.

(** In a scope graph whose global scopes span at least as many lines as
    any scope, [findScopeForLine] finds nothing only when no scope
    contains the line, and otherwise returns a scope that contains the
    line and has the fewest lines among those that do. *)
Theorem findScopeForLine_most_specific :
  forall (sm : ScopeManager) (line : Z),
    globalScopesWidest sm ->
    match findScopeForLine sm line with
    | None => forall s, In s sm -> scopeContainsLine line s = false
    | Some t =>
        In t sm /\ scopeContainsLine line t = true
        /\ forall s, In s sm -> scopeContainsLine line s = true ->
                     (scopeRange t <= scopeRange s)%Z
    end.
Proof.
  intros sm line Hwide. unfold findScopeForLine.
  pose proof (@findScopeForLine_loop sm line Hwide sm [] (None, None)
                (fun x H => H)) as H.
  cbn [app] in H.
  destruct (fold_left _ sm (None, None)) as [[t|] r]; cbn [fst]; apply H;
    (split; [reflexivity | intros s []]).
Qed.

Lemma loopScopes_globalWidest : globalScopesWidest loopScopes.
Proof.
  intros g s Hg Hs Ht. cbn in Hg, Hs.
  repeat (destruct Hg as [<-|Hg]; [|]); try contradiction;
    try discriminate Ht;
    repeat (destruct Hs as [<-|Hs]; [vm_compute; discriminate|]);
    contradiction.
Qed.

Lemma findScopeForLine_most_specific_witness :
  findScopeForLine loopScopes 6 = Some loopForScope
  /\ forall s, In s loopScopes -> scopeContainsLine 6 s = true ->
               (scopeRange loopForScope <= scopeRange s)%Z.
Proof.
  split; [reflexivity|].
  exact (proj2 (proj2 (findScopeForLine_most_specific 6
                         loopScopes_globalWidest))).
Defined.

Lemma zdget_dset_same :
  forall V (d : list (Z * V)) k v,
    dget Z.eqb k (dset Z.eqb k v d) = Some v.
Proof.
  induction d as [|[k' v'] d IH]; intros k v; cbn [dset dget].
  - now rewrite Z.eqb_refl.
  - destruct (Z.eqb k k') eqn:E; cbn [dget].
    + now rewrite Z.eqb_refl.
    + rewrite E. apply IH.
Qed.

Lemma zdget_dset_other :
  forall V (d : list (Z * V)) k k' v,
    k <> k' -> dget Z.eqb k' (dset Z.eqb k v d) = dget Z.eqb k' d.
Proof.
  induction d as [|[k0 v0] d IH]; intros k k' v Hne; cbn [dset dget].
  - destruct (Z.eqb_spec k' k); [congruence | reflexivity].
  - destruct (Z.eqb_spec k k0) as [->|]; cbn [dget].
    + destruct (Z.eqb_spec k' k0); [congruence | reflexivity].
    + destruct (Z.eqb k' k0); [reflexivity | now apply IH].
Qed.


Lemma buildVariableMapping_loop :
  forall rest seen tables,
    tablesAgree seen tables ->
    tablesAgree (seen ++ rest)
      (fold_left
         (fun acc variable =>
            if isGlobalVariable variable then acc
            else
              (dset Z.eqb (varId variable) variable (fst acc),
               match extractVariableLocation variable with
               | Some l => dset Z.eqb (varId variable) l (snd acc)
               | None => snd acc
               end))
         rest tables).
Proof.
  induction rest as [|x rest IH]; intros seen tables H; cbn [fold_left].
  - now rewrite app_nil_r.
  - replace (seen ++ x :: rest) with ((seen ++ [x]) ++ rest)
      by (rewrite <- app_assoc; reflexivity).
    apply IH. destruct H as (H1 & H2 & H3 & H4).
    destruct (isGlobalVariable x) eqn:Eg.
    + repeat split.
      * now apply (H1 id v).
      * now apply (H1 id v).
      * apply in_or_app. left. now apply (H1 id v).
      * intros v Hv Hg. apply in_app_or in Hv as [Hv|[<-|[]]];
          [now apply H2 | congruence].
      * exact H3.
      * intros v l Hv Hg Hl. apply in_app_or in Hv as [Hv|[<-|[]]];
          [now apply (H4 v l) | congruence].
    + unfold tablesAgree. cbn [fst snd].
      assert (Hvars : forall id,
                 dget Z.eqb id (dset Z.eqb (varId x) x (fst tables))
                 = if (id =? varId x)%Z then Some x
                   else dget Z.eqb id (fst tables)).
      { intros id. destruct (Z.eqb_spec id (varId x)) as [->|Hne].
        - apply zdget_dset_same.
        - apply zdget_dset_other. congruence. }
      split; [|split; [|split]].
      * intros id v Hd. rewrite Hvars in Hd.
        destruct (Z.eqb_spec id (varId x)) as [->|Hne].
        -- injection Hd as <-. repeat split; [exact Eg|].
           apply in_or_app. right. now left.
        -- destruct (H1 id v Hd) as (Ha & Hb & Hc). repeat split; auto.
           apply in_or_app. now left.
      * intros v Hv Hg. rewrite Hvars.
        destruct (Z.eqb_spec (varId v) (varId x)); [eauto|].
        apply in_app_or in Hv as [Hv|[<-|[]]]; [now apply H2 | congruence].
      * intros id l. rewrite Hvars.
        destruct (Z.eqb_spec id (varId x)) as [->|Hne]; [eauto|].
        destruct (extractVariableLocation x); intros Hd; apply (H3 id l);
          [|exact Hd].
        rewrite zdget_dset_other in Hd by congruence. exact Hd.
      * intros v l Hv Hg Hl.
        destruct (extractVariableLocation x) as [lx|] eqn:Ex.
        -- destruct (Z.eqb_spec (varId v) (varId x)) as [->|Hne].
           ++ rewrite zdget_dset_same. eauto.
           ++ rewrite zdget_dset_other by congruence.
              apply in_app_or in Hv as [Hv|[<-|[]]];
                [now apply (H4 v l) | congruence].
        -- apply in_app_or in Hv as [Hv|[<-|[]]];
             [now apply (H4 v l) | congruence].
Qed.

(** The variable table of a script object that was built holds, under
    each id, a user variable of the scope graph with that id; every user
    variable of the graph has an entry under its id; a location is stored
    only under the id of a stored variable, and it is stored for every
    user variable whose first definition is located. *)
Theorem variable_table_sound :
  forall (parse : string -> Result Node)
         (analyze : Node -> Z -> ScopeManager * Z)
         (tools : string -> option (list (option string)))
         (code : string) (factory : BubbleFactory) (counter counter' : Z)
         (script : BubbleScript),
    newBubbleScript parse analyze tools code factory counter
    = (Ok script, counter') ->
    let variables := scopeGraphVariables (scopeManager script) in
    (forall id v,
        getVariableById script id = Some v ->
        varId v = id /\ isGlobalVariable v = false /\ In v variables)
    /\ (forall v,
           In v variables -> isGlobalVariable v = false ->
           exists w, getVariableById script (varId v) = Some w)
    /\ (forall id l,
           getVariableLocation script id = Some l ->
           exists v, getVariableById script id = Some v)
    /\ (forall v l,
           In v variables -> isGlobalVariable v = false ->
           extractVariableLocation v = Some l ->
           exists l', getVariableLocation script (varId v) = Some l').
Proof.
  intros parse analyze tools code factory counter counter' script.
  unfold newBubbleScript.
  destruct (parse code) as [tree|msg]; [|discriminate].
  destruct (analyze tree _) as [sm c1].
  destruct (buildVariableMapping sm) as [vars locs] eqn:Eb.
  destruct (parseBubblesFromAST _ _ _ _ _) as [[found wf]|msg];
    [|discriminate].
  intros H. injection H as <- <-.
  unfold getVariableById, getVariableLocation, scopeGraphVariables.
  cbn [scriptVariables variableLocations scopeManager].
  pose proof (@buildVariableMapping_loop (flat_map scopeVariables sm) []
                ([], [])) as Hloop.
  fold (buildVariableMapping sm) in Hloop. rewrite Eb in Hloop.
  cbn [app] in Hloop. apply Hloop.
  repeat split; intros; try discriminate; contradiction.
Qed.

Lemma variable_table_sound_witness :
  (exists v, getVariableById mixedScript 5 = Some v)
  /\ forall id l,
      getVariableLocation mixedScript id = Some l ->
      exists v, getVariableById mixedScript id = Some v.
Proof.
  assert (Hbuilt :
            newBubbleScript (sampleParse [(mixedText, mixedProgram)])
              (fun _ counter => (mixedScopes, counter)) noTools mixedText
              helloFactory 7
            = (Ok mixedScript, 0%Z)) by (vm_compute; reflexivity).
  destruct (variable_table_sound _ _ _ _ _ _ Hbuilt) as (_ & H2 & H3 & _).
  split; [|exact H3].
  apply (H2 (mkVar 5 "greeter" [Some (at_ 3 10 50)] "function")).
  - vm_compute. tauto.
  - vm_compute. reflexivity.
Defined.

Lemma nameAdd_In :
  forall s name x, In x (nameAdd s name) <-> In x s \/ x = name.
Proof.
  intros s name x. unfold nameAdd.
  destruct (existsb (String.eqb name) s) eqn:E.
  - split; [auto|]. intros [H| ->]; [exact H|].
    apply existsb_exists in E as (y & Hy & Heq).
    apply String.eqb_eq in Heq. now subst y.
  - rewrite in_app_iff. cbn [In]. intuition.
Qed.

Lemma nameAdd_NoDup :
  forall s name, NoDup s -> NoDup (nameAdd s name).
Proof.
  intros s name H. unfold nameAdd.
  destruct (existsb (String.eqb name) s) eqn:E; [exact H|].
  apply NoDup_app; [exact H | repeat constructor; intros [] |].
  intros x Hx [<-|[]].
  assert (Ht : existsb (String.eqb name) s = true).
  { apply existsb_exists. exists name. split; [exact Hx|].
    apply String.eqb_refl. }
  congruence.
Qed.

(** [getAllUserVariables] lists every name once, and lists exactly the
    names of the variables of the scope graph that the global/built-in
    test lets through. *)
Theorem user_variables_listed_once :
  forall (sm : ScopeManager),
    NoDup (getAllUserVariables sm)
    /\ forall name,
        In name (getAllUserVariables sm)
        <-> exists v,
            In v (scopeGraphVariables sm)
            /\ isGlobalVariable v = false /\ varName v = name.
Proof.
  intros sm. unfold getAllUserVariables, scopeGraphVariables.
  generalize (flat_map scopeVariables sm). intros l.
  assert (G : forall l acc,
             NoDup acc ->
             NoDup (fold_left
                      (fun allVars variable =>
                         if isGlobalVariable variable then allVars
                         else nameAdd allVars (varName variable)) l acc)
             /\ forall name,
                 In name
                   (fold_left
                      (fun allVars variable =>
                         if isGlobalVariable variable then allVars
                         else nameAdd allVars (varName variable)) l acc)
                 <-> In name acc
                     \/ exists v, In v l /\ isGlobalVariable v = false
                                  /\ varName v = name).
  { clear l. induction l as [|x l IH]; intros acc Hacc; cbn [fold_left].
    - split; [exact Hacc|]. intros name. split; [auto|].
      intros [H|(v & [] & _)]. exact H.
    - destruct (isGlobalVariable x) eqn:Eg.
      + destruct (IH acc Hacc) as [Hn Hi]. split; [exact Hn|].
        intros name. rewrite Hi. split.
        * intros [H|(v & Hv & Hg & Hname)]; [auto|].
          right. exists v. cbn [In]. auto.
        * intros [H|(v & [<-|Hv] & Hg & Hname)]; [auto|congruence|].
          right. eauto.
      + destruct (IH (nameAdd acc (varName x)) (nameAdd_NoDup _ Hacc))
          as [Hn Hi].
        split; [exact Hn|]. intros name. rewrite Hi, nameAdd_In. split.
        * intros [[H| ->]|(v & Hv & Hg & Hname)]; [auto| |].
          -- right. exists x. cbn [In]. auto.
          -- right. exists v. cbn [In]. auto.
        * intros [H|(v & [<-|Hv] & Hg & Hname)]; [auto|auto|].
          right. eauto. }
  destruct (G l [] (NoDup_nil _)) as [Hn Hi]. split; [exact Hn|].
  intros name. rewrite Hi. split; [|auto].
  intros [[]|H]. exact H.
Qed.

(** The id that [findVariableIdByName] resolves a name to belongs to a
    variable of that name which [getVarsForLine] returns for the same
    line, unless the global/built-in test rejects it; and a name is
    resolved whenever [getVarsForLine] returns a variable of that name
    whose first definition is on that line or before. *)
Theorem resolved_variable_is_visible :
  forall (sm : ScopeManager) (line : Z),
    uniqueIds sm ->
    (forall name id,
        findVariableIdByName name line sm = Some id ->
        exists v,
          varId v = id /\ varName v = name
          /\ accessibleAt sm line v
          /\ (isGlobalVariable v = false -> In v (getVarsForLine sm line)))
    /\ (forall v declLine,
           In v (getVarsForLine sm line) ->
           firstDeclLine v = Some declLine -> (declLine <= line)%Z ->
           exists id, findVariableIdByName (varName v) line sm = Some id).
Proof.
  intros sm line Huniq. split.
  - intros name id H.
    pose proof (findVariableIdByName_visible name line sm) as Hv.
    rewrite H in Hv. destruct Hv as (v & (Hacc & Hname & d & Hd & Hle) & Hid).
    exists v. repeat split; try assumption.
    intros Hg. apply getVarsForLine_iff; [exact Huniq|].
    repeat split; try assumption.
    unfold firstDeclLine in Hd. unfold isVariableDeclaredBeforeLine.
    destruct (defs v) as [|[l|] rest]; try discriminate.
    destruct (startLine l =? 0)%Z; [discriminate|]. injection Hd as <-.
    cbn [existsb]. apply orb_true_intro. left. now apply Z.leb_le.
  - intros v d Hin Hd Hle.
    apply getVarsForLine_iff in Hin as (Hacc & _ & _); [|exact Huniq].
    pose proof (findVariableIdByName_visible (varName v) line sm) as Hv.
    destruct (findVariableIdByName (varName v) line sm) as [id|]; [eauto|].
    exfalso. apply (Hv v). repeat split; eauto.
Qed.

Lemma resolved_variable_is_visible_witness :
  exists v,
    varId v = 7%Z /\ varName v = "c"
    /\ accessibleAt loopScopes 7 v
    /\ (isGlobalVariable v = false -> In v (getVarsForLine loopScopes 7)).
Proof.
  apply (proj1 (resolved_variable_is_visible 7 loopScopes_uniqueIds) "c").
  reflexivity.
Defined.

(** ** Further properties of the validation *)

Section ValidationShape.

Variable parse : string -> Result Node.
Variable analyze : Node -> Z -> ScopeManager * Z.
Variable parseTools : string -> option (list (option string)).
Variable validateCron : option string -> Result bool.
Variable validateScript : string -> Result ScriptValidation.
Variable findCredentials : BubbleScript -> Result (list (Z * list string)).
Variable stackDepth : nat.

(** A result of [validateAndExtract] is valid exactly when it lists no
    errors.  A valid result carries the bubble map, the workflow, the
    input schema and a trigger; an invalid one lists at least one error
    and carries none of them.  The required credentials are never an
    empty table. *)
Theorem validation_result_shape :
  forall (code : string) (factory : BubbleFactory) (counter : Z),
    let r :=
      fst (validateAndExtract parse analyze parseTools validateCron
             validateScript findCredentials stackDepth code factory counter) in
    (valid r = true ->
     errors r = None
     /\ exists found wf schema t,
         bubbleParameters r = Some found /\ resultWorkflow r = Some wf
         /\ inputSchema r = Some schema /\ resultTrigger r = Some t)
    /\ (valid r = false ->
        (exists e es, errors r = Some (e :: es)) /\ carriesNothing r)
    /\ requiredCredentials r <> Some [].
Proof.
  intros code factory counter r.
  assert (Hinv : forall e es c,
             let x := fst (invalid (e :: es), c : Z) in
             (valid x = true ->
              errors x = None
              /\ exists found wf schema t,
                  bubbleParameters x = Some found /\ resultWorkflow x = Some wf
                  /\ inputSchema x = Some schema /\ resultTrigger x = Some t)
             /\ (valid x = false ->
                 (exists e es, errors x = Some (e :: es)) /\ carriesNothing x)
             /\ requiredCredentials x <> Some []).
  { intros e es c. cbn. split; [discriminate|]. split; [|discriminate].
    intros _. split; [eauto|]. repeat split. }
  subst r. unfold validateAndExtract, validateBubbleFlow. cbn [valid].
  destruct (collectValidationErrors validateScript code) as [|e es] eqn:Ec; cbn [negb].
  - destruct (newBubbleScript _ _ _ _ _ _) as [[script|msg] c'];
      [|apply Hinv].
    pose proof (validateTriggerEvent_cases validateCron script) as Hcases.
    destruct (validateTriggerEvent validateCron script) as [[|e es]|msg];
      [|apply Hinv|apply Hinv].
    destruct (findCredentials script) as [credentials|msg]; [|apply Hinv].
    destruct (getPayloadJsonSchema _ _ _) as [schema|msg]; [|apply Hinv].
    cbn. split; [|split].
    + intros _. split; [reflexivity|].
      destruct (getBubbleTriggerEventType script) as [t|];
        [repeat eexists | discriminate].
    + discriminate.
    + destruct (requiredCredentialsOf _ _); discriminate.
  - cbn. split; [discriminate|]. split; [|discriminate].
    intros _. split; [eauto|]. repeat split.
Qed.

End ValidationShape.

Lemma validation_result_shape_witness :
  errors (sampleValidateAndExtract dailyText) = None
  /\ exists found wf schema t,
      bubbleParameters (sampleValidateAndExtract dailyText) = Some found
      /\ resultWorkflow (sampleValidateAndExtract dailyText) = Some wf
      /\ inputSchema (sampleValidateAndExtract dailyText) = Some schema
      /\ resultTrigger (sampleValidateAndExtract dailyText) = Some t.
Proof.
  apply (proj1 (validation_result_shape (sampleParse cronPrograms)
                  sampleAnalyze noTools sampleValidateCron
                  sampleValidateScript noCredentials 10 dailyText helloFactory
                  0)).
  vm_compute. reflexivity.
Defined.

(** ** Further properties of the workflow tree *)

Lemma buildWorkflowNodeFromStatement_total :
  forall script bubbleMap stmt,
  exists n,
    buildWorkflowNodeFromStatement script bubbleMap stmt = Some n
    /\ statementNode script stmt n.
Proof.
  intros script bubbleMap stmt.
  destruct stmt; cbn [buildWorkflowNodeFromStatement];
    try (eexists; split; [reflexivity|]; cbn; auto; fail).
  - destruct (bubbleOfDeclarators _ _);
      eexists; (split; [reflexivity|]); cbn; auto.
  - destruct (findBubbleInExpression _ _);
      eexists; (split; [reflexivity|]); cbn; auto.
  - destruct argument as [argument|].
    + destruct (findBubbleInExpression _ _);
        eexists; (split; [reflexivity|]); cbn; auto.
    + eexists; (split; [reflexivity|]); cbn; auto.
Qed.

Lemma statements_one_each :
  forall script bubbleMap body,
    Forall2 (statementNode script) body
      (somes (map (buildWorkflowNodeFromStatement script bubbleMap) body)).
Proof.
  intros script bubbleMap body. induction body as [|stmt body IH].
  - constructor.
  - cbn [map somes].
    destruct (buildWorkflowNodeFromStatement_total script bubbleMap stmt)
      as (n & -> & Hn).
    constructor; assumption.
Qed.

(** The workflow tree has exactly one root node for each statement of the
    body of [handle], in the order of the statements: no statement is
    dropped.  A control-flow node and a code block keep the location of
    their statement, a code block also its source text, and a bubble leaf
    only stands for a declaration, an expression statement or a [return]
    with an argument. *)
Theorem workflow_one_node_per_statement :
  forall script ast found fn i body,
    findHandleFunctionNode ast = Some fn ->
    functionBody fn = Some (BlockStatement i body) ->
    Forall2 (statementNode script) body
      (root (buildWorkflowTree script ast found))
    /\ length (root (buildWorkflowTree script ast found)) = length body.
Proof.
  intros script ast found fn i body Hfn Hbody.
  assert (H : Forall2 (statementNode script) body
                (root (buildWorkflowTree script ast found))).
  { unfold buildWorkflowTree. rewrite Hfn, Hbody. cbn [root].
    apply statements_one_each. }
  split; [exact H|]. symmetry. exact (Forall2_length H).
Qed.

Lemma workflow_one_node_per_statement_witness :
  exists body,
    Forall2 (statementNode mixedText) body
      (root (buildWorkflowTree mixedText mixedProgram mixedNodes))
    /\ length (root (buildWorkflowTree mixedText mixedProgram mixedNodes))
       = length body.
Proof.
  eexists.
  eapply (@workflow_one_node_per_statement mixedText mixedProgram mixedNodes).
  - vm_compute. reflexivity.
  - vm_compute. reflexivity.
Defined.

Lemma workflow_leaves_are_keys_witness :
  exists nodes wf,
    parseBubblesFromAST mixedText noTools helloFactory mixedProgram
      mixedScopes = Ok (nodes, wf)
    /\ incl (workflowBubbleIds wf) (keys nodes).
Proof.
  eexists. eexists. split.
  - vm_compute. reflexivity.
  - eapply (@workflow_leaves_are_keys mixedText noTools helloFactory
              mixedProgram mixedScopes _ _ mixedScopes_positive).
    vm_compute. reflexivity.
Defined.

(** ** Further properties of the payload schema *)

Lemma skeys_dset_cases :
  forall V (d : list (string * V)) k v,
    (In k (keys d) /\ keys (dset String.eqb k v d) = keys d)
    \/ (~ In k (keys d) /\ keys (dset String.eqb k v d) = keys d ++ [k]).
Proof.
  intros V d k v. destruct (dget String.eqb k d) as [v0|] eqn:E.
  - left. split.
    + apply sdget_In in E. unfold keys. apply in_map_iff.
      exists (k, v0). split; [reflexivity | exact E].
    + eapply skeys_dset_present; eassumption.
  - right. split; [now apply sdget_key | now apply skeys_dset_fresh].
Qed.

Lemma ownKeys_In :
  forall V (d : list (string * V)) k,
    In k (ownKeys d) <-> In k (keys d) /\ k <> "__proto__".
Proof.
  intros V d k. unfold ownKeys, ownEntries, keys.
  rewrite !in_map_iff. split.
  - intros ([k0 v] & <- & H). apply filter_In in H as [H Hk]. cbn [fst] in *.
    split; [exists (k0, v); auto|].
    intros ->. discriminate.
  - intros [([k0 v] & <- & H) Hk]. exists (k0, v). split; [reflexivity|].
    apply filter_In. split; [exact H|]. cbn [fst] in *.
    destruct (String.eqb_spec k0 "__proto__"); [contradiction|reflexivity].
Qed.

Lemma skeys_dset_In :
  forall V (d : list (string * V)) k v x,
    In x (keys (dset String.eqb k v d)) <-> x = k \/ In x (keys d).
Proof.
  intros V d k v x.
  destruct (skeys_dset_cases d k v) as [[Hin ->]|[Hin ->]].
  - split; [auto|]. intros [->|H]; assumption.
  - rewrite in_app_iff. cbn [In]. split; [intros [H|[<-|[]]]; auto|].
    intros [->|H]; auto.
Qed.

Lemma jsAssign_keys :
  forall d k v,
    (NoDup (keys d) -> NoDup (keys (jsAssign k v d)))
    /\ forall x,
        In x (ownKeys (jsAssign k v d))
        <-> In x (ownKeys d) \/ (x = k /\ k <> "__proto__").
Proof.
  intros d k v.
  assert (Hset : NoDup (keys d) -> NoDup (keys (dset String.eqb k v d))).
  { intros Hn. destruct (skeys_dset_cases d k v) as [[Hin ->]|[Hin ->]];
      [exact Hn|].
    apply NoDup_app; [exact Hn | repeat constructor; intros [] |].
    intros y Hy [<-|[]]. contradiction. }
  unfold jsAssign. destruct (String.eqb_spec k "__proto__") as [->|Hk].
  - assert (Hsame : forall x w,
               In x (ownKeys (dset String.eqb "__proto__" w d))
               <-> In x (ownKeys d)).
    { intros x w. rewrite !ownKeys_In, skeys_dset_In. split.
      - intros [[->|H] Hx]; [contradiction | auto].
      - intros [H Hx]. auto. }
    destruct v; (split; [try exact Hset; auto|]); intros x;
      rewrite ?Hsame; split; try tauto; intros [H|[_ H]]; tauto.
  - split; [exact Hset|]. intros x.
    rewrite !ownKeys_In, skeys_dset_In. split.
    + intros [[->|H] Hx]; auto.
    + intros [[H Hx]|[-> _]]; auto.
Qed.

Lemma objectMembers_thrown :
  forall script convert ms msg,
    fold_left (fun acc m => do st <- acc; objectMember script convert st m)
      ms (Throw msg) = Throw msg.
Proof.
  intros script convert. induction ms as [|m ms IH]; intros msg;
    [reflexivity|]. cbn [fold_left bind]. apply IH.
Qed.

Lemma objectMembers_collected :
  forall script convert ms st acc,
    fold_left (fun acc m => do st <- acc; objectMember script convert st m)
      ms (Ok st) = Ok acc ->
    snd acc = snd st ++ requiredNames ms
    /\ (forall k, In k (ownKeys (fst acc))
                  <-> In k (ownKeys (fst st))
                      \/ (In k (memberNames ms) /\ k <> "__proto__"))
    /\ (NoDup (keys (fst st)) -> NoDup (keys (fst acc))).
Proof.
  intros script convert. induction ms as [|m ms IH]; intros st acc H.
  - cbn in H. injection H as <-. unfold requiredNames, memberNames. cbn.
    rewrite app_nil_r. repeat split; tauto.
  - cbn [fold_left bind] in H.
    destruct (objectMember script convert st m) as [st'|msg] eqn:Em;
      [|rewrite objectMembers_thrown in H; discriminate].
    destruct (IH _ _ H) as (Hreq & Hkeys & Hnd). clear IH H.
    unfold objectMember in Em.
    destruct m as [line key typeAnnotation optional|].
    + unfold requiredNames, memberNames in *. cbn [map memberName somes].
      destruct (propKeyName key) as [keyName|] eqn:Ek.
      * assert (Hst' : exists propSchema,
                   st' = (jsAssign keyName propSchema (fst st),
                          if optional then snd st else snd st ++ [keyName])).
        { destruct typeAnnotation as [t|]; cbn [bind] in Em.
          - destruct (convert t) as [p|]; [|discriminate]. cbn [bind] in Em.
            injection Em as <-. eauto.
          - injection Em as <-. eauto. }
        destruct Hst' as (propSchema & ->). cbn [fst snd] in *.
        destruct (jsAssign_keys (fst st) keyName propSchema) as [Hn Hown].
        split; [|split].
        -- rewrite Hreq. destruct optional; cbn [somes];
             [reflexivity | now rewrite <- app_assoc].
        -- intros k. rewrite Hkeys, Hown. cbn [In]. split.
           ++ intros [[H|[-> H]]|[H Hk]]; auto.
           ++ intros [H|[[<-|H] Hk]]; auto.
        -- intros Hnd0. apply Hnd, Hn, Hnd0.
      * injection Em as <-. destruct optional; cbn [somes]; auto.
    + injection Em as <-. unfold requiredNames, memberNames in *.
      cbn [map memberName somes]. auto.
Qed.

(** The schema inferred for an object type literal is an object schema
    whose own property names are exactly the usable member names other
    than [__proto__], each once, and whose [required] lists the members
    that are not optional, in source order and once per declaration;
    [required] is absent when every member is optional. *)
Theorem object_schema_members :
  forall script ast fuel members schema,
    tsTypeToJsonSchema script ast fuel (TSTypeLiteral members) = Ok schema ->
    exists props,
      schema
      = JObj ([("type", JStr "object"); ("properties", JObj props)]
              ++ match requiredNames members with
                 | [] => []
                 | _ :: _ =>
                     [("required", JArr (map JStr (requiredNames members)))]
                 end)
      /\ NoDup (ownKeys props)
      /\ forall k,
          In k (ownKeys props)
          <-> In k (memberNames members) /\ k <> "__proto__".
Proof.
  intros script ast [|fuel] members schema H; [discriminate|].
  cbn [tsTypeToJsonSchema] in H. unfold objectTypeToJsonSchema in H.
  destruct (fold_left _ members (Ok ([], []))) as [acc|msg] eqn:Ef;
    [|discriminate].
  apply objectMembers_collected in Ef as (Hreq & Hkeys & Hnd).
  cbn [fst snd app] in *. cbn [bind] in H. injection H as <-.
  exists (fst acc). rewrite Hreq. split; [|split].
  - destruct (requiredNames members); reflexivity.
  - unfold ownKeys, ownEntries, keys. apply NoDup_map_filter.
    apply Hnd. constructor.
  - intros k. rewrite Hkeys. cbn. tauto.
Qed.

Lemma object_schema_members_witness :
  exists schema props,
    schema
    = JObj ([("type", JStr "object"); ("properties", JObj props)]
            ++ match requiredNames sampleMembers with
               | [] => []
               | _ :: _ =>
                   [("required",
                     JArr (map JStr (requiredNames sampleMembers)))]
               end)
    /\ NoDup (ownKeys props)
    /\ forall k,
        In k (ownKeys props)
        <-> In k (memberNames sampleMembers) /\ k <> "__proto__".
Proof.
  eexists.
  eapply (@object_schema_members mixedText mixedProgram 3 sampleMembers).
  vm_compute. reflexivity.
Defined.

(** A default is evaluated exactly when it is static or a negated boolean
    literal: an identifier, a call, a template with an expression, a
    nested array or object, or any other operator application is left
    unevaluated. *)
Theorem evaluated_defaults_characterised :
  forall e,
    (exists d, evaluateDefaultExpressionToJSON e = Some d)
    <-> isStaticDefault e || isNegatedBoolean e = true.
Proof.
  intros e. split.
  - intros [d H].
    destruct e; try discriminate; cbn [isStaticDefault isNegatedBoolean];
      cbn [evaluateDefaultExpressionToJSON] in H.
    + reflexivity.
    + destruct expressions; [reflexivity | discriminate].
    + rewrite orb_false_r.
      destruct (fold_right _ (Some []) elements) as [out|] eqn:Ef;
        [|discriminate]. clear H d. revert out Ef.
      induction elements as [|el els IH]; intros out Ef; [reflexivity|].
      cbn [fold_right] in Ef. cbn [forallb].
      destruct el as [el|]; [|discriminate].
      destruct el; try discriminate.
      destruct (fold_right _ (Some []) els) as [out'|] eqn:Ef';
        [|discriminate].
      cbn [andb]. eapply IH. reflexivity.
    + rewrite orb_false_r.
      destruct (fold_left _ properties (Some [])) as [obj|] eqn:Ef;
        [|discriminate]. clear H d. revert Ef. generalize (@nil (string * JSON)).
      induction properties as [|p ps IH]; intros acc Ef; [reflexivity|].
      cbn [fold_left] in Ef. cbn [forallb].
      assert (Hnone : forall l,
                 fold_left
                   (fun acc p =>
                      match acc, p with
                      | Some obj, Property _ key (Literal _ v) _ =>
                          match nodeKeyName key with
                          | Some pk =>
                              Some (jsAssign pk (litToJSON v) obj)
                          | None => None
                          end
                      | _, _ => None
                      end) l None = None).
      { induction l as [|x l IHl]; [reflexivity | exact IHl]. }
      destruct p; try (rewrite Hnone in Ef; discriminate).
      destruct p2; try (rewrite Hnone in Ef; discriminate).
      destruct (nodeKeyName p1); [|rewrite Hnone in Ef; discriminate].
      cbn [andb]. eapply IH. exact Ef.
    + destruct e; try discriminate. destruct value; try discriminate.
      all: cbn [isStaticDefault isNegatedBoolean];
        repeat match type of H with
               | context [String.eqb ?o ?s] =>
                   destruct (String.eqb o s)
               end; try discriminate; reflexivity.
  - intros H. apply orb_prop in H as [H|H].
    + now apply isStaticDefault_evaluates.
    + destruct e; try discriminate. destruct e; try discriminate.
      destruct value; try discriminate.
      cbn [isNegatedBoolean] in H. cbn [evaluateDefaultExpressionToJSON].
      rewrite H. eauto.
Qed.

(** ** The required credentials *)

Lemma sdset_In :
  forall V (d : list (string * V)) k v x,
    In x (dset String.eqb k v d) -> x = (k, v) \/ In x d.
Proof.
  induction d as [|[k0 v0] d IH]; intros k v x; cbn [dset].
  - intros [<-|[]]. now left.
  - destruct (String.eqb k k0); cbn [In].
    + intros [<-|H]; auto.
    + intros [<-|H]; auto. destruct (IH _ _ _ H); auto.
Qed.

Lemma zdget_In :
  forall V (d : list (Z * V)) k v,
    dget Z.eqb k d = Some v -> In (k, v) d.
Proof.
  induction d as [|[k0 w] d IH]; intros k v H; cbn [dget] in H;
    [discriminate|].
  destruct (Z.eqb_spec k k0) as [->|].
  - injection H as ->. now left.
  - right. now apply IH.
Qed.

Lemma requiredCredentialsOf_sound :
  forall found credentials,
    NoDup (keys (requiredCredentialsOf found credentials))
    /\ forall name types,
        In (name, types) (requiredCredentialsOf found credentials) ->
        types <> []
        /\ exists id bubble,
            In (id, types) credentials /\ In (id, bubble) found
            /\ bubbleName bubble = name.
Proof.
  intros found credentials. unfold requiredCredentialsOf.
  set (I := fun acc : list (string * list string) =>
              NoDup (keys acc)
              /\ forall name types,
                  In (name, types) acc ->
                  types <> []
                  /\ exists id bubble,
                      In (id, types) credentials /\ In (id, bubble) found
                      /\ bubbleName bubble = name).
  assert (H : forall l acc,
             (forall e, In e l -> In e credentials) -> I acc ->
             I (fold_left
                  (fun acc entry =>
                     match dget Z.eqb (fst entry) found, snd entry with
                     | Some bubble, _ :: _ =>
                         dset String.eqb (bubbleName bubble) (snd entry) acc
                     | _, _ => acc
                     end) l acc)).
  { induction l as [|[id types] l IH]; intros acc Hl Hacc; [exact Hacc|].
    cbn [fold_left fst snd]. apply IH; [intros e He; apply Hl; now right|].
    destruct (dget Z.eqb id found) as [bubble|] eqn:Eb; [|exact Hacc].
    destruct types as [|t ts]; [exact Hacc|].
    destruct Hacc as [Hnd Hin]. split.
    - destruct (skeys_dset_cases acc (bubbleName bubble) (t :: ts))
        as [[_ ->]|[Hfresh ->]]; [exact Hnd|].
      apply NoDup_app; [exact Hnd | repeat constructor; intros [] |].
      intros k Hk [<-|[]]. contradiction.
    - intros name types H. apply sdset_In in H as [H|H]; [|now apply Hin].
      injection H as -> ->. split; [discriminate|].
      exists id, bubble. split; [apply Hl; now left|].
      split; [now apply zdget_In | reflexivity]. }
  apply H.
  - intros e. apply Object_entries_In.
  - split; [constructor | intros ? ? []].
Qed.

Section RequiredCredentials.

Variable parse : string -> Result Node.
Variable analyze : Node -> Z -> ScopeManager * Z.
Variable parseTools : string -> option (list (option string)).
Variable validateCron : option string -> Result bool.
Variable validateScript : string -> Result ScriptValidation.
Variable findCredentials : BubbleScript -> Result (list (Z * list string)).
Variable stackDepth : nat.

(** When [validateAndExtract] reports required credentials, the table is
    not empty, has one entry per bubble name, and every entry lists at
    least one credential type and is named after a bubble of the reported
    bubble map. *)
Theorem required_credentials_name_bubbles :
  forall (code : string) (factory : BubbleFactory) (counter : Z)
         (table : list (string * list string)),
    let r :=
      fst (validateAndExtract parse analyze parseTools validateCron
             validateScript findCredentials stackDepth code factory counter) in
    requiredCredentials r = Some table ->
    table <> [] /\ NoDup (keys table)
    /\ forall name types,
        In (name, types) table ->
        types <> []
        /\ exists found id bubble,
            bubbleParameters r = Some found /\ In (id, bubble) found
            /\ bubbleName bubble = name.
Proof.
  intros code factory counter table r. subst r.
  unfold validateAndExtract, validateBubbleFlow. cbn [valid].
  destruct (collectValidationErrors validateScript code) as [|e es]; cbn [negb];
    [|discriminate].
  destruct (newBubbleScript _ _ _ _ _ _) as [[script|msg] c'];
    [|discriminate].
  destruct (validateTriggerEvent validateCron script) as [[|e es]|msg];
    [|discriminate|discriminate].
  destruct (findCredentials script) as [credentials|msg]; [|discriminate].
  destruct (getPayloadJsonSchema _ _ _) as [schema|msg]; [|discriminate].
  cbn [fst requiredCredentials bubbleParameters].
  destruct (requiredCredentialsOf_sound (parsedBubbles script) credentials)
    as [Hnd Hin].
  destruct (requiredCredentialsOf (parsedBubbles script) credentials)
    as [|x l] eqn:Er; [discriminate|].
  intros H. injection H as <-. split; [discriminate|].
  split; [exact Hnd|].
  intros name types Hn. destruct (Hin _ _ Hn) as (Ht & id & bubble & _ & Hb).
  split; [exact Ht|]. exists (parsedBubbles script), id, bubble.
  split; [reflexivity | exact Hb].
Qed.

End RequiredCredentials.

Lemma required_credentials_name_bubbles_witness :
  exists table : list (string * list string),
    table <> [] /\ NoDup (keys table)
    /\ forall name types,
        In (name, types) table ->
        types <> []
        /\ exists found id bubble,
            bubbleParameters
              (fst (validateAndExtract (sampleParse cronPrograms)
                      sampleAnalyze noTools sampleValidateCron
                      sampleValidateScript oneCredentialEach 10 importedText
                      helloFactory 0))
            = Some found
            /\ In (id, bubble) found /\ bubbleName bubble = name.
Proof.
  eexists.
  eapply (@required_credentials_name_bubbles
            (sampleParse cronPrograms) sampleAnalyze noTools
            sampleValidateCron sampleValidateScript oneCredentialEach
            10 importedText helloFactory 0).
  vm_compute. reflexivity.
Defined.

(** ** The flat dependency list *)

Section FlatDependencyFacts.

Variable parseTools : string -> option (list (option string)).
Variable factory : BubbleFactory.
Variable parameters : list BubbleParameter.

Lemma visitDependency_fold :
  forall names queue seen result,
  exists new,
    fold_left visitDependency names (queue, seen, result)
    = (queue ++ new, seen ++ new, result ++ new)
    /\ NoDup new
    /\ (forall n, In n new -> In n names /\ ~ In n seen)
    /\ (forall n, In n names -> In n (seen ++ new)).
Proof.
  induction names as [|a names IH]; intros queue seen result.
  - exists []. rewrite !app_nil_r. repeat split.
    + constructor.
    + destruct H.
    + destruct H.
    + intros n [].
  - cbn [fold_left visitDependency].
    destruct (inSeen a seen) eqn:Ea.
    + destruct (IH queue seen result) as (new & -> & Hnd & Hnew & Hall).
      exists new. repeat split; try assumption.
      * right. now apply Hnew.
      * now apply Hnew.
      * intros n [<-|Hn]; [|now apply Hall].
        apply in_or_app. left. now apply inSeen_In.
    + destruct (IH (queue ++ [a]) (seen ++ [a]) (result ++ [a]))
        as (new & -> & Hnd & Hnew & Hall).
      exists (a :: new). rewrite <- !app_assoc. cbn [app].
      assert (Hfresh : ~ In a seen).
      { intros H. apply inSeen_In in H. congruence. }
      repeat split.
      * constructor; [|exact Hnd]. intros H. apply Hnew in H as [_ H].
        apply H. apply in_or_app. right. now left.
      * destruct H as [<-|H]; [now left | right; now apply Hnew].
      * destruct H as [<-|H]; [exact Hfresh|].
        apply Hnew in H as [_ H]. intros Hs. apply H.
        apply in_or_app. now left.
      * intros n [<-|Hn].
        -- apply in_or_app. right. now left.
        -- specialize (Hall n Hn). rewrite <- app_assoc in Hall. exact Hall.
Qed.

Lemma expandDependency_visits :
  forall name st,
    expandDependency parseTools factory parameters name st
    = fold_left visitDependency
        (directDependencies parseTools factory parameters name) st.
Proof.
  intros name st. unfold expandDependency, directDependencies.
  rewrite fold_left_app.
  assert (Htools : forall tools st,
             fold_left
               (fun st tool =>
                  match tool with
                  | Some toolName => visitDependency st toolName
                  | None => st
                  end) tools st
             = fold_left visitDependency (somes tools) st).
  { induction tools as [|[t|] tools IH]; intros s; cbn [fold_left somes];
      [reflexivity | apply IH | apply IH]. }
  assert (Hfirst :
            (if String.eqb name "ai-agent" then
               match find (fun param => String.eqb (paramName param) "tools")
                       parameters with
               | Some toolsParam =>
                   match parseTools (paramValue toolsParam) with
                   | Some tools =>
                       fold_left
                         (fun st tool =>
                            match tool with
                            | Some toolName => visitDependency st toolName
                            | None => st
                            end) tools st
                   | None => st
                   end
               | None => st
               end
             else st)
            = fold_left visitDependency
                (if String.eqb name "ai-agent"
                 then agentTools parseTools parameters else []) st).
  { unfold agentTools. destruct (String.eqb name "ai-agent"); [|reflexivity].
    destruct (find _ parameters) as [p|]; [|reflexivity].
    destruct (parseTools (paramValue p)); [apply Htools | reflexivity]. }
  rewrite Hfirst. clear Hfirst.
  generalize (fold_left visitDependency
                (if String.eqb name "ai-agent"
                 then agentTools parseTools parameters else []) st).
  intros s. unfold registeredDependencies.
  destruct (getMetadata factory name) as [m|]; [|reflexivity].
  destruct (bubbleDependenciesDetailed m) as [[|spec specs]|];
    try reflexivity.
  generalize (spec :: specs). clear spec specs. intros specs. revert s.
  induction specs as [|spec specs IH]; intros s; [reflexivity|].
  cbn [fold_left flat_map]. rewrite IH.
  change (specName spec :: ?l ++ ?r) with ((specName spec :: l) ++ r).
  rewrite fold_left_app. f_equal. cbn [fold_left].
  destruct (String.eqb (specName spec) "ai-agent"); [|reflexivity].
  destruct (specTools spec); reflexivity.
Qed.

Lemma directDependencies_universe :
  forall name,
    incl (directDependencies parseTools factory parameters name)
      (dependencyUniverse parseTools factory parameters).
Proof.
  intros name d. unfold directDependencies, dependencyUniverse.
  rewrite !in_app_iff. intros [H|H].
  - left. destruct (String.eqb name "ai-agent"); [exact H | destruct H].
  - right. unfold getMetadata in H.
    destruct (dget String.eqb name (registry factory)) as [m|] eqn:Em;
      [|destruct H].
    apply sdget_In in Em. apply in_flat_map. exists (name, m).
    split; [exact Em | exact H].
Qed.

(** What the search keeps true from one round to the next; [known] holds
    the names seen before the search started (the seeds among them). *)
Lemma dependencyLoop_finds :
  forall (seeds known : list string) fuel queue seen result,
    let direct := directDependencies parseTools factory parameters in
    let universe := dependencyUniverse parseTools factory parameters in
    (length universe + length queue < fuel + length result)%nat ->
    NoDup result ->
    incl result universe ->
    (forall n, In n seen <-> In n known \/ In n result) ->
    (forall n, In n result -> ~ In n known) ->
    incl queue (seeds ++ result) ->
    (forall n, In n (seeds ++ result) ->
               In n queue \/ forall d, In d (direct n) -> In d seen) ->
    (forall n, In n result ->
               exists p, In p (seeds ++ result) /\ In n (direct p)) ->
    exists found,
      dependencyLoop parseTools factory parameters fuel (queue, seen, result)
      = Some found
      /\ NoDup found
      /\ (forall n, In n found -> ~ In n known)
      /\ (forall n d, In n (seeds ++ found) -> In d (direct n) ->
                      In d known \/ In d found)
      /\ (forall n, In n found ->
                    exists p, In p (seeds ++ found) /\ In n (direct p)).
Proof.
  intros seeds known fuel. induction fuel as [|fuel IH];
    intros queue seen result direct universe Hfuel Hnd Hu Hseen Hknown Hq
           Hclosed Hreach.
  - exfalso. pose proof (NoDup_incl_length Hnd Hu). unfold universe in *.
    lia.
  - cbn [dependencyLoop]. destruct queue as [|name rest].
    + exists result. split; [reflexivity|]. split; [exact Hnd|].
      split; [exact Hknown|]. split; [|exact Hreach].
      intros n d Hn Hd. destruct (Hclosed n Hn) as [[]|H].
      apply Hseen. now apply H.
    + rewrite expandDependency_visits.
      destruct (visitDependency_fold (direct name) rest seen result)
        as (new & Ev & Hnew & Hfresh & Hall).
      fold direct. rewrite Ev.
      assert (Hname : In name (seeds ++ result)) by (apply Hq; now left).
      apply IH.
      * rewrite !length_app. cbn [length] in Hfuel. unfold universe in *.
        lia.
      * apply NoDup_app; [exact Hnd | exact Hnew |].
        intros n Hn Hn'. apply Hfresh in Hn' as [_ Hn'].
        apply Hn'. apply Hseen. now right.
      * intros n Hn. apply in_app_or in Hn as [Hn|Hn]; [now apply Hu|].
        apply Hfresh in Hn as [Hn _].
        eapply directDependencies_universe. exact Hn.
      * intros n. rewrite !in_app_iff, Hseen. tauto.
      * intros n Hn. apply in_app_or in Hn as [Hn|Hn]; [now apply Hknown|].
        apply Hfresh in Hn as [_ Hn]. intros Hk. apply Hn. apply Hseen.
        now left.
      * intros n Hn. apply in_app_or in Hn as [Hn|Hn].
        -- assert (H : In n (seeds ++ result)) by (apply Hq; now right).
           rewrite !in_app_iff in *. tauto.
        -- rewrite !in_app_iff. tauto.
      * intros n Hn. rewrite app_assoc in Hn.
        apply in_app_or in Hn as [Hn|Hn].
        -- destruct (Hclosed n Hn) as [[<-|H]|H].
           ++ right. exact Hall.
           ++ left. apply in_or_app. now left.
           ++ right. intros d Hd. apply in_or_app. left. now apply H.
        -- left. apply in_or_app. now right.
      * intros n Hn. apply in_app_or in Hn as [Hn|Hn].
        -- destruct (Hreach n Hn) as (p & Hp & Hd). exists p.
           split; [|exact Hd]. rewrite !in_app_iff in *. tauto.
        -- exists name. split; [|now apply Hfresh].
           rewrite !in_app_iff in *. tauto.
Qed.

Lemma nameAdd_fold_In :
  forall names seen n,
    In n (fold_left nameAdd names seen) <-> In n seen \/ In n names.
Proof.
  induction names as [|a names IH]; intros seen n; cbn [fold_left].
  - cbn. tauto.
  - rewrite IH, nameAdd_In. cbn [In]. intuition.
Qed.

(** With enough rounds the search for the flat dependencies returns.  Its
    result has no duplicates and contains no seed; together with the
    seeds it is closed under direct dependencies, and every name in it is
    a direct dependency of a seed or of another name in it. *)
Theorem flat_dependencies_closed :
  forall (seeds : list string) (fuel : nat),
    (dependencyFuel parseTools factory parameters seeds <= fuel)%nat ->
    exists found,
      findDependenciesForBubble parseTools factory parameters fuel seeds []
      = Some found
      /\ NoDup found
      /\ (forall n, In n found -> ~ In n seeds)
      /\ (forall n d,
             In n (seeds ++ found) ->
             In d (directDependencies parseTools factory parameters n) ->
             In d (seeds ++ found))
      /\ (forall n,
             In n found ->
             exists p,
               In p (seeds ++ found)
               /\ In n (directDependencies parseTools factory parameters p)).
Proof.
  intros seeds fuel Hfuel. unfold findDependenciesForBubble.
  destruct (@dependencyLoop_finds seeds seeds fuel seeds
              (fold_left nameAdd seeds []) [])
    as (found & E & Hnd & Hseeds & Hclosed & Hreach).
  - unfold dependencyFuel in Hfuel. cbn [length]. lia.
  - constructor.
  - intros n [].
  - intros n. rewrite nameAdd_fold_In. cbn [In]. tauto.
  - intros n [].
  - rewrite app_nil_r. apply incl_refl.
  - intros n Hn. left. now rewrite app_nil_r in Hn.
  - intros n [].
  - exists found. split; [exact E|]. split; [exact Hnd|].
    split; [exact Hseeds|]. split; [|exact Hreach].
    intros n d Hn Hd. apply in_or_app. now apply (Hclosed n d).
Qed.

End FlatDependencyFacts.

Lemma flat_dependencies_closed_witness :
  exists found,
    findDependenciesForBubble noTools agentRegistry [] 10
      ["research-agent-tool"] []
    = Some found
    /\ NoDup found
    /\ (forall n, In n found -> ~ In n ["research-agent-tool"])
    /\ (forall n d,
           In n (["research-agent-tool"] ++ found) ->
           In d (directDependencies noTools agentRegistry [] n) ->
           In d (["research-agent-tool"] ++ found))
    /\ (forall n,
           In n found ->
           exists p,
             In p (["research-agent-tool"] ++ found)
             /\ In n (directDependencies noTools agentRegistry [] p)).
Proof.
  apply (@flat_dependencies_closed noTools agentRegistry []
           ["research-agent-tool"] 10).
  vm_compute. lia.
Defined.

(** ** The instance methods and their invocations *)





Section InvocationFacts.

Variable methodNames : list string.







End InvocationFacts.








(** ** Only registered bubbles are reported *)

Lemma registeredBubble_fields :
  forall classNames b b',
    bubbleName b' = bubbleName b ->
    className b' = className b ->
    bubbleNodeType b' = bubbleNodeType b ->
    registeredBubble classNames b -> registeredBubble classNames b'.
Proof.
  intros classNames b b' Hn Hc Ht (cname & ci & Hin & H1 & H2 & H3).
  exists cname, ci. repeat split; congruence.
Qed.

Section RegisteredFacts.

Variable script : string.
Variable classNames : list (string * ClassInfo).
Variable sm : ScopeManager.

Lemma extractFromNewExpression_registered :
  forall newExpr b,
    extractFromNewExpression script classNames newExpr = Some b ->
    registeredBubble classNames b.
Proof.
  intros newExpr b H. unfold extractFromNewExpression in H.
  destruct newExpr; try discriminate.
  destruct newExpr; try discriminate.
  destruct (dget String.eqb name classNames) as [ci|] eqn:Ec;
    [|discriminate].
  injection H as <-. exists name, ci.
  split; [now apply sdget_In | repeat split].
Qed.

Lemma extractBubbleFromExpression_registered :
  forall expr b,
    extractBubbleFromExpression script classNames expr = Some b ->
    registeredBubble classNames b.
Proof.
  induction expr; intros b Hb; cbn [extractBubbleFromExpression] in Hb;
    try discriminate.
  - destruct (extractBubbleFromExpression script classNames expr)
      as [inner|]; [|discriminate].
    injection Hb as <-.
    apply registeredBubble_fields with inner;
      [reflexivity | reflexivity | reflexivity | exact (IHexpr inner eq_refl)].
  - now apply extractFromNewExpression_registered in Hb.
  - repeat match type of Hb with
           | match ?x with _ => _ end = Some _ =>
               destruct x eqn:?; try discriminate
           end.
    match type of Hb with
    | option_map _ ?e = Some _ => destruct e as [node|] eqn:En
    end; [|discriminate].
    injection Hb as <-.
    apply registeredBubble_fields with node;
      [reflexivity | reflexivity | reflexivity
      | exact (extractFromNewExpression_registered _ En)].
Qed.

Lemma registerAnonymous_registered :
  forall withComment node expr nodes,
    allRegistered classNames nodes ->
    allRegistered classNames
      (registerAnonymous script classNames sm withComment node expr nodes).
Proof.
  intros withComment node expr nodes H. unfold registerAnonymous.
  destruct (extractBubbleFromExpression script classNames expr) as [b|]
    eqn:Eb; [|exact H].
  apply extractBubbleFromExpression_registered in Eb.
  intros k b' Hin. apply In_dset in Hin as [[_ ->]|Hin]; [|now apply (H k)].
  apply registeredBubble_fields with b; [| | |exact Eb];
    destruct withComment; try destruct (extractCommentForNode script node);
    reflexivity.
Qed.

Lemma registerDeclarator_registered :
  forall node declarator nodes,
    allRegistered classNames nodes ->
    holdsIfOk (allRegistered classNames)
      (registerDeclarator script classNames sm node declarator nodes).
Proof.
  intros node declarator nodes H. unfold registerDeclarator.
  destruct declarator; try exact H.
  destruct declarator; try exact H.
  destruct init as [init|]; [|exact H].
  destruct (extractBubbleFromExpression script classNames init) as [b|]
    eqn:Eb; [|exact H].
  apply extractBubbleFromExpression_registered in Eb.
  destruct (findVariableForBubble name node sm) as [variable|]; [|exact I].
  intros k b' Hin. apply In_dset in Hin as [[_ ->]|Hin]; [|now apply (H k)].
  apply registeredBubble_fields with b; [| | |exact Eb];
    destruct (extractCommentForNode script node); reflexivity.
Qed.

Lemma visitLocal_registered :
  forall node nodes,
    allRegistered classNames nodes ->
    holdsIfOk (allRegistered classNames)
      (visitLocal script classNames sm node nodes).
Proof.
  intros node nodes H. unfold visitLocal.
  destruct node; try exact H; simpl.
  - destruct node; try exact H; now apply registerAnonymous_registered.
  - assert (G : forall ds acc,
               holdsIfOk (allRegistered classNames) acc ->
               holdsIfOk (allRegistered classNames)
                 (fold_left
                    (fun acc d =>
                       bind acc
                         (registerDeclarator script classNames sm
                            (VariableDeclaration i kind declarations) d))
                    ds acc)).
    { induction ds as [|d ds IH]; simpl; intros acc Hacc; [assumption|].
      apply IH. destruct acc as [n|m]; simpl; [|exact I].
      now apply registerDeclarator_registered. }
    now apply G.
  - now apply registerAnonymous_registered.
  - destruct argument; [now apply registerAnonymous_registered | exact H].
Qed.

End RegisteredFacts.

Lemma buildDependencyGraph_root :
  forall fuel f name seen tools parent counters explicit suppress inst node c,
    buildDependencyGraph fuel f name seen tools parent counters explicit
      suppress inst = Some (node, c) ->
    depName node = name.
Proof.
  intros [|fuel] f name seen tools parent counters explicit suppress inst
         node c H; [discriminate|].
  cbn [buildDependencyGraph] in H. unfold graphBody in H.
  destruct (nextOrdinalFor _ _) as [nextOrdinal counters1].
  destruct (inSeen name seen).
  - injection H as <- _. reflexivity.
  - destruct (registryChildren _ _ _ _ _ _) as [st|]; [|discriminate].
    destruct (dynamicToolChildren _ _ _ _ _ _) as [[children cs]|];
      [|discriminate].
    injection H as <- _. reflexivity.
Qed.

(** Every bubble that a parse reports carries the bubble name, the class
    name and the node type of a class of the registry index, and its
    dependency graph is rooted at a node with the bubble's own name and
    variable id. *)
Theorem parsed_bubbles_registered :
  forall script tools factory tree sm nodes wf,
    parseBubblesFromAST script tools factory tree sm = Ok (nodes, wf) ->
    forall k b,
      In (k, b) nodes ->
      registeredBubble (buildClassNameLookup factory) b
      /\ exists graph,
          dependencyGraph b = Some graph
          /\ depName graph = bubbleName b
          /\ depVariableId graph = variableId b.
Proof.
  intros script tools factory tree sm nodes wf. unfold parseBubblesFromAST.
  destruct (buildClassNameLookup factory) as [|c cs] eqn:Ec; [discriminate|].
  rewrite <- Ec.
  destruct (visitNode script (buildClassNameLookup factory) sm tree [])
    as [located|] eqn:Hvisit; [|discriminate]. cbn [bind].
  destruct (mapM _ located) as [attached|] eqn:Hm; [|discriminate].
  cbn [bind]. intros H. injection H as <- _.
  assert (Hreg : allRegistered (buildClassNameLookup factory) located).
  { pose proof (@visitNode_keeps script (buildClassNameLookup factory) sm
                  (allRegistered (buildClassNameLookup factory))
                  (@visitLocal_registered script
                     (buildClassNameLookup factory) sm)
                  tree []) as H.
    rewrite Hvisit in H. apply H. intros k b []. }
  intros k b Hin.
  destruct (mapM_In _ _ _ Hm Hin) as ([k0 b0] & Hin0 & Hf).
  unfold attachDependencyGraph in Hf. cbn [fst snd] in Hf.
  destruct (buildDependencyGraph _ _ _ _ _ _ _ _ _ _) as [[graph cnt]|]
    eqn:Eg; [|discriminate].
  injection Hf as <- <-. split.
  - exact (Hreg _ _ Hin0).
  - exists graph. cbn [dependencyGraph withDependencyGraph bubbleName
                         variableId].
    split; [reflexivity|]. split.
    + exact (buildDependencyGraph_root _ _ _ _ _ _ _ _ _ _ Eg).
    + exact (proj2 (buildDependencyGraph_hashed _ _ _ _ _ _ _ _ _ _ Eg)).
Qed.

Lemma parsed_bubbles_registered_witness :
  exists nodes wf,
    parseBubblesFromAST mixedText noTools helloFactory mixedProgram
      mixedScopes = Ok (nodes, wf)
    /\ forall k b,
        In (k, b) nodes ->
        registeredBubble (buildClassNameLookup helloFactory) b
        /\ exists graph,
            dependencyGraph b = Some graph
            /\ depName graph = bubbleName b
            /\ depVariableId graph = variableId b.
Proof.
  eexists. eexists. split.
  - vm_compute. reflexivity.
  - eapply (@parsed_bubbles_registered mixedText noTools helloFactory
              mixedProgram mixedScopes).
    vm_compute. reflexivity.
Defined.

(** ** The scope of a line *)

Lemma findScopeForLine_contains :
  forall (sm : ScopeManager) (line : Z),
    match findScopeForLine sm line with
    | None => forall s, In s sm -> scopeContainsLine line s = false
    | Some t => In t sm /\ scopeContainsLine line t = true
    end.
Proof.
  intros sm line. unfold findScopeForLine.
  assert (H : forall rest seen (st : option Scope * option Z),
             (fst st = None -> snd st = None) ->
             match fst st with
             | None => forall s, In s seen -> scopeContainsLine line s = false
             | Some t => In t seen /\ scopeContainsLine line t = true
             end ->
             match
               fst (fold_left
                      (fun (st : option Scope * option Z) scope =>
                         let '(targetScope, smallestRange) := st in
                         if scopeContainsLine line scope then
                           let range := scopeRange scope in
                           let isPreferredScope :=
                             String.eqb (scopeType scope) "module"
                             && match targetScope with
                                | Some t => String.eqb (scopeType t) "global"
                                | None => false
                                end in
                           if match smallestRange with
                              | Some r => (range <? r)%Z
                              | None => true
                              end || isPreferredScope
                           then (Some scope, Some range)
                           else st
                         else st) rest st)
             with
             | None =>
                 forall s, In s (seen ++ rest) ->
                           scopeContainsLine line s = false
             | Some t =>
                 In t (seen ++ rest) /\ scopeContainsLine line t = true
             end).
  { induction rest as [|x rest IH]; intros seen [target smallest] Hnone Hst.
    - cbn [fold_left]. rewrite app_nil_r. exact Hst.
    - cbn [fold_left].
      replace (seen ++ x :: rest) with ((seen ++ [x]) ++ rest)
        by now rewrite <- app_assoc.
      cbn [fst snd] in Hst, Hnone.
      destruct (scopeContainsLine line x) eqn:Ex.
      + destruct (_ || _) eqn:Eo.
        * apply IH; cbn [fst snd]; [discriminate|].
          split; [apply in_or_app; right; now left | exact Ex].
        * destruct target as [t|].
          -- apply IH; cbn [fst snd]; [discriminate|].
             split; [apply in_or_app; left; apply Hst | apply Hst].
          -- rewrite (Hnone eq_refl) in Eo. discriminate.
      + apply IH; cbn [fst snd]; [exact Hnone|]. destruct target as [t|].
        * split; [apply in_or_app; left; apply Hst | apply Hst].
        * intros s Hs. apply in_app_or in Hs as [Hs|[<-|[]]];
            [now apply Hst | exact Ex]. }
  apply (H sm [] (None, None)); [reflexivity | intros s []].
Qed.

(** [getScopeInfoForLine] returns nothing exactly when no scope contains
    the line.  Otherwise it describes a scope that contains the line: its
    variables are the names of that scope's own variables that pass the
    global/built-in test, in order, and the accessible names start with
    them and go on with those of the enclosing scopes. *)
Theorem scope_info_of_line :
  forall (sm : ScopeManager) (line : Z),
    match getScopeInfoForLine sm line with
    | None => forall s, In s sm -> scopeContainsLine line s = false
    | Some scopeInfo =>
        exists scope,
          In scope sm /\ scopeContainsLine line scope = true
          /\ infoScopeType scopeInfo = scopeType scope
          /\ infoVariables scopeInfo
             = map varName
                 (filter (fun v => negb (isGlobalVariable v))
                    (scopeVariables scope))
          /\ infoAllAccessible scopeInfo
             = infoVariables scopeInfo
               ++ map varName
                    (filter (fun v => negb (isGlobalVariable v))
                       (match scopeUpper scope with
                        | Some parent => getAllAccessibleVariables parent
                        | None => []
                        end))
    end.
Proof.
  intros sm line. unfold getScopeInfoForLine.
  pose proof (findScopeForLine_contains sm line) as H.
  destruct (findScopeForLine sm line) as [t|]; [|exact H].
  exists t. destruct H as [Hin Hc].
  split; [exact Hin|]. split; [exact Hc|].
  cbn [infoScopeType infoVariables infoAllAccessible].
  split; [reflexivity|]. split; [reflexivity|].
  unfold getAllAccessibleVariables. destruct t as [ty block vars up].
  cbn [scopeChain flat_map scopeVariables scopeUpper].
  rewrite filter_app, map_app. destruct up; reflexivity.
Qed.

(** ** C10: comments above a bubble *)

Lemma isCommentLine_nonEmpty :
  forall l, isCommentLine l = true -> isEmptyString l = false.
Proof. intros [|c l]; [discriminate | reflexivity]. Qed.










Lemma trim_str_chars : forall s, trim (str (chars s)) = trim s.
Proof. intros s. now rewrite str_chars. Qed.


Lemma isSpace_star : isSpace "*"%char = false.
Proof. reflexivity. Qed.

























(** Line comments, block comments and the absence of a comment. *)
Example extractComment_examples :
  extractCommentForLine lineComments 4 = Some "Step 1 scrape the page"
  /\ extractCommentForLine blockComment 5 = Some "Greets the caller by name."
  /\ extractCommentForLine
       "foo();
const x = 1;" 2 = None.
Proof. repeat split; reflexivity. Qed.
